(* ===== verification/_CoqProject ===== *)
-Q . S2P
Prelude.v
Threads.v
PyText.v
Framing.v
Keys.v
Kludf.v
Logging.v
Socket.v
TcpClient.v
SignalSender.v
SignalSubscriber.v
OpenSocketQuerier.v
OpenSocketResponser.v
ContextManagers.v
Mains.v
Qt.v
QtTcpClient.v
QtHeartbeat.v
QtSignalSender.v
QtSignalSubscriber.v
QtOpenSocketResponser.v
QtOpenSocketQuerier.v
Agreement.v
TcpStatements.v
TcpThreads.v
TcpReading.v
QueryThreads.v
ResponserThreads.v
Owners.v
OwnersWire.v
QuerierSystem.v
ResponserSystem.v
SenderSystem.v
SubscriberSystem.v
EndToEnd.v
QtEndToEnd.v
QtNestedQueries.v
