(* ===== verification/Prelude.v ===== *)
(** * KnotLink SDK: a verification library of the Python clients

    KnotLink lets desktop programs talk through a local service: they send and
    receive _signals_, and they ask and answer requests on _open sockets_. The
    repository holds the client libraries; the service itself is not in it. This
    library models the two Python packages, knotlink-sdk-python (threads) and
    knotlink-sdk-pyqt (an event loop), and proves what makes them correct.

    ** The program's parts and where they are

    Every class keeps one [TcpClient], which frames messages on a TCP connection:
    four magic bytes, a length of four bytes, the body. A body is a key
    ["APPID-ID"], the delimiter ["&*&"] and data, or a key alone. A message that
    arrives is handed to the callback, or to the slots, its owner has installed.

    - [PyText]: [str] as code points, UTF-8 with its two error modes, [find],
      [split] and [join].
    - [Framing]: [struct] ['>I'], [frame], and the reference parser [parse] of a
      stream; shared by both packages, since both define the same constants.
    - [Keys]: formatting of keys, the delimiter, when a body can be cut again.
    - [Kludf]: kludf.py, [KLKVMap], a dictionary with a text form. It is used by
      applications, not by the other classes.
    - [Socket]: the [socket] and the [threading.Timer] of Python's library.
    - [TcpClient]: tcpclient.py. The record [tcp] is the object; every method is
      a definition of the same name; [process_loop], [receive_turn] and
      [timer_expires] are the loop of [_process_buffer], a turn of [receive_data]
      and the thread of a timer. [TcpHost] is the interface between the client and
      the object whose method is its callback.
    - [Threads]: pools of threads, each at the statement it runs next: the step
      of a pool, invariants that count threads, termination by a weight.
    - [TcpStatements]: tcpclient.py again, every method cut into the accesses to
      the shared object between which other threads run; [statement] is one
      statement with its line number, [step] adds timers that fire and methods
      that are called. [TcpThreads] proves what holds of sending and of the
      heartbeat under every interleaving, [TcpReading] of receiving and of ending.
    - [SignalSender], [SignalSubscriber], [OpenSocketQuerier],
      [OpenSocketResponser]: the files of these names, one record and one
      definition per method each; [OpenSocketQuerier.querier_step] and
      [OpenSocketResponser._process_queue] are the threads that meet in them.
    - [QueryThreads]: OpenSocketQuerier.py cut into statements, for any number of
      callers of [query]. [ResponserThreads]: OpenSocketResponser.py, with its
      receive thread, its queue and its worker. In both the client below is one
      step.
    - [Owners]: a client and the object that owns it in one pool: a thread of the
      owner goes through the statements of the client it calls, the receive thread
      through those of the owner's callback. The class [Owner] is what this needs
      to know of an owner; [OwnersWire] says what is on the wire.
    - [QuerierSystem], [ResponserSystem], [SenderSystem], [SubscriberSystem]: the
      four classes as instances of [Owner], from the constructor on, with all the
      threads of their clients. The first two use the statements of [QueryThreads]
      and [ResponserThreads], the others cut SignalSender.py and
      SignalSubscriber.py.
    - [ContextManagers]: Python's [with] statement over [__enter__] and [__exit__]
      of the four classes.
    - [Mains]: the programs under [__main__] of the six modules.
    - [Logging]: __init__.py: the names of the package, [enable_logging], and the
      calls of loggers in all modules.
    - [Qt]: the interface to QTcpSocket, QTimer, QEventLoop and signals, with the
      laws the clients rely on and a small model that has them.
    - [QtTcpClient], [QtSignalSender], [QtSignalSubscriber],
      [QtOpenSocketQuerier], [QtOpenSocketResponser]: the five files of the PyQt
      package over that interface. [QtHeartbeat]: the life of the heartbeat timer.
    - [Agreement]: the two packages against each other.
    - [EndToEnd]: the two ends of a query and of a signal, through the whole of the
      Python clients: what one end sends, and what the other does with each stream
      that arrives there. [QtEndToEnd]: the same for the PyQt clients.
    - [QtNestedQueries]: [query_l] called while another [query_l] waits.

    The methods are computations in the monad [M] of this file, over the state of
    the object that owns the client: a state and an outcome, which is a result, an
    exception, or [Stuck] for a computation that has not returned. Callbacks of
    the application are parameters; theorems about what an application sees take
    callbacks that return and act on the application's own state ([QuietHost],
    [QuietQt]), theorems about failures take callbacks that raise. What other
    threads do while a method blocks is an argument of its model.

    ** What the theorems show

    - Transport: messages sent by one client are the messages the other one hands
      on, for every cut of the stream into chunks; the receive loops refine
      [parse]; buffers are bounded; the loops end; every branch of sending, up to
      the bytes the socket takes.
    - Life of a client: the invariant of everything that can be done with it;
      [disconnect] is final, and so is the end of a [with] block.
    - Threads: under every interleaving of statements, the heartbeat is a single
      chain of timers, there is one receive thread, the callback gets what
      [parse] finds in the bytes received, the lock excludes and nobody waits
      for it for ever, and after [disconnect] the threads end. [query] returns a
      text that arrived, for any number of callers, and without interruption its
      statements are the methods of [OpenSocketQuerier]. The worker of a
      responser does what a server does that handles the requests one after the
      other, and ends after [disconnect]. What the races are that the code
      leaves open: a timer that survives [disconnect], a heartbeat inside a
      frame, a message read before the callback is installed, overlapping
      queries, a configuration that is torn.
    - Whole programs: from the bytes that the socket gives to what [query] returns,
      to the requests that are answered, to the signals that are told, none of which
      is lost once there is a callback; what each class puts on the wire, whatever
      the application calls, the [sendBack] of a responser and the client itself
      included; that there is no deadlock, and that the threads of a disconnected
      client end. Every run of an owner with its client is a run of the models of
      both, which carries the theorems on the parts over.
    - Signals: [emitt] puts one frame on the wire, and subscribers get the texts
      that were sent, in order.
    - Requests: [query] returns the reply, a text, or raises; how it times out
      and where replies get lost; the worker of the responser refines an abstract
      server, and answers keep the key of their request.
    - [KLKVMap]: reading back what was written, exactly on the clean maps.
    - PyQt: the same for the second package, its nested event loops, what a new
      connection does with an old buffer, and a heartbeat that runs exactly as long
      as the connection, but for one timeout.
    - The two ends of an exchange: the request of [query] has the key the responser
      registers with; when its text arrives at the responser, behind any key, the
      answer goes out behind that key; when the answer arrives at the querier,
      [query] returns it. The texts that are emitted, and what the callback of a
      subscriber is called with when they arrive. In both packages, and for every
      cut of the streams; the example programs, from the constructor to the end.
    - Agreement: both packages read the same messages from the same bytes and
      write the same bytes; the two kinds of requests they treat differently.

    ** Fuel and bounds

    [process_loop] has fuel [S (length buffer)]: every turn takes at least nine
    bytes, so that it is enough when callbacks leave the buffer alone, which
    [TcpClient.process_buffer_terminates] proves and the refinement theorems use.
    [parse] and [split] have the length of their input as fuel, and lemmas show
    that more changes nothing. [receive_data], [event_wait], [_process_queue] and
    [exec_] run on a list of events and are [Stuck] when it is over, as the
    threads are that wait for ever. Lengths are integers; the only machine width is
    the length field, 32 bits, and a length that passes the check of 16 MiB fits.

    ** What is not modelled

    Which of its log lines a run of a method writes ([Logging] has the lines),
    and the [print] of the PyQt package, whose __init__.py is five imports;
    tests, which need the service and windows; packaging; the libraries in other
    languages, which implement the same protocol again. The service: it is not in
    the repository, and nothing there says what it does with a message, so that no
    theorem assumes anything of it; that a text which is sent by one client arrives
    at another is a hypothesis on the stream the other receives.
    In the models of threads a callback of the application runs in one piece; the
    methods it calls meanwhile are calls of the application like any others, in
    threads of their own. Sockets and timers of Python's library
    are modelled as far as the clients use them. PyQt is not modelled: it is the
    parameter [Qt]. Attributes that are always set are taken as set ([hasattr]
    in [disconnect]); arguments have the documented types, but for [emitt],
    which looks at the type itself.

    ** Plan

    Left for later: the log lines of a run; that an answer comes when all the
    threads are given their turns. *)

From Stdlib Require Export ZArith Lia Strings.Byte.
From stdpp Require Export base sets list strings relations.

#[global] Open Scope Z_scope.

(** ** Exceptions and outcomes *)

(** The exceptions the clients raise or catch. [UserError] is whatever a
    callback of the application raises. *)
Inductive exn :=
| SocketError
| TimeoutError
| ValueError
| UnicodeEncodeError
| UnicodeDecodeError
| StructError
| TypeError
| QueueEmpty
| UserError (code : nat).

#[export] Instance exn_eq_dec : EqDecision exn.
Proof. solve_decision. Defined.

(** What [except socket.error] catches: [socket.error] is [OSError], of which
    [TimeoutError] is a subclass. *)
Definition is_socket_error (e : exn) : bool :=
  match e with SocketError | TimeoutError => true | _ => false end.

(** What [except ValueError] catches: the Unicode errors are subclasses. *)
Definition is_value_error (e : exn) : bool :=
  match e with
  | ValueError | UnicodeEncodeError | UnicodeDecodeError => true
  | _ => false
  end.

(** A computation returns, raises, or has not returned: it blocks for ever, or
    the fuel given to it is spent. *)
Inductive outcome (A : Type) :=
| Ret (a : A)
| Raise (e : exn)
| Stuck.
Arguments Ret {A} a.
Arguments Raise {A} e.
Arguments Stuck {A}.

(** ** The state and exception monad of the methods *)

Definition M (S A : Type) : Type := S -> outcome A * S.

Definition ret {S A} (a : A) : M S A := fun s => (Ret a, s).
Definition raise {S A} (e : exn) : M S A := fun s => (Raise e, s).
Definition stuck {S A} : M S A := fun s => (Stuck, s).

Definition bind {S A B} (m : M S A) (k : A -> M S B) : M S B := fun s =>
  match m s with
  | (Ret a, s') => k a s'
  | (Raise e, s') => (Raise e, s')
  | (Stuck, s') => (Stuck, s')
  end.

Definition gets {S A} (f : S -> A) : M S A := fun s => (Ret (f s), s).
Definition modify {S} (f : S -> S) : M S unit := fun s => (Ret tt, f s).

(** [try: m except (p): h] *)
Definition try_except {S A} (m : M S A) (p : exn -> bool) (h : exn -> M S A) : M S A :=
  fun s =>
    match m s with
    | (Raise e, s') => if p e then h e s' else (Raise e, s')
    | r => r
    end.

(** [try: m finally: f]: [f] runs whether [m] returns or raises, and an
    exception of [m] goes on after it. *)
Definition try_finally {S A} (m : M S A) (f : M S unit) : M S A := fun s =>
  match m s with
  | (Ret a, s') => bind f (fun _ => ret a) s'
  | (Raise e, s') => bind f (fun _ => raise e) s'
  | (Stuck, s') => (Stuck, s')
  end.

Definition when {S} (b : bool) (m : M S unit) : M S unit :=
  if b then m else ret tt.

Definition of_option {S A} (e : exn) (o : option A) : M S A :=
  match o with Some a => ret a | None => raise e end.

(** Another thread runs [m]: its effect on the shared state is seen, its
    exceptions end that thread and not this one. *)
Definition in_thread {S A} (m : M S A) : M S unit := fun s => (Ret tt, snd (m s)).

(** Run a method of a field [get]/[put] of the state. *)
Definition zoom {S T A} (get : S -> T) (put : T -> S -> S) (m : M T A) : M S A :=
  fun s => let '(o, t) := m (get s) in (o, put t s).

Fixpoint seq_all {S} (ms : list (M S unit)) : M S unit :=
  match ms with
  | [] => ret tt
  | m :: ms => bind m (fun _ => seq_all ms)
  end.

Declare Scope kl_scope.
Delimit Scope kl_scope with kl.
Notation "'let!' x := m 'in' k" := (bind m (fun x => k))
  (at level 10, x name, m at level 100, k at level 200) : kl_scope.
Notation "m >> k" := (bind m (fun _ => k))
  (at level 62, right associativity) : kl_scope.
#[global] Open Scope kl_scope.

(** ** Lengths and slices, with Python's integers *)

Abbreviation bytes := (list byte).

Definition len {A} (l : list A) : Z := Z.of_nat (length l).

(** [l[i:j]] for [0 <= i], [0 <= j]. *)
Definition slice {A} (i j : Z) (l : list A) : list A :=
  take (Z.to_nat (j - i)) (drop (Z.to_nat i) l).

(** [l[i:]] for [0 <= i]. *)
Definition slice_from {A} (i : Z) (l : list A) : list A := drop (Z.to_nat i) l.

#[export] Instance byte_eq_dec : EqDecision byte.
Proof. exact Byte.byte_eq_dec. Defined.

(** A [bytes] literal. *)
Definition bytes_of (s : string) : bytes := String.list_byte_of_string s.

(** ** Lemmas on the monad *)

Lemma bind_ret_l {S A B} (a : A) (k : A -> M S B) s : bind (ret a) k s = k a s.
Proof. reflexivity. Qed.

Lemma bind_ret_r {S A} (m : M S A) s : bind m ret s = m s.
Proof. unfold bind. by destruct (m s) as [[] ?]. Qed.

Lemma bind_assoc {S A B C} (m : M S A) (k : A -> M S B) (h : B -> M S C) s :
  bind (bind m k) h s = bind m (fun a => bind (k a) h) s.
Proof. unfold bind. by destruct (m s) as [[] ?]. Qed.

Lemma bind_Ret {S A B} (m : M S A) (k : A -> M S B) s a s' :
  m s = (Ret a, s') -> bind m k s = k a s'.
Proof. unfold bind. by intros ->. Qed.

Lemma bind_Raise {S A B} (m : M S A) (k : A -> M S B) s e s' :
  m s = (Raise e, s') -> bind m k s = (Raise e, s').
Proof. unfold bind. by intros ->. Qed.

Lemma seq_all_app {S} (ms1 ms2 : list (M S unit)) s :
  seq_all (ms1 ++ ms2) s = bind (seq_all ms1) (fun _ => seq_all ms2) s.
Proof.
  revert s. induction ms1 as [|m ms1 IH]; intros s; [done|].
  simpl. rewrite bind_assoc. unfold bind at 1 2.
  destruct (m s) as [[[]| |] s']; auto.
Qed.

(** ** Lemmas on lengths and slices *)

Lemma len_nil {A} : len (@nil A) = 0.
Proof. done. Qed.

Lemma len_cons {A} (x : A) l : len (x :: l) = 1 + len l.
Proof. unfold len. simpl. lia. Qed.

Lemma len_app {A} (l k : list A) : len (l ++ k) = len l + len k.
Proof. unfold len. rewrite length_app. lia. Qed.

Lemma len_nonneg {A} (l : list A) : 0 <= len l.
Proof. unfold len. lia. Qed.

Lemma len_pos {A} (l : list A) : l <> [] -> 0 < len l.
Proof. destruct l; [done|]. rewrite len_cons. pose proof (len_nonneg l). lia. Qed.

Lemma to_nat_len {A} (l : list A) : Z.to_nat (len l) = length l.
Proof. unfold len. lia. Qed.

Lemma slice_from_app {A} (l k : list A) : slice_from (len l) (l ++ k) = k.
Proof. unfold slice_from. by rewrite to_nat_len, drop_app_length. Qed.

Lemma slice_app {A} (l m k : list A) :
  slice (len l) (len l + len m) (l ++ m ++ k) = m.
Proof.
  unfold slice. rewrite Z.add_simpl_l, !to_nat_len.
  by rewrite drop_app_length, take_app_length.
Qed.

Lemma slice_0_app {A} (l k : list A) : slice 0 (len l) (l ++ k) = l.
Proof.
  unfold slice. rewrite Z.sub_0_r, to_nat_len, drop_0. by rewrite take_app_length.
Qed.

Lemma len_slice_from {A} i (l : list A) :
  0 <= i <= len l -> len (slice_from i l) = len l - i.
Proof. unfold len, slice_from. rewrite length_drop. lia. Qed.

Create HintDb kl discriminated.
Create Rewrite HintDb len.
#[export] Hint Rewrite @len_nil @len_cons @len_app : len.
#[export] Hint Resolve len_nonneg len_pos : kl.

(** [len_lia] decides facts on the lengths of lists. *)
Ltac pose_len l :=
  lazymatch goal with
  | _ : 0 <= len l |- _ => fail
  | _ => pose proof (len_nonneg l)
  end.

Ltac len_lia :=
  autorewrite with len in *;
  repeat match goal with l : list _ |- _ => pose_len l end;
  lia.

(** [step] runs a monadic computation on a state that is known. *)
Ltac step := cbv beta iota delta [bind ret gets modify raise stuck when of_option].
