(* ===== verification/Threads.v ===== *)
(** * Pools of threads

    A thread is the statement it runs next. One statement changes the shared
    state, and puts other threads in the place of the one that ran: what it does
    next and what it starts. [run] is one statement of any thread of a pool. The
    files that model threads give the statements; the lemmas here carry their
    invariants, counts and measures from statements to pools. *)

From S2P Require Export Prelude.

Section pool.
Context {S T : Type} (statement : T -> S -> list T -> S -> Prop).
Implicit Types (c : S * list T) (ts : list T).

(** A thread runs its next statement; the others stay where they are. *)
Inductive run : S * list T -> S * list T -> Prop :=
| run_thread ts1 t ts2 s new s' :
    statement t s new s' -> run (s, ts1 ++ t :: ts2) (s', ts1 ++ new ++ ts2).

Lemma run_in t s ts new s' : t ∈ ts -> statement t s new s' -> exists c', run (s, ts) c'.
Proof. intros (ts1 & ts2 & ->)%list_elem_of_split Hs. eexists. by apply run_thread. Qed.

Lemma run_alone t s c' : run (s, [t]) c' -> exists new s', statement t s new s'.
Proof.
  remember (s, [t]) as c eqn:E. intros Hr. revert E. destruct Hr as [ts1 u ts2 s0 new s' Hs]. intros E.
  destruct ts1 as [|? []]; simplify_eq/=; by exists new, s'.
Qed.

(** The order of a pool does not matter. *)
Lemma run_perm t s new s' us rest :
  us ≡ₚ t :: rest -> statement t s new s' ->
  exists us', run (s, us) (s', us') /\ us' ≡ₚ new ++ rest.
Proof.
  intros Hus Hs.
  assert (t ∈ us) as (us1 & us2 & ->)%list_elem_of_split by (rewrite Hus; apply list_elem_of_here).
  exists (us1 ++ new ++ us2). split; [by apply run_thread|].
  rewrite <- (Permutation_middle us1 us2 t) in Hus. apply (inj (cons t)) in Hus.
  by rewrite <- Hus, Permutation_app_swap_app.
Qed.

(** A count of threads and a cost of the state that no statement raises. *)
Lemma run_count (f : T -> nat) (cost : S -> nat) c c' :
  (forall t s new s', statement t s new s' ->
     cost s' + sum_list_with f new <= cost s + f t)%nat ->
  run c c' ->
  (cost c'.1 + sum_list_with f c'.2 <= cost c.1 + sum_list_with f c.2)%nat.
Proof.
  intros H [ts1 t ts2 s new s' Hs]. simpl. rewrite !sum_list_with_app. simpl.
  pose proof (H _ _ _ _ Hs). lia.
Qed.

(** A flag of the state that counts the threads of a kind. *)
Lemma run_flag (f : T -> nat) (flag : S -> nat) c c' :
  (forall t s new s', statement t s new s' -> (f t <= flag s)%nat ->
     (sum_list_with f new + flag s = f t + flag s')%nat) ->
  run c c' -> sum_list_with f c.2 = flag c.1 -> sum_list_with f c'.2 = flag c'.1.
Proof.
  intros H [ts1 t ts2 s new s' Hs]. simpl. rewrite !sum_list_with_app. simpl.
  intros E. pose proof (H _ _ _ _ Hs ltac:(lia)). lia.
Qed.

(** Where no statement loops, a pool comes to its end, in whatever order it runs. *)
Lemma weight_sn_under (P : S -> Prop) (weight : T -> nat) :
  (forall t s new s', statement t s new s' -> P s ->
     P s' /\ (sum_list_with weight new < weight t)%nat) ->
  forall c, P c.1 -> sn run c.
Proof.
  intros H c. remember (sum_list_with weight c.2) as n eqn:E. revert c E.
  induction n as [n IH] using lt_wf_ind. intros c -> HP. constructor. intros c' Hr.
  destruct Hr as [ts1 t ts2 s new s' Hs]. simpl in *. destruct (H _ _ _ _ Hs HP) as [HP' Hw].
  refine (IH _ _ (s', ts1 ++ new ++ ts2) eq_refl HP'). simpl.
  rewrite !sum_list_with_app. simpl. lia.
Qed.

Lemma weight_sn (weight : T -> nat) :
  (forall t s new s', statement t s new s' -> (sum_list_with weight new < weight t)%nat) ->
  forall c, sn run c.
Proof.
  intros H c. apply (weight_sn_under (fun _ => True) weight); [|done].
  intros t s new s' Hs _. split; [done|]. by eapply H.
Qed.

(** A fact on every thread that its own statements establish and that those of
    the others, the ones it may meet, leave alone. *)
Lemma run_forall (ok : S -> T -> Prop) (meets : T -> T -> Prop) c c' :
  (forall t s new s', statement t s new s' -> ok s t -> Forall (ok s') new) ->
  (forall t s new s' u, statement t s new s' -> ok s t -> meets t u -> ok s u -> ok s' u) ->
  (forall ts1 t ts2, c.2 = ts1 ++ t :: ts2 -> Forall (meets t) (ts1 ++ ts2)) ->
  run c c' -> Forall (ok c.1) c.2 -> Forall (ok c'.1) c'.2.
Proof.
  intros Hown Hother Hmeet Hr. revert Hmeet. destruct Hr as [ts1 t ts2 s new s' Hs].
  intros Hmeet Hok. simpl in *.
  specialize (Hmeet ts1 t ts2 eq_refl). apply Forall_app in Hmeet as [Hm1 Hm2].
  apply Forall_app in Hok as [Hok1 Hok2]. apply Forall_cons in Hok2 as [Hok Hok2].
  assert (forall us, Forall (meets t) us -> Forall (ok s) us -> Forall (ok s') us) as Hkeep.
  { intros us Hmu Hou. induction Hmu; constructor; inversion Hou; subst; eauto. }
  apply Forall_app_2; [|apply Forall_app_2]; eauto.
Qed.

(** At most one thread of a kind: the others are not of it. *)
Lemma count_one (f : T -> nat) ts1 t ts2 :
  (sum_list_with f (ts1 ++ t :: ts2) <= 1)%nat ->
  Forall (fun u => f t = 0%nat \/ f u = 0%nat) (ts1 ++ ts2).
Proof.
  rewrite sum_list_with_app. simpl. intros Hle.
  destruct (decide (f t = 0%nat)) as [E|E]; [apply Forall_true; by left|].
  assert (forall us, sum_list_with f us = 0%nat -> Forall (fun u => f t = 0%nat \/ f u = 0%nat) us)
    as H.
  { intros us. induction us as [|u us IH]; simpl; intros Hz; constructor; [right; lia|].
    apply IH. lia. }
  apply Forall_app_2; apply H; lia.
Qed.

Lemma count_some (f : T -> nat) ts :
  sum_list_with f ts <> 0%nat -> exists t, t ∈ ts /\ f t <> 0%nat.
Proof.
  induction ts as [|t ts IH]; simpl; [done|]. intros H.
  destruct (decide (f t = 0%nat)) as [E|E].
  - destruct IH as (u & Hu & Hf); [lia|]. exists u. split; [by apply list_elem_of_further|done].
  - exists t. split; [apply list_elem_of_here|done].
Qed.

End pool.

(** An invariant of every step holds in every state that is reached. *)
Lemma steps_inv {C} (R : C -> C -> Prop) (P : C -> Prop) c c' :
  (forall c c', R c c' -> P c -> P c') -> rtc R c c' -> P c -> P c'.
Proof. intros HP Hr. induction Hr; eauto. Qed.

(** A simulation, from steps to runs. *)
Lemma simulation {C D} (R : C -> C -> Prop) (R' : D -> D -> Prop) (sim : C -> D -> Prop) c c' d :
  (forall c c' d, R c c' -> sim c d -> exists d', rtc R' d d' /\ sim c' d') ->
  rtc R c c' -> sim c d -> exists d', rtc R' d d' /\ sim c' d'.
Proof.
  intros Hsim Hr. revert d. induction Hr as [c|c1 c2 c3 Hs _ IH]; intros d Hd; [by exists d|].
  destruct (Hsim _ _ _ Hs Hd) as (d1 & Hr1 & Hd1). destruct (IH d1 Hd1) as (d2 & Hr2 & Hd2).
  exists d2. split; [by etrans|done].
Qed.
