(* ===== verification/PyText.v ===== *)
(** * Python text: [bytes], [str], searching, splitting and UTF-8

    The clients move between [str] and [bytes] with [encode("utf-8")],
    [decode("utf-8")] and [decode("utf-8", errors="replace")], look for the
    delimiter with [bytes.index] and cut strings with [str.split]. This file
    gives these functions of Python's standard library as executable
    definitions, and the lemmas on them the components share: a [str] is the
    list of its code points, surrogates included, as in CPython, so that
    [encode] is partial; the two decoders share one scanner which reports every
    maximal ill-formed subpart once. *)

From S2P Require Export Prelude.

(** ** Strings *)

Abbreviation pystr := (list Z).

Definition str_of (s : string) : pystr :=
  map (fun a => Z.of_N (Ascii.N_of_ascii a)) (String.list_ascii_of_string s).

(** ** Searching and splitting *)

Section search.
Context {A : Type} `{EqDecision A}.

Fixpoint starts_with (p l : list A) : bool :=
  match p, l with
  | [], _ => true
  | x :: p, y :: l => bool_decide (x = y) && starts_with p l
  | _ :: _, [] => false
  end.

Fixpoint find_sub (p l : list A) : option nat :=
  if starts_with p l then Some 0%nat
  else match l with [] => None | _ :: l => S <$> find_sub p l end.

(** [l.index(p)]; [None] stands for the [ValueError]. *)
Definition index (p l : list A) : option Z := Z.of_nat <$> find_sub p l.

(** [l.split(p)] for a non-empty [p]. *)
Fixpoint split_fuel (fuel : nat) (p l : list A) : list (list A) :=
  match fuel with
  | O => [l]
  | S fuel =>
    match find_sub p l with
    | None => [l]
    | Some i => take i l :: split_fuel fuel p (drop (i + length p) l)
    end
  end.

Definition split (p l : list A) : list (list A) := split_fuel (length l) p l.

(** [l.split(p, maxsplit=1)] *)
Definition split_once (p l : list A) : list (list A) :=
  match find_sub p l with
  | None => [l]
  | Some i => [take i l; drop (i + length p) l]
  end.

(** [p.join(ls)] *)
Fixpoint join (p : list A) (ls : list (list A)) : list A :=
  match ls with
  | [] => []
  | [l] => l
  | l :: ls => l ++ p ++ join p ls
  end.

End search.

(** ** UTF-8 *)

Definition Z_of_byte (x : byte) : Z := Z.of_N (Byte.to_N x).

Definition byte_of_Z (z : Z) : byte :=
  default x00 (Byte.of_N (Z.to_N (z mod 256))).

(** The Unicode scalar values: the code points but the surrogates. *)
Definition is_scalar (c : Z) : bool :=
  (0 <=? c) && (c <? 1114112) && negb ((55296 <=? c) && (c <? 57344)).

Definition encode_cp (c : Z) : option bytes :=
  if negb (is_scalar c) then None
  else if c <? 128 then Some [byte_of_Z c]
  else if c <? 2048 then
    Some [byte_of_Z (192 + c / 64); byte_of_Z (128 + c mod 64)]
  else if c <? 65536 then
    Some [byte_of_Z (224 + c / 4096); byte_of_Z (128 + (c / 64) mod 64);
          byte_of_Z (128 + c mod 64)]
  else
    Some [byte_of_Z (240 + c / 262144); byte_of_Z (128 + (c / 4096) mod 64);
          byte_of_Z (128 + (c / 64) mod 64); byte_of_Z (128 + c mod 64)].

(** [s.encode("utf-8")]; [None] stands for the [UnicodeEncodeError]. *)
Fixpoint utf8_encode (s : pystr) : option bytes :=
  match s with
  | [] => Some []
  | c :: s =>
    match encode_cp c, utf8_encode s with
    | Some x, Some y => Some (x ++ y)
    | _, _ => None
    end
  end.

Definition is_cont (c : Z) : bool := (128 <=? c) && (c <? 192).

(** The second byte allowed after [c0] in a sequence of three or of four. *)
Definition second_of_3 (c0 c1 : Z) : bool :=
  is_cont c1 && negb (if c1 <? 160 then c0 =? 224 else c0 =? 237).

Definition second_of_4 (c0 c1 : Z) : bool :=
  is_cont c1 && negb (if c1 <? 144 then c0 =? 240 else c0 =? 244).

(** One element for each code point, and [None] for each maximal ill-formed
    subpart. *)
Fixpoint utf8_scan (bs : bytes) : list (option Z) :=
  match bs with
  | [] => []
  | x0 :: t0 =>
    let c0 := Z_of_byte x0 in
    if c0 <? 128 then Some c0 :: utf8_scan t0
    else if c0 <? 194 then None :: utf8_scan t0
    else if c0 <? 224 then
      match t0 with
      | [] => [None]
      | x1 :: t1 =>
        let c1 := Z_of_byte x1 in
        if is_cont c1 then Some ((c0 - 192) * 64 + (c1 - 128)) :: utf8_scan t1
        else None :: utf8_scan t0
      end
    else if c0 <? 240 then
      match t0 with
      | [] => [None]
      | x1 :: t1 =>
        let c1 := Z_of_byte x1 in
        if second_of_3 c0 c1 then
          match t1 with
          | [] => [None]
          | x2 :: t2 =>
            let c2 := Z_of_byte x2 in
            if is_cont c2 then
              Some ((c0 - 224) * 4096 + (c1 - 128) * 64 + (c2 - 128)) :: utf8_scan t2
            else None :: utf8_scan t1
          end
        else None :: utf8_scan t0
      end
    else if c0 <? 245 then
      match t0 with
      | [] => [None]
      | x1 :: t1 =>
        let c1 := Z_of_byte x1 in
        if second_of_4 c0 c1 then
          match t1 with
          | [] => [None]
          | x2 :: t2 =>
            let c2 := Z_of_byte x2 in
            if is_cont c2 then
              match t2 with
              | [] => [None]
              | x3 :: t3 =>
                let c3 := Z_of_byte x3 in
                if is_cont c3 then
                  Some ((c0 - 240) * 262144 + (c1 - 128) * 4096
                        + (c2 - 128) * 64 + (c3 - 128)) :: utf8_scan t3
                else None :: utf8_scan t2
              end
            else None :: utf8_scan t1
          end
        else None :: utf8_scan t0
      end
    else None :: utf8_scan t0
  end.

(** [bs.decode("utf-8")]; [None] stands for the [UnicodeDecodeError]. *)
Fixpoint all_some {A} (l : list (option A)) : option (list A) :=
  match l with
  | [] => Some []
  | Some x :: l => match all_some l with Some r => Some (x :: r) | None => None end
  | None :: _ => None
  end.

Definition utf8_decode (bs : bytes) : option pystr := all_some (utf8_scan bs).

(** [bs.decode("utf-8", errors="replace")] *)
Definition utf8_decode_replace (bs : bytes) : pystr :=
  map (default 65533) (utf8_scan bs).

(** Text that [encode] accepts. *)
Definition encodable (s : pystr) : Prop := is_Some (utf8_encode s).

#[export] Instance encodable_dec s : Decision (encodable s).
Proof. unfold encodable. destruct (utf8_encode s); [left|right]; [eauto|by intros []]. Defined.

(** ** Lemmas on searching *)

Section search_lemmas.
Context {A : Type} `{EqDecision A}.
Implicit Types p l k : list A.

Lemma starts_with_spec p l : starts_with p l = true <-> exists k, l = p ++ k.
Proof.
  revert l. induction p as [|x p IH]; intros l; simpl; [naive_solver|].
  destruct l as [|y l].
  - split; [done|]. by intros [k ?].
  - rewrite andb_true_iff, bool_decide_eq_true, IH. clear IH. split.
    + intros [-> [k ->]]. eauto.
    + intros [k [= -> ->]]. eauto.
Qed.

Lemma starts_with_app p k : starts_with p (p ++ k) = true.
Proof. apply starts_with_spec. eauto. Qed.

Lemma starts_with_app_r p l k :
  (length p <= length l)%nat -> starts_with p (l ++ k) = starts_with p l.
Proof.
  revert l. induction p as [|x p IH]; intros [|y l]; simpl; try done; [lia|].
  intros ?. rewrite IH by lia. done.
Qed.

Lemma find_sub_Some p l i :
  find_sub p l = Some i -> l = take i l ++ p ++ drop (i + length p) l.
Proof.
  revert i. induction l as [|y l IH]; intros i; simpl.
  - destruct (starts_with p []) eqn:E; [|done]. intros [= <-].
    apply starts_with_spec in E as [k Hk]. symmetry in Hk.
    by apply app_eq_nil in Hk as [-> ->].
  - destruct (starts_with p (y :: l)) eqn:E.
    + intros [= <-]. apply starts_with_spec in E as [k ->].
      simpl. by rewrite drop_app_length.
    + destruct (find_sub p l) as [j|]; simpl; [|done]. intros [= <-].
      simpl. f_equal. by apply IH.
Qed.

Lemma find_sub_None p l k : find_sub p (l ++ p ++ k) <> None.
Proof.
  induction l as [|x l IH]; simpl.
  - destruct (p ++ k) eqn:E; simpl; rewrite <- E, starts_with_app; done.
  - destruct (starts_with p _); [done|].
    destruct (find_sub p (l ++ p ++ k)); [done|]. by destruct IH.
Qed.

Lemma find_sub_le p l i : find_sub p l = Some i -> (i + length p <= length l)%nat.
Proof.
  intros H. pose proof (find_sub_Some _ _ _ H) as E.
  assert (i <= length l)%nat as Hi.
  { clear E. revert i H. induction l as [|y l IH]; intros i; simpl.
    - destruct (starts_with p []); [|done]. intros [= <-]. lia.
    - destruct (starts_with p _); [intros [= <-]; lia|].
      destruct (find_sub p l) as [j|]; simpl; [|done].
      intros [= <-]. specialize (IH j eq_refl). lia. }
  apply (f_equal length) in E. rewrite !length_app, length_take, length_drop in E.
  lia.
Qed.

(** What comes after the first occurrence of [p] does not move it. *)
Lemma find_sub_app p l k :
  find_sub p (l ++ p) = Some (length l) ->
  find_sub p (l ++ p ++ k) = Some (length l).
Proof.
  induction l as [|x l IH]; simpl.
  - destruct (p ++ k) eqn:E; simpl; rewrite <- E, starts_with_app; done.
  - intros H. rewrite app_assoc, app_comm_cons.
    rewrite starts_with_app_r by (simpl; rewrite length_app; lia).
    destruct (starts_with p (x :: l ++ p)); [done|].
    destruct (find_sub p (l ++ p)) as [j|]; [|done].
    simpl in H. injection H as ->. rewrite <- app_assoc, IH by done. done.
Qed.

Lemma find_sub_app_inv p l k :
  find_sub p (l ++ p ++ k) = Some (length l) -> find_sub p (l ++ p) = Some (length l).
Proof.
  induction l as [|x l IH]; simpl.
  - intros _. pose proof (starts_with_app p []) as Hs. rewrite app_nil_r in Hs.
    destruct p; simpl in *; by rewrite ?Hs.
  - intros H. rewrite app_assoc, app_comm_cons in H.
    rewrite starts_with_app_r in H by (simpl; rewrite length_app; lia).
    destruct (starts_with p (x :: l ++ p)); [done|].
    simpl in H. rewrite <- app_assoc in H.
    destruct (find_sub p (l ++ p ++ k)) as [j|] eqn:E; [|done].
    simpl in H. injection H as ->. by rewrite IH.
Qed.

(** A text without the first element of the separator does not hide it. *)
Lemma find_sub_fresh x p l k :
  x ∉ l -> find_sub (x :: p) (l ++ (x :: p) ++ k) = Some (length l).
Proof.
  intros Hx. induction l as [|y l IH].
  - simpl. by rewrite bool_decide_true, starts_with_app.
  - apply not_elem_of_cons in Hx as [Hxy Hx]. specialize (IH Hx).
    simpl. rewrite bool_decide_false by done. simpl. simpl in IH. by rewrite IH.
Qed.

Lemma find_sub_fresh_None x p l : x ∉ l -> find_sub (x :: p) l = None.
Proof.
  induction l as [|y l IH]; [done|].
  intros [Hxy Hx]%not_elem_of_cons. simpl.
  rewrite bool_decide_false by done. simpl. by rewrite IH.
Qed.

(** The equation of [split]: its fuel is enough. *)
Lemma split_fuel_enough n m p l :
  p <> [] -> (length l <= n)%nat -> (length l <= m)%nat ->
  split_fuel n p l = split_fuel m p l.
Proof.
  intros Hp. assert (0 < length p)%nat by (destruct p; [done|simpl; lia]).
  assert (forall j, split_fuel j p [] = [[]]) as Hnil.
  { intros [|j]; simpl; [done|]. by destruct p. }
  revert m l. induction n as [|n IH]; intros m l Hn Hm.
  - destruct l; [by rewrite !Hnil|simpl in Hn; lia].
  - destruct m as [|m]; [destruct l; [by rewrite !Hnil|simpl in Hm; lia]|].
    simpl. destruct (find_sub p l) as [i|] eqn:E; [|done]. f_equal.
    pose proof (find_sub_le _ _ _ E).
    apply IH; rewrite length_drop; lia.
Qed.

Lemma split_unfold p l :
  p <> [] ->
  split p l =
    match find_sub p l with
    | None => [l]
    | Some i => take i l :: split p (drop (i + length p) l)
    end.
Proof.
  intros Hp. unfold split.
  rewrite (split_fuel_enough _ (S (length l))) by (done || lia). simpl.
  destruct (find_sub p l) as [i|] eqn:E; [|done]. f_equal.
  apply split_fuel_enough; [done|rewrite length_drop; lia|done].
Qed.

(** Cutting at a separator of one element undoes joining with it. *)
Lemma split_app x l k : x ∉ l -> split [x] (l ++ x :: k) = l :: split [x] k.
Proof.
  intros Hx. rewrite split_unfold by done.
  change (x :: k) with ([x] ++ k). rewrite find_sub_fresh by done. f_equal.
  - by rewrite take_app_length.
  - f_equal. rewrite app_assoc. apply drop_app_length'. rewrite length_app. done.
Qed.

Lemma split_single x l : x ∉ l -> split [x] l = [l].
Proof. intros Hx. rewrite split_unfold by done. by rewrite find_sub_fresh_None. Qed.

Lemma split_join x ls :
  ls <> [] -> (forall l, l ∈ ls -> x ∉ l) -> split [x] (join [x] ls) = ls.
Proof.
  induction ls as [|l [|l' ls] IH]; [done| |]; intros _ H.
  - simpl. apply split_single, H, list_elem_of_here.
  - change (join [x] (l :: l' :: ls)) with (l ++ x :: join [x] (l' :: ls)).
    rewrite split_app by apply H, list_elem_of_here. f_equal.
    apply IH; [done|]. intros k Hk. by apply H, list_elem_of_further.
Qed.

Lemma split_once_app x l k : x ∉ l -> split_once [x] (l ++ x :: k) = [l; k].
Proof.
  intros Hx. unfold split_once.
  change (x :: k) with ([x] ++ k). rewrite find_sub_fresh by done. f_equal.
  - by rewrite take_app_length.
  - f_equal. rewrite app_assoc. apply drop_app_length'. rewrite length_app. done.
Qed.

Lemma find_sub_single_Some x l i :
  find_sub [x] l = Some i -> l = take i l ++ x :: drop (S i) l /\ x ∉ take i l.
Proof.
  intros H. split.
  - apply find_sub_Some in H. simpl in H. by replace (i + 1)%nat with (S i) in H by lia.
  - revert i H. induction l as [|y l IH]; intros i; simpl; [done|].
    case_bool_decide; simpl.
    + intros [= <-]. apply not_elem_of_nil.
    + destruct (find_sub [x] l) as [j|]; simpl; [|done]. intros [= <-].
      apply not_elem_of_cons. auto.
Qed.

Lemma find_sub_single_None x l : find_sub [x] l = None -> x ∉ l.
Proof.
  intros H Hx. apply list_elem_of_split in Hx as (l1 & l2 & ->).
  by apply (find_sub_None [x] l1 l2).
Qed.

(** No piece of [split] holds the separator. *)
Lemma split_fresh x l piece : piece ∈ split [x] l -> x ∉ piece.
Proof.
  revert piece. induction l as [l IH] using (induction_ltof1 _ length).
  intros piece. rewrite split_unfold by done.
  destruct (find_sub [x] l) as [i|] eqn:E.
  - pose proof (find_sub_le _ _ _ E) as Hle. simpl in Hle.
    apply find_sub_single_Some in E as [_ E].
    rewrite elem_of_cons. intros [->|Hp]; [done|].
    eapply IH; [|done]. unfold ltof. rewrite length_drop. simpl. lia.
  - rewrite list_elem_of_singleton. intros ->. by apply find_sub_single_None.
Qed.

End search_lemmas.

(** ** Lemmas on bytes and UTF-8 *)

Lemma Z_of_byte_bounds x : 0 <= Z_of_byte x < 256.
Proof.
  unfold Z_of_byte. pose proof (Byte.to_N_bounded x). lia.
Qed.

Lemma byte_of_Z_of_byte x : byte_of_Z (Z_of_byte x) = x.
Proof.
  pose proof (Z_of_byte_bounds x). unfold byte_of_Z.
  rewrite Z.mod_small by done. unfold Z_of_byte.
  by rewrite N2Z.id, Byte.of_to_N.
Qed.

Lemma Z_of_byte_of_Z z : 0 <= z < 256 -> Z_of_byte (byte_of_Z z) = z.
Proof.
  intros Hz. unfold byte_of_Z, Z_of_byte. rewrite Z.mod_small by done.
  destruct (Byte.of_N (Z.to_N z)) as [x|] eqn:E.
  - apply Byte.to_of_N in E. simpl. rewrite E. lia.
  - apply Byte.of_N_None_iff in E. lia.
Qed.

Ltac bool_to_prop :=
  repeat match goal with
  | H : (_ && _) = true |- _ => apply andb_true_iff in H as [??]
  | H : (_ && _) = false |- _ => apply andb_false_iff in H as [?|?]
  | H : (_ || _) = false |- _ => apply orb_false_iff in H as [??]
  | H : negb _ = true |- _ => apply negb_true_iff in H
  | H : negb _ = false |- _ => apply negb_false_iff in H
  | H : (_ <? _) = true |- _ => apply Z.ltb_lt in H
  | H : (_ <? _) = false |- _ => apply Z.ltb_ge in H
  | H : (_ <=? _) = true |- _ => apply Z.leb_le in H
  | H : (_ <=? _) = false |- _ => apply Z.leb_gt in H
  | H : (_ =? _) = true |- _ => apply Z.eqb_eq in H
  | H : (_ =? _) = false |- _ => apply Z.eqb_neq in H
  end.

Ltac z_decide :=
  repeat match goal with
  | |- context [?x <? ?y] =>
    first [ rewrite (proj2 (Z.ltb_lt x y)) by (Z.to_euclidean_division_equations; lia)
          | rewrite (proj2 (Z.ltb_ge x y)) by (Z.to_euclidean_division_equations; lia) ]
  | |- context [?x <=? ?y] =>
    first [ rewrite (proj2 (Z.leb_le x y)) by (Z.to_euclidean_division_equations; lia)
          | rewrite (proj2 (Z.leb_gt x y)) by (Z.to_euclidean_division_equations; lia) ]
  | |- context [?x =? ?y] =>
    first [ rewrite (proj2 (Z.eqb_eq x y)) by (Z.to_euclidean_division_equations; lia)
          | rewrite (proj2 (Z.eqb_neq x y)) by (Z.to_euclidean_division_equations; lia) ]
  end; cbn [andb orb negb].

Lemma is_scalar_spec c :
  is_scalar c = true <-> 0 <= c < 1114112 /\ ~ (55296 <= c < 57344).
Proof. unfold is_scalar. lia. Qed.

(** The scanner reads back one encoded code point. *)
Lemma utf8_scan_encode_cp c bs rest :
  encode_cp c = Some bs -> utf8_scan (bs ++ rest) = Some c :: utf8_scan rest.
Proof.
  unfold encode_cp. destruct (is_scalar c) eqn:Hs; [|done]. simpl.
  apply is_scalar_spec in Hs.
  destruct (Z.ltb_spec c 128); [|destruct (Z.ltb_spec c 2048); [|destruct (Z.ltb_spec c 65536)]];
    intros [= <-]; cbn [app utf8_scan].
  - rewrite Z_of_byte_of_Z by lia. z_decide. done.
  - rewrite !Z_of_byte_of_Z by (Z.to_euclidean_division_equations; lia).
    unfold is_cont. z_decide.
    f_equal. f_equal. Z.to_euclidean_division_equations; lia.
  - rewrite !Z_of_byte_of_Z by (Z.to_euclidean_division_equations; lia).
    unfold second_of_3, is_cont. z_decide.
    replace (if _ <? 160 then _ else _) with false
      by (symmetry; destruct (Z.ltb_spec (128 + (c / 64) mod 64) 160);
          apply Z.eqb_neq; Z.to_euclidean_division_equations; lia).
    cbn [negb]. f_equal. f_equal. Z.to_euclidean_division_equations; lia.
  - rewrite !Z_of_byte_of_Z by (Z.to_euclidean_division_equations; lia).
    unfold second_of_4, is_cont. z_decide.
    replace (if _ <? 144 then _ else _) with false
      by (symmetry; destruct (Z.ltb_spec (128 + (c / 4096) mod 64) 144);
          apply Z.eqb_neq; Z.to_euclidean_division_equations; lia).
    cbn [negb]. f_equal. f_equal. Z.to_euclidean_division_equations; lia.
Qed.

Lemma utf8_scan_encode s bs :
  utf8_encode s = Some bs -> forall rest, utf8_scan (bs ++ rest) = map Some s ++ utf8_scan rest.
Proof.
  revert bs. induction s as [|c s IH]; intros bs; simpl.
  - by intros [= <-].
  - destruct (encode_cp c) as [x|] eqn:Ec; [|done].
    destruct (utf8_encode s) as [y|]; [|done]. intros [= <-] rest.
    rewrite <- app_assoc, (utf8_scan_encode_cp c) by done. by rewrite IH.
Qed.

Lemma all_some_map_Some {A} (l : list A) : all_some (map Some l) = Some l.
Proof. induction l as [|x l IH]; simpl; [done|]. by rewrite IH. Qed.

Lemma all_some_Some {A} (l : list (option A)) r : all_some l = Some r -> l = map Some r.
Proof.
  revert r. induction l as [|[x|] l IH]; intros r; simpl; [by intros [= <-]| |done].
  destruct (all_some l) as [k|]; [|done]. intros [= <-]. simpl. f_equal. by apply IH.
Qed.

(** Decoding undoes encoding, with either error handler. *)
Lemma utf8_decode_encode s bs : utf8_encode s = Some bs -> utf8_decode bs = Some s.
Proof.
  intros H. unfold utf8_decode. rewrite <- (app_nil_r bs).
  rewrite (utf8_scan_encode _ _ H). simpl. rewrite app_nil_r. apply all_some_map_Some.
Qed.

Lemma utf8_decode_replace_decode bs s :
  utf8_decode bs = Some s -> utf8_decode_replace bs = s.
Proof.
  unfold utf8_decode, utf8_decode_replace. intros ->%all_some_Some.
  rewrite map_map. simpl. by rewrite map_id.
Qed.

Lemma utf8_decode_replace_encode s bs :
  utf8_encode s = Some bs -> utf8_decode_replace bs = s.
Proof. intros H. by apply utf8_decode_replace_decode, utf8_decode_encode. Qed.

Lemma utf8_encode_app s t :
  utf8_encode (s ++ t) =
    match utf8_encode s, utf8_encode t with
    | Some x, Some y => Some (x ++ y)
    | _, _ => None
    end.
Proof.
  induction s as [|c s IH]; simpl.
  - by destruct (utf8_encode t).
  - rewrite IH. destruct (encode_cp c), (utf8_encode s), (utf8_encode t); try done.
    by rewrite app_assoc.
Qed.

(** What the scanner reports as a code point is the encoding it read. *)
Lemma encode_cp_2 c0 c1 :
  194 <= c0 < 224 -> 128 <= c1 < 192 ->
  encode_cp ((c0 - 192) * 64 + (c1 - 128)) = Some [byte_of_Z c0; byte_of_Z c1].
Proof.
  intros H0 H1. unfold encode_cp.
  rewrite (proj2 (is_scalar_spec _)) by lia. z_decide.
  repeat f_equal; Z.to_euclidean_division_equations; lia.
Qed.

Lemma encode_cp_3 c0 c1 c2 :
  224 <= c0 < 240 -> second_of_3 c0 c1 = true -> 128 <= c2 < 192 ->
  encode_cp ((c0 - 224) * 4096 + (c1 - 128) * 64 + (c2 - 128)) =
    Some [byte_of_Z c0; byte_of_Z c1; byte_of_Z c2].
Proof.
  intros H0 H1 H2. unfold second_of_3, is_cont in H1. bool_to_prop.
  destruct (Z.ltb_spec c1 160); bool_to_prop; unfold encode_cp;
    rewrite (proj2 (is_scalar_spec _)) by lia; z_decide;
    repeat f_equal; Z.to_euclidean_division_equations; lia.
Qed.

Lemma encode_cp_4 c0 c1 c2 c3 :
  240 <= c0 < 245 -> second_of_4 c0 c1 = true ->
  128 <= c2 < 192 -> 128 <= c3 < 192 ->
  encode_cp ((c0 - 240) * 262144 + (c1 - 128) * 4096 + (c2 - 128) * 64 + (c3 - 128)) =
    Some [byte_of_Z c0; byte_of_Z c1; byte_of_Z c2; byte_of_Z c3].
Proof.
  intros H0 H1 H2 H3. unfold second_of_4, is_cont in H1. bool_to_prop.
  destruct (Z.ltb_spec c1 144); bool_to_prop; unfold encode_cp;
    rewrite (proj2 (is_scalar_spec _)) by lia; z_decide;
    repeat f_equal; Z.to_euclidean_division_equations; lia.
Qed.

Lemma encode_cp_1 c0 : 0 <= c0 < 128 -> encode_cp c0 = Some [byte_of_Z c0].
Proof.
  intros H. unfold encode_cp. rewrite (proj2 (is_scalar_spec _)) by lia. by z_decide.
Qed.

Ltac scan_error H := first [apply H | apply (H [])]; simpl; lia.

(** One step of the scanner: an error, or a code point whose encoding is the
    prefix that was read. *)
Lemma utf8_scan_step bs :
  bs <> [] ->
  (exists rest, (length rest < length bs)%nat /\ utf8_scan bs = None :: utf8_scan rest) \/
  (exists c x rest, bs = x ++ rest /\ x <> [] /\ encode_cp c = Some x /\
     utf8_scan bs = Some c :: utf8_scan rest).
Proof.
  destruct bs as [|x0 t0]; [done|]. intros _. cbn [utf8_scan].
  assert (forall rest, (length rest <= length t0)%nat -> forall P,
    (exists r, (length r < length (x0 :: t0))%nat /\ None :: utf8_scan rest = None :: utf8_scan r) \/ P) as Hbad.
  { intros rest Hr P. left. exists rest. split; [simpl; lia|done]. }
  pose proof (Z_of_byte_bounds x0) as B0.
  destruct (Z.ltb_spec (Z_of_byte x0) 128).
  { right. exists (Z_of_byte x0), [x0], t0. rewrite encode_cp_1 by lia.
    rewrite byte_of_Z_of_byte. auto. }
  destruct (Z.ltb_spec (Z_of_byte x0) 194); [scan_error Hbad|].
  destruct (Z.ltb_spec (Z_of_byte x0) 224).
  { destruct t0 as [|x1 t1]; [scan_error Hbad|].
    destruct (is_cont (Z_of_byte x1)) eqn:C1; [|scan_error Hbad].
    unfold is_cont in C1. bool_to_prop.
    right. eexists _, [x0; x1], t1. split_and!; [done|done| |reflexivity].
    rewrite encode_cp_2 by (done || lia). by rewrite !byte_of_Z_of_byte. }
  destruct (Z.ltb_spec (Z_of_byte x0) 240).
  { destruct t0 as [|x1 t1]; [scan_error Hbad|].
    destruct (second_of_3 _ _) eqn:C1; [|scan_error Hbad].
    destruct t1 as [|x2 t2]; [scan_error Hbad|].
    destruct (is_cont (Z_of_byte x2)) eqn:C2; [|scan_error Hbad].
    unfold is_cont in C2. bool_to_prop.
    right. eexists _, [x0; x1; x2], t2. split_and!; [done|done| |reflexivity].
    rewrite encode_cp_3 by (done || lia). by rewrite !byte_of_Z_of_byte. }
  destruct (Z.ltb_spec (Z_of_byte x0) 245); [|scan_error Hbad].
  destruct t0 as [|x1 t1]; [scan_error Hbad|].
  destruct (second_of_4 _ _) eqn:C1; [|scan_error Hbad].
  destruct t1 as [|x2 t2]; [scan_error Hbad|].
  destruct (is_cont (Z_of_byte x2)) eqn:C2; [|scan_error Hbad].
  destruct t2 as [|x3 t3]; [scan_error Hbad|].
  destruct (is_cont (Z_of_byte x3)) eqn:C3; [|scan_error Hbad].
  unfold is_cont in C2, C3. bool_to_prop.
  right. eexists _, [x0; x1; x2; x3], t3. split_and!; [done|done| |reflexivity].
  rewrite encode_cp_4 by (done || lia). by rewrite !byte_of_Z_of_byte.
Qed.

(** Encoding undoes strict decoding. *)
Lemma utf8_encode_decode bs s : utf8_decode bs = Some s -> utf8_encode s = Some bs.
Proof.
  unfold utf8_decode. revert s.
  induction bs as [bs IH] using (induction_ltof1 _ (@length byte)). intros s.
  destruct (decide (bs = [])) as [->|Hne]; [by intros [= <-]|].
  destruct (utf8_scan_step bs Hne) as [(l & _ & ->)|(c & x & rest & -> & Hx & Hc & ->)]; [done|].
  simpl. destruct (all_some (utf8_scan rest)) as [r|] eqn:Hr; [|done]. intros [= <-].
  simpl. rewrite Hc, (IH rest) with (s := r); [done| |done].
  unfold ltof. rewrite length_app. destruct x; simpl in *; [done|lia].
Qed.

(** The ASCII bytes of an encoded text are its ASCII code points. *)
Lemma encode_cp_ascii c bs x :
  encode_cp c = Some bs -> x ∈ bs -> Z_of_byte x < 128 -> Z_of_byte x = c.
Proof.
  unfold encode_cp. destruct (is_scalar c) eqn:Hs; [|done]. simpl.
  apply is_scalar_spec in Hs.
  destruct (Z.ltb_spec c 128); [|destruct (Z.ltb_spec c 2048); [|destruct (Z.ltb_spec c 65536)]];
    intros [= <-] Hx; rewrite ?elem_of_cons, ?elem_of_nil in Hx;
    destruct_or? Hx; try done; subst x;
    rewrite Z_of_byte_of_Z by (Z.to_euclidean_division_equations; lia); try done;
    Z.to_euclidean_division_equations; lia.
Qed.

Lemma utf8_encode_ascii s bs x :
  utf8_encode s = Some bs -> x ∈ bs -> Z_of_byte x < 128 -> Z_of_byte x ∈ s.
Proof.
  revert bs. induction s as [|c s IH]; intros bs; simpl.
  - intros [= <-] Hx. by apply elem_of_nil in Hx.
  - destruct (encode_cp c) as [y|] eqn:Ec; [|done].
    destruct (utf8_encode s) as [z|]; [|done]. intros [= <-] Hx Hlt.
    apply elem_of_app in Hx as [Hx|Hx]; apply elem_of_cons.
    + left. by eapply encode_cp_ascii.
    + right. by eapply IH.
Qed.

Lemma utf8_encode_length s bs :
  utf8_encode s = Some bs -> (length s <= length bs <= 4 * length s)%nat.
Proof.
  revert bs. induction s as [|c s IH]; intros bs; simpl; [intros [= <-]; simpl; lia|].
  destruct (encode_cp c) as [x|] eqn:Ec; [|done].
  destruct (utf8_encode s) as [y|]; [|done]. intros [= <-].
  specialize (IH y eq_refl). rewrite length_app.
  enough (1 <= length x <= 4)%nat by lia.
  unfold encode_cp in Ec. repeat case_match; simplify_eq; simpl; lia.
Qed.

(** What [errors="replace"] gives can always be encoded again, and holds U+FFFD
    whenever the strict decoder fails. *)
Lemma utf8_decode_replace_encodable bs : encodable (utf8_decode_replace bs).
Proof.
  unfold encodable, utf8_decode_replace.
  induction bs as [bs IH] using (induction_ltof1 _ (@length byte)).
  destruct (decide (bs = [])) as [->|Hne]; [by exists []|].
  destruct (utf8_scan_step bs Hne) as [(l & Hl & ->)|(c & x & rest & -> & Hx & Hc & ->)].
  - destruct (IH l Hl) as [y Hy]. simpl. rewrite Hy. vm_compute. eauto.
  - destruct (IH rest) as [y Hy].
    { unfold ltof. rewrite length_app. destruct x; simpl in *; [done|lia]. }
    simpl. rewrite Hc, Hy. eauto.
Qed.

Lemma utf8_decode_None_replace bs : utf8_decode bs = None -> 65533 ∈ utf8_decode_replace bs.
Proof.
  unfold utf8_decode, utf8_decode_replace.
  induction (utf8_scan bs) as [|[c|] l IH]; simpl; [done| |].
  - intros H. apply list_elem_of_further, IH. by destruct (all_some l).
  - intros _. apply list_elem_of_here.
Qed.

(** ** Searching for ASCII in UTF-8 *)

Definition ascii (c : Z) : Prop := 0 <= c < 128.

Lemma encode_cp_byte d x c :
  encode_cp d = Some x -> ascii c -> byte_of_Z c ∈ x -> c = d.
Proof.
  intros Hd Hc Hin. unfold ascii in Hc. rewrite <- (Z_of_byte_of_Z c) by lia.
  apply (encode_cp_ascii d x); [done..|]. rewrite Z_of_byte_of_Z; lia.
Qed.

Lemma encode_cp_cons d x : encode_cp d = Some x -> exists x0 xs, x = x0 :: xs.
Proof.
  unfold encode_cp. intros E. repeat case_match; simplify_eq; eauto.
Qed.

Lemma encode_cp_head d x0 xs c :
  encode_cp d = Some (x0 :: xs) -> ascii c -> byte_of_Z c = x0 <-> c = d.
Proof.
  intros Hd Hc. split.
  - intros <-. apply (encode_cp_byte d _ c Hd Hc), list_elem_of_here.
  - intros ->. rewrite encode_cp_1 in Hd by exact Hc. congruence.
Qed.

Lemma starts_with_encode p s bs :
  Forall ascii p -> utf8_encode s = Some bs ->
  starts_with (map byte_of_Z p) bs = starts_with p s.
Proof.
  intros Hp. revert s bs. induction Hp as [|c p Hc _ IH]; intros s bs; [done|].
  destruct s as [|d s]; simpl; [by intros [= <-]|].
  destruct (encode_cp d) as [x|] eqn:Ed; [|done].
  destruct (utf8_encode s) as [y|] eqn:Ey; [|done]. intros E. apply (inj Some) in E as <-.
  destruct (encode_cp_cons d x Ed) as (x0 & xs & ->). simpl.
  pose proof (encode_cp_head d x0 xs c Ed Hc) as Heq.
  rewrite (bool_decide_ext _ _ Heq). case_bool_decide as Hcd; simpl; [|done]. subst d.
  rewrite encode_cp_1 in Ed by exact Hc. assert (xs = []) as -> by congruence. by apply IH.
Qed.

Lemma find_sub_skip {A} `{EqDecision A} (a : A) p l k :
  a ∉ l -> find_sub (a :: p) (l ++ k) = (fun i => length l + i)%nat <$> find_sub (a :: p) k.
Proof.
  induction l as [|y l IH]; [simpl app; by destruct (find_sub (a :: p) k)|].
  intros [Hay Ha]%not_elem_of_cons. simpl. rewrite bool_decide_false by done. simpl.
  rewrite IH by done. by destruct (find_sub (a :: p) k).
Qed.

(** An ASCII pattern is found in the UTF-8 of a text where it is in the text. *)
Lemma find_sub_encode c p s bs :
  Forall ascii (c :: p) -> utf8_encode s = Some bs ->
  match find_sub (c :: p) s with
  | None => find_sub (map byte_of_Z (c :: p)) bs = None
  | Some i => exists x, utf8_encode (take i s) = Some x /\
      find_sub (map byte_of_Z (c :: p)) bs = Some (length x)
  end.
Proof.
  intros Hp. revert bs. induction s as [|d s IH]; intros bs Hs.
  { apply (inj Some) in Hs as <-. done. }
  pose proof (starts_with_encode (c :: p) (d :: s) bs Hp Hs) as Hst.
  cbn [find_sub]. destruct (starts_with (c :: p) (d :: s)).
  { exists []. split; [done|]. destruct bs; cbn [find_sub]; by rewrite Hst. }
  simpl in Hs. destruct (encode_cp d) as [x|] eqn:Ed; [|done].
  destruct (utf8_encode s) as [y|] eqn:Ey; [|done]. apply (inj Some) in Hs as <-.
  destruct (encode_cp_cons d x Ed) as (x0 & xs & ->).
  assert (find_sub (map byte_of_Z (c :: p)) ((x0 :: xs) ++ y) =
    (fun i => length (x0 :: xs) + i)%nat <$> find_sub (map byte_of_Z (c :: p)) y) as Hskip.
  { change ((x0 :: xs) ++ y) with (x0 :: (xs ++ y)) in Hst |- *.
    cbn [find_sub]. rewrite Hst. simpl map. rewrite find_sub_skip.
    - by destruct (find_sub _ y).
    - intros Hin. apply (encode_cp_byte d _ c) in Ed as Hcd;
        [|by inversion Hp|by apply list_elem_of_further].
      subst d. rewrite encode_cp_1 in Ed by by inversion Hp.
      assert (xs = []) as -> by congruence. by apply elem_of_nil in Hin. }
  rewrite Hskip. specialize (IH y eq_refl).
  destruct (find_sub (c :: p) s) as [i|]; [|by rewrite IH].
  destruct IH as (z & Hz & ->). simpl. rewrite Ed, Hz. eexists. split; [done|].
  simpl. by rewrite length_app.
Qed.

(** A split in two: the pattern is there once. *)
Lemma split_two {A} `{EqDecision A} (p l a b : list A) :
  p <> [] ->
  split p l = [a; b] <->
  exists i, find_sub p l = Some i /\ a = take i l /\ b = drop (i + length p) l /\
    find_sub p b = None.
Proof.
  intros Hp. rewrite split_unfold by done. split.
  - destruct (find_sub p l) as [i|]; [|done]. rewrite split_unfold by done.
    destruct (find_sub p (drop _ l)) as [j|] eqn:Ej; intros E.
    + exfalso. rewrite split_unfold in E by done. by destruct (find_sub p (drop (j + _) _)).
    + exists i. injection E as <- <-. done.
  - intros (i & -> & -> & -> & Hb). rewrite split_unfold by done. by rewrite Hb.
Qed.
