(* ===== verification/Framing.v ===== *)
(** * The wire format: frames, and the reference parser of a byte stream

    Every message travels as a frame: the magic number ["KK\x00\x02"], the
    length of the body as four bytes in big-endian order, and the body, which
    is not empty and has at most 16 MiB. [pack_I] and [unpack_I] are the
    [struct] calls of the clients; [frame] is what a client puts on the wire.
    [parse] is the specification of a receiver: it reads a whole stream at
    once, while the clients read it chunk by chunk from a buffer. *)

From S2P Require Export PyText.

(** ** The protocol's constants *)

Definition MAGIC : bytes := [x4b; x4b; x00; x02].
Definition MAX_MSG_SIZE : Z := 16 * 1024 * 1024.
Definition MAGIC_LEN : Z := len MAGIC.
Definition HEADER_LEN : Z := MAGIC_LEN + 4.

Definition HEARTBEAT : bytes := bytes_of "heartbeat".
Definition HEARTBEAT_RESPONSE : bytes := bytes_of "heartbeat_response".

(** ** [struct.pack('>I', n)] and [struct.unpack('>I', bs)] *)

Definition pack_I (n : Z) : option bytes :=
  if (0 <=? n) && (n <? 2 ^ 32) then
    Some [byte_of_Z (Z.shiftr n 24); byte_of_Z (Z.shiftr n 16);
          byte_of_Z (Z.shiftr n 8); byte_of_Z n]
  else None.

Definition unpack_I (bs : bytes) : option Z :=
  match bs with
  | [x3; x2; x1; x0] =>
    Some (Z.lor (Z.shiftl (Z_of_byte x3) 24)
         (Z.lor (Z.shiftl (Z_of_byte x2) 16)
         (Z.lor (Z.shiftl (Z_of_byte x1) 8) (Z_of_byte x0))))
  | _ => None
  end.

(** The frame of a body. *)
Definition frame (data : bytes) : option bytes :=
  match pack_I (len data) with
  | Some p => Some (MAGIC ++ p ++ data)
  | None => None
  end.

(** A body that the receivers accept. *)
Definition valid_body (data : bytes) : bool :=
  (0 <? len data) && (len data <=? MAX_MSG_SIZE).

(** The stream of a list of messages. *)
Fixpoint frames (ms : list bytes) : option bytes :=
  match ms with
  | [] => Some []
  | m :: ms =>
    match frame m, frames ms with
    | Some x, Some y => Some (x ++ y)
    | _, _ => None
    end
  end.

(** ** The reference parser *)

Inductive fault := BadMagic | BadLength (n : Z).

Inductive head :=
| More
| Fault (f : fault)
| Message (msg rest : bytes).

Definition next_frame (buf : bytes) : head :=
  if len buf <? HEADER_LEN then More
  else if negb (bool_decide (slice 0 MAGIC_LEN buf = MAGIC)) then Fault BadMagic
  else
    match unpack_I (slice MAGIC_LEN HEADER_LEN buf) with
    | None => More
    | Some n =>
      if (n =? 0) || (MAX_MSG_SIZE <? n) then Fault (BadLength n)
      else if len buf <? HEADER_LEN + n then More
      else Message (slice HEADER_LEN (HEADER_LEN + n) buf) (slice_from (HEADER_LEN + n) buf)
    end.

(** The complete messages of a stream, what is left of it, and the fault it
    has, if any. *)
Record parsed := Parsed { p_msgs : list bytes; p_rest : bytes; p_fault : option fault }.

Fixpoint parse_fuel (fuel : nat) (buf : bytes) : parsed :=
  match fuel with
  | O => Parsed [] buf None
  | S fuel =>
    match next_frame buf with
    | More => Parsed [] buf None
    | Fault f => Parsed [] buf (Some f)
    | Message m rest =>
      let p := parse_fuel fuel rest in Parsed (m :: p_msgs p) (p_rest p) (p_fault p)
    end
  end.

Definition parse (buf : bytes) : parsed := parse_fuel (length buf) buf.

(** The messages a client hands on: all but the answers to heartbeats. *)
Definition payloads (ms : list bytes) : list bytes :=
  filter (fun m => m <> HEARTBEAT_RESPONSE) ms.

(** ** Lemmas on the integers of the header *)

Lemma byte_shift_decomp n :
  0 <= n < 2 ^ 32 ->
  n = Z.lor (Z.shiftl (Z.shiftr n 24 mod 256) 24)
      (Z.lor (Z.shiftl (Z.shiftr n 16 mod 256) 16)
      (Z.lor (Z.shiftl (Z.shiftr n 8 mod 256) 8) (n mod 256))).
Proof.
  intros Hn. apply Z.bits_inj'. intros i Hi.
  change 256 with (2 ^ 8).
  rewrite !Z.lor_spec, !Z.shiftl_spec by done.
  assert (forall m k, 0 <= k -> i < k -> Z.testbit m (i - k) = false) as Hneg
    by (intros; apply Z.testbit_neg_r; lia).
  assert (forall m k, 0 <= k <= i ->
    Z.testbit (Z.shiftr m k mod 2 ^ 8) (i - k) =
      if decide (i < k + 8) then Z.testbit m i else false) as Hbyte.
  { intros m k Hk. case_decide.
    - rewrite Z.mod_pow2_bits_low, Z.shiftr_spec by lia. f_equal. lia.
    - apply Z.mod_pow2_bits_high. lia. }
  assert (Z.testbit (n mod 2 ^ 8) i = if decide (i < 8) then Z.testbit n i else false) as H0.
  { case_decide; [apply Z.mod_pow2_bits_low|apply Z.mod_pow2_bits_high]; lia. }
  assert (32 <= i -> Z.testbit n i = false) as Hhigh.
  { intros. rewrite <- (Z.mod_small n (2 ^ 32)) by done. apply Z.mod_pow2_bits_high. lia. }
  rewrite H0.
  destruct (decide (8 <= i)); [rewrite (Hbyte n 8) by lia|rewrite (Hneg _ 8) by lia];
  (destruct (decide (16 <= i)); [rewrite (Hbyte n 16) by lia|rewrite (Hneg _ 16) by lia]);
  (destruct (decide (24 <= i)); [rewrite (Hbyte n 24) by lia|rewrite (Hneg _ 24) by lia]);
  repeat case_decide; try lia; rewrite ?orb_false_r; try done; apply Hhigh; lia.
Qed.

Lemma Z_of_byte_of_Z_mod n : Z_of_byte (byte_of_Z n) = n mod 256.
Proof.
  replace (byte_of_Z n) with (byte_of_Z (n mod 256)).
  - apply Z_of_byte_of_Z. by apply Z.mod_pos_bound.
  - unfold byte_of_Z. by rewrite Z.mod_mod.
Qed.

Lemma pack_I_spec n : 0 <= n < 2 ^ 32 <-> is_Some (pack_I n).
Proof.
  unfold pack_I. destruct (_ && _) eqn:E; bool_to_prop; split; try done; try lia; eauto.
  all: by intros [? ?].
Qed.

Lemma pack_I_length n p : pack_I n = Some p -> length p = 4%nat.
Proof. unfold pack_I. destruct (_ && _); by intros [= <-]. Qed.

Lemma unpack_pack_I n p : pack_I n = Some p -> unpack_I p = Some n.
Proof.
  unfold pack_I. destruct (_ && _) eqn:E; [|done]. bool_to_prop. intros [= <-].
  cbn [unpack_I]. rewrite !Z_of_byte_of_Z_mod. f_equal. symmetry.
  by apply byte_shift_decomp.
Qed.

Lemma lor_shiftl_add a c k : 0 <= k -> 0 <= c < 2 ^ k -> Z.lor (Z.shiftl a k) c = a * 2 ^ k + c.
Proof.
  intros Hk Hc. rewrite <- Z.shiftl_mul_pow2 by done.
  rewrite <- Z.lxor_lor; [symmetry; apply Z.add_nocarry_lxor|];
    apply Z.bits_inj'; intros i Hi; rewrite Z.land_spec, Z.bits_0, Z.shiftl_spec by done;
    (destruct (decide (i < k)); [rewrite Z.testbit_neg_r by lia; done|]);
    rewrite <- (Z.mod_small c (2 ^ k)) by done;
    rewrite Z.mod_pow2_bits_high by lia; apply andb_false_r.
Qed.

Lemma unpack_I_sum x3 x2 x1 x0 :
  unpack_I [x3; x2; x1; x0] =
    Some (Z_of_byte x3 * 2 ^ 24 + (Z_of_byte x2 * 2 ^ 16 + (Z_of_byte x1 * 2 ^ 8 + Z_of_byte x0))).
Proof.
  pose proof (Z_of_byte_bounds x3). pose proof (Z_of_byte_bounds x2).
  pose proof (Z_of_byte_bounds x1). pose proof (Z_of_byte_bounds x0).
  cbn [unpack_I]. rewrite (lor_shiftl_add _ _ 8) by lia.
  rewrite (lor_shiftl_add _ _ 16) by lia. by rewrite (lor_shiftl_add _ _ 24) by lia.
Qed.

Lemma unpack_I_bounds bs n : unpack_I bs = Some n -> 0 <= n < 2 ^ 32 /\ length bs = 4%nat.
Proof.
  destruct bs as [|x3 [|x2 [|x1 [|x0 []]]]]; try done.
  rewrite unpack_I_sum. intros E. injection E as <-.
  pose proof (Z_of_byte_bounds x3). pose proof (Z_of_byte_bounds x2).
  pose proof (Z_of_byte_bounds x1). pose proof (Z_of_byte_bounds x0).
  split; [lia|done].
Qed.

Lemma byte_of_Z_eq z x : z mod 256 = Z_of_byte x -> byte_of_Z z = x.
Proof.
  intros Hz. unfold byte_of_Z. rewrite Hz. unfold Z_of_byte.
  by rewrite N2Z.id, Byte.of_to_N.
Qed.

Lemma pack_unpack_I bs n : unpack_I bs = Some n -> pack_I n = Some bs.
Proof.
  intros H. pose proof (unpack_I_bounds _ _ H) as [Hn _]. revert H.
  destruct bs as [|x3 [|x2 [|x1 [|x0 []]]]]; try done.
  rewrite unpack_I_sum. intros E. injection E as E.
  unfold pack_I. rewrite (proj2 (Z.leb_le 0 n)), (proj2 (Z.ltb_lt n _)) by lia. cbn [andb].
  pose proof (Z_of_byte_bounds x3). pose proof (Z_of_byte_bounds x2).
  pose proof (Z_of_byte_bounds x1). pose proof (Z_of_byte_bounds x0).
  rewrite !Z.shiftr_div_pow2 by lia.
  f_equal. f_equal; [|f_equal; [|f_equal; [|f_equal]]]; apply byte_of_Z_eq;
    Z.to_euclidean_division_equations; lia.
Qed.

(** ** Lemmas on one frame *)

Lemma len_MAGIC : len MAGIC = 4.
Proof. done. Qed.

Lemma header_split buf :
  HEADER_LEN <= len buf ->
  exists m4 l4 body : bytes, buf = m4 ++ l4 ++ body /\ length m4 = 4%nat /\ length l4 = 4%nat.
Proof.
  unfold HEADER_LEN, MAGIC_LEN. rewrite len_MAGIC. unfold len. intros H.
  exists (take 4 buf), (take 4 (drop 4 buf)), (drop 4 (drop 4 buf)).
  rewrite !take_drop, !length_take, length_drop. split; [done|lia].
Qed.

Lemma next_frame_split (m4 l4 body : bytes) :
  length m4 = 4%nat -> length l4 = 4%nat ->
  next_frame (m4 ++ l4 ++ body) =
    if negb (bool_decide (m4 = MAGIC)) then Fault BadMagic
    else
      match unpack_I l4 with
      | None => More
      | Some n =>
        if (n =? 0) || (MAX_MSG_SIZE <? n) then Fault (BadLength n)
        else if len body <? n then More
        else Message (take (Z.to_nat n) body) (drop (Z.to_nat n) body)
      end.
Proof.
  intros Hm Hl. unfold next_frame, HEADER_LEN, MAGIC_LEN. rewrite len_MAGIC.
  assert (len m4 = 4) as Hm' by (unfold len; lia).
  assert (len l4 = 4) as Hl' by (unfold len; lia).
  rewrite !len_app, Hm', Hl'. pose proof (len_nonneg body).
  rewrite (proj2 (Z.ltb_ge _ _)) by lia.
  pose proof (slice_0_app m4 (l4 ++ body)) as Em. rewrite Hm' in Em.
  pose proof (slice_app m4 l4 body) as El. rewrite Hm', Hl' in El.
  rewrite Em, El. destruct (negb _); [done|].
  destruct (unpack_I l4) as [n|] eqn:En; [|done].
  apply unpack_I_bounds in En as [Hn _].
  destruct (_ || _); [done|].
  destruct (Z.ltb_spec (len body) n); destruct (Z.ltb_spec (4 + (4 + len body)) (4 + 4 + n)); try lia; [done|].
  f_equal; unfold slice, slice_from; rewrite app_assoc.
  - rewrite drop_app_length' by (rewrite length_app; lia). f_equal. lia.
  - rewrite drop_app_ge by (rewrite length_app; lia). f_equal. rewrite length_app. lia.
Qed.

(** A frame is read back, whatever follows it. *)
Lemma next_frame_frame m x rest :
  valid_body m = true -> frame m = Some x -> next_frame (x ++ rest) = Message m rest.
Proof.
  unfold frame, valid_body. intros Hv. destruct (pack_I (len m)) as [p|] eqn:Ep; [|done].
  intros E. assert (x = MAGIC ++ p ++ m) as -> by congruence. clear E.
  bool_to_prop. rewrite <- !app_assoc. rewrite next_frame_split; [|done|by eapply pack_I_length].
  rewrite bool_decide_true by done. cbn [negb].
  rewrite (unpack_pack_I _ _ Ep).
  rewrite (proj2 (Z.eqb_neq _ _)), (proj2 (Z.ltb_ge _ _)) by lia. cbn [orb].
  rewrite (proj2 (Z.ltb_ge _ _)) by (rewrite len_app; pose proof (len_nonneg rest); lia).
  by rewrite to_nat_len, take_app_length, drop_app_length.
Qed.

Lemma MAX_MSG_SIZE_lt : MAX_MSG_SIZE < 2 ^ 32.
Proof. done. Qed.

Lemma frame_not_nil m x : frame m = Some x -> x <> [].
Proof. unfold frame. destruct (pack_I (len m)); [|done]. by intros [= <-]. Qed.

Lemma frame_is_Some m : len m <= MAX_MSG_SIZE -> exists x, frame m = Some x.
Proof.
  intros H. unfold frame. pose proof (len_nonneg m). pose proof MAX_MSG_SIZE_lt.
  destruct (proj1 (pack_I_spec (len m))) as [p ->]; [lia|]. eauto.
Qed.

Lemma len_frame m x : frame m = Some x -> len x = HEADER_LEN + len m.
Proof.
  unfold frame. destruct (pack_I _) as [p|] eqn:Ep; [|done]. intros E.
  assert (x = MAGIC ++ p ++ m) as -> by congruence.
  apply pack_I_length in Ep. rewrite !len_app. unfold HEADER_LEN, MAGIC_LEN, len at 2. lia.
Qed.

(** What is read is a frame of the stream. *)
Lemma next_frame_Message buf m rest :
  next_frame buf = Message m rest ->
  valid_body m = true /\ exists x, frame m = Some x /\ buf = x ++ rest.
Proof.
  intros H. destruct (Z.ltb_spec (len buf) HEADER_LEN) as [Hlt|Hge].
  { unfold next_frame in H. by rewrite (proj2 (Z.ltb_lt _ _)) in H. }
  destruct (header_split buf Hge) as (m4 & l4 & body & -> & Hm & Hl).
  rewrite next_frame_split in H by done.
  case_bool_decide as HM; [|done]. cbn [negb] in H. subst m4.
  destruct (unpack_I l4) as [n|] eqn:En; [|done].
  pose proof (unpack_I_bounds _ _ En) as [Hn _].
  destruct (_ || _) eqn:E1; [done|]. bool_to_prop.
  destruct (Z.ltb_spec (len body) n); [done|]. injection H as <- <-.
  assert (len (take (Z.to_nat n) body) = n) as Hlen.
  { unfold len in *. rewrite length_take. lia. }
  unfold valid_body, frame. rewrite Hlen, (pack_unpack_I _ _ En). split.
  - apply andb_true_iff. split; [apply Z.ltb_lt|apply Z.leb_le]; lia.
  - eexists. split; [done|]. by rewrite <- !app_assoc, take_drop.
Qed.

(** More input does not change what was read. *)
Lemma next_frame_app buf k :
  match next_frame buf with
  | More => True
  | Fault f => next_frame (buf ++ k) = Fault f
  | Message m rest => next_frame (buf ++ k) = Message m (rest ++ k)
  end.
Proof.
  destruct (Z.ltb_spec (len buf) HEADER_LEN) as [Hlt|Hge].
  { unfold next_frame at 1. by rewrite (proj2 (Z.ltb_lt _ _)). }
  destruct (header_split buf Hge) as (m4 & l4 & body & -> & Hm & Hl).
  rewrite <- !app_assoc, !next_frame_split by done.
  destruct (negb _); [done|].
  destruct (unpack_I l4) as [n|] eqn:En; [|done].
  destruct (_ || _); [done|].
  destruct (Z.ltb_spec (len body) n); [done|].
  apply unpack_I_bounds in En as [Hn _]. unfold len in *.
  rewrite (proj2 (Z.ltb_ge _ _)) by (rewrite length_app; lia).
  by rewrite take_app_le, drop_app_le by lia.
Qed.

Lemma next_frame_shorter buf m rest :
  next_frame buf = Message m rest -> (length rest < length buf)%nat.
Proof.
  intros (Hv & x & Hx & ->)%next_frame_Message. apply len_frame in Hx.
  rewrite length_app. unfold HEADER_LEN, MAGIC_LEN in Hx. rewrite len_MAGIC in Hx.
  unfold len in Hx. lia.
Qed.

(** A frame that is not complete yet. *)
Lemma next_frame_prefix m a b :
  valid_body m = true -> frame m = Some (a ++ b) -> b <> [] -> next_frame a = More.
Proof.
  intros Hv Hx Hb. pose proof (next_frame_frame m (a ++ b) [] Hv Hx) as Hm.
  rewrite app_nil_r in Hm. pose proof (next_frame_app a b) as Ha.
  destruct (next_frame a) as [|f|m' rest]; [done| |]; rewrite Ha in Hm; [done|].
  injection Hm as _ Hrest. by apply app_nil in Hrest as [_ ->].
Qed.

(** ** Lemmas on the stream *)

Definition prepend (ms : list bytes) (p : parsed) : parsed :=
  Parsed (ms ++ p_msgs p) (p_rest p) (p_fault p).

Lemma prepend_nil p : prepend [] p = p.
Proof. by destruct p. Qed.

Lemma prepend_cons m ms p : prepend (m :: ms) p = prepend [m] (prepend ms p).
Proof. done. Qed.

Lemma prepend_app ms ns p : prepend (ms ++ ns) p = prepend ms (prepend ns p).
Proof. unfold prepend. simpl. by rewrite app_assoc. Qed.

Lemma parse_fuel_enough n k buf :
  (length buf <= n)%nat -> (length buf <= k)%nat -> parse_fuel n buf = parse_fuel k buf.
Proof.
  revert k buf. induction n as [|n IH]; intros k buf Hn Hk.
  - destruct buf; [|simpl in Hn; lia]. by destruct k.
  - destruct k as [|k]; [destruct buf; [done|simpl in Hk; lia]|].
    simpl. destruct (next_frame buf) as [|f|m rest] eqn:E; [done..|].
    apply next_frame_shorter in E. rewrite (IH k) by lia. done.
Qed.

Lemma parse_unfold buf :
  parse buf =
    match next_frame buf with
    | More => Parsed [] buf None
    | Fault f => Parsed [] buf (Some f)
    | Message m rest => prepend [m] (parse rest)
    end.
Proof.
  unfold parse. rewrite (parse_fuel_enough _ (S (length buf))) by lia. simpl.
  destruct (next_frame buf) as [|f|m rest] eqn:E; [done..|].
  apply next_frame_shorter in E.
  by rewrite (parse_fuel_enough (length buf) (length rest)) by lia.
Qed.

(** Induction along the frames of a buffer. *)
Lemma frame_ind (P : bytes -> Prop) :
  (forall buf, (forall m rest, next_frame buf = Message m rest -> P rest) -> P buf) ->
  forall buf, P buf.
Proof.
  intros H buf. induction buf as [buf IH] using (induction_ltof1 _ (@length byte)).
  apply H. intros m rest E. apply IH. by apply next_frame_shorter in E.
Qed.

Lemma parse_app buf k :
  parse (buf ++ k) =
    match p_fault (parse buf) with
    | None => prepend (p_msgs (parse buf)) (parse (p_rest (parse buf) ++ k))
    | Some f => Parsed (p_msgs (parse buf)) (p_rest (parse buf) ++ k) (Some f)
    end.
Proof.
  revert buf. apply frame_ind. intros buf IH. rewrite (parse_unfold buf).
  pose proof (next_frame_app buf k) as Happ.
  destruct (next_frame buf) as [|f|m rest] eqn:E; simpl.
  - by rewrite prepend_nil.
  - by rewrite parse_unfold, Happ.
  - rewrite parse_unfold, Happ, (IH m rest eq_refl).
    by destruct (p_fault (parse rest)).
Qed.

Lemma parse_frames ms x rest :
  Forall (fun m => valid_body m = true) ms -> frames ms = Some x ->
  parse (x ++ rest) = prepend ms (parse rest).
Proof.
  intros Hv. revert x. induction Hv as [|m ms Hm Hv IH]; intros x; simpl.
  - intros [= <-]. by rewrite prepend_nil.
  - destruct (frame m) as [y|] eqn:Ey; [|done].
    destruct (frames ms) as [z|]; [|done]. intros E.
    assert (x = y ++ z) as -> by congruence.
    rewrite <- app_assoc, parse_unfold, (next_frame_frame m) by done.
    by rewrite (IH z), (prepend_cons m ms) by done.
Qed.

Lemma parse_sound buf :
  Forall (fun m => valid_body m = true) (p_msgs (parse buf)) /\
  (exists x, frames (p_msgs (parse buf)) = Some x /\ buf = x ++ p_rest (parse buf)) /\
  match p_fault (parse buf) with
  | None => next_frame (p_rest (parse buf)) = More
  | Some f => next_frame (p_rest (parse buf)) = Fault f
  end.
Proof.
  revert buf. apply frame_ind. intros buf IH. rewrite (parse_unfold buf).
  destruct (next_frame buf) as [|f|m rest] eqn:E; simpl.
  - split; [constructor|]. eauto.
  - split; [constructor|]. eauto.
  - destruct (IH m rest eq_refl) as (IH1 & (x & Hx & Hr) & IH2).
    apply next_frame_Message in E as (Hv & y & Hy & ->).
    split; [by constructor|]. split; [|done].
    rewrite Hy, Hx. eexists. split; [done|]. by rewrite <- app_assoc, <- Hr.
Qed.

(** A stream is the frames of its messages, and a rest that begins with none. *)
Lemma parse_frames_rest buf :
  exists x, frames (p_msgs (parse buf)) = Some x /\ buf = x ++ p_rest (parse buf) /\
    forall m y k, valid_body m = true -> frame m = Some y -> p_rest (parse buf) <> y ++ k.
Proof.
  pose proof (parse_sound buf) as (_ & (x & Hx & Hb) & Hf).
  exists x. split_and!; [done..|]. intros m y k Hm Hy Hr.
  rewrite Hr, (next_frame_frame m y k) in Hf by done. by destruct (p_fault (parse buf)).
Qed.

Lemma frames_is_Some ms :
  Forall (fun m => valid_body m = true) ms -> exists x, frames ms = Some x.
Proof.
  induction 1 as [|m ms Hm _ [x IH]]; simpl; [eauto|].
  unfold valid_body in Hm. bool_to_prop.
  destruct (frame_is_Some m) as [y ->]; [done|]. rewrite IH. eauto.
Qed.

Lemma frames_app ms ns :
  frames (ms ++ ns) =
    match frames ms, frames ns with
    | Some x, Some y => Some (x ++ y)
    | _, _ => None
    end.
Proof.
  induction ms as [|m ms IH]; simpl; [by destruct (frames ns)|].
  rewrite IH. destruct (frame m), (frames ms), (frames ns); try done.
  by rewrite app_assoc.
Qed.

Lemma payloads_all ms : HEARTBEAT_RESPONSE ∉ ms -> payloads ms = ms.
Proof.
  unfold payloads. induction ms as [|m ms IH]; [done|].
  intros [Hm Hms]%not_elem_of_cons. rewrite filter_cons_True by done. by rewrite IH.
Qed.

Lemma payloads_app ms ns : payloads (ms ++ ns) = payloads ms ++ payloads ns.
Proof. apply filter_app. Qed.

Lemma payloads_cons m ms :
  payloads (m :: ms) = (if bool_decide (m = HEARTBEAT_RESPONSE) then [] else [m]) ++ payloads ms.
Proof. unfold payloads. rewrite filter_cons. by case_bool_decide; case_decide. Qed.

(** The tests of the two clients on their buffer, whatever they do in each case,
    are [next_frame]. *)
Lemma header_tests {R} (more fault error : R) (message : bytes -> bytes -> R) buf :
  (if len buf <? HEADER_LEN then more
   else if negb (bool_decide (slice 0 MAGIC_LEN buf = MAGIC)) then fault
   else
     match unpack_I (slice MAGIC_LEN HEADER_LEN buf) with
     | Some length =>
       if (length =? 0) || (MAX_MSG_SIZE <? length) then fault
       else if len buf <? HEADER_LEN + length then more
       else message (slice HEADER_LEN (HEADER_LEN + length) buf)
              (slice_from (HEADER_LEN + length) buf)
     | None => error
     end) =
  match next_frame buf with
  | More => more
  | Fault _ => fault
  | Message m rest => message m rest
  end.
Proof.
  unfold next_frame. destruct (Z.ltb_spec (len buf) HEADER_LEN) as [Hlt|Hge]; [done|].
  destruct (negb _); [done|].
  destruct (unpack_I _) as [n|] eqn:En.
  - destruct (_ || _); [done|]. by destruct (len buf <? HEADER_LEN + n).
  - destruct (header_split buf Hge) as (m4 & l4 & body & Hb & Hm & Hl).
    rewrite Hb in En. assert (len m4 = 4) as Hm' by (unfold len; lia).
    assert (len l4 = 4) as Hl' by (unfold len; lia).
    pose proof (slice_app m4 l4 body) as El. rewrite Hm', Hl' in El.
    change (slice MAGIC_LEN HEADER_LEN (m4 ++ l4 ++ body))
      with (slice 4 (4 + 4) (m4 ++ l4 ++ body)) in En.
    rewrite El in En. destruct l4 as [|? [|? [|? [|? []]]]]; done.
Qed.

(** Parsing goes on from what the first part left, also after a fault. *)
Lemma parse_step buf k :
  parse (buf ++ k) = prepend (p_msgs (parse buf)) (parse (p_rest (parse buf) ++ k)).
Proof.
  rewrite parse_app. pose proof (parse_sound buf) as (_ & _ & Hf).
  destruct (p_fault (parse buf)) as [x|]; [|done].
  rewrite (parse_unfold (p_rest _ ++ k)).
  pose proof (next_frame_app (p_rest (parse buf)) k) as Ha. rewrite Hf in Ha. rewrite Ha.
  unfold prepend. simpl. by rewrite app_nil_r.
Qed.

Lemma payloads_step (P : bytes -> Prop) buf k :
  Forall P (payloads (p_msgs (parse (buf ++ k)))) <->
  Forall P (payloads (p_msgs (parse buf))) /\
  Forall P (payloads (p_msgs (parse (p_rest (parse buf) ++ k)))).
Proof. rewrite parse_step. simpl. by rewrite payloads_app, Forall_app. Qed.

(** The stream went from [w] to [x] by whole frames. *)
Definition whole_frames (w x : bytes) : Prop :=
  exists ms y, Forall (fun m => len m <= MAX_MSG_SIZE) ms /\ frames ms = Some y /\ x = w ++ y.

Lemma whole_refl w : whole_frames w w.
Proof. exists [], []. by rewrite app_nil_r. Qed.

Lemma whole_trans w1 w2 w3 : whole_frames w1 w2 -> whole_frames w2 w3 -> whole_frames w1 w3.
Proof.
  intros (ms & y & Hm & Hy & ->) (ns & z & Hn & Hz & ->).
  exists (ms ++ ns), (y ++ z). rewrite frames_app, Hy, Hz.
  split_and!; [by apply Forall_app|done|by rewrite app_assoc].
Qed.
