(* ===== verification/Keys.v ===== *)
(** * Keys and delimiters: what the bodies of the frames are made of

    The clients name a function or a signal by the text ["APPID-ID"], and put it
    before the data with the delimiter ["&*&"]. This file holds what the four
    client classes share: formatting, encoding in the monad, the delimiter, and
    when a body can be cut again where it was joined. *)

From S2P Require Export Framing.

(** [f"{x}"] of an attribute that is a [str] or [None]. *)
Definition format (x : option pystr) : pystr :=
  match x with Some s => s | None => str_of "None" end.

Definition DASH : pystr := str_of "-".
Definition DELIM : pystr := str_of "&*&".
Definition DELIM_BYTES : bytes := bytes_of "&*&".

(** [s.encode("utf-8")] and [bs.decode("utf-8")] *)
Definition encode {S} (s : pystr) : M S bytes :=
  of_option UnicodeEncodeError (utf8_encode s).

Definition decode {S} (bs : bytes) : M S pystr :=
  of_option UnicodeDecodeError (utf8_decode bs).

(** The code point and the byte of ['&']. *)
Definition amp : Z := 38.
Definition amp_byte : byte := x26.

(** A body cut at its first delimiter. *)
Definition cut (body : bytes) : option (bytes * bytes) :=
  match find_sub DELIM_BYTES body with
  | Some i => Some (take i body, drop (i + 3) body)
  | None => None
  end.

(** The body of a request or of a signal; [None] stands for the
    [UnicodeEncodeError]. *)
Definition keyed_body (a i : option pystr) (data : bytes) : option bytes :=
  match utf8_encode (format a ++ DASH ++ format i ++ DELIM) with
  | Some k => Some (k ++ data)
  | None => None
  end.

(** ** Lemmas *)

Lemma utf8_encode_DASH : utf8_encode DASH = Some (bytes_of "-").
Proof. done. Qed.

Lemma utf8_encode_DELIM : utf8_encode DELIM = Some DELIM_BYTES.
Proof. done. Qed.

Lemma amp_fresh s bs : utf8_encode s = Some bs -> amp ∉ s -> amp_byte ∉ bs.
Proof.
  intros He Hs Hin. apply Hs. change amp with (Z_of_byte amp_byte).
  by eapply utf8_encode_ascii.
Qed.

(** The delimiter is found where it was put when the key has no ['&']. *)
Lemma cut_app key data :
  amp_byte ∉ key -> cut (key ++ DELIM_BYTES ++ data) = Some (key, data).
Proof.
  intros Hk. unfold cut.
  pose proof (find_sub_fresh amp_byte [x2a; x26] key data Hk) as Hf.
  change (amp_byte :: [x2a; x26]) with DELIM_BYTES in Hf. rewrite Hf.
  rewrite take_app_length. f_equal. f_equal.
  rewrite app_assoc. apply drop_app_length'. rewrite length_app. done.
Qed.

Lemma cut_Some body key data :
  cut body = Some (key, data) -> body = key ++ DELIM_BYTES ++ data.
Proof.
  unfold cut. destruct (find_sub DELIM_BYTES body) as [i|] eqn:E; [|done].
  intros Hkd. simplify_eq. by apply find_sub_Some in E.
Qed.

(** A key that was cut off can carry other data, and is cut off again. *)
Lemma cut_again body key data data' :
  cut body = Some (key, data) -> cut (key ++ DELIM_BYTES ++ data') = Some (key, data').
Proof.
  intros H. pose proof (cut_Some _ _ _ H) as ->. revert H. unfold cut.
  destruct (find_sub DELIM_BYTES (key ++ DELIM_BYTES ++ data)) as [i|] eqn:E; [|done].
  intros H. apply (inj Some) in H. apply (f_equal fst) in H. cbn [fst] in H.
  assert (i = length key) as ->.
  { pose proof (find_sub_le _ _ _ E) as Hle. apply (f_equal length) in H.
    rewrite length_take in H. lia. }
  apply find_sub_app_inv in E. rewrite (find_sub_app _ _ data' E).
  rewrite take_app_length. f_equal. f_equal.
  rewrite app_assoc. apply drop_app_length'. by rewrite length_app.
Qed.

(** A body with a delimiter or a dash is neither a heartbeat nor empty. *)
Lemma not_heartbeat (x : byte) (body : bytes) :
  x ∈ body -> x ∉ HEARTBEAT -> body <> HEARTBEAT /\ body <> [].
Proof.
  intros Hin Hx. split; intros ->; [done|]. by apply elem_of_nil in Hin.
Qed.

(** Two names with the same text are the same name, when no APPID has a dash. *)
Lemma key_inj a1 i1 a2 i2 :
  45 ∉ a1 -> 45 ∉ a2 -> a1 ++ DASH ++ i1 = a2 ++ DASH ++ i2 -> a1 = a2 /\ i1 = i2.
Proof.
  intros H1 H2 H.
  assert (split_once DASH (a1 ++ DASH ++ i1) = [a1; i1]) as E1 by by apply split_once_app.
  assert (split_once DASH (a2 ++ DASH ++ i2) = [a2; i2]) as E2 by by apply split_once_app.
  rewrite H, E2 in E1. by simplify_eq.
Qed.

Lemma keyed_body_split a i data body :
  keyed_body a i data = Some body ->
  exists ka ki, utf8_encode (format a) = Some ka /\ utf8_encode (format i) = Some ki /\
    body = (ka ++ bytes_of "-" ++ ki) ++ DELIM_BYTES ++ data.
Proof.
  unfold keyed_body. rewrite !utf8_encode_app, utf8_encode_DASH, utf8_encode_DELIM.
  destruct (utf8_encode (format a)) as [ka|]; [|done].
  destruct (utf8_encode (format i)) as [ki|]; [|done].
  intros E. apply (inj Some) in E as <-. exists ka, ki. split_and!; [done..|].
  by rewrite <- !app_assoc.
Qed.

Lemma keyed_body_key a i key data :
  utf8_encode (a ++ DASH ++ i) = Some key ->
  keyed_body (Some a) (Some i) data = Some (key ++ DELIM_BYTES ++ data).
Proof.
  intros Hkey. unfold keyed_body. cbn [format].
  replace (a ++ DASH ++ i ++ DELIM) with ((a ++ DASH ++ i) ++ DELIM) by by rewrite <- !app_assoc.
  rewrite utf8_encode_app, Hkey, utf8_encode_DELIM. by rewrite <- app_assoc.
Qed.

(** What is known of every body the clients make. *)
Lemma keyed_body_spec a i data body :
  keyed_body a i data = Some body ->
  body <> HEARTBEAT /\ body <> [] /\
  exists key, utf8_decode key = Some (format a ++ DASH ++ format i) /\
    (amp ∉ format a -> amp ∉ format i -> cut body = Some (key, data)).
Proof.
  intros (ka & ki & Ha & Hi & Hbody)%keyed_body_split.
  assert (amp_byte ∈ body) as Hamp.
  { rewrite Hbody, !elem_of_app. right. left. apply list_elem_of_here. }
  destruct (not_heartbeat amp_byte body Hamp) as [Hh Hne].
  { by apply (bool_decide_unpack _). }
  split; [done|]. split; [done|]. exists (ka ++ bytes_of "-" ++ ki). split.
  - apply utf8_decode_encode. by rewrite !utf8_encode_app, Ha, Hi.
  - intros Na Ni. rewrite Hbody. apply cut_app. rewrite !not_elem_of_app. split_and!.
    + by apply (amp_fresh (format a)).
    + by apply (bool_decide_unpack _).
    + by apply (amp_fresh (format i)).
Qed.

Lemma valid_body_intro body : body <> [] -> len body <= MAX_MSG_SIZE -> valid_body body = true.
Proof.
  intros Hne Hlen. unfold valid_body. apply andb_true_iff. rewrite Z.ltb_lt, Z.leb_le.
  split; [by apply len_pos|done].
Qed.

(** The texts of a list of encoded messages. *)
Fixpoint encode_all (ds : list pystr) : option (list bytes) :=
  match ds with
  | [] => Some []
  | d :: ds =>
    match utf8_encode d, encode_all ds with
    | Some x, Some y => Some (x :: y)
    | _, _ => None
    end
  end.

Lemma encode_all_decode ds bs :
  encode_all ds = Some bs -> map utf8_decode_replace bs = ds.
Proof.
  revert bs. induction ds as [|d ds IH]; intros bs; simpl.
  - intros E. by apply (inj Some) in E as <-.
  - destruct (utf8_encode d) as [x|] eqn:Ed; [|done].
    destruct (encode_all ds) as [y|]; [|done]. intros E. apply (inj Some) in E as <-.
    simpl. by rewrite (utf8_decode_replace_encode d), IH.
Qed.

Lemma payloads_texts ds bs :
  encode_all ds = Some bs -> str_of "heartbeat_response" ∉ ds -> payloads bs = bs.
Proof.
  intros Hds Hhb. apply payloads_all. intros Hm. apply Hhb.
  rewrite <- (encode_all_decode _ _ Hds).
  apply list_elem_of_In, in_map_iff. exists HEARTBEAT_RESPONSE.
  split; [by vm_compute|by apply list_elem_of_In].
Qed.

Lemma encode_all_Forall2 ds bs :
  encode_all ds = Some bs -> Forall2 (fun d b => utf8_decode b = Some d) ds bs.
Proof.
  revert bs. induction ds as [|d ds IH]; intros bs; simpl.
  - intros E. by apply (inj Some) in E as <-.
  - destruct (utf8_encode d) as [x|] eqn:Ex; [|done].
    destruct (encode_all ds) as [y|]; [|done]. intros E. apply (inj Some) in E as <-.
    constructor; [by apply utf8_decode_encode|by apply IH].
Qed.

(** Cutting the UTF-8 of a text is cutting the text. *)
Lemma cut_text text data :
  utf8_encode text = Some data ->
  match find_sub DELIM text with
  | None => cut data = None
  | Some i => exists kb tb, cut data = Some (kb, tb) /\
      utf8_encode (take i text) = Some kb /\ utf8_encode (drop (i + 3) text) = Some tb
  end.
Proof.
  intros Ht. unfold cut.
  pose proof (find_sub_encode 38 [42; 38] text data) as Hf.
  change [38; 42; 38] with DELIM in Hf.
  change (map byte_of_Z DELIM) with DELIM_BYTES in Hf.
  specialize (Hf ltac:(by repeat constructor) Ht).
  destruct (find_sub DELIM text) as [i|] eqn:Ei; [|by rewrite Hf].
  destruct Hf as (kb & Hkb & ->). pose proof (find_sub_Some _ _ _ Ei) as Htext.
  change (length DELIM) with 3%nat in Htext.
  rewrite Htext, !utf8_encode_app, Hkb, utf8_encode_DELIM in Ht.
  destruct (utf8_encode (drop (i + 3) text)) as [tb|]; [|done].
  apply (inj Some) in Ht as <-. exists kb, tb. split; [|done].
  rewrite take_app_length. do 2 f_equal.
  rewrite app_assoc. apply drop_app_length'. by rewrite length_app.
Qed.
