(* ===== verification/Kludf.v ===== *)
(** * [KLKVMap]: key-value maps as text

    Models knotlink-sdk-python/knotlink/knotlink/kludf.py. A Python [dict] keeps
    its keys in the order of their first insertion, and [serialize] shows that
    order, so the state of a [KLKVMap] is the list of its items; the finite map
    it stands for is [to_map], and [kv_equiv] is equality of these maps. Keys and
    values are [str], as the class is documented. *)

From stdpp Require Export gmap.
From S2P Require Export PyText.

Abbreviation kvmap := (list (pystr * pystr)).

(** ** The operations of [dict] *)

Fixpoint dict_lookup (k : pystr) (m : kvmap) : option pystr :=
  match m with
  | [] => None
  | (k', v) :: m => if decide (k = k') then Some v else dict_lookup k m
  end.

(** [self[k] = v]: in place for a key of the map, at the end for a new one. *)
Fixpoint dict_set (k v : pystr) (m : kvmap) : kvmap :=
  match m with
  | [] => [(k, v)]
  | (k', v') :: m => if decide (k = k') then (k', v) :: m else (k', v') :: dict_set k v m
  end.

Definition SEMICOLON : pystr := str_of ";".
Definition EQUALS : pystr := str_of "=".

(** ** The methods *)

Definition item (kv : pystr * pystr) : pystr := kv.1 ++ EQUALS ++ kv.2.

Definition serialize (self : kvmap) : pystr := join SEMICOLON (map item self).

(** One turn of the loop of [deserialize]. *)
Definition deserialize_pair (self : kvmap) (pair : pystr) : kvmap :=
  match split_once EQUALS pair with
  | [k; v] => dict_set k v self
  | _ => self
  end.

Definition clear (self : kvmap) : kvmap := [].

Definition deserialize (self : kvmap) (keyValueString : pystr) : kvmap :=
  fold_left deserialize_pair (split SEMICOLON keyValueString) (clear self).

Definition get (self : kvmap) (key defaultVal : pystr) : pystr :=
  default defaultVal (dict_lookup key self).

(** ** The invariant and the specification *)

(** A [dict] holds a key once. *)
Definition is_dict (m : kvmap) : Prop := NoDup m.*1.

(** The separators: the code points of [';'] and ['=']. *)
Definition semicolon : Z := 59.
Definition equals : Z := 61.

(** The maps whose text can be read back. *)
Definition clean (m : kvmap) : Prop :=
  forall k v, (k, v) ∈ m -> (semicolon ∉ k) /\ (equals ∉ k) /\ (semicolon ∉ v).

Definition to_map (m : kvmap) : gmap pystr pystr := list_to_map m.

Definition kv_equiv (m n : kvmap) : Prop := to_map m = to_map n.

(** The pairs of a text, in order. *)
Definition pair_of (piece : pystr) : option (pystr * pystr) :=
  match split_once EQUALS piece with [k; v] => Some (k, v) | _ => None end.

Definition pairs_of (s : pystr) : list (pystr * pystr) := omap pair_of (split SEMICOLON s).

(** ** Lemmas on [dict] *)

Lemma dict_lookup_to_map k m : dict_lookup k m = to_map m !! k.
Proof.
  unfold to_map. induction m as [|[k' v] m IH]; [done|]. simpl.
  case_decide; subst; [by rewrite lookup_insert_eq|by rewrite lookup_insert_ne].
Qed.

Lemma dict_set_to_map k v m : to_map (dict_set k v m) = <[k:=v]> (to_map m).
Proof.
  unfold to_map. induction m as [|[k' v'] m IH]; [done|]. simpl.
  case_decide; subst; simpl; [by rewrite insert_insert_eq|].
  by rewrite IH, insert_insert_ne.
Qed.

Lemma dict_set_keys k v m :
  (dict_set k v m).*1 = if decide (k ∈ m.*1) then m.*1 else m.*1 ++ [k].
Proof.
  induction m as [|[k' v'] m IH]; [done|]. csimpl.
  destruct (decide (k = k')) as [->|Hk]; csimpl.
  - rewrite decide_True by apply list_elem_of_here. done.
  - rewrite IH. destruct (decide (k ∈ m.*1)), (decide (k ∈ k' :: m.*1)) as [Hin|Hin]; try done.
    + destruct Hin. by apply list_elem_of_further.
    + apply elem_of_cons in Hin as [?|?]; done.
Qed.

Lemma dict_set_is_dict k v m : is_dict m -> is_dict (dict_set k v m).
Proof.
  unfold is_dict. rewrite dict_set_keys. case_decide; [done|].
  intros Hnd. apply NoDup_app. split; [done|]. split; [|apply NoDup_singleton].
  intros x Hx ->%list_elem_of_singleton. done.
Qed.

Lemma dict_set_elem k v m k' v' :
  (k', v') ∈ dict_set k v m -> (k', v') = (k, v) \/ (k', v') ∈ m.
Proof.
  induction m as [|[k0 v0] m IH]; simpl.
  - rewrite list_elem_of_singleton. auto.
  - case_decide; subst; rewrite !elem_of_cons; [tauto|]. intros [?|[?|?]%IH]; auto.
Qed.

Lemma dict_set_fresh k v m : k ∉ m.*1 -> dict_set k v m = m ++ [(k, v)].
Proof.
  induction m as [|[k' v'] m IH]; [done|]. simpl.
  intros [? ?]%not_elem_of_cons. rewrite decide_False by done. by rewrite IH.
Qed.

(** ** Lemmas on the text *)

Lemma item_fresh k v :
  semicolon ∉ k -> semicolon ∉ v -> semicolon ∉ item (k, v).
Proof.
  intros Hk Hv. unfold item. simpl. rewrite not_elem_of_app, not_elem_of_cons. auto.
Qed.

Lemma deserialize_item self k v :
  equals ∉ k -> deserialize_pair self (item (k, v)) = dict_set k v self.
Proof.
  intros Hk. unfold deserialize_pair, item. simpl.
  change EQUALS with [equals]. by rewrite split_once_app.
Qed.

Lemma fold_items m acc :
  clean m -> NoDup (acc.*1 ++ m.*1) ->
  fold_left deserialize_pair (map item m) acc = acc ++ m.
Proof.
  revert acc. induction m as [|[k v] m IH]; intros acc Hc Hnd; simpl.
  - by rewrite app_nil_r.
  - destruct (Hc k v) as (_ & He & _); [apply list_elem_of_here|].
    rewrite deserialize_item by done. simpl in Hnd.
    rewrite dict_set_fresh.
    + rewrite IH, <- app_assoc; [done| |].
      * intros k' v' Hin. by apply Hc, list_elem_of_further.
      * by rewrite fmap_app, <- app_assoc.
    + apply NoDup_app in Hnd as (_ & Hd & _). intros Hin. apply (Hd k Hin).
      apply list_elem_of_here.
Qed.

Lemma deserialize_serialize self m : is_dict m -> clean m -> deserialize self (serialize m) = m.
Proof.
  intros Hd Hc. unfold deserialize, clear, serialize. change SEMICOLON with [semicolon].
  destruct m as [|kv m]; [done|].
  rewrite split_join.
  - by rewrite fold_items.
  - done.
  - intros l (kv' & -> & Hin)%list_elem_of_fmap. destruct kv' as [k v].
    destruct (Hc k v Hin) as (? & ? & ?). by apply item_fresh.
Qed.

Lemma pair_of_Some piece k v :
  pair_of piece = Some (k, v) -> piece = k ++ equals :: v /\ equals ∉ k.
Proof.
  unfold pair_of, split_once. change EQUALS with [equals].
  destruct (find_sub [equals] piece) as [i|] eqn:E; [|done].
  apply find_sub_single_Some in E as [E1 E2].
  replace (i + length [equals])%nat with (S i) by (unfold length; lia).
  intros Hkv. by simplify_eq.
Qed.

Lemma deserialize_pair_of self piece :
  deserialize_pair self piece =
    match pair_of piece with Some (k, v) => dict_set k v self | None => self end.
Proof.
  unfold deserialize_pair, pair_of. by destruct (split_once EQUALS piece) as [|k [|v []]].
Qed.

Lemma deserialize_fold pieces acc :
  is_dict acc -> clean acc -> (forall p, p ∈ pieces -> semicolon ∉ p) ->
  is_dict (fold_left deserialize_pair pieces acc) /\
  clean (fold_left deserialize_pair pieces acc).
Proof.
  revert acc. induction pieces as [|p pieces IH]; intros acc Hd Hc Hp; simpl; [done|].
  apply IH.
  - rewrite deserialize_pair_of. destruct (pair_of p) as [[k v]|]; [|done].
    by apply dict_set_is_dict.
  - rewrite deserialize_pair_of. destruct (pair_of p) as [[k v]|] eqn:E; [|done].
    apply pair_of_Some in E as [-> He].
    specialize (Hp _ (list_elem_of_here _ _)). apply not_elem_of_app in Hp as [Hk Hv].
    apply not_elem_of_cons in Hv as [_ Hv].
    intros k' v' [[= -> ->]|Hin]%dict_set_elem; [done|by apply Hc].
  - intros q Hq. by apply Hp, list_elem_of_further.
Qed.

Lemma deserialize_clean self s : is_dict (deserialize self s) /\ clean (deserialize self s).
Proof.
  apply deserialize_fold; [apply NoDup_nil_2|intros k v Hin; by apply elem_of_nil in Hin|].
  intros p. change SEMICOLON with [semicolon]. apply split_fresh.
Qed.

Lemma to_map_fold pieces acc :
  to_map (fold_left deserialize_pair pieces acc) =
    foldl (fun m kv => <[kv.1:=kv.2]> m) (to_map acc) (omap pair_of pieces).
Proof.
  revert acc. induction pieces as [|p pieces IH]; intros acc; simpl; [done|].
  rewrite IH, deserialize_pair_of. destruct (pair_of p) as [[k v]|]; simpl; [|done].
  by rewrite dict_set_to_map.
Qed.

(** ** Equality of the maps *)

#[export] Instance kv_equiv_equivalence : Equivalence kv_equiv.
Proof. unfold kv_equiv. split; repeat intro; congruence. Qed.

#[export] Instance dict_set_proper : Proper (eq ==> eq ==> kv_equiv ==> kv_equiv) dict_set.
Proof.
  intros k ? <- v ? <- m n Hmn. unfold kv_equiv in *. by rewrite !dict_set_to_map, Hmn.
Qed.

#[export] Instance dict_lookup_proper : Proper (eq ==> kv_equiv ==> eq) dict_lookup.
Proof. intros k ? <- m n Hmn. by rewrite !dict_lookup_to_map, Hmn. Qed.

#[export] Instance get_proper : Proper (kv_equiv ==> eq ==> eq ==> eq) get.
Proof. intros m n Hmn k ? <- d ? <-. unfold get. by rewrite Hmn. Qed.

(** ** The properties *)

(** C28: Reading back what was written. For every map, reading its text gives the
    same items in the same order, whatever the target held before, exactly when
    no key holds [';'] or ['='] and no value holds [';']. *)
Theorem deserialize_serialize_iff (self m : kvmap) :
  is_dict m -> (deserialize self (serialize m) = m <-> clean m).
Proof.
  intros Hd. split.
  - intros <-. apply deserialize_clean.
  - intros Hc. by apply deserialize_serialize.
Qed.

(** Reading any text. The result of [deserialize] is a map whose text reads
    back to it, and as a finite map it is the pairs of the text inserted from
    left to right into the empty map, so that the last value of a key wins; the
    previous content of the target is gone. *)
Theorem deserialize_spec (self : kvmap) (s : pystr) :
  deserialize self (serialize (deserialize self s)) = deserialize self s /\
  to_map (deserialize self s) =
    foldl (fun m kv => <[kv.1:=kv.2]> m) ∅ (pairs_of s).
Proof.
  split.
  - destruct (deserialize_clean self s). by apply deserialize_serialize.
  - unfold deserialize, pairs_of. by rewrite to_map_fold.
Qed.

(** [get] after [deserialize] of [serialize]: any two maps that hold the same
    items, in whatever order they were inserted, answer every [get] alike after a
    trip through their texts, and the default is returned exactly for the keys
    they do not hold. *)
Theorem get_after_transfer (self m n : kvmap) (k d : pystr) :
  is_dict m -> is_dict n -> clean m -> clean n -> kv_equiv m n ->
  get (deserialize self (serialize m)) k d = get (deserialize self (serialize n)) k d /\
  get (deserialize self (serialize m)) k d =
    match to_map n !! k with Some v => v | None => d end.
Proof.
  intros Hm Hn Hcm Hcn Hmn. rewrite !deserialize_serialize by done.
  split; [by rewrite Hmn|]. rewrite Hmn. unfold get. by rewrite dict_lookup_to_map.
Qed.

(** ** Witnesses *)

Definition ex_map : kvmap :=
  [(str_of "key1", str_of "value1"); (str_of "key2", str_of "a=b")].

Lemma ex_map_clean : clean ex_map.
Proof.
  assert (forallb (fun kv => bool_decide (semicolon ∉ kv.1) && bool_decide (equals ∉ kv.1)
    && bool_decide (semicolon ∉ kv.2)) ex_map = true) as H by (vm_compute; reflexivity).
  intros k v Hin. rewrite forallb_forall in H.
  specialize (H (k, v) (proj1 (list_elem_of_In _ _) Hin)). simpl in H.
  rewrite !andb_true_iff, !bool_decide_eq_true in H. tauto.
Qed.

Lemma deserialize_serialize_iff_witness :
  deserialize [] (serialize ex_map) = ex_map <-> clean ex_map.
Proof. apply (deserialize_serialize_iff [] ex_map). apply (bool_decide_unpack _). vm_compute. exact I. Defined.

Lemma get_after_transfer_witness :
  get (deserialize [] (serialize ex_map)) (str_of "key3") [] =
    get (deserialize [] (serialize ex_map)) (str_of "key3") [] /\
  get (deserialize [] (serialize ex_map)) (str_of "key3") [] = [].
Proof.
  apply (get_after_transfer [] ex_map ex_map);
    [apply (bool_decide_unpack _); vm_compute; exact I..|apply ex_map_clean|apply ex_map_clean|reflexivity].
Defined.
