(* ===== verification/Logging.v ===== *)
(** * The package's names, and its logging

    knotlink-sdk-python/knotlink/knotlink/__init__.py: the names the package
    exports, and [enable_logging], over the part of Python's [logging] that it and
    the calls of [logger] in the modules use: the root logger with its level and
    its handlers, [basicConfig], and the handler of last resort. The loggers of the
    modules have no level and no handlers of their own, so that every call goes to
    the root. *)

From S2P Require Import PyText.

(** ** The names of the package *)

(** 8-13: the names each line imports, and 27, the function that is defined. *)
Definition imported : list (list string) :=
  [["KLUDF"; "KLKVMap"]; ["OpenSocketQuerier"]; ["OpenSocketResponser"];
   ["SignalSender"]; ["SignalSubscriber"]; ["TcpClient"]]%string.
Definition bound : list string := concat imported ++ ["enable_logging"%string].

Definition __all__ : list string :=
  ["KLUDF"; "KLKVMap"; "OpenSocketQuerier"; "OpenSocketResponser";
   "SignalSender"; "SignalSubscriber"; "TcpClient"; "enable_logging"]%string.

(** [from knotlink import *] finds every name, and imports all that is bound. *)
Lemma all_bound : NoDup __all__ /\ __all__ = bound.
Proof. split; [|done]. by apply (bool_decide_unpack _). Qed.

(** ** Messages *)

Inductive severity := DEBUG | INFO | WARNING | ERROR.

Definition levelno (l : severity) : Z :=
  match l with DEBUG => 10 | INFO => 20 | WARNING => 30 | ERROR => 40 end.
Definition levelname (l : severity) : pystr :=
  str_of match l with DEBUG => "DEBUG" | INFO => "INFO" | WARNING => "WARNING" | ERROR => "ERROR" end.

(** The calls of [logger] in tcpclient.py, in SignalSubscriber.py and in
    OpenSocketResponser.py, with the texts of their arguments. *)
Inductive event :=
| Connected (ip port : pystr)                  (* tcpclient.py 45 *)
| Connect_failed (ip port e : pystr)           (* 49 *)
| Send_failed (e : pystr)                      (* 71 *)
| Heartbeat_sent                               (* 82 *)
| Heartbeat_off                                (* 86 *)
| Connection_lost                              (* 94 *)
| Receive_failed (e : pystr)                   (* 103 *)
| Magic_mismatch (expected got : pystr)        (* 117 *)
| Invalid_length (n : pystr)                   (* 124 *)
| Heartbeat_answered                           (* 135 *)
| Received (msg : pystr)                       (* 137 *)
| Disconnected                                 (* 158 *)
| Decode_failed (e : pystr)                    (* SignalSubscriber.py 39 *)
| Parse_failed (e : pystr).                    (* OpenSocketResponser.py 48 *)

(** [getLogger(__name__)] of the module. *)
Definition logger_name (e : event) : pystr :=
  str_of match e with
    | Decode_failed _ => "knotlink.SignalSubscriber"
    | Parse_failed _ => "knotlink.OpenSocketResponser"
    | _ => "knotlink.tcpclient"
    end.

Definition severity_of (e : event) : severity :=
  match e with
  | Heartbeat_sent | Heartbeat_off | Heartbeat_answered | Received _ => DEBUG
  | Connected _ _ | Disconnected => INFO
  | Connection_lost => WARNING
  | _ => ERROR
  end.

Definition message (e : event) : pystr :=
  match e with
  | Connected ip port => str_of "Connected to " ++ ip ++ str_of ":" ++ port
  | Connect_failed ip port e =>
    str_of "Connection to " ++ ip ++ str_of ":" ++ port ++ str_of " failed: " ++ e
  | Send_failed e => str_of "Failed to send data: " ++ e
  | Heartbeat_sent => str_of "Heartbeat sent successfully"
  | Heartbeat_off => str_of "Cannot send heartbeat, disconnected"
  | Connection_lost => str_of "Connection lost"
  | Receive_failed e => str_of "Failed to receive data: " ++ e
  | Magic_mismatch expected got =>
    str_of "Magic mismatch: expected " ++ expected ++ str_of ", got " ++ got ++ str_of ", disconnecting"
  | Invalid_length n => str_of "Invalid message length: " ++ n ++ str_of ", disconnecting"
  | Heartbeat_answered => str_of "Heartbeat response received, ignoring"
  | Received msg => str_of "Received data: " ++ msg
  | Disconnected => str_of "Disconnected"
  | Decode_failed e => str_of "Decode failed: " ++ e
  | Parse_failed e => str_of "Failed to parse data: " ++ e
  end.

(** A call, with the time at which it is made: what [strftime] makes of a format. *)
Record log_record := Record_ {
  what : event;
  strftime : pystr -> pystr }.

(** ** Python's [logging] *)

Definition PERCENT : Z := 37.
Definition OPEN : Z := 40.
Definition CLOSE : Z := 41.
Definition LETTER_S : Z := 115.

(** [fmt % fields]: [%(key)s] is replaced by the field. [key] is what has been read
    of a key. *)
Fixpoint percent (fields : pystr -> pystr) (key : option pystr) (fmt : pystr) : pystr :=
  match key, fmt with
  | None, a :: ((b :: rest) as rest') =>
    if (a =? PERCENT) && (b =? OPEN) then percent fields (Some []) rest
    else a :: percent fields None rest'
  | Some k, a :: ((b :: rest) as rest') =>
    if (a =? CLOSE) && (b =? LETTER_S) then fields k ++ percent fields None rest
    else percent fields (Some (k ++ [a])) rest'
  | _, _ => fmt
  end.

Definition fields (datefmt : pystr) (r : log_record) (key : pystr) : pystr :=
  if bool_decide (key = str_of "asctime") then strftime r datefmt
  else if bool_decide (key = str_of "name") then logger_name (what r)
  else if bool_decide (key = str_of "levelname") then levelname (severity_of (what r))
  else if bool_decide (key = str_of "message") then message (what r)
  else [].

(** A handler formats the calls that are not below its level and writes them to its
    stream; stream 0 is [sys.stderr]. *)
Record handler := Handler {
  h_level : Z;
  formatter : log_record -> pystr;
  stream : nat }.

(** The root logger, and what has been written. *)
Record logging := Logging {
  level : Z;
  handlers : list handler;
  output : list (nat * pystr) }.

(** A process starts with the level [WARNING] and no handler. *)
Definition start : logging := Logging (levelno WARNING) [] [].

(** [basicConfig] does nothing when the root has a handler. *)
Definition basicConfig (lvl : Z) (format datefmt : pystr) (g : logging) : logging :=
  match handlers g with
  | [] => Logging lvl [Handler 0 (fun r => percent (fields datefmt r) None format) 0] (output g)
  | _ => g
  end.

(** The handler of last resort writes the bare message, from [WARNING] on. *)
Definition last_resort : handler := Handler (levelno WARNING) (fun r => message (what r)) 0.

Definition handle (r : log_record) (h : handler) : list (nat * pystr) :=
  if h_level h <=? levelno (severity_of (what r)) then [(stream h, formatter h r)] else [].

(** A call of [logger.debug], [info], [warning] or [error]. *)
Definition log (g : logging) (r : log_record) : logging :=
  if level g <=? levelno (severity_of (what r)) then
    let hs := match handlers g with [] => [last_resort] | hs => hs end in
    Logging (level g) (handlers g) (output g ++ flat_map (handle r) hs)
  else g.

(** ** [enable_logging] *)

Definition enable_logging (lvl : Z) (g : logging) : logging :=
  basicConfig lvl (str_of "[%(asctime)s] %(name)s %(levelname)s: %(message)s")
    (str_of "%H:%M:%S") g.

(** The line of a call. *)
Definition line (r : log_record) : pystr :=
  str_of "[" ++ strftime r (str_of "%H:%M:%S") ++ str_of "] " ++ logger_name (what r) ++ str_of " " ++
  levelname (severity_of (what r)) ++ str_of ": " ++ message (what r).

(** ** The properties *)

Lemma line_eq r :
  percent (fields (str_of "%H:%M:%S") r) None
    (str_of "[%(asctime)s] %(name)s %(levelname)s: %(message)s") = line r.
Proof.
  unfold line. rewrite <- (app_nil_r (message (what r))) at 1.
  remember (fields _ r) as f eqn:E.
  assert (f (str_of "asctime") = strftime r (str_of "%H:%M:%S") /\ f (str_of "name") = logger_name (what r) /\
    f (str_of "levelname") = levelname (severity_of (what r)) /\ f (str_of "message") = message (what r))
    as (<- & <- & <- & <-) by by subst f.
  reflexivity.
Qed.

(** One handler for everything, on [stderr]. *)
Lemma handler_lines f (lvl : Z) (rs : list log_record) out :
  output (fold_left log rs (Logging lvl [Handler 0 f 0] out)) =
    out ++ map (fun r => (0%nat, f r)) (filter (fun r => lvl <= levelno (severity_of (what r))) rs).
Proof.
  revert out. induction rs as [|r rs IH]; intros out; cbn [fold_left].
  - by rewrite app_nil_r.
  - unfold log at 2. cbn [level handlers]. rewrite filter_cons.
    destruct (Z.leb_spec lvl (levelno (severity_of (what r)))) as [Hl|Hl].
    + rewrite decide_True by done. rewrite IH. unfold handle. cbn [flat_map h_level output].
      replace (0 <=? levelno (severity_of (what r))) with true by (by destruct (severity_of (what r))).
      cbn [stream formatter app map]. by rewrite <- app_assoc.
    + rewrite decide_False by lia. apply IH.
Qed.

(** A process that has configured no logging sees every call from the level on that
    it gave to [enable_logging], each as one line on [stderr], in order. *)
Lemma enable_logging_lines (lvl : Z) (g : logging) (rs : list log_record) :
  handlers g = [] ->
  output (fold_left log rs (enable_logging lvl g)) =
    output g ++ map (fun r => (0%nat, line r)) (filter (fun r => lvl <= levelno (severity_of (what r))) rs).
Proof.
  intros Hg. unfold enable_logging, basicConfig. rewrite Hg, handler_lines. f_equal.
  apply map_ext. intros r. by rewrite line_eq.
Qed.

(** A process that has a handler is left as it is: [enable_logging] neither adds a
    handler nor sets the level, and so a second call does nothing. *)
Lemma enable_logging_once (lvl lvl' : Z) (g : logging) :
  (handlers g <> [] -> enable_logging lvl g = g) /\
  enable_logging lvl' (enable_logging lvl g) = enable_logging lvl g.
Proof.
  unfold enable_logging, basicConfig. destruct g as [l [|h hs] out]; simpl; [|done]. by split.
Qed.

(** Without [enable_logging], warnings and errors are bare lines. *)
Lemma default_lines (rs : list log_record) :
  output (fold_left log rs start) =
    map (fun r => (0%nat, message (what r))) (filter (fun r => 30 <= levelno (severity_of (what r))) rs).
Proof.
  assert (forall out, output (fold_left log rs (Logging (levelno WARNING) [] out)) =
    out ++ map (fun r => (0%nat, message (what r))) (filter (fun r => 30 <= levelno (severity_of (what r))) rs))
    as H; [|apply H].
  induction rs as [|r rs IH]; intros out; cbn [fold_left].
  - by rewrite app_nil_r.
  - unfold log at 2. cbn [level handlers]. rewrite filter_cons. change (levelno WARNING) with 30.
    destruct (Z.leb_spec 30 (levelno (severity_of (what r)))) as [Hl|Hl].
    + rewrite decide_True by done. rewrite IH. unfold last_resort, handle. cbn [flat_map h_level output].
      change (levelno WARNING) with 30. rewrite (proj2 (Z.leb_le _ _) Hl).
      cbn [stream formatter app map]. by rewrite <- app_assoc.
    + rewrite decide_False by lia. apply IH.
Qed.

(** From [INFO] on, no line holds data that was received. *)
Lemma no_data_above_debug (lvl : Z) (g : logging) (rs : list log_record) :
  handlers g = [] -> levelno INFO <= lvl ->
  exists rs', output (fold_left log rs (enable_logging lvl g)) = output g ++ map (fun r => (0%nat, line r)) rs' /\
    forall r msg, r ∈ rs' -> what r <> Received msg.
Proof.
  intros Hg Hl. eexists. split; [by apply enable_logging_lines|].
  intros r msg Hr E. apply list_elem_of_filter in Hr as [Hr _]. rewrite E in Hr. simpl in *. lia.
Qed.
