(* ===== verification/Socket.v ===== *)
(** * Python's [socket.socket] and [threading.Timer], as the clients use them

    A [socket] carries what the operating system decides about it: whether a
    server listens at the address it is going to connect to, and how many bytes
    the connection takes before it breaks ([None]: it does not break). [sk_sent]
    is the stream of bytes the connection has taken so far. Every operation that
    fails raises [SocketError], which is [OSError]. *)

From S2P Require Export Framing.

Inductive phase := Fresh | Open | Closed.

#[export] Instance phase_eq_dec : EqDecision phase.
Proof. solve_decision. Defined.

Record socket := Socket {
  sk_phase : phase;
  sk_listening : bool;
  sk_room : option nat;
  sk_sent : bytes }.

Definition sock_connect : M socket unit := fun sk =>
  match sk_phase sk with
  | Fresh =>
    if sk_listening sk then
      (Ret tt, Socket Open (sk_listening sk) (sk_room sk) (sk_sent sk))
    else (Raise SocketError, sk)
  | _ => (Raise SocketError, sk)
  end.

(** [sendall]: on an error part of the data may have been sent. *)
Definition sock_sendall (data : bytes) : M socket unit := fun sk =>
  match sk_phase sk, sk_room sk with
  | Open, None => (Ret tt, Socket Open (sk_listening sk) None (sk_sent sk ++ data))
  | Open, Some n =>
    if (length data <=? n)%nat then
      (Ret tt, Socket Open (sk_listening sk) (Some (n - length data)%nat) (sk_sent sk ++ data))
    else
      (Raise SocketError, Socket Open (sk_listening sk) (Some 0%nat) (sk_sent sk ++ take n data))
  | _, _ => (Raise SocketError, sk)
  end.

(** [recv]: [got] is what the operating system answers, [None] an error; the
    empty answer is the end of the stream. *)
Definition sock_recv (got : option bytes) : M socket bytes := fun sk =>
  match sk_phase sk, got with
  | Open, Some chunk => (Ret chunk, sk)
  | _, _ => (Raise SocketError, sk)
  end.

Definition sock_close : M socket unit :=
  modify (fun sk => Socket Closed (sk_listening sk) (sk_room sk) (sk_sent sk)).

(** The timers of a process: those that were started and have neither fired nor
    been cancelled, and the identity the next one gets. *)
Record timers := Timers { tm_live : list nat; tm_next : nat }.

(** [threading.Timer(...)] then [start()] *)
Definition timer_start (tm : timers) : nat * timers :=
  (tm_next tm, Timers (tm_next tm :: tm_live tm) (S (tm_next tm))).

(** [cancel()]: nothing happens when the timer is not live. *)
Definition timer_cancel (i : nat) (tm : timers) : timers :=
  Timers (filter (fun j => j <> i) (tm_live tm)) (tm_next tm).

(** ** Lemmas *)

Lemma sendall_prefix data sk o sk' :
  sock_sendall data sk = (o, sk') -> exists x, sk_sent sk' = sk_sent sk ++ x /\ x `prefix_of` data.
Proof.
  unfold sock_sendall. intros H.
  destruct (sk_phase sk), (sk_room sk) as [n|]; try case_match; simplify_eq; simpl;
    try (exists []; rewrite app_nil_r; split; [done|apply prefix_nil]);
    try (exists data; done).
  exists (take n data). split; [done|]. exists (drop n data). by rewrite take_drop.
Qed.

(** The part of [data] a socket takes. *)
Definition accepted (data : bytes) (sk : socket) : bytes :=
  match sk_phase sk, sk_room sk with
  | Open, None => data
  | Open, Some n => take n data
  | _, _ => []
  end.

Lemma sendall_accepted data sk :
  data <> [] ->
  fst (sock_sendall data sk) =
    (if bool_decide (accepted data sk = data) then Ret tt else Raise SocketError) /\
  sk_sent (snd (sock_sendall data sk)) = sk_sent sk ++ accepted data sk /\
  sk_phase (snd (sock_sendall data sk)) = sk_phase sk.
Proof.
  intros Hne. unfold sock_sendall, accepted.
  destruct (sk_phase sk) eqn:Ep, (sk_room sk) as [n|]; simpl;
    rewrite ?Ep, ?(bool_decide_eq_false_2 ([] = data)), ?app_nil_r by congruence; try done.
  - destruct (Nat.leb_spec (length data) n) as [Hle|Hlt]; simpl.
    + by rewrite take_ge, bool_decide_eq_true_2.
    + rewrite bool_decide_eq_false_2; [done|]. intros E%(f_equal length).
      rewrite length_take in E. lia.
  - by rewrite bool_decide_eq_true_2.
Qed.

Lemma sendall_not_open data sk :
  sk_phase sk <> Open -> sock_sendall data sk = (Raise SocketError, sk).
Proof. unfold sock_sendall. by destruct (sk_phase sk). Qed.

Lemma sendall_open data sk :
  sk_phase sk = Open -> sk_room sk = None ->
  sock_sendall data sk = (Ret tt, Socket Open (sk_listening sk) None (sk_sent sk ++ data)).
Proof. unfold sock_sendall. by intros -> ->. Qed.
