(* ===== verification/TcpClient.v ===== *)
(** * [TcpClient]: framing, sending, the receive loop and the heartbeat

    Models knotlink-sdk-python/knotlink/knotlink/tcpclient.py. [tcp] is the state
    of a client; its methods are computations of the state and exception monad.
    What runs when a message arrives belongs to the object that owns the client:
    [TcpHost] is the interface between the two, so that the receive loop is
    written once, for every owner and for every callback, also one that raises
    or that calls back into the client.

    The receive thread is [receive_data], run on the answers of [recv] and on
    what the other threads did while it was blocked in [recv]. *)

From S2P Require Export Socket.

(** ** State *)

Record tcp (H : Type) := Tcp {
  tcp_socket : socket;
  heart_beat_interval : Z;
  heart_beat_timer : option nat;
  _connected_event : bool;
  received_data_callback : option H;
  buffer : bytes;
  _server : option (pystr * Z);
  process_timers : timers;
  receive_threads : nat }.
Arguments Tcp {H}.
Arguments tcp_socket {H}.
Arguments heart_beat_interval {H}.
Arguments heart_beat_timer {H}.
Arguments _connected_event {H}.
Arguments received_data_callback {H}.
Arguments buffer {H}.
Arguments _server {H}.
Arguments process_timers {H}.
Arguments receive_threads {H}.

Section operations.
Context {H : Type}.
Implicit Types t : tcp H.

Definition set_socket (x : socket) t : tcp H :=
  Tcp x (heart_beat_interval t) (heart_beat_timer t) (_connected_event t)
    (received_data_callback t) (buffer t) (_server t) (process_timers t) (receive_threads t).
Definition set_timer (x : option nat) t : tcp H :=
  Tcp (tcp_socket t) (heart_beat_interval t) x (_connected_event t)
    (received_data_callback t) (buffer t) (_server t) (process_timers t) (receive_threads t).
Definition set_connected (x : bool) t : tcp H :=
  Tcp (tcp_socket t) (heart_beat_interval t) (heart_beat_timer t) x
    (received_data_callback t) (buffer t) (_server t) (process_timers t) (receive_threads t).
Definition set_callback (x : option H) t : tcp H :=
  Tcp (tcp_socket t) (heart_beat_interval t) (heart_beat_timer t) (_connected_event t)
    x (buffer t) (_server t) (process_timers t) (receive_threads t).
Definition set_buffer (x : bytes) t : tcp H :=
  Tcp (tcp_socket t) (heart_beat_interval t) (heart_beat_timer t) (_connected_event t)
    (received_data_callback t) x (_server t) (process_timers t) (receive_threads t).
Definition set_server (x : option (pystr * Z)) t : tcp H :=
  Tcp (tcp_socket t) (heart_beat_interval t) (heart_beat_timer t) (_connected_event t)
    (received_data_callback t) (buffer t) x (process_timers t) (receive_threads t).
Definition set_timers (x : timers) t : tcp H :=
  Tcp (tcp_socket t) (heart_beat_interval t) (heart_beat_timer t) (_connected_event t)
    (received_data_callback t) (buffer t) (_server t) x (receive_threads t).
Definition set_receive_threads (x : nat) t : tcp H :=
  Tcp (tcp_socket t) (heart_beat_interval t) (heart_beat_timer t) (_connected_event t)
    (received_data_callback t) (buffer t) (_server t) (process_timers t) x.

Definition on_socket {A} (m : M socket A) : M (tcp H) A := zoom tcp_socket set_socket m.

(** [TcpClient()]: [listening] and [room] are the fate of its socket. *)
Definition __init__ (listening : bool) (room : option nat) : tcp H :=
  Tcp (Socket Fresh listening room []) 180 None false None [] None (Timers [] 0) 0.

(** The property [connected] and its setter. *)
Definition connected : M (tcp H) bool := gets _connected_event.

Definition set_connected_to (value : bool) : M (tcp H) unit := modify (set_connected value).

(** ** Heartbeat and sending *)

Definition start_heart_beat : M (tcp H) unit :=
  let! c := connected in
  if negb c then ret tt
  else modify (fun t =>
    let '(i, tm) := timer_start (process_timers t) in
    set_timers tm (set_timer (Some i) t)).

Definition _write_with_length_prefix (data : bytes) : M (tcp H) unit :=
  let! c := connected in
  if negb c then ret tt
  else
    try_except
      (let length := len data in
       if MAX_MSG_SIZE <? length then raise ValueError
       else
         let! packed := of_option StructError (pack_I length) in
         let prefix := MAGIC ++ packed in
         on_socket (sock_sendall (prefix ++ data)))
      is_socket_error
      (fun _ => set_connected_to false).

Definition send_data (data : bytes) : M (tcp H) unit := _write_with_length_prefix data.

Definition send_heart_beat : M (tcp H) unit :=
  let! c := connected in
  if c then _write_with_length_prefix HEARTBEAT >> start_heart_beat
  else ret tt.

(** The thread of timer [i]: it runs [send_heart_beat] when the interval is
    over and the timer was not cancelled. *)
Definition timer_expires (i : nat) : M (tcp H) unit :=
  let! tm := gets process_timers in
  if bool_decide (i ∈ tm_live tm) then
    modify (set_timers (timer_cancel i tm)) >> send_heart_beat
  else ret tt.

(** ** Connecting and disconnecting *)

Definition connect_to_server (ip : pystr) (port : Z) : M (tcp H) unit :=
  modify (set_server (Some (ip, port))) >>
  try_except
    (on_socket sock_connect >>
     set_connected_to true >>
     start_heart_beat >>
     modify (fun t => set_receive_threads (S (receive_threads t)) t))
    is_socket_error
    (fun _ => ret tt).

Definition disconnect : M (tcp H) unit :=
  set_connected_to false >>
  (let! timer := gets heart_beat_timer in
   match timer with
   | Some i =>
     modify (fun t => set_timers (timer_cancel i (process_timers t)) t) >>
     modify (set_timer None)
   | None => ret tt
   end) >>
  try_except (on_socket sock_close) is_socket_error (fun _ => ret tt).

End operations.

(** ** The owner of a client *)

(** [St] is the state of an object that holds a client in one of its attributes;
    [H] names the callables it installs as [received_data_callback], and
    [on_data h] is what calling one does. *)
Class TcpHost (St H : Type) := {
  client : St -> tcp H;
  set_client : tcp H -> St -> St;
  on_data : H -> bytes -> M St unit;
  client_set_client t s : client (set_client t s) = t;
  set_client_client s : set_client (client s) s = s;
  set_client_twice t t' s : set_client t (set_client t' s) = set_client t s }.

(** One answer of [recv], and what other threads did before it came. *)
Record recv_event (St : Type) := RecvEvent {
  meanwhile : M St unit;
  received : option bytes }.
Arguments RecvEvent {St} meanwhile received.
Arguments meanwhile {St} r.
Arguments received {St} r.

Section receiving.
Context {St H : Type} `{TcpHost St H}.

Definition on_tcp {A} (m : M (tcp H) A) : M St A := zoom client set_client m.

Definition handle_received_data (data : bytes) : M St unit :=
  let! callback := on_tcp (gets received_data_callback) in
  match callback with
  | Some h => on_data h data
  | None => ret tt
  end.

(** The loop of [_process_buffer]. *)
Fixpoint process_loop (fuel : nat) : M St unit :=
  match fuel with
  | O => stuck
  | S fuel =>
    let! buf := on_tcp (gets buffer) in
    if len buf <? HEADER_LEN then ret tt
    else if negb (bool_decide (slice 0 MAGIC_LEN buf = MAGIC)) then
      on_tcp (set_connected_to false >> on_socket sock_close)
    else
      let! length := of_option StructError (unpack_I (slice MAGIC_LEN HEADER_LEN buf)) in
      if (length =? 0) || (MAX_MSG_SIZE <? length) then
        on_tcp (set_connected_to false >> on_socket sock_close)
      else if len buf <? HEADER_LEN + length then ret tt
      else
        let msg := slice HEADER_LEN (HEADER_LEN + length) buf in
        on_tcp (modify (set_buffer (slice_from (HEADER_LEN + length) buf))) >>
        (if bool_decide (msg = HEARTBEAT_RESPONSE) then ret tt
         else handle_received_data msg) >>
        process_loop fuel
  end.

(** Each turn takes at least nine bytes from the buffer: its length is fuel
    enough when the callbacks leave the buffer alone. *)
Definition _process_buffer : M St unit :=
  let! buf := on_tcp (gets buffer) in process_loop (S (length buf)).

(** One turn of [receive_data] after the test of [connected]; the result says
    whether the loop goes on. *)
Definition receive_turn (ev : recv_event St) : M St bool :=
  in_thread (meanwhile ev) >>
  try_except
    (let! chunk := on_tcp (on_socket (sock_recv (received ev))) in
     if bool_decide (chunk = []) then on_tcp (set_connected_to false) >> ret false
     else
       on_tcp (modify (fun t => set_buffer (buffer t ++ chunk) t)) >>
       _process_buffer >>
       ret true)
    is_socket_error
    (fun _ =>
       let! c := on_tcp connected in
       if negb c then ret false
       else on_tcp (set_connected_to false) >> ret false).

(** The receive thread: it returns when the loop ends, and is [Stuck] while it
    waits for an answer of [recv] that does not come. *)
Fixpoint receive_data (evs : list (recv_event St)) : M St unit :=
  let! c := on_tcp connected in
  if negb c then ret tt
  else
    match evs with
    | [] => stuck
    | ev :: evs =>
      let! continue := receive_turn ev in
      if continue then receive_data evs else ret tt
    end.

End receiving.

(** ** Observers used in the statements *)

(** What [_process_buffer] does to the client on a fault. *)
Definition sock_closed (sk : socket) : socket :=
  Socket Closed (sk_listening sk) (sk_room sk) (sk_sent sk).

Definition kill {H} (t : tcp H) : tcp H :=
  set_socket (sock_closed (tcp_socket t)) (set_connected false t).

(** A client that is connected over a connection that does not break. *)
Definition live {H} (t : tcp H) : Prop :=
  _connected_event t = true /\
  sk_phase (tcp_socket t) = Open /\ sk_room (tcp_socket t) = None.

Definition more_sent {H} (x : bytes) (t : tcp H) : tcp H :=
  set_socket (Socket Open (sk_listening (tcp_socket t)) None (sk_sent (tcp_socket t) ++ x)) t.

Definition wire {H} (t : tcp H) : bytes := sk_sent (tcp_socket t).

(** A host whose callbacks return, leave the client alone, and do not look at
    it: what it does with a message is a function on the rest of its state. *)
Class QuietHost (St H : Type) `{TcpHost St H} := {
  deliver : H -> bytes -> St -> St;
  on_data_quiet h d s : on_data h d s = (Ret tt, deliver h d s);
  client_deliver h d s : client (deliver h d s) = client s;
  deliver_set_client h d t s : deliver h d (set_client t s) = set_client t (deliver h d s) }.

Definition deliver_opt `{QuietHost St H} (c : option H) (d : bytes) (s : St) : St :=
  match c with Some h => deliver h d s | None => s end.

Definition deliver_all `{QuietHost St H} (c : option H) (ms : list bytes) (s : St) : St :=
  fold_left (fun s m => deliver_opt c m s) ms s.

(** Chunks that arrive while no other thread runs. *)
Definition chunk_events {St} (chunks : list bytes) : list (recv_event St) :=
  map (fun c => RecvEvent (ret tt) (Some c)) chunks.

(** A host that keeps the messages it is handed. *)
Record recorder := Recorder { rec_client : tcp unit; rec_log : list bytes }.

#[export] Instance recorder_host : TcpHost recorder unit.
Proof.
  refine {| client := rec_client; set_client t s := Recorder t (rec_log s);
            on_data _ d := modify (fun s => Recorder (rec_client s) (rec_log s ++ [d])) |}.
  all: by intros; try destruct s.
Defined.

#[export] Instance recorder_quiet : QuietHost recorder unit.
Proof.
  refine {| deliver _ d s := Recorder (rec_client s) (rec_log s ++ [d]) |}; done.
Defined.

(** A client on its own: its callback does nothing. *)
Definition bare_host {H} : TcpHost (tcp H) H.
Proof.
  refine {| client t := t; set_client t _ := t; on_data _ _ := ret tt |}; done.
Defined.

(** What can happen to a client: its methods are called, its timer fires, an
    answer of [recv] is handled, a callback is installed. *)
Inductive tcp_step {H} : tcp H -> tcp H -> Prop :=
| step_connect ip port t : tcp_step t (snd (connect_to_server ip port t))
| step_send data t : tcp_step t (snd (send_data data t))
| step_disconnect t : tcp_step t (snd (disconnect t))
| step_expires i t : tcp_step t (snd (timer_expires i t))
| step_receive got t :
    _connected_event t = true ->
    tcp_step t (snd (@receive_turn (tcp H) H bare_host (RecvEvent (ret tt) got) t))
| step_callback c t : tcp_step t (set_callback c t).

(** The invariant: a connected client has an open socket and exactly one live
    timer, the one [heart_beat_timer] names; a client that is not connected has
    at most that one; there is at most one receive thread, and none before the
    connection. *)
Record wf {H} (t : tcp H) : Prop := Wf {
  wf_open : _connected_event t = true -> sk_phase (tcp_socket t) = Open;
  wf_fresh : sk_phase (tcp_socket t) = Fresh -> tm_live (process_timers t) = [];
  wf_timer :
    match tm_live (process_timers t) with
    | [] => _connected_event t = false
    | [i] => heart_beat_timer t = Some i
    | _ => False
    end;
  wf_threads : (receive_threads t <= 1)%nat;
  wf_no_thread : sk_phase (tcp_socket t) = Fresh -> receive_threads t = 0%nat }.

(** ** Lemmas: sending *)

Section send_lemmas.
Context {H : Type}.
Implicit Types t : tcp H.

Lemma send_data_frame t data x :
  live t -> len data <= MAX_MSG_SIZE -> frame data = Some x ->
  send_data data t = (Ret tt, more_sent x t).
Proof.
  intros (Hc & Ho & Hr) Hlen Hx. unfold frame in Hx.
  unfold send_data, _write_with_length_prefix, connected, try_except. step.
  rewrite Hc. cbn [negb]. rewrite (proj2 (Z.ltb_ge _ _)) by done.
  destruct (pack_I (len data)) as [p|]; [|done].
  assert (x = (MAGIC ++ p) ++ data) as -> by (rewrite <- app_assoc; congruence).
  unfold on_socket, zoom. by rewrite sendall_open.
Qed.

Lemma live_more_sent x t : live t -> live (more_sent x t).
Proof. intros (Hc & Ho & Hr). by split_and!. Qed.

Lemma more_sent_twice x y t : more_sent y (more_sent x t) = more_sent (x ++ y) t.
Proof. unfold more_sent, set_socket. simpl. by rewrite app_assoc. Qed.

Lemma send_data_disconnected t data :
  _connected_event t = false -> send_data data t = (Ret tt, t).
Proof.
  intros Hc. unfold send_data, _write_with_length_prefix, connected. step. by rewrite Hc.
Qed.

Lemma send_data_too_long t data :
  _connected_event t = true -> MAX_MSG_SIZE < len data ->
  send_data data t = (Raise ValueError, t).
Proof.
  intros Hc Hlen. unfold send_data, _write_with_length_prefix, connected, try_except. step.
  rewrite Hc. cbn [negb]. by rewrite (proj2 (Z.ltb_lt _ _)).
Qed.

(** [struct.pack] never fails: a length that passes the test fits 32 bits. *)
Lemma send_data_sendall t data :
  _connected_event t = true -> len data <= MAX_MSG_SIZE ->
  exists x, frame data = Some x /\
    send_data data t =
      try_except (on_socket (sock_sendall x)) is_socket_error
        (fun _ => set_connected_to false) t.
Proof.
  intros Hc Hlen. destruct (frame_is_Some data Hlen) as [x Hx].
  exists x. split; [done|]. unfold frame in Hx.
  unfold send_data, _write_with_length_prefix, connected, try_except. step.
  rewrite Hc. cbn [negb]. rewrite (proj2 (Z.ltb_ge _ _)) by done.
  destruct (pack_I (len data)) as [p|]; [|done].
  assert (x = (MAGIC ++ p) ++ data) as -> by (rewrite <- app_assoc; congruence).
  done.
Qed.

Lemma send_data_not_stuck data t : fst (send_data data t) <> Stuck.
Proof.
  destruct (_connected_event t) eqn:Hc; [|by rewrite send_data_disconnected].
  destruct (Z.ltb_spec MAX_MSG_SIZE (len data)) as [Hlt|Hle]; [by rewrite send_data_too_long|].
  destruct (send_data_sendall t data Hc Hle) as (x & _ & ->).
  unfold try_except, on_socket, zoom, sock_sendall.
  destruct (sk_phase (tcp_socket t)), (sk_room (tcp_socket t)); simpl; try done.
  by destruct (_ <=? _)%nat.
Qed.

Lemma send_all_frames t ms x :
  live t -> Forall (fun m => len m <= MAX_MSG_SIZE) ms -> frames ms = Some x ->
  seq_all (map send_data ms) t = (Ret tt, more_sent x t).
Proof.
  intros Hl Hms. revert t x Hl. induction Hms as [|m ms Hm _ IH]; intros t x Hl; simpl.
  - intros [= <-]. destruct Hl as (_ & Ho & Hr).
    unfold more_sent, set_socket. rewrite app_nil_r, <- Ho, <- Hr. by destruct t as [[]].
  - destruct (frame m) as [y|] eqn:Ey; [|done].
    destruct (frames ms) as [z|]; [|done]. intros E.
    assert (x = y ++ z) as -> by congruence. unfold bind.
    rewrite (send_data_frame t m y) by done.
    rewrite (IH (more_sent y t) z) by auto using live_more_sent.
    by rewrite more_sent_twice.
Qed.

End send_lemmas.

(** ** Lemmas: receiving *)

Section receive_lemmas.
Context {St H : Type} `{TcpHost St H}.
Implicit Types s : St.

Lemma on_tcp_gets {A} (f : tcp H -> A) s : on_tcp (gets f) s = (Ret (f (client s)), s).
Proof. unfold on_tcp, zoom, gets. by rewrite set_client_client. Qed.

Lemma on_tcp_modify (f : tcp H -> tcp H) s :
  on_tcp (modify f) s = (Ret tt, set_client (f (client s)) s).
Proof. done. Qed.

Lemma on_tcp_kill s :
  on_tcp (set_connected_to false >> on_socket sock_close) s =
    (Ret tt, set_client (kill (client s)) s).
Proof. done. Qed.

Definition dispatch (m : bytes) : M St unit :=
  if bool_decide (m = HEARTBEAT_RESPONSE) then ret tt else handle_received_data m.

(** One turn of the loop of [_process_buffer], by what the buffer starts with. *)
Lemma process_loop_turn fuel s :
  process_loop (S fuel) s =
    match next_frame (buffer (client s)) with
    | More => (Ret tt, s)
    | Fault _ => (Ret tt, set_client (kill (client s)) s)
    | Message m rest =>
      bind (dispatch m) (fun _ => process_loop fuel)
        (set_client (set_buffer rest (client s)) s)
    end.
Proof.
  cbn [process_loop]. rewrite (bind_Ret _ _ _ _ _ (on_tcp_gets buffer s)).
  pose proof (header_tests (ret tt) (on_tcp (set_connected_to false >> on_socket sock_close))
    (raise StructError)
    (fun m rest => on_tcp (modify (set_buffer rest)) >> dispatch m >> process_loop fuel)
    (buffer (client s))) as Ht.
  apply (f_equal (fun m => m s)) in Ht. etrans; [|etrans; [exact Ht|]].
  - by destruct (unpack_I _).
  - by destruct (next_frame _).
Qed.

End receive_lemmas.

(** What a whole parse does to a client. *)
Definition settle {H} (p : parsed) (t : tcp H) : tcp H :=
  match p_fault p with
  | None => set_buffer (p_rest p) t
  | Some _ => kill (set_buffer (p_rest p) t)
  end.

Lemma set_buffer_id {H} (t : tcp H) : set_buffer (buffer t) t = t.
Proof. by destruct t. Qed.

Lemma set_socket_id {H} (t : tcp H) : set_socket (tcp_socket t) t = t.
Proof. by destruct t. Qed.

Lemma on_tcp_recv {St H} `{TcpHost St H} got (s : St) :
  on_tcp (on_socket (sock_recv got)) s = (fst (sock_recv got (tcp_socket (client s))), s).
Proof.
  unfold on_tcp, on_socket, zoom, sock_recv.
  destruct (sk_phase _), got; simpl; by rewrite set_socket_id, set_client_client.
Qed.

(** A chunk is appended to the buffer, which is then processed. *)
Lemma receive_turn_chunk {St H} `{TcpHost St H} c (s : St) :
  c <> [] -> sk_phase (tcp_socket (client s)) = Open ->
  receive_turn (RecvEvent (ret tt) (Some c)) s =
    try_except (_process_buffer >> ret true) is_socket_error
      (fun _ =>
         let! c := on_tcp connected in
         if negb c then ret false else on_tcp (set_connected_to false) >> ret false)
      (set_client (set_buffer (buffer (client s) ++ c) (client s)) s).
Proof.
  intros Hc Ho. unfold receive_turn, in_thread, bind at 1. simpl. unfold try_except.
  assert (on_tcp (on_socket (sock_recv (Some c))) s = (Ret c, s)) as Hr.
  { rewrite on_tcp_recv. unfold sock_recv. by rewrite Ho. }
  rewrite (bind_Ret _ _ _ _ _ Hr), bool_decide_false by done.
  by rewrite (bind_Ret _ _ _ _ _ (on_tcp_modify _ s)).
Qed.

Section quiet_lemmas.
Context {St H : Type} `{QuietHost St H}.
Implicit Types s : St.

Lemma deliver_all_app c ms ns s :
  deliver_all c (ms ++ ns) s = deliver_all c ns (deliver_all c ms s).
Proof. apply fold_left_app. Qed.

Lemma client_deliver_all c ms s : client (deliver_all c ms s) = client s.
Proof.
  revert s. induction ms as [|m ms IH]; intros s; simpl; [done|].
  rewrite IH. destruct c; simpl; [apply client_deliver|done].
Qed.

Lemma deliver_all_set_client c ms t s :
  deliver_all c ms (set_client t s) = set_client t (deliver_all c ms s).
Proof.
  revert s. induction ms as [|m ms IH]; intros s; simpl; [done|].
  destruct c; simpl; [rewrite deliver_set_client|]; apply IH.
Qed.

Lemma handle_received_data_quiet m s :
  handle_received_data m s = (Ret tt, deliver_opt (received_data_callback (client s)) m s).
Proof.
  unfold handle_received_data. rewrite (bind_Ret _ _ _ _ _ (on_tcp_gets _ s)).
  destruct (received_data_callback (client s)); simpl; [apply on_data_quiet|done].
Qed.

Lemma dispatch_quiet m s :
  dispatch m s =
    (Ret tt, deliver_all (received_data_callback (client s))
       (if bool_decide (m = HEARTBEAT_RESPONSE) then [] else [m]) s).
Proof.
  unfold dispatch. case_bool_decide; [done|]. apply handle_received_data_quiet.
Qed.

Lemma process_loop_quiet fuel s :
  (length (buffer (client s)) < fuel)%nat ->
  process_loop fuel s =
    (Ret tt,
     deliver_all (received_data_callback (client s)) (payloads (p_msgs (parse (buffer (client s)))))
       (set_client (settle (parse (buffer (client s))) (client s)) s)).
Proof.
  revert s. induction fuel as [|fuel IH]; intros s Hf; [lia|].
  rewrite process_loop_turn, parse_unfold.
  destruct (next_frame (buffer (client s))) as [|f|m rest] eqn:E.
  - unfold settle. simpl. by rewrite set_buffer_id, set_client_client.
  - unfold settle. simpl. by rewrite set_buffer_id.
  - rewrite (bind_Ret _ _ _ _ _ (dispatch_quiet _ _)).
    apply next_frame_shorter in E.
    rewrite IH; rewrite client_deliver_all, client_set_client; simpl; [|lia].
    rewrite payloads_cons, deliver_all_app. f_equal.
    rewrite <- deliver_all_set_client, set_client_twice. unfold settle. simpl.
    by destruct (p_fault (parse rest)).
Qed.

Lemma process_buffer_quiet s :
  _process_buffer s =
    (Ret tt,
     deliver_all (received_data_callback (client s)) (payloads (p_msgs (parse (buffer (client s)))))
       (set_client (settle (parse (buffer (client s))) (client s)) s)).
Proof.
  unfold _process_buffer. rewrite (bind_Ret _ _ _ _ _ (on_tcp_gets _ s)).
  apply process_loop_quiet. lia.
Qed.

(** One non-empty chunk. *)
Lemma receive_turn_quiet c s :
  c <> [] -> sk_phase (tcp_socket (client s)) = Open ->
  receive_turn (RecvEvent (ret tt) (Some c)) s =
    let p := parse (buffer (client s) ++ c) in
    (Ret true,
     deliver_all (received_data_callback (client s)) (payloads (p_msgs p))
       (set_client (settle p (client s)) s)).
Proof.
  intros Hc Ho. rewrite receive_turn_chunk by done. unfold try_except.
  rewrite (bind_Ret _ _ _ _ _ (process_buffer_quiet _)).
  by rewrite client_set_client, set_client_twice.
Qed.

Lemma receive_data_connected evs s :
  _connected_event (client s) = true ->
  receive_data evs s =
    match evs with
    | [] => (Stuck, s)
    | ev :: evs => bind (receive_turn ev) (fun c => if c then receive_data evs else ret tt) s
    end.
Proof.
  intros Hc. destruct evs; cbn [receive_data]; unfold connected;
    rewrite (bind_Ret _ _ _ _ _ (on_tcp_gets _ s)), Hc; done.
Qed.

Lemma receive_data_disconnected evs s :
  _connected_event (client s) = false -> receive_data evs s = (Ret tt, s).
Proof.
  intros Hc. destruct evs; cbn [receive_data]; unfold connected;
    rewrite (bind_Ret _ _ _ _ _ (on_tcp_gets _ s)), Hc; done.
Qed.

#[local] Arguments receive_data : simpl never.

Lemma receive_chunk c chunks s :
  c <> [] -> _connected_event (client s) = true -> sk_phase (tcp_socket (client s)) = Open ->
  receive_data (chunk_events (c :: chunks)) s =
    let p := parse (buffer (client s) ++ c) in
    receive_data (chunk_events chunks)
      (deliver_all (received_data_callback (client s)) (payloads (p_msgs p))
         (set_client (settle p (client s)) s)).
Proof.
  intros Hc Hcon Ho. rewrite receive_data_connected by done.
  exact (bind_Ret _ _ _ _ _ (receive_turn_quiet c s Hc Ho)).
Qed.

(** The receive loop on chunks is the parser on the whole stream. *)
Lemma receive_data_chunks chunks s :
  Forall (fun c => c <> []) chunks ->
  _connected_event (client s) = true -> sk_phase (tcp_socket (client s)) = Open ->
  next_frame (buffer (client s)) = More ->
  let p := parse (buffer (client s) ++ concat chunks) in
  let done s' := deliver_all (received_data_callback (client s)) (payloads (p_msgs p)) s' in
  match p_fault p with
  | None =>
    receive_data (chunk_events chunks) s =
      (Stuck, done (set_client (set_buffer (p_rest p) (client s)) s))
  | Some f =>
    exists r, r `prefix_of` p_rest p /\ next_frame r = Fault f /\
      receive_data (chunk_events chunks) s =
        (Ret tt, done (set_client (kill (set_buffer r (client s))) s))
  end.
Proof.
  intros Hne. revert s. induction Hne as [|c chunks Hc Hne IH]; intros s Hcon Ho Hmore;
    cbv zeta.
  - assert (parse (buffer (client s) ++ concat []) = Parsed [] (buffer (client s)) None) as ->.
    { simpl. by rewrite app_nil_r, parse_unfold, Hmore. }
    simpl. rewrite receive_data_connected by done. simpl.
    by rewrite set_buffer_id, set_client_client.
  - assert (concat (c :: chunks) = c ++ concat chunks) as -> by done.
    rewrite app_assoc, parse_app.
    rewrite receive_chunk by done.
    destruct (parse (buffer (client s) ++ c)) as [ms rest f] eqn:Ep. simpl.
    destruct f as [f|]; simpl.
    + pose proof (parse_sound (buffer (client s) ++ c)) as (_ & _ & Hf).
      rewrite Ep in Hf. simpl in Hf.
      exists rest. split; [by eexists|]. split; [done|].
      rewrite receive_data_disconnected; [done|].
      by rewrite client_deliver_all, client_set_client.
    + pose proof (parse_sound (buffer (client s) ++ c)) as (_ & _ & Hf).
      rewrite Ep in Hf. simpl in Hf.
      set (s1 := deliver_all _ _ (set_client _ s)).
      assert (client s1 = set_buffer rest (client s)) as Hs1
        by (unfold s1; by rewrite client_deliver_all, client_set_client).
      specialize (IH s1). rewrite Hs1 in IH. simpl in IH. specialize (IH Hcon Ho Hf).
      revert IH. cbv zeta.
      destruct (parse (rest ++ concat chunks)) as [ms' rest' [f'|]] eqn:Ep'; simpl.
      * intros (r & Hr & Hfr & IH). exists r. split; [done|]. split; [done|].
        rewrite IH. f_equal. unfold s1.
        rewrite payloads_app, deliver_all_app. f_equal.
        by rewrite <- deliver_all_set_client, set_client_twice.
      * intros IH. rewrite IH. f_equal. unfold s1.
        rewrite payloads_app, deliver_all_app. f_equal.
        by rewrite <- deliver_all_set_client, set_client_twice.
Qed.

(** Whole messages that arrive at an empty buffer. *)
Lemma receive_data_frames ms chunks s :
  Forall (fun c => c <> []) chunks ->
  _connected_event (client s) = true -> sk_phase (tcp_socket (client s)) = Open ->
  buffer (client s) = [] ->
  Forall (fun m => valid_body m = true) ms -> frames ms = Some (concat chunks) ->
  receive_data (chunk_events chunks) s =
    (Stuck, deliver_all (received_data_callback (client s)) (payloads ms) s).
Proof.
  intros Hne Hc Ho Hb Hv Hx.
  assert (parse (buffer (client s) ++ concat chunks) = Parsed ms [] None) as Hp.
  { rewrite Hb. simpl. rewrite <- (app_nil_r (concat chunks)), (parse_frames ms) by done.
    unfold prepend. simpl. by rewrite app_nil_r. }
  pose proof (receive_data_chunks chunks s Hne Hc Ho) as Hr.
  rewrite Hb in Hr. specialize (Hr eq_refl). rewrite <- Hb, Hp in Hr. simpl in Hr.
  rewrite Hr. f_equal. by rewrite <- Hb, set_buffer_id, set_client_client.
Qed.

End quiet_lemmas.

(** ** Lemmas: the invariant *)

Section wf_lemmas.
Context {H : Type}.
Implicit Types t : tcp H.

Lemma wf_init l r : wf (__init__ (H:=H) l r).
Proof. split; simpl; done || lia. Qed.

Lemma wf_kill t : wf t -> wf (kill t).
Proof.
  intros [Ho Hf Ht Hn Hn']. split; simpl; try done.
  by destruct (tm_live _) as [|i []].
Qed.

Lemma wf_set_buffer x t : wf t -> wf (set_buffer x t).
Proof. intros []. by split. Qed.

Lemma wf_set_callback x t : wf t -> wf (set_callback x t).
Proof. intros []. by split. Qed.

Lemma wf_disconnected t : wf t -> wf (set_connected false t).
Proof.
  intros [Ho Hf Ht Hn Hn']. split; simpl; try done. by destruct (tm_live _) as [|i []].
Qed.

(** A write changes the socket within its phase, and may clear [connected]. *)
Lemma write_cases data t :
  exists o sk c,
    send_data data t = (o, set_connected c (set_socket sk t)) /\
    sk_phase sk = sk_phase (tcp_socket t) /\
    (c = true -> _connected_event t = true) /\
    (sk_phase sk <> Open \/ _connected_event t = false -> sk_sent sk = wire t) /\
    (len data <= MAX_MSG_SIZE -> o = Ret tt).
Proof.
  destruct (_connected_event t) eqn:Hc.
  2:{ exists (Ret tt), (tcp_socket t), false. split; [|done].
      rewrite send_data_disconnected by done. f_equal. rewrite set_socket_id.
      destruct t; simpl in *; by subst. }
  destruct (Z.ltb_spec MAX_MSG_SIZE (len data)) as [Hlt|Hle].
  { exists (Raise ValueError), (tcp_socket t), true. split; [|split_and!; done || lia].
    rewrite send_data_too_long by done. f_equal. rewrite set_socket_id.
    destruct t; simpl in *; by subst. }
  destruct (send_data_sendall t data Hc Hle) as (x & _ & ->).
  unfold try_except, on_socket, zoom.
  destruct (sock_sendall x (tcp_socket t)) as [o sk] eqn:E.
  assert (sk_phase sk = sk_phase (tcp_socket t) /\
    (sk_phase sk <> Open -> sk_sent sk = wire t) /\
    (o = Ret tt \/ o = Raise SocketError)) as (Hp & Hw & Ho).
  { unfold sock_sendall in E.
    destruct (sk_phase (tcp_socket t)) eqn:Ep, (sk_room (tcp_socket t));
      repeat case_match; simplify_eq; rewrite ?Ep; simpl; naive_solver. }
  destruct Ho as [-> | ->]; simpl.
  - exists (Ret tt), sk, true. split_and!; [|done..|intros [?|?]; [by apply Hw|done]|done].
    f_equal. destruct t; simpl in *; by subst.
  - exists (Ret tt), sk, false. split_and!; [done..|intros [?|?]; [by apply Hw|done]|done].
Qed.

Lemma wf_write data t : wf t -> wf (snd (send_data data t)).
Proof.
  intros [Ho Hf Ht Hn Hn'].
  destruct (write_cases data t) as (o & sk & c & -> & Hp & Hc & _).
  split; simpl; rewrite ?Hp; try done.
  - intros ->. auto.
  - destruct (tm_live _) as [|i []]; try done. destruct c; [|done]. rewrite <- Ht. by rewrite Hc.
Qed.

Lemma timer_cancel_only i tm : tm_live tm = [i] -> tm_live (timer_cancel i tm) = [].
Proof. unfold timer_cancel. intros ->. simpl. by rewrite filter_cons_False by naive_solver. Qed.

(** The heartbeat leaves one live timer exactly when it leaves the client
    connected. *)
Lemma wf_heart_beat t :
  wf (set_connected false t) -> tm_live (process_timers t) = [] ->
  (_connected_event t = true -> sk_phase (tcp_socket t) = Open) ->
  wf (snd (send_heart_beat t)).
Proof.
  intros [Ho Hf Ht Hn Hn'] Hl Hopen. simpl in *.
  unfold send_heart_beat, connected. step.
  destruct (_connected_event t) eqn:Hc.
  2:{ split; simpl; try done. - congruence. - by rewrite Hl. }
  change (_write_with_length_prefix HEARTBEAT) with (send_data (H:=H) HEARTBEAT).
  destruct (write_cases HEARTBEAT t) as (o & sk & c & -> & Hp & _ & _ & Hr).
  rewrite Hr by done. unfold start_heart_beat, connected. step. simpl.
  pose proof (Hopen eq_refl) as Hop.
  destruct c; split; simpl; rewrite ?Hp, ?Hl, ?Hop; done.
Qed.

Lemma wf_expires i t : wf t -> wf (snd (timer_expires i t)).
Proof.
  intros Hwf. unfold timer_expires. step. case_bool_decide as Hi; [|done].
  destruct Hwf as [Ho Hf Ht Hn Hn'].
  assert (tm_live (timer_cancel i (process_timers t)) = []) as Hl.
  { revert Ht Hi. destruct (tm_live (process_timers t)) as [|j []] eqn:El; try done.
    - intros _ Hi. by apply elem_of_nil in Hi.
    - intros _ ->%list_elem_of_singleton. by apply timer_cancel_only. }
  apply wf_heart_beat; simpl; [|done|done].
  simpl in Hl. split; simpl; try done; by rewrite Hl.
Qed.

Lemma disconnect_eq t :
  disconnect t =
    (Ret tt,
     kill (match heart_beat_timer t with
           | Some i => set_timer None (set_timers (timer_cancel i (process_timers t)) t)
           | None => t
           end)).
Proof. unfold disconnect. step. simpl. by destruct (heart_beat_timer t). Qed.

(** [disconnect] leaves no live timer. *)
Lemma disconnect_no_timer t :
  wf t -> tm_live (process_timers (snd (disconnect t))) = [].
Proof.
  intros [Ho Hf Ht Hn Hn']. rewrite disconnect_eq. revert Ht.
  destruct (tm_live (process_timers t)) as [|j []] eqn:El; try done; intros Ht.
  - destruct (heart_beat_timer t); simpl; by rewrite El.
  - rewrite Ht. by apply timer_cancel_only.
Qed.

Lemma wf_disconnect t : wf t -> wf (snd (disconnect t)).
Proof.
  intros Hwf. pose proof (disconnect_no_timer t Hwf) as Hl.
  destruct Hwf as [Ho Hf Ht Hn Hn']. rewrite disconnect_eq in *. simpl in *.
  split; simpl; try done; [by rewrite Hl|]. by destruct (heart_beat_timer t).
Qed.

(** Connecting raises nothing. *)
Lemma connect_Ret ip port t :
  connect_to_server ip port t = (Ret tt, snd (connect_to_server ip port t)).
Proof.
  unfold connect_to_server, try_except, on_socket, zoom, sock_connect. step. simpl.
  destruct (sk_phase (tcp_socket t)), (sk_listening (tcp_socket t)); done.
Qed.

Lemma wf_connect ip port t : wf t -> wf (snd (connect_to_server ip port t)).
Proof.
  intros [Ho Hf Ht Hn Hn']. unfold connect_to_server, try_except, on_socket, zoom, sock_connect.
  step. simpl. destruct (sk_phase (tcp_socket t)) eqn:Ep; simpl.
  - destruct (sk_listening _); simpl.
    + split; simpl; try done; rewrite ?Hf, ?Hn' by done; done || lia.
    + split; simpl; rewrite ?Ep; try done; auto.
  - split; simpl; rewrite ?Ep; try done.
  - split; simpl; rewrite ?Ep; try done.
Qed.

End wf_lemmas.

(** ** Lemmas: the receive loop on a client alone, and what can be reached *)

Definition bare_quiet {H} : @QuietHost (tcp H) H bare_host.
Proof. refine (@Build_QuietHost (tcp H) H bare_host (fun _ _ t => t) _ _ _); done. Defined.

Lemma bare_deliver_all {H} c ms (t : tcp H) :
  @deliver_all (tcp H) H bare_host bare_quiet c ms t = t.
Proof. revert t. induction ms as [|m ms IH]; intros t; simpl; [done|]. by destruct c. Qed.

(** What one answer of [recv] does to a client alone. *)
Lemma bare_receive_turn {H} got (t : tcp H) :
  snd (@receive_turn (tcp H) H bare_host (RecvEvent (ret tt) got) t) =
    match sk_phase (tcp_socket t), got with
    | Open, Some c =>
      if bool_decide (c = []) then set_connected false t
      else settle (parse (buffer t ++ c)) t
    | _, _ => if _connected_event t then set_connected false t else t
    end.
Proof.
  destruct got as [[|x c]|] eqn:Eg, (sk_phase (tcp_socket t)) eqn:Ep.
  5:{ rewrite bool_decide_false by done.
      rewrite (@receive_turn_quiet (tcp H) H bare_host bare_quiet (x :: c) t) by done.
      simpl. by rewrite bare_deliver_all. }
  all: unfold receive_turn, in_thread, try_except; step;
    rewrite (@on_tcp_recv (tcp H) H bare_host); simpl; unfold sock_recv; rewrite Ep; simpl;
    unfold on_tcp, connected, zoom, gets, modify; simpl; by destruct (_connected_event t).
Qed.

Lemma wf_settle {H} p (t : tcp H) : wf t -> wf (settle p t).
Proof.
  intros Hwf. unfold settle. destruct (p_fault p).
  - by apply wf_kill, wf_set_buffer.
  - by apply wf_set_buffer.
Qed.

Lemma wf_step {H} (t t' : tcp H) : tcp_step t t' -> wf t -> wf t'.
Proof.
  intros Hstep Hwf. destruct Hstep.
  - by apply wf_connect.
  - by apply wf_write.
  - by apply wf_disconnect.
  - by apply wf_expires.
  - rewrite bare_receive_turn. destruct (sk_phase _), got; repeat case_match;
      auto using wf_disconnected, wf_settle.
  - by apply wf_set_callback.
Qed.



(** The loop returns only on an incomplete frame or on a fault. *)
Lemma process_loop_Ret {St H} `{TcpHost St H} fuel (s s' : St) :
  process_loop fuel s = (Ret tt, s') ->
  next_frame (buffer (client s')) = More \/
  (_connected_event (client s') = false /\ sk_phase (tcp_socket (client s')) = Closed).
Proof.
  revert s. induction fuel as [|fuel IH]; intros s; [done|].
  rewrite process_loop_turn.
  destruct (next_frame (buffer (client s))) as [|f|m rest] eqn:E.
  - intros [= <-]. auto.
  - intros [= <-]. rewrite client_set_client. by right.
  - unfold bind. destruct (dispatch m _) as [[[]| |] s1]; [apply IH|done|done].
Qed.

Lemma next_frame_More_bound buf :
  next_frame buf = More -> len buf < HEADER_LEN + MAX_MSG_SIZE.
Proof.
  intros Hm. destruct (Z.ltb_spec (len buf) HEADER_LEN) as [Hlt|Hge].
  { unfold MAX_MSG_SIZE. lia. }
  destruct (header_split buf Hge) as (m4 & l4 & body & -> & Hm4 & Hl4).
  rewrite next_frame_split in Hm by done.
  destruct (negb _); [done|].
  destruct (unpack_I l4) as [n|] eqn:En.
  - destruct (_ || _) eqn:Eb; [done|]. bool_to_prop.
    destruct (Z.ltb_spec (len body) n); [|done].
    rewrite !len_app. unfold HEADER_LEN, MAGIC_LEN, len at 1 2. rewrite len_MAGIC. lia.
  - destruct l4 as [|? [|? [|? [|? []]]]]; done.
Qed.

(** Callbacks that return or raise, and leave the receive buffer alone. *)
Class BufferStable (St H : Type) `{TcpHost St H} : Prop := {
  on_data_not_stuck h d s : fst (on_data h d s) <> Stuck;
  on_data_buffer h d s : buffer (client (snd (on_data h d s))) = buffer (client s) }.

Lemma dispatch_stable {St H} `{BufferStable St H} m (s : St) :
  fst (dispatch m s) <> Stuck /\
  buffer (client (snd (dispatch m s))) = buffer (client s).
Proof.
  unfold dispatch. case_bool_decide; [done|].
  unfold handle_received_data. rewrite (bind_Ret _ _ _ _ _ (on_tcp_gets _ s)).
  destruct (received_data_callback (client s)); [|done].
  split; [apply on_data_not_stuck|apply on_data_buffer].
Qed.

Lemma process_loop_enough {St H} `{BufferStable St H} fuel (s : St) :
  (length (buffer (client s)) < fuel)%nat -> fst (process_loop fuel s) <> Stuck.
Proof.
  revert s. induction fuel as [|fuel IH]; intros s Hf; [lia|].
  rewrite process_loop_turn.
  destruct (next_frame (buffer (client s))) as [|f|m rest] eqn:E; [done..|].
  apply next_frame_shorter in E.
  pose proof (dispatch_stable m (set_client (set_buffer rest (client s)) s)) as [Hs Hb].
  rewrite client_set_client in Hb. unfold bind.
  destruct (dispatch m _) as [[[]| |] s1]; simpl in *; [|done|done].
  apply IH. rewrite Hb. simpl. lia.
Qed.

Lemma deliver_all_log ms (r : recorder) :
  deliver_all (Some tt) ms r = Recorder (rec_client r) (rec_log r ++ ms).
Proof.
  revert r. induction ms as [|m ms IH]; intros r; simpl.
  - rewrite app_nil_r. by destruct r.
  - rewrite IH. simpl. by rewrite <- app_assoc.
Qed.

(** ** The properties of the client *)

(** C1: What one client sends is what the other one hands on. When messages are
    sent over a connection that does not break, the frames reach the wire, and a
    connected client that receives them, cut into chunks in any way, hands
    exactly these messages to its callback, in order and each once, but for the
    answers to heartbeats; it then waits for more with an empty buffer. *)
Theorem send_receive_roundtrip {Hs St H : Type} `{QuietHost St H}
    (t : tcp Hs) (ms : list bytes) (s : St) :
  live t -> Forall (fun m => valid_body m = true) ms ->
  _connected_event (client s) = true -> sk_phase (tcp_socket (client s)) = Open ->
  buffer (client s) = [] ->
  exists t', seq_all (map send_data ms) t = (Ret tt, t') /\ live t' /\
    forall chunks, Forall (fun c => c <> []) chunks ->
      wire t' = wire t ++ concat chunks ->
      receive_data (chunk_events chunks) s =
        (Stuck, deliver_all (received_data_callback (client s)) (payloads ms) s).
Proof.
  intros Hl Hms Hc Ho Hb. destruct (frames_is_Some ms Hms) as [x Hx].
  exists (more_sent x t). split_and!.
  - apply send_all_frames; [done| |done]. eapply Forall_impl; [done|].
    intros m Hm. unfold valid_body in Hm. bool_to_prop. done.
  - by apply live_more_sent.
  - intros chunks Hne Hw. apply app_inv_head in Hw. subst x.
    by apply receive_data_frames.
Qed.

(** C2: The receive loop refines the reference parser. Whatever the chunks in
    which a stream arrives, the callback gets the complete messages [parse] finds
    in the whole of it, and the client is still connected, with the incomplete
    rest in its buffer, exactly when the stream has no fault; on a fault it is
    marked disconnected, its socket is closed, and the thread ends. The stream is
    the frames of these messages followed by the rest, which does not begin with
    a complete frame. *)
Theorem receive_data_refines_parse (chunks : list bytes) (r : recorder) :
  Forall (fun c => c <> []) chunks ->
  _connected_event (rec_client r) = true -> sk_phase (tcp_socket (rec_client r)) = Open ->
  received_data_callback (rec_client r) = Some tt ->
  next_frame (buffer (rec_client r)) = More ->
  let p := parse (buffer (rec_client r) ++ concat chunks) in
  (exists x, frames (p_msgs p) = Some x /\
     buffer (rec_client r) ++ concat chunks = x ++ p_rest p /\
     forall m y k, valid_body m = true -> frame m = Some y -> p_rest p <> y ++ k) /\
  let '(o, r') := receive_data (chunk_events chunks) r in
  rec_log r' = rec_log r ++ payloads (p_msgs p) /\
  match p_fault p with
  | None => o = Stuck /\ rec_client r' = set_buffer (p_rest p) (rec_client r)
  | Some _ => o = Ret tt /\ _connected_event (rec_client r') = false /\
              sk_phase (tcp_socket (rec_client r')) = Closed
  end.
Proof.
  intros Hne Hc Ho Hcb Hm. cbv zeta. split; [apply parse_frames_rest|].
  pose proof (receive_data_chunks chunks r Hne Hc Ho Hm) as Hr. simpl in Hr. revert Hr.
  destruct (p_fault _).
  - intros (x & _ & _ & ->). by rewrite Hcb, deliver_all_log.
  - intros ->. by rewrite Hcb, deliver_all_log.
Qed.

(** C24: [send_data] on every branch. A client that is not connected drops the
    message silently and nothing of it changes. For a connected one, a message of
    more than 16 MiB (16777216 bytes) raises [ValueError] and nothing changes
    either. Any other message is put into one frame, its four length bytes never
    overflow, nothing is raised, and exactly the part of the frame the socket
    takes is appended to what was sent: all of it when the socket is open and does
    not fail, its first [n] bytes when the socket fails after [n], none when it is
    not open. The client is connected afterwards exactly when the whole frame was
    taken, and nothing but the socket's stream and that flag changes. *)
Theorem send_data_spec {H : Type} (t : tcp H) (data : bytes) :
  if negb (_connected_event t) then send_data data t = (Ret tt, t)
  else if 16777216 <? len data then send_data data t = (Raise ValueError, t)
  else exists x sk,
    frame data = Some x /\
    send_data data t =
      (Ret tt, set_connected (bool_decide (accepted x (tcp_socket t) = x)) (set_socket sk t)) /\
    sk_sent sk = wire t ++ accepted x (tcp_socket t) /\
    sk_phase sk = sk_phase (tcp_socket t).
Proof.
  destruct (_connected_event t) eqn:Hc; simpl; [|by apply send_data_disconnected].
  destruct (Z.ltb_spec 16777216 (len data)) as [Hlt|Hle]; [by apply send_data_too_long|].
  destruct (send_data_sendall t data Hc Hle) as (x & Hx & ->).
  destruct (sock_sendall x (tcp_socket t)) as [o sk] eqn:E. exists x, sk. split; [done|].
  pose proof (sendall_accepted x (tcp_socket t) (frame_not_nil _ _ Hx)) as (Ho & Hs & Hp).
  rewrite E in Ho, Hs, Hp. simpl in Ho, Hs, Hp. split; [|by rewrite Hs, Hp].
  unfold try_except, on_socket, zoom. rewrite E, Ho.
  case_bool_decide; [|done]. by destruct t; simpl in *; subst.
Qed.

(** C21: The invariant of a client. Whatever happens to a client after its
    creation, it is well-formed: connected only while its socket is open, never
    more than one live heartbeat timer, which is then the one it can cancel, and
    never a second receive thread. *)
Theorem reachable_wf {H : Type} (listening : bool) (room : option nat) (t : tcp H) :
  rtc tcp_step (__init__ listening room) t -> wf t.
Proof.
  intros Hr. remember (__init__ listening room) as t0 eqn:E.
  assert (wf t0) as Hwf by (subst; apply wf_init). clear E.
  induction Hr as [|t0 t1 t2 Hs _ IH]; [done|]. eauto using wf_step.
Qed.


(** The heartbeat goes on as long as the connection. When the live timer of
    a client that is connected over a connection that does not break expires,
    one heartbeat frame is sent, and exactly one new timer is live. *)
Theorem heart_beat_rearms {H : Type} (t : tcp H) (i : nat) :
  live t -> tm_live (process_timers t) = [i] ->
  exists x j, frame HEARTBEAT = Some x /\
    timer_expires i t =
      (Ret tt, set_timers (Timers [j] (S j)) (set_timer (Some j) (more_sent x t))) /\
    j = tm_next (process_timers t).
Proof.
  intros Hl Hi. destruct (frame_is_Some HEARTBEAT) as [x Hx]; [done|].
  exists x, (tm_next (process_timers t)). split; [done|]. split; [|done].
  unfold timer_expires. step.
  rewrite bool_decide_true by (rewrite Hi; apply list_elem_of_here).
  unfold send_heart_beat, connected. step. simpl. rewrite (proj1 Hl).
  change (_write_with_length_prefix HEARTBEAT) with (send_data (H:=H) HEARTBEAT).
  rewrite (send_data_frame _ HEARTBEAT x); [|by destruct Hl as (? & ? & ?)|done|done].
  unfold start_heart_beat, connected. step. simpl. rewrite (proj1 Hl). simpl.
  unfold more_sent, set_timers, set_timer, set_socket. simpl.
  pose proof (timer_cancel_only i (process_timers t) Hi) as Hl0. simpl in Hl0.
  by rewrite Hl0.
Qed.

(** [_process_buffer] terminates. The loop ends for every buffer, whether
    the callbacks return or raise, as long as they leave the buffer alone. *)
Theorem process_buffer_terminates {St H : Type} `{BufferStable St H} (s : St) :
  fst (_process_buffer s) <> Stuck.
Proof.
  unfold _process_buffer. rewrite (bind_Ret _ _ _ _ _ (on_tcp_gets _ s)).
  apply process_loop_enough. lia.
Qed.

(** C31: The receive buffer is bounded. When [_process_buffer] returns, on any
    client and with any callback, less than one frame of the greatest size is
    left in the buffer, or the client was disconnected for a fault. *)
Theorem buffer_bounded {St H : Type} `{TcpHost St H} (s s' : St) :
  _process_buffer s = (Ret tt, s') ->
  len (buffer (client s')) < HEADER_LEN + MAX_MSG_SIZE \/
  (_connected_event (client s') = false /\ sk_phase (tcp_socket (client s')) = Closed).
Proof.
  unfold _process_buffer. rewrite (bind_Ret _ _ _ _ _ (on_tcp_gets _ s)).
  intros [Hm|Hd]%process_loop_Ret; [left|by right]. by apply next_frame_More_bound.
Qed.

(** C32: A callback that raises. An exception of the callback other than a socket
    error ends the receive thread at once and leaves the client as the callback
    left it, so still marked connected: what arrives later is never read. A
    socket error or a [TimeoutError] of the callback is taken for a failure of
    the connection: the client is marked disconnected, but its socket stays
    open. *)
Theorem callback_raises {St H : Type} `{TcpHost St H} (s s' : St) h c m rest e evs :
  _connected_event (client s) = true -> sk_phase (tcp_socket (client s)) = Open ->
  c <> [] -> next_frame (buffer (client s) ++ c) = Message m rest ->
  m <> HEARTBEAT_RESPONSE -> received_data_callback (client s) = Some h ->
  on_data h m (set_client (set_buffer rest (client s)) s) = (Raise e, s') ->
  _connected_event (client s') = true ->
  receive_data (RecvEvent (ret tt) (Some c) :: evs) s =
    if is_socket_error e then (Ret tt, set_client (set_connected false (client s')) s')
    else (Raise e, s').
Proof.
  intros Hcon Ho Hc Hn Hm Hcb He Hc'. rewrite receive_data_connected by done.
  unfold bind at 1. rewrite receive_turn_chunk by done. unfold try_except, _process_buffer.
  rewrite bind_assoc, (bind_Ret _ _ _ _ _ (on_tcp_gets _ _)).
  unfold bind at 1. rewrite process_loop_turn, client_set_client. simpl buffer. rewrite Hn.
  unfold dispatch. rewrite bool_decide_false by done.
  unfold handle_received_data. rewrite bind_assoc, (bind_Ret _ _ _ _ _ (on_tcp_gets _ _)).
  rewrite client_set_client. simpl. rewrite Hcb, set_client_twice.
  change (set_buffer rest (set_buffer (buffer (client s) ++ c) (client s)))
    with (set_buffer rest (client s)).
  unfold bind at 1. rewrite He. destruct (is_socket_error e); [|done].
  unfold bind, connected. rewrite on_tcp_gets, Hc'. done.
Qed.

(** ** Witnesses *)

Definition ex_client : tcp unit :=
  set_callback (Some tt)
    (snd (connect_to_server (str_of "127.0.0.1") 6372 (__init__ true None))).

Definition ex_recorder : recorder := Recorder ex_client [].

Definition ex_messages : list bytes :=
  [bytes_of "hello"; HEARTBEAT_RESPONSE; bytes_of "&*&"].

#[export] Instance recorder_stable : BufferStable recorder unit.
Proof. split; done. Qed.

(** A client whose callback raises. *)
Definition raising_host (e : exn) : TcpHost (tcp unit) unit.
Proof. refine {| client t := t; set_client t _ := t; on_data _ _ := raise e |}; done. Defined.

Lemma send_receive_roundtrip_witness :
  exists t', seq_all (map send_data ex_messages) ex_client = (Ret tt, t') /\ live t' /\
    forall chunks, Forall (fun c => c <> []) chunks ->
      wire t' = wire ex_client ++ concat chunks ->
      receive_data (chunk_events chunks) ex_recorder =
        (Stuck, Recorder ex_client [bytes_of "hello"; bytes_of "&*&"]).
Proof.
  destruct (send_receive_roundtrip ex_client ex_messages ex_recorder)
    as (t' & Hs & Hl & Hr); [by split_and!|by repeat constructor|reflexivity..|].
  exists t'. split; [exact Hs|]. split; [exact Hl|]. intros chunks Hne Hw.
  rewrite (Hr chunks Hne Hw). vm_compute. reflexivity.
Defined.

Lemma receive_data_refines_parse_witness :
  rec_log (snd (receive_data (chunk_events [[x4b; x4b; x00]; [x02; x00; x00; x00; x01; x41]; [x4b]])
    ex_recorder)) = [[x41]].
Proof.
  pose proof (receive_data_refines_parse
    [[x4b; x4b; x00]; [x02; x00; x00; x00; x01; x41]; [x4b]] ex_recorder) as H.
  specialize (H ltac:(by repeat constructor) eq_refl eq_refl eq_refl eq_refl).
  destruct H as [_ H]. vm_compute in H. vm_compute. exact (proj1 H).
Defined.

Lemma reachable_wf_witness : wf (snd (send_data (bytes_of "x") ex_client)).
Proof.
  apply (reachable_wf true None). eapply rtc_l; [apply step_connect|].
  eapply rtc_l; [apply (step_callback (Some tt))|]. apply rtc_once, step_send.
Defined.


Lemma heart_beat_rearms_witness :
  live ex_client /\
  exists x j, frame HEARTBEAT = Some x /\
    timer_expires 0 ex_client =
      (Ret tt, set_timers (Timers [j] (S j)) (set_timer (Some j) (more_sent x ex_client))) /\
    j = 1%nat.
Proof. split; [by split_and!|]. apply (heart_beat_rearms ex_client 0); [by split_and!|done]. Defined.

Lemma process_buffer_terminates_witness :
  fst (_process_buffer (Recorder (set_buffer (MAGIC ++ [x00; x00; x00; x01; x41]) ex_client) [])) <> Stuck.
Proof. apply process_buffer_terminates. Defined.

(** A frame that announces one byte, without it. *)
Definition ex_partial : recorder :=
  Recorder (set_buffer (MAGIC ++ [x00; x00; x00; x01]) ex_client) [].

Lemma buffer_bounded_witness :
  len (buffer (client ex_partial)) < HEADER_LEN + MAX_MSG_SIZE.
Proof.
  destruct (buffer_bounded ex_partial ex_partial) as [H|[H _]];
    [vm_compute; reflexivity|exact H|vm_compute in H; discriminate H].
Defined.

Lemma callback_raises_witness :
  @receive_data (tcp unit) unit (raising_host (UserError 1))
    [RecvEvent (ret tt) (Some (MAGIC ++ [x00; x00; x00; x01; x41]));
     RecvEvent (ret tt) (Some (MAGIC ++ [x00; x00; x00; x01; x42]))] ex_client =
  (Raise (UserError 1), ex_client).
Proof.
  apply (@callback_raises (tcp unit) unit (raising_host (UserError 1)) ex_client ex_client
    tt _ [x41] [] (UserError 1)); done.
Defined.
