(* ===== verification/SignalSender.v ===== *)
(** * [SignalSender]

    Models knotlink-sdk-python/knotlink/knotlink/SignalSender.py. No callback is
    installed on its client, which the type [tcp Empty_set] says. *)

From S2P Require Export TcpClient Keys.

Record sender := Sender {
  appID : option pystr;
  signalID : option pystr;
  KLsender : tcp Empty_set }.

(** The [data] of [emitt]: the code looks whether it is a [str], and adds it to
    [bytes]. *)
Inductive pydata :=
| PyStr (s : pystr)
| PyBytes (bs : bytes)
| PyOther.

Definition set_KLsender (t : tcp Empty_set) (s : sender) : sender :=
  Sender (appID s) (signalID s) t.

Definition on_sender {A} (m : M (tcp Empty_set) A) : M sender A := zoom KLsender set_KLsender m.

(** ** The methods *)

Definition __init__ (APPID SignalID : option pystr) (listening : bool) (room : option nat) : sender :=
  let s := Sender APPID SignalID (TcpClient.__init__ listening room) in
  snd (on_sender (connect_to_server (str_of "127.0.0.1") 6370) s).

Definition set_config (APPID SignalID : pystr) : M sender unit :=
  modify (fun s => Sender (Some APPID) (Some SignalID) (KLsender s)).

Definition __emitt (APPID SignalID : option pystr) (data : pydata) : M sender unit :=
  let s_key := format APPID ++ DASH ++ format SignalID ++ DELIM in
  let! s_key_bytes := encode s_key in
  match data with
  | PyBytes bs => let s_data := s_key_bytes ++ bs in on_sender (send_data s_data)
  | _ => raise TypeError
  end.

Definition _emitt (APPID SignalID : option pystr) (data : pydata) : M sender unit :=
  match data with
  | PyStr s => let! bs := encode s in __emitt APPID SignalID (PyBytes bs)
  | _ => __emitt APPID SignalID data
  end.

Definition emitt (data : pydata) : M sender unit :=
  let! a := gets appID in
  let! i := gets signalID in
  _emitt a i data.

(** [hasattr(self, 'KLsender') and self.KLsender]: the constructor always sets
    the attribute, and a [TcpClient] is true. *)
Definition disconnect : M sender unit := on_sender TcpClient.disconnect.

Definition close : M sender unit := disconnect.

Definition __enter__ : M sender sender := gets (fun s => s).

(** [__exit__] returns [False]: an exception of a [with] block goes on. *)
Definition __exit__ : M sender bool := disconnect >> ret false.

(** ** The owner of the client *)

#[export] Instance sender_host : TcpHost sender Empty_set.
Proof.
  refine {| client := KLsender; set_client := set_KLsender;
            on_data h _ := match h with end |}.
  all: by intros; try destruct s.
Defined.

(** ** Lemmas *)

Lemma emitt_bytes s bs :
  emitt (PyBytes bs) s =
    match keyed_body (appID s) (signalID s) bs with
    | Some body => on_sender (send_data body) s
    | None => (Raise UnicodeEncodeError, s)
    end.
Proof.
  unfold emitt, _emitt, __emitt, keyed_body, encode. step. by destruct (utf8_encode _).
Qed.

Lemma emitt_str s d :
  emitt (PyStr d) s =
    match utf8_encode d with
    | Some bs => emitt (PyBytes bs) s
    | None => (Raise UnicodeEncodeError, s)
    end.
Proof. unfold emitt, _emitt, encode. step. by destruct (utf8_encode d). Qed.

(** ** The properties *)

(** What [emitt] puts on the wire. On a client that is connected over a
    connection that does not break, [emitt] of a text sends one frame, whose
    body is neither empty nor a heartbeat, and holds the key and the data so
    that cutting it at its first delimiter gives them back, for every data, as
    long as the identifiers have no ['&']; the data decodes to the text. *)
Theorem emitt_frame (s : sender) (d body bs : _) :
  live (KLsender s) -> utf8_encode d = Some bs ->
  keyed_body (appID s) (signalID s) bs = Some body -> len body <= MAX_MSG_SIZE ->
  exists x key, frame body = Some x /\
    emitt (PyStr d) s = (Ret tt, set_KLsender (more_sent x (KLsender s)) s) /\
    valid_body body = true /\ body <> HEARTBEAT /\
    utf8_decode key = Some (format (appID s) ++ DASH ++ format (signalID s)) /\
    utf8_decode bs = Some d /\
    (amp ∉ format (appID s) -> amp ∉ format (signalID s) -> cut body = Some (key, bs)).
Proof.
  intros Hl Hd Hb Hlen. destruct (frame_is_Some body Hlen) as [x Hx].
  destruct (keyed_body_spec _ _ _ _ Hb) as (Hh & Hne & key & Hkey & Hcut).
  exists x, key. split; [done|]. split.
  { rewrite emitt_str, Hd, emitt_bytes, Hb. unfold on_sender, zoom.
    by rewrite (send_data_frame _ body x). }
  split; [by apply valid_body_intro|]. split_and!; try done. by apply utf8_decode_encode.
Qed.

(** [emitt] never half-fails. Whatever is emitted, either an exception is
    raised and the sender is unchanged (text that cannot be encoded, data of
    another type, a body over 16 MiB), or the frame was handed to the client. *)
Theorem emitt_raises_unchanged (s s' : sender) (data : pydata) (e : exn) :
  emitt data s = (Raise e, s') ->
  s' = s /\
  match data with
  | PyOther => e = TypeError \/ e = UnicodeEncodeError
  | _ => e = UnicodeEncodeError \/
         e = ValueError /\ _connected_event (KLsender s) = true
  end.
Proof.
  assert (forall bs, emitt (PyBytes bs) s = (Raise e, s') ->
    s' = s /\ (e = UnicodeEncodeError \/
               e = ValueError /\ _connected_event (KLsender s) = true)) as Hbytes.
  { intros bs. rewrite emitt_bytes. destruct (keyed_body _ _ _) as [body|].
    - unfold on_sender, zoom. pose proof (write_cases body (KLsender s)) as Hw.
      destruct (_connected_event (KLsender s)) eqn:Hc;
        [|by rewrite send_data_disconnected].
      destruct (Z.ltb_spec MAX_MSG_SIZE (len body)).
      + rewrite send_data_too_long by done. intros E. injection E as <- <-.
        split; [by destruct s|auto].
      + destruct Hw as (o & sk & c & -> & _ & _ & _ & Ho). rewrite Ho by done. done.
    - intros E. injection E as <- <-. auto. }
  destruct data as [d|bs|].
  - rewrite emitt_str. destruct (utf8_encode d) as [bs|]; [apply Hbytes|].
    intros E. injection E as <- <-. auto.
  - apply Hbytes.
  - unfold emitt, _emitt, __emitt, encode. step.
    destruct (utf8_encode _); simpl; intros E; injection E as <- <-; auto.
Qed.

(** ** Witnesses *)

Definition ex_sender : sender :=
  snd (set_config (str_of "app.knotlinksdk.test") (str_of "test_signal")
         (__init__ None None true None)).

Lemma emitt_frame_witness :
  exists x key,
    frame (bytes_of "app.knotlinksdk.test-test_signal&*&Hi") = Some x /\
    emitt (PyStr (str_of "Hi")) ex_sender =
      (Ret tt, set_KLsender (more_sent x (KLsender ex_sender)) ex_sender) /\
    cut (bytes_of "app.knotlinksdk.test-test_signal&*&Hi") = Some (key, bytes_of "Hi").
Proof.
  destruct (emitt_frame ex_sender (str_of "Hi")
    (bytes_of "app.knotlinksdk.test-test_signal&*&Hi") (bytes_of "Hi"))
    as (x & key & Hx & He & _ & _ & _ & _ & Hc);
    [by split_and!|reflexivity|reflexivity|vm_compute; discriminate|].
  exists x, key. split; [exact Hx|]. split; [exact He|].
  apply Hc; apply (bool_decide_unpack _); vm_compute; exact I.
Defined.

Lemma emitt_raises_unchanged_witness :
  ex_sender = ex_sender /\
  (UnicodeEncodeError = UnicodeEncodeError \/
   UnicodeEncodeError = ValueError /\ _connected_event (KLsender ex_sender) = true).
Proof.
  apply (emitt_raises_unchanged ex_sender ex_sender (PyStr [55296]) UnicodeEncodeError).
  reflexivity.
Defined.
