(* ===== verification/SignalSubscriber.v ===== *)
(** * [SignalSubscriber]

    Models knotlink-sdk-python/knotlink/knotlink/SignalSubscriber.py. [U] names
    the callbacks an application can set, [W] is the state of the application,
    and [user] is what calling a callback does: it may change the application,
    raise, or call back into the subscriber. *)

From S2P Require Export TcpClient Keys.

Record subscriber {U W : Type} := Subscriber {
  appID : pystr;
  signalID : pystr;
  callback : option U;
  KLsubscriber : tcp unit;
  world : W }.
Arguments subscriber U W : clear implicits.

Section subscriber.
Context {U W : Type}.
Implicit Types s : subscriber U W.

Definition set_KLsubscriber (t : tcp unit) s : subscriber U W :=
  Subscriber _ _ (appID s) (signalID s) (callback s) t (world s).

Definition set_callback (c : option U) s : subscriber U W :=
  Subscriber _ _ (appID s) (signalID s) c (KLsubscriber s) (world s).

Definition set_world (w : W) s : subscriber U W :=
  Subscriber _ _ (appID s) (signalID s) (callback s) (KLsubscriber s) w.

Definition on_subscriber {A} (m : M (tcp unit) A) : M (subscriber U W) A :=
  zoom KLsubscriber set_KLsubscriber m.

(** ** The methods *)

(** [tt] names the bound method [self.data_recv]. *)
Definition init : M (subscriber U W) unit :=
  on_subscriber (connect_to_server (str_of "127.0.0.1") 6372) >>
  on_subscriber (modify (TcpClient.set_callback (Some tt))) >>
  let! s := gets (fun s => s) in
  let s_key := appID s ++ DASH ++ signalID s in
  let! s_key_bytes := encode s_key in
  on_subscriber (send_data s_key_bytes).

Definition __init__ (APPID SignalID : pystr) (listening : bool) (room : option nat) (w : W) :
    outcome unit * subscriber U W :=
  init (Subscriber _ _ APPID SignalID None (TcpClient.__init__ listening room) w).

Definition subscribe (APPID SignalID : pystr) : M (subscriber U W) unit :=
  modify (fun s => Subscriber _ _ APPID SignalID (callback s) (KLsubscriber s) (world s)) >>
  let s_key := APPID ++ DASH ++ SignalID in
  let! s_key_bytes := encode s_key in
  on_subscriber (send_data s_key_bytes).

Definition set_RecvFunc (c : U) : M (subscriber U W) unit := modify (set_callback (Some c)).

Definition disconnect : M (subscriber U W) unit := on_subscriber TcpClient.disconnect.

Definition close : M (subscriber U W) unit := disconnect.

Definition __enter__ : M (subscriber U W) (subscriber U W) := gets (fun s => s).

Definition __exit__ : M (subscriber U W) bool := disconnect >> ret false.

Section receiving.
Variable user : U -> pystr -> M (subscriber U W) unit.

(** [decode] with [errors='replace'] does not raise, so that the [except] of the
    code is never taken. *)
Definition data_recv (data : bytes) : M (subscriber U W) unit :=
  let received_text := utf8_decode_replace data in
  let! c := gets callback in
  match c with
  | Some f => user f received_text
  | None => ret tt
  end.

Definition subscriber_host : TcpHost (subscriber U W) unit.
Proof.
  refine {| client := KLsubscriber; set_client := set_KLsubscriber;
            on_data _ d := data_recv d |}.
  all: by intros; try destruct s.
Defined.

End receiving.
End subscriber.

(** ** Applications whose callbacks only act on the application *)

Section quiet.
Context {U W : Type} (app : U -> pystr -> W -> W).

Definition quiet_user (c : U) (text : pystr) : M (subscriber U W) unit :=
  modify (fun s => set_world (app c text (world s)) s).

Definition quiet_host : TcpHost (subscriber U W) unit := subscriber_host quiet_user.

Definition deliver_text (d : bytes) (s : subscriber U W) : subscriber U W :=
  match callback s with
  | Some c => set_world (app c (utf8_decode_replace d) (world s)) s
  | None => s
  end.

Definition subscriber_quiet : @QuietHost (subscriber U W) unit quiet_host.
Proof.
  refine (@Build_QuietHost _ _ quiet_host (fun _ d s => deliver_text d s) _ _ _).
  - intros h d [a i [c|] t w]; done.
  - intros h d [a i [c|] t w]; done.
  - intros h d t [a i [c|] t' w]; done.
Defined.

Lemma deliver_all_texts ds (s : subscriber U W) c :
  callback s = Some c ->
  @deliver_all _ _ quiet_host subscriber_quiet (Some tt) ds s =
    set_world (fold_left (fun w d => app c (utf8_decode_replace d) w) ds (world s)) s.
Proof.
  revert s. induction ds as [|d ds IH]; intros s Hc; [by destruct s|].
  simpl. rewrite IH; unfold deliver_text; by rewrite Hc.
Qed.

Lemma fold_texts c ds bs w :
  encode_all ds = Some bs ->
  fold_left (fun w d => app c (utf8_decode_replace d) w) bs w =
    fold_left (fun w d => app c d w) ds w.
Proof.
  intros Hds. rewrite <- (encode_all_decode _ _ Hds). clear. revert w.
  induction bs as [|b bs IH]; intros w; [done|]. apply IH.
Qed.

End quiet.

(** The subscriber when the key is about to be sent. *)
Definition ready {U W} (s : subscriber U W) : subscriber U W :=
  set_KLsubscriber
    (TcpClient.set_callback (Some tt)
       (snd (connect_to_server (str_of "127.0.0.1") 6372 (KLsubscriber s)))) s.

Lemma init_eq {U W} (s : subscriber U W) :
  init s =
    match utf8_encode (appID s ++ DASH ++ signalID s) with
    | Some key => on_subscriber (send_data key) (ready s)
    | None => (Raise UnicodeEncodeError, ready s)
    end.
Proof.
  unfold init, encode, on_subscriber, zoom. unfold bind at 1. rewrite connect_Ret.
  unfold bind, gets, modify, ready. simpl appID. simpl signalID.
  by destruct (utf8_encode _).
Qed.

(** ** The properties *)

(** Subscribing. The constructor, on a server that listens, connects,
    installs the receiver before anything is sent, and sends one frame with the
    key; when nothing listens it returns a subscriber that is not connected and
    has sent nothing. The key is one that can be encoded and fits a frame. *)
Theorem init_spec {U W : Type} (a i : pystr) (listening : bool) (w : W) key :
  utf8_encode (a ++ DASH ++ i) = Some key -> len key <= MAX_MSG_SIZE ->
  exists s x, @__init__ U W a i listening None w = (Ret tt, s) /\ frame key = Some x /\
    received_data_callback (KLsubscriber s) = Some tt /\ callback s = None /\
    appID s = a /\ signalID s = i /\
    (if listening then live (KLsubscriber s) /\ wire (KLsubscriber s) = x
     else _connected_event (KLsubscriber s) = false /\ wire (KLsubscriber s) = []).
Proof.
  intros Hk Hlen. destruct (frame_is_Some key Hlen) as [x Hx].
  set (s0 := Subscriber U W a i None (TcpClient.__init__ listening None) w).
  assert (@__init__ U W a i listening None w = on_subscriber (send_data key) (ready s0)) as ->.
  { unfold __init__. rewrite init_eq. unfold s0. simpl appID. simpl signalID. by rewrite Hk. }
  unfold on_subscriber, zoom. destruct listening.
  - rewrite (send_data_frame _ key x) by done.
    eexists _, x. split; [done|]. by split_and!.
  - rewrite send_data_disconnected by done.
    eexists _, x. split; [done|]. by split_and!.
Qed.

(** Delivery. When messages that are texts arrive at a subscriber whose
    callback only acts on the application, in chunks cut anywhere, the callback
    is called with exactly these texts, in order and each once. *)
Theorem texts_delivered {U W : Type} (app : U -> pystr -> W -> W)
    (s : subscriber U W) (c : U) (ds : list pystr) (bs chunks : list bytes) :
  _connected_event (KLsubscriber s) = true ->
  sk_phase (tcp_socket (KLsubscriber s)) = Open ->
  received_data_callback (KLsubscriber s) = Some tt ->
  buffer (KLsubscriber s) = [] -> callback s = Some c ->
  encode_all ds = Some bs -> Forall (fun m => valid_body m = true) bs ->
  str_of "heartbeat_response" ∉ ds ->
  frames bs = Some (concat chunks) -> Forall (fun c => c <> []) chunks ->
  @receive_data _ _ (quiet_host app) (chunk_events chunks) s =
    (Stuck, set_world (fold_left (fun w d => app c d w) ds (world s)) s).
Proof.
  intros Hcon Ho Hcb Hb Hc Hds Hv Hhb Hx Hne.
  pose proof (@receive_data_frames _ _ (quiet_host app) (subscriber_quiet app)
    bs chunks s Hne Hcon Ho Hb Hv Hx) as Hr.
  change (@client _ _ (quiet_host app) s) with (KLsubscriber s) in Hr.
  rewrite Hr, Hcb, (payloads_texts ds bs), (deliver_all_texts app bs s c) by done.
  by rewrite (fold_texts app c ds bs).
Qed.

(** Any bytes can be received. Whatever a message holds, [data_recv] raises
    nothing of its own: the callback is called once, with a text that can always
    be encoded again, that is the sender's text when the message is its UTF-8,
    and that holds U+FFFD exactly when the strict decoder would have failed or
    the sender's text held it. *)
Theorem data_recv_total {U W : Type} (user : U -> pystr -> M (subscriber U W) unit)
    (data : bytes) (s : subscriber U W) (c : U) :
  callback s = Some c ->
  exists text, data_recv user data s = user c text s /\ encodable text /\
    (forall d, utf8_encode d = Some data -> text = d) /\
    (65533 ∈ text <->
       utf8_decode data = None \/ exists d, utf8_encode d = Some data /\ 65533 ∈ d).
Proof.
  intros Hc. exists (utf8_decode_replace data). split.
  { unfold data_recv. step. by rewrite Hc. }
  split; [apply utf8_decode_replace_encodable|].
  split; [intros d; apply utf8_decode_replace_encode|].
  destruct (utf8_decode data) as [d|] eqn:E.
  - rewrite (utf8_decode_replace_decode _ _ E). split.
    + intros Hin. right. exists d. split; [by apply utf8_encode_decode|done].
    + intros [?|(d' & Hd' & Hin)]; [done|]. apply utf8_decode_encode in Hd'. by simplify_eq.
  - split; [auto|]. intros _. by apply utf8_decode_None_replace.
Qed.

(** ** Witnesses *)

Definition ex_subscriber : subscriber unit (list pystr) :=
  snd (set_RecvFunc tt
    (snd (__init__ (str_of "app.knotlinksdk.test") (str_of "test_signal") true None []))).

Definition ex_app (c : unit) (d : pystr) (w : list pystr) : list pystr := w ++ [d].

Lemma init_spec_witness :
  exists s x, @__init__ unit unit (str_of "a") (str_of "b") true None tt = (Ret tt, s) /\
    frame (bytes_of "a-b") = Some x /\
    received_data_callback (KLsubscriber s) = Some tt /\ callback s = None /\
    appID s = str_of "a" /\ signalID s = str_of "b" /\
    live (KLsubscriber s) /\ wire (KLsubscriber s) = x.
Proof. apply (init_spec (str_of "a") (str_of "b") true tt (bytes_of "a-b")); vm_compute; done. Defined.

Lemma texts_delivered_witness :
  @receive_data _ _ (quiet_host ex_app)
    (chunk_events [MAGIC ++ [x00; x00]; [x00; x01; x41; x4b]; [x4b; x00; x02; x00; x00; x00; x02; xc3; xa9]])
    ex_subscriber =
  (Stuck, set_world [str_of "A"; [233]] ex_subscriber).
Proof.
  apply (texts_delivered ex_app ex_subscriber tt [str_of "A"; [233]] [[x41]; [xc3; xa9]]);
    try reflexivity; try (by repeat constructor).
  apply (bool_decide_unpack _). vm_compute. exact I.
Defined.

Lemma data_recv_total_witness :
  exists text, data_recv (quiet_user ex_app) [xff; x41] ex_subscriber =
      quiet_user ex_app tt text ex_subscriber /\ encodable text /\
    (forall d, utf8_encode d = Some [xff; x41] -> text = d) /\
    (65533 ∈ text <->
       utf8_decode [xff; x41] = None \/ exists d, utf8_encode d = Some [xff; x41] /\ 65533 ∈ d).
Proof. apply (data_recv_total (quiet_user ex_app) [xff; x41] ex_subscriber). reflexivity. Defined.
