(* ===== verification/OpenSocketQuerier.v ===== *)
(** * [OpenSocketQuerier]

    Models knotlink-sdk-python/knotlink/knotlink/OpenSocketQuerier.py. The state
    under [_state_lock] is in the record; a method that takes the lock runs its
    block in one piece. [query] blocks in [query_event.wait]: its model takes what
    the other threads do meanwhile, and what they still do between the wake-up
    and the moment the caller gets the lock. [querier_step] is the same method
    cut into the steps between which other threads run. *)

From S2P Require Export TcpClient Keys.

Record querier {U W : Type} := Querier {
  appID : option pystr;
  openSocketID : option pystr;
  callback : option U;
  query_result : option pystr;
  query_event : bool;
  is_querying : bool;
  _timeout_occurred : bool;
  KLquerier : tcp unit;
  world : W }.
Arguments querier U W : clear implicits.

Section querier.
Context {U W : Type}.
Implicit Types s : querier U W.

Definition set_KLquerier (t : tcp unit) s : querier U W :=
  Querier _ _ (appID s) (openSocketID s) (callback s) (query_result s) (query_event s)
    (is_querying s) (_timeout_occurred s) t (world s).
Definition set_query (r : option pystr) (ev q tmo : bool) s : querier U W :=
  Querier _ _ (appID s) (openSocketID s) (callback s) r ev q tmo (KLquerier s) (world s).
Definition set_world (w : W) s : querier U W :=
  Querier _ _ (appID s) (openSocketID s) (callback s) (query_result s) (query_event s)
    (is_querying s) (_timeout_occurred s) (KLquerier s) w.

Definition on_querier {A} (m : M (tcp unit) A) : M (querier U W) A :=
  zoom KLquerier set_KLquerier m.

(** ** The methods *)

Definition init : M (querier U W) unit :=
  on_querier (connect_to_server (str_of "127.0.0.1") 6376) >>
  on_querier (modify (TcpClient.set_callback (Some tt))).

Definition __init__ (APPID OpenSocketID : option pystr) (listening : bool) (room : option nat)
    (w : W) : outcome unit * querier U W :=
  init (Querier _ _ APPID OpenSocketID None None false false false
          (TcpClient.__init__ listening room) w).

Definition set_config (APPID OpenSocketID : pystr) : M (querier U W) unit :=
  modify (fun s =>
    Querier _ _ (Some APPID) (Some OpenSocketID) (callback s) (query_result s) (query_event s)
      (is_querying s) (_timeout_occurred s) (KLquerier s) (world s)).

Definition set_RecvFunc (c : U) : M (querier U W) unit :=
  modify (fun s =>
    Querier _ _ (appID s) (openSocketID s) (Some c) (query_result s) (query_event s)
      (is_querying s) (_timeout_occurred s) (KLquerier s) (world s)).

Definition _query (APPID OpenSocketID : option pystr) (data : bytes) : M (querier U W) unit :=
  let s_key := format APPID ++ DASH ++ format OpenSocketID ++ DELIM in
  let! s_key_bytes := encode s_key in
  let s_data := s_key_bytes ++ data in
  on_querier (send_data s_data).

Definition query_async (data : pystr) : M (querier U W) unit :=
  let! a := gets appID in
  let! i := gets openSocketID in
  let! bs := encode data in
  _query a i bs.

(** The two blocks of [query] under the lock. *)
Definition query_begin : M (querier U W) unit := modify (set_query None false true false).

Definition query_end (success : bool) : M (querier U W) (option pystr) :=
  modify (fun s => set_query (query_result s) (query_event s) false (_timeout_occurred s) s) >>
  if negb success then
    modify (fun s => set_query (query_result s) (query_event s) (is_querying s) true s) >>
    raise TimeoutError
  else gets query_result.

(** [query_event.wait(timeout)]: other threads run until the event is set; when
    they have run and it is not, the time is over, or there is no limit and the
    caller waits for ever. *)
Fixpoint event_wait (timeout : option Z) (others : list (M (querier U W) unit)) :
    M (querier U W) bool :=
  let! set := gets query_event in
  if set then ret true
  else
    match others with
    | [] => match timeout with Some _ => ret false | None => stuck end
    | m :: others => in_thread m >> event_wait timeout others
    end.

Definition query (data : pystr) (timeout : option Z)
    (others late : list (M (querier U W) unit)) : M (querier U W) (option pystr) :=
  query_begin >>
  query_async data >>
  let! success := event_wait timeout others in
  seq_all (map in_thread late) >>
  query_end success.

Definition disconnect : M (querier U W) unit :=
  on_querier TcpClient.disconnect >>
  modify (fun s => set_query (query_result s) true (is_querying s) true s).

Definition close : M (querier U W) unit := disconnect.

Definition __enter__ : M (querier U W) (querier U W) := gets (fun s => s).

Definition __exit__ : M (querier U W) bool := disconnect >> ret false.

Section receiving.
Variable user : U -> pystr -> M (querier U W) unit.

Definition _internal_data_recv (data : bytes) : M (querier U W) unit :=
  let received_text := utf8_decode_replace data in
  let! querying := gets is_querying in
  let! timed_out := gets _timeout_occurred in
  if querying && negb timed_out then
    modify (fun s => set_query (Some received_text) true (is_querying s) (_timeout_occurred s) s)
  else
    let! c := gets callback in
    match c with
    | Some f => user f received_text
    | None => ret tt
    end.

Definition querier_host : TcpHost (querier U W) unit.
Proof.
  refine {| client := KLquerier; set_client := set_KLquerier;
            on_data _ d := _internal_data_recv d |}.
  all: by intros; try destruct s.
Defined.

End receiving.

(** ** [query] as steps, between which other threads run *)

(** Where the thread that calls [query] is. *)
Inductive qpc :=
| Idle
| Sending (data : pystr)
| Waiting
| Woken (success : bool)
| Returned (r : outcome (option pystr)).

Section steps.
Variable app : U -> pystr -> W -> W.

Definition quiet_user (c : U) (text : pystr) : M (querier U W) unit :=
  modify (fun s => set_world (app c text (world s)) s).

(** One caller at a time, and any number of other threads. *)
Inductive querier_step : qpc * querier U W -> qpc * querier U W -> Prop :=
| q_begin data s : querier_step (Idle, s) (Sending data, snd (query_begin s))
| q_send data s s' :
    query_async data s = (Ret tt, s') -> querier_step (Sending data, s) (Waiting, s')
| q_send_raise data s s' e :
    query_async data s = (Raise e, s') ->
    querier_step (Sending data, s) (Returned (Raise e), s')
| q_wake s : query_event s = true -> querier_step (Waiting, s) (Woken true, s)
| q_timeout s : querier_step (Waiting, s) (Woken false, s)
| q_end success s :
    querier_step (Woken success, s)
      (Returned (fst (query_end success s)), snd (query_end success s))
| q_again r s : querier_step (Returned r, s) (Idle, s)
| q_receive pc d s : querier_step (pc, s) (pc, snd (_internal_data_recv quiet_user d s))
| q_async pc d s : querier_step (pc, s) (pc, snd (query_async d s))
| q_config pc a i s : querier_step (pc, s) (pc, snd (set_config a i s))
| q_callback pc c s : querier_step (pc, s) (pc, snd (set_RecvFunc c s))
| q_disconnect pc s : querier_step (pc, s) (pc, snd (disconnect s)).

End steps.
End querier.

(** ** Lemmas *)

Section querier_lemmas.
Context {U W : Type}.
Implicit Types s : querier U W.

(** The request a text makes. *)
Definition request s (d : pystr) : option bytes :=
  match utf8_encode d with
  | Some bs => keyed_body (appID s) (openSocketID s) bs
  | None => None
  end.

Lemma query_async_eq d s :
  query_async d s =
    match request s d with
    | Some body => on_querier (send_data body) s
    | None => (Raise UnicodeEncodeError, s)
    end.
Proof.
  unfold query_async, _query, request, keyed_body, encode, on_querier. step.
  destruct (utf8_encode d) as [bs|]; [|done]. by destruct (utf8_encode _).
Qed.

Lemma query_async_live d s body x :
  live (KLquerier s) -> request s d = Some body -> len body <= MAX_MSG_SIZE ->
  frame body = Some x ->
  query_async d s = (Ret tt, set_KLquerier (more_sent x (KLquerier s)) s).
Proof.
  intros Hl Hb Hlen Hx. rewrite query_async_eq, Hb. unfold on_querier, zoom.
  by rewrite (send_data_frame _ body x).
Qed.

Lemma set_KLquerier_id s : set_KLquerier (KLquerier s) s = s.
Proof. by destruct s. Qed.

Lemma querier_disconnect_eq s :
  disconnect s =
    (Ret tt, set_query (query_result s) true (is_querying s) true
       (set_KLquerier (snd (TcpClient.disconnect (KLquerier s))) s)).
Proof.
  unfold disconnect, on_querier, zoom, bind, modify. by rewrite disconnect_eq.
Qed.

(** Nothing that [query_async] does raises but these, and then nothing changed. *)
Lemma query_async_raise d s e s' :
  query_async d s = (Raise e, s') ->
  s' = s /\ (e = UnicodeEncodeError /\ request s d = None \/
             e = ValueError /\ _connected_event (KLquerier s) = true).
Proof.
  rewrite query_async_eq. destruct (request s d) as [body|].
  - unfold on_querier, zoom. destruct (_connected_event (KLquerier s)) eqn:Hc;
      [|by rewrite send_data_disconnected].
    destruct (Z.ltb_spec MAX_MSG_SIZE (len body)).
    + rewrite send_data_too_long by done. intros E. injection E as <- <-.
      rewrite set_KLquerier_id. auto.
    + pose proof (write_cases body (KLquerier s)) as (o & sk & c & -> & _ & _ & _ & Ho).
      by rewrite Ho.
  - intros E. injection E as <- <-. auto.
Qed.

Lemma query_async_cases d s :
  exists o t, query_async d s = (o, set_KLquerier t s) /\ o <> Stuck.
Proof.
  rewrite query_async_eq. destruct (request s d) as [body|].
  - unfold on_querier, zoom. pose proof (send_data_not_stuck body (KLquerier s)) as H.
    destruct (send_data body (KLquerier s)) as [o t]. by exists o, t.
  - exists (Raise UnicodeEncodeError), (KLquerier s). by rewrite set_KLquerier_id.
Qed.

Section user.
Variable user : U -> pystr -> M (querier U W) unit.

(** A message that arrives while [query] is under way. *)
Lemma recv_querying d s :
  is_querying s = true -> _timeout_occurred s = false ->
  _internal_data_recv user d s =
    (Ret tt, set_query (Some (utf8_decode_replace d)) true true false s).
Proof.
  intros Hq Ht. unfold _internal_data_recv. step. rewrite Hq, Ht. simpl. by rewrite Hq, Ht.
Qed.

(** A message that arrives at any other moment. *)
Lemma recv_not_querying d s :
  is_querying s = false \/ _timeout_occurred s = true ->
  _internal_data_recv user d s =
    match callback s with
    | Some c => user c (utf8_decode_replace d) s
    | None => (Ret tt, s)
    end.
Proof.
  intros Hq. unfold _internal_data_recv. step.
  replace (is_querying s && negb (_timeout_occurred s)) with false
    by (destruct Hq as [-> | ->]; [done|by rewrite andb_false_r]).
  by destruct (callback s).
Qed.

(** The caller wakes up at the first reply. *)
Lemma event_wait_reply timeout m others s :
  is_querying s = true -> _timeout_occurred s = false -> query_event s = false ->
  event_wait timeout (_internal_data_recv user m :: others) s =
    (Ret true, set_query (Some (utf8_decode_replace m)) true true false s).
Proof.
  intros Hq Ht He. cbn [event_wait]. unfold bind at 1, gets. rewrite He.
  unfold bind, in_thread. rewrite recv_querying by done. by destruct others.
Qed.

(** Messages that arrive one after the other while [query] is under way: the
    last one stays. *)
Lemma recv_all_querying late s r :
  is_querying s = true -> _timeout_occurred s = false ->
  seq_all (map in_thread (map (_internal_data_recv user) late))
      (set_query r (query_event s) true false s) =
    (Ret tt,
     match last late with
     | Some d => set_query (Some (utf8_decode_replace d)) true true false s
     | None => set_query r (query_event s) true false s
     end).
Proof.
  revert r s. induction late as [|d late IH]; intros r s Hq Ht; [done|].
  cbn [map seq_all]. unfold bind, in_thread at 1. rewrite recv_querying by done. cbn [snd].
  set (s1 := set_query (Some (utf8_decode_replace d)) true true false s).
  change (set_query _ true true false (set_query r _ true false s))
    with (set_query (query_result s1) (query_event s1) true false s1).
  rewrite (IH _ s1) by done. rewrite last_cons. by destruct (last late).
Qed.

End user.
End querier_lemmas.

(** With callbacks that only act on the application, the querier is a quiet
    owner of its client. *)
Section quiet_querier.
Context {U W : Type} (app : U -> pystr -> W -> W).
Implicit Types s : querier U W.

Definition quiet_querier_host : TcpHost (querier U W) unit := querier_host (quiet_user app).

Definition deliver_reply (d : bytes) s : querier U W :=
  if is_querying s && negb (_timeout_occurred s) then
    set_query (Some (utf8_decode_replace d)) true (is_querying s) (_timeout_occurred s) s
  else
    match callback s with
    | Some c => set_world (app c (utf8_decode_replace d) (world s)) s
    | None => s
    end.

Definition querier_quiet : @QuietHost (querier U W) unit quiet_querier_host.
Proof.
  refine (@Build_QuietHost _ _ quiet_querier_host (fun _ d s => deliver_reply d s) _ _ _);
    intros h d; unfold deliver_reply; simpl; unfold _internal_data_recv.
  - intros s. step. destruct (is_querying s && _); [done|]. by destruct (callback s).
  - intros s. destruct (is_querying s && _); [done|]. by destruct (callback s).
  - intros t s. simpl. destruct (is_querying s && _); [done|]. by destruct (callback s).
Defined.

(** The receive thread brings one message while [query] waits. *)
Lemma receive_reply m chunks s :
  Forall (fun c => c <> []) chunks -> frame m = Some (concat chunks) ->
  valid_body m = true -> m <> HEARTBEAT_RESPONSE ->
  _connected_event (KLquerier s) = true -> sk_phase (tcp_socket (KLquerier s)) = Open ->
  received_data_callback (KLquerier s) = Some tt -> buffer (KLquerier s) = [] ->
  is_querying s = true -> _timeout_occurred s = false ->
  @receive_data _ _ quiet_querier_host (chunk_events chunks) s =
    (Stuck, set_query (Some (utf8_decode_replace m)) true true false s).
Proof.
  intros Hne Hx Hv Hhb Hc Ho Hcb Hb Hq Ht.
  pose proof (@receive_data_frames _ _ quiet_querier_host querier_quiet [m] chunks s Hne Hc Ho Hb)
    as Hr.
  rewrite Hr; [|by repeat constructor|simpl; by rewrite Hx, app_nil_r].
  change (@client _ _ quiet_querier_host s) with (KLquerier s). rewrite Hcb.
  rewrite payloads_all by by apply not_elem_of_cons; split; [done|apply not_elem_of_nil].
  simpl. unfold deliver_reply. by rewrite Hq, Ht.
Qed.

End quiet_querier.

(** The invariant of the steps: while a query is under way it is marked so; the
    event is set only by a reply or by [disconnect], and [disconnect] closes the
    socket for good. *)
Definition under_way (pc : qpc) : bool :=
  match pc with Sending _ | Waiting | Woken _ => true | _ => false end.

Definition closed {U W} (s : querier U W) : Prop := sk_phase (tcp_socket (KLquerier s)) = Closed.

Definition q_inv {U W} (c : qpc * querier U W) : Prop :=
  (under_way c.1 = true ->
     is_querying c.2 = true /\
     (_timeout_occurred c.2 = true -> closed c.2) /\
     (query_event c.2 = true -> is_Some (query_result c.2) \/ closed c.2)) /\
  match c.1 with
  | Woken true => query_event c.2 = true
  | Returned (Ret r) => is_Some r \/ closed c.2
  | _ => True
  end.

Lemma send_data_phase {H} data (t : tcp H) :
  sk_phase (tcp_socket (snd (send_data data t))) = sk_phase (tcp_socket t).
Proof. by destruct (write_cases data t) as (o & sk & c & -> & Hp & _). Qed.

Lemma query_async_fields {U W} d (s : querier U W) :
  exists t, snd (query_async d s) = set_KLquerier t s /\
    (closed s -> sk_phase (tcp_socket t) = Closed).
Proof.
  rewrite query_async_eq. destruct (request s d) as [body|].
  - unfold on_querier, zoom, closed. pose proof (send_data_phase body (KLquerier s)) as Hp.
    destruct (send_data body (KLquerier s)) as [o t]. simpl in *. exists t.
    split; [done|]. by rewrite Hp.
  - exists (KLquerier s). split; [by destruct s|done].
Qed.

Lemma q_inv_async {U W} pc d (s : querier U W) :
  q_inv (pc, s) -> q_inv (pc, snd (query_async d s)).
Proof.
  destruct (query_async_fields d s) as (t & -> & Ht). unfold q_inv, closed in *. simpl.
  intros [Hu Hr]. split.
  - intros Hpc. destruct (Hu Hpc) as (? & ? & Hev). split_and!; [done|auto|].
    intros He. destruct (Hev He); auto.
  - destruct pc as [| | |[]|[r| |]]; auto. destruct Hr; auto.
Qed.

Lemma q_inv_step {U W} (app : U -> pystr -> W -> W) c c' :
  querier_step app c c' -> q_inv c -> q_inv c'.
Proof.
  intros Hstep Hinv. destruct Hstep.
  - unfold q_inv. simpl. done.
  - destruct Hinv as [Hu _]. pose proof (q_inv_async (Sending data) data s) as Ha.
    rewrite H in Ha. destruct Ha as [Hu' _]; [by split|]. split; [|done].
    intros _. by apply Hu'.
  - by split.
  - destruct Hinv as [Hu _]. split; [intros _; by apply Hu|done].
  - destruct Hinv as [Hu _]. split; [intros _; by apply Hu|done].
  - destruct Hinv as [Hu Hev]. destruct (Hu eq_refl) as (_ & _ & Hr).
    split; [done|]. unfold query_end. step. destruct success; simpl in *; [|done]. auto.
  - by split.
  - unfold _internal_data_recv. step.
    destruct (is_querying s && negb (_timeout_occurred s)) eqn:Eq.
    + destruct Hinv as [Hu Hr]. unfold q_inv, closed in *. simpl in *. split.
      * intros Hpc. destruct (Hu Hpc) as (? & ? & _). split_and!; eauto.
      * destruct pc as [| | |[]|[r| |]]; auto.
    + destruct (callback s); [|done].
      destruct Hinv as [Hu Hr]. unfold q_inv, closed in *. by split.
  - by apply q_inv_async.
  - destruct Hinv as [Hu Hr]. unfold q_inv, closed in *. by split.
  - destruct Hinv as [Hu Hr]. unfold q_inv, closed in *. by split.
  - rewrite querier_disconnect_eq, disconnect_eq.
    destruct Hinv as [Hu Hr]. unfold q_inv, closed in *. simpl in *. split.
    + intros Hpc. destruct (Hu Hpc) as (? & _ & _). split_and!; auto.
    + destruct pc as [| | |[]|[r| |]]; auto.
Qed.

(** ** The properties *)

(** A query returns the reply. On a client that is connected over a
    connection that does not break, [query] sends one frame with the request;
    when a message then arrives, with or without a time limit, it returns the
    text of the last message that arrived before it got the lock, and leaves the
    querier ready for the next query. Whatever the user's callback is, it is not
    called. *)
Theorem query_returns_reply {U W : Type} (user : U -> pystr -> M (querier U W) unit)
    (s : querier U W) d timeout m others late body x :
  live (KLquerier s) -> request s d = Some body -> len body <= MAX_MSG_SIZE ->
  frame body = Some x ->
  query d timeout (_internal_data_recv user m :: others)
      (map (_internal_data_recv user) late) s =
    let reply := utf8_decode_replace (default m (last late)) in
    (Ret (Some reply),
     set_query (Some reply) true false false (set_KLquerier (more_sent x (KLquerier s)) s)).
Proof.
  intros Hl Hb Hlen Hx. unfold query, query_begin. unfold bind at 1, modify.
  set (s1 := set_query None false true false s).
  assert (request s1 d = Some body) as Hb1 by done.
  rewrite (bind_Ret _ _ _ _ _ (query_async_live d s1 body x Hl Hb1 Hlen Hx)).
  set (s2 := set_KLquerier _ s1).
  rewrite (bind_Ret _ _ _ _ _ (event_wait_reply user timeout m others s2 eq_refl eq_refl eq_refl)).
  set (s3 := set_query _ true true false s2). unfold bind at 1.
  change s3 with (set_query (query_result s3) (query_event s3) true false s3) at 1.
  rewrite recv_all_querying by done.
  unfold query_end. step. by destruct (last late).
Qed.

(** C33: A query that times out. When no message arrives in time, [query] raises
    [TimeoutError]. Messages that arrive between the timeout and the moment the
    caller gets the lock are taken for the reply and lost: they are neither
    returned nor given to the callback. Every later message goes to the
    callback. *)
Theorem query_times_out {U W : Type} (user : U -> pystr -> M (querier U W) unit)
    (s : querier U W) d t late body x :
  live (KLquerier s) -> request s d = Some body -> len body <= MAX_MSG_SIZE ->
  frame body = Some x ->
  exists s', query d (Some t) [] (map (_internal_data_recv user) late) s =
      (Raise TimeoutError, s') /\
    KLquerier s' = more_sent x (KLquerier s) /\
    world s' = world s /\ callback s' = callback s /\
    appID s' = appID s /\ openSocketID s' = openSocketID s /\
    forall m, _internal_data_recv user m s' =
      match callback s with
      | Some c => user c (utf8_decode_replace m) s'
      | None => (Ret tt, s')
      end.
Proof.
  intros Hl Hb Hlen Hx. unfold query, query_begin. unfold bind at 1, modify.
  set (s1 := set_query None false true false s).
  assert (request s1 d = Some body) as Hb1 by done.
  rewrite (bind_Ret _ _ _ _ _ (query_async_live d s1 body x Hl Hb1 Hlen Hx)).
  set (s2 := set_KLquerier _ s1).
  assert (event_wait (Some t) [] s2 = (Ret false, s2)) as He by done.
  rewrite (bind_Ret _ _ _ _ _ He). unfold bind at 1.
  change s2 with (set_query None (query_event s2) true false s2) at 1.
  rewrite recv_all_querying by done. unfold query_end. step. simpl.
  destruct (last late); (eexists; split; [done|]; split_and!; try done;
    intros m; by rewrite recv_not_querying by by left).
Qed.

(** A late reply answers the wrong query. The replies carry no number: after
    a query that timed out, its reply, when it comes once the next query has
    begun, is what the next query returns. *)
Theorem stale_reply_returned {U W : Type} (user : U -> pystr -> M (querier U W) unit)
    (s : querier U W) d1 d2 t timeout stale others body1 body2 :
  live (KLquerier s) ->
  request s d1 = Some body1 -> len body1 <= MAX_MSG_SIZE ->
  request s d2 = Some body2 -> len body2 <= MAX_MSG_SIZE ->
  exists s1, query d1 (Some t) [] [] s = (Raise TimeoutError, s1) /\
    fst (query d2 timeout (_internal_data_recv user stale :: others) [] s1) =
      Ret (Some (utf8_decode_replace stale)).
Proof.
  intros Hl Hb1 Hl1 Hb2 Hl2.
  destruct (frame_is_Some body1 Hl1) as [x1 Hx1]. destruct (frame_is_Some body2 Hl2) as [x2 Hx2].
  pose (s1 := set_query None false true false s).
  pose (s2 := set_KLquerier (more_sent x1 (KLquerier s1)) s1).
  exists (set_query None false false true s2). split.
  - unfold query, query_begin. unfold bind at 1, modify. fold s1.
    assert (request s1 d1 = Some body1) as Hb by done.
    by rewrite (bind_Ret _ _ _ _ _ (query_async_live d1 s1 body1 x1 Hl Hb Hl1 Hx1)).
  - unfold query, query_begin. unfold bind at 1, modify.
    set (s3 := set_query None false true false _).
    assert (live (KLquerier s3)) as Hl3 by by apply live_more_sent.
    assert (request s3 d2 = Some body2) as Hb by done.
    rewrite (bind_Ret _ _ _ _ _ (query_async_live d2 s3 body2 x2 Hl3 Hb Hl2 Hx2)).
    set (s4 := set_KLquerier _ s3).
    by rewrite (bind_Ret _ _ _ _ _
      (event_wait_reply user timeout stale others s4 eq_refl eq_refl eq_refl)).
Qed.

(** A query that cannot be sent swallows later messages. When the text cannot
    be encoded, or the request is over 16 MiB, [query] raises but the querier
    stays marked as querying: every message that arrives from then on, until the
    next query, is put aside as a reply nobody waits for, and the callback is
    not called. *)
Theorem failed_query_swallows {U W : Type} (user : U -> pystr -> M (querier U W) unit)
    (s : querier U W) d timeout others late ms :
  (request s d = None \/
   exists body, request s d = Some body /\ MAX_MSG_SIZE < len body /\
     _connected_event (KLquerier s) = true) ->
  exists e s', query d timeout others late s = (Raise e, s') /\
    (e = UnicodeEncodeError \/ e = ValueError) /\ is_querying s' = true /\
    seq_all (map in_thread (map (_internal_data_recv user) ms)) s' =
      (Ret tt,
       match last ms with
       | Some m => set_query (Some (utf8_decode_replace m)) true true false s
       | None => set_query None false true false s
       end).
Proof.
  intros Hreq. set (s1 := set_query None false true false s).
  assert (exists e, query_async d s1 = (Raise e, s1) /\
    (e = UnicodeEncodeError \/ e = ValueError)) as (e & Hq & He).
  { rewrite query_async_eq. change (request s1 d) with (request s d).
    destruct Hreq as [-> | (body & -> & Hlen & Hc)]; [eauto|].
    unfold on_querier, zoom. rewrite send_data_too_long by done.
    rewrite set_KLquerier_id. eauto. }
  exists e, s1. split_and!; [|done|done|].
  - unfold query, query_begin. unfold bind at 1, modify. fold s1.
    by apply bind_Raise.
  - exact (recv_all_querying user ms s1 None eq_refl eq_refl).
Qed.

(** A query on a lost connection never returns. When the client is not
    connected and no time limit is given, [query] blocks whatever other threads
    do, as long as none of them sets the event: nothing was sent, so no reply
    will come. *)
Theorem query_blocks_when_disconnected {U W : Type} (s : querier U W) d body others late :
  _connected_event (KLquerier s) = false -> request s d = Some body ->
  (forall m s0, m ∈ others -> query_event s0 = false -> query_event (snd (m s0)) = false) ->
  fst (query d None others late s) = Stuck /\
  (others = [] -> KLquerier (snd (query d None others late s)) = KLquerier s).
Proof.
  intros Hc Hb Hoth. set (s1 := set_query None false true false s).
  assert (query_async d s1 = (Ret tt, s1)) as Hq.
  { rewrite query_async_eq. change (request s1 d) with (request s d). rewrite Hb.
    unfold on_querier, zoom. rewrite send_data_disconnected by done.
    by rewrite set_KLquerier_id. }
  assert (query d None others late s =
    bind (event_wait None others)
      (fun success => seq_all (map in_thread late) >> query_end success) s1) as ->.
  { unfold query, query_begin. unfold bind at 1, modify. fold s1.
    by rewrite (bind_Ret _ _ _ _ _ Hq). }
  split.
  - assert (query_event s1 = false) as He by done. revert He. generalize s1. clear -Hoth.
    induction others as [|m others IH]; intros s1 He; unfold bind at 1;
      cbn [event_wait]; unfold bind at 1, gets; rewrite He; [done|].
    unfold bind at 1, in_thread.
    assert (query_event (snd (m s1)) = false) as He'
      by (apply Hoth; [apply list_elem_of_here|done]).
    specialize (IH (fun m' s0 Hm => Hoth m' s0 (list_elem_of_further _ _ _ Hm)) (snd (m s1)) He').
    revert IH. unfold bind at 1. by destruct (event_wait None others _) as [[[]| |] ?].
  - by intros ->.
Qed.

(** What [query] can return. Whatever other threads do, with callbacks that
    only act on the application, a query that returns gives a text, unless the
    querier was disconnected, and then it may return [None]. *)
Theorem query_returns_text {U W : Type} (app : U -> pystr -> W -> W)
    (s0 s : querier U W) r :
  rtc (querier_step app) (Idle, s0) (Returned (Ret r), s) ->
  is_Some r \/ sk_phase (tcp_socket (KLquerier s)) = Closed.
Proof.
  intros Hr. assert (q_inv (Idle, s0)) as Hi by done.
  assert (q_inv (Returned (Ret r), s)) as [_ H].
  { remember (Idle, s0) as c0 eqn:E0. remember (Returned (Ret r), s) as c1 eqn:E1.
    clear E0 E1. induction Hr as [|c0 c c1 Hs _ IH]; [done|]. eauto using q_inv_step. }
  exact H.
Qed.

(** [disconnect] ends a waiting query. A query that waits when another thread
    disconnects returns, and what it returns is [None], not a text. *)
Theorem disconnect_returns_None {U W : Type} (s : querier U W) d timeout others body x :
  live (KLquerier s) -> request s d = Some body -> len body <= MAX_MSG_SIZE ->
  frame body = Some x ->
  fst (query d timeout (disconnect :: others) [] s) = Ret None.
Proof.
  intros Hl Hb Hlen Hx. unfold query, query_begin. unfold bind at 1, modify.
  set (s1 := set_query None false true false s).
  assert (request s1 d = Some body) as Hb1 by done.
  rewrite (bind_Ret _ _ _ _ _ (query_async_live d s1 body x Hl Hb1 Hlen Hx)).
  set (s2 := set_KLquerier _ s1).
  assert (exists s3, event_wait timeout (disconnect :: others) s2 = (Ret true, s3) /\
    query_result s3 = None) as (s3 & He & Hn).
  { cbn [event_wait]. unfold bind at 1, gets. change (query_event s2) with false.
    unfold bind at 1, in_thread. rewrite querier_disconnect_eq.
    destruct others; eexists; done. }
  rewrite (bind_Ret _ _ _ _ _ He). unfold query_end. step. simpl. by rewrite Hn.
Qed.

(** ** Witnesses *)

Definition ex_querier : querier unit (list pystr) :=
  snd (set_RecvFunc tt (snd (__init__ (Some (str_of "app")) (Some (str_of "sock")) true None []))).

Definition ex_user (c : unit) (d : pystr) : M (querier unit (list pystr)) unit :=
  quiet_user (fun _ d w => w ++ [d]) c d.

Definition ex_request : bytes := bytes_of "app-sock&*&ping".
Definition ex_frame : bytes := MAGIC ++ [x00; x00; x00; x0f] ++ ex_request.

Lemma query_returns_reply_witness :
  query (str_of "ping") None [_internal_data_recv ex_user (bytes_of "pong")] [] ex_querier =
    (Ret (Some (str_of "pong")),
     set_query (Some (str_of "pong")) true false false
       (set_KLquerier (more_sent ex_frame (KLquerier ex_querier)) ex_querier)).
Proof.
  exact (query_returns_reply ex_user ex_querier (str_of "ping") None (bytes_of "pong") [] []
    ex_request ex_frame ltac:(by split_and!) eq_refl ltac:(vm_compute; discriminate) eq_refl).
Defined.

Lemma query_times_out_witness :
  exists s', query (str_of "ping") (Some 5) [] (map (_internal_data_recv ex_user) [bytes_of "late"])
      ex_querier = (Raise TimeoutError, s') /\ world s' = [].
Proof.
  destruct (query_times_out ex_user ex_querier (str_of "ping") 5 [bytes_of "late"] ex_request ex_frame)
    as (s' & Hq & _ & Hw & _); [by split_and!|reflexivity|vm_compute; discriminate|reflexivity|].
  exists s'. split; [exact Hq|exact Hw].
Defined.

Lemma stale_reply_returned_witness :
  exists s1, query (str_of "ping") (Some 5) [] [] ex_querier = (Raise TimeoutError, s1) /\
    fst (query (str_of "ping") None [_internal_data_recv ex_user (bytes_of "old")] [] s1) =
      Ret (Some (str_of "old")).
Proof.
  apply (stale_reply_returned ex_user ex_querier (str_of "ping") (str_of "ping") 5 None
    (bytes_of "old") [] ex_request ex_request);
    [by split_and!|reflexivity|vm_compute; discriminate|reflexivity|vm_compute; discriminate].
Defined.

Lemma failed_query_swallows_witness :
  exists e s', query [55296] None [] [] ex_querier = (Raise e, s') /\
    (e = UnicodeEncodeError \/ e = ValueError) /\ is_querying s' = true /\
    seq_all (map in_thread (map (_internal_data_recv ex_user) [bytes_of "news"])) s' =
      (Ret tt, set_query (Some (str_of "news")) true true false ex_querier).
Proof.
  apply (failed_query_swallows ex_user ex_querier [55296] None [] [] [bytes_of "news"]).
  left. reflexivity.
Defined.

Definition ex_unconnected : querier unit (list pystr) :=
  snd (__init__ (Some (str_of "app")) (Some (str_of "sock")) false None []).

Lemma query_blocks_when_disconnected_witness :
  fst (query (str_of "ping") None [set_config (str_of "a") (str_of "b")] [] ex_unconnected) = Stuck.
Proof.
  apply (query_blocks_when_disconnected ex_unconnected (str_of "ping") ex_request
    [set_config (str_of "a") (str_of "b")] []); [reflexivity|reflexivity|].
  intros m s0 ->%list_elem_of_singleton H. exact H.
Defined.

Definition ex_app (c : unit) (d : pystr) (w : list pystr) : list pystr := w ++ [d].
Definition ex_begun := snd (query_begin ex_querier).
Definition ex_sent := snd (query_async (str_of "ping") ex_begun).
Definition ex_woken := snd (_internal_data_recv (quiet_user ex_app) (bytes_of "pong") ex_sent).

Lemma query_returns_text_witness :
  is_Some (Some (str_of "pong")) \/
  sk_phase (tcp_socket (KLquerier (snd (query_end true ex_woken)))) = Closed.
Proof.
  apply (query_returns_text ex_app ex_querier (snd (query_end true ex_woken)) (Some (str_of "pong"))).
  apply (rtc_l _ _ (Sending (str_of "ping"), ex_begun)); [apply q_begin|].
  apply (rtc_l _ _ (Waiting, ex_sent)); [apply q_send; reflexivity|].
  apply (rtc_l _ _ (Waiting, ex_woken)); [exact (q_receive ex_app Waiting (bytes_of "pong") ex_sent)|].
  apply (rtc_l _ _ (Woken true, ex_woken)); [apply q_wake; reflexivity|].
  apply rtc_once. exact (q_end ex_app true ex_woken).
Defined.

Lemma disconnect_returns_None_witness :
  fst (query (str_of "ping") None [disconnect] [] ex_querier) = Ret None.
Proof.
  apply (disconnect_returns_None ex_querier (str_of "ping") None [] ex_request ex_frame);
    [by split_and!|reflexivity|vm_compute; discriminate|reflexivity].
Defined.
