(* ===== verification/OpenSocketResponser.v ===== *)
(** * [OpenSocketResponser]

    Models knotlink-sdk-python/knotlink/knotlink/OpenSocketResponser.py. The
    receive thread puts requests into [data_queue]; the worker thread,
    [_process_queue], takes them out, calls the application, and sends the answer
    back under the key of the request. [Queue] is a first-in first-out list with
    its count of unfinished tasks. *)

From S2P Require Export TcpClient Keys.

Record responser {U W : Type} := Responser {
  appID : pystr;
  openSocketID : pystr;
  recv_func : option U;
  data_queue : list (pystr * pystr);
  unfinished_tasks : nat;
  workers : nat;
  KLresponser : tcp unit;
  world : W }.
Arguments responser U W : clear implicits.

Section responser.
Context {U W : Type}.
Implicit Types s : responser U W.

Definition set_KLresponser (t : tcp unit) s : responser U W :=
  Responser _ _ (appID s) (openSocketID s) (recv_func s) (data_queue s) (unfinished_tasks s)
    (workers s) t (world s).
Definition set_recv_func (f : option U) s : responser U W :=
  Responser _ _ (appID s) (openSocketID s) f (data_queue s) (unfinished_tasks s)
    (workers s) (KLresponser s) (world s).
Definition set_queue (q : list (pystr * pystr)) (n : nat) s : responser U W :=
  Responser _ _ (appID s) (openSocketID s) (recv_func s) q n
    (workers s) (KLresponser s) (world s).
Definition set_workers (n : nat) s : responser U W :=
  Responser _ _ (appID s) (openSocketID s) (recv_func s) (data_queue s) (unfinished_tasks s)
    n (KLresponser s) (world s).
Definition set_world (w : W) s : responser U W :=
  Responser _ _ (appID s) (openSocketID s) (recv_func s) (data_queue s) (unfinished_tasks s)
    (workers s) (KLresponser s) w.

Definition on_responser {A} (m : M (tcp unit) A) : M (responser U W) A :=
  zoom KLresponser set_KLresponser m.

(** ** [queue.Queue] *)

Definition queue_put (x : pystr * pystr) : M (responser U W) unit :=
  modify (fun s => set_queue (data_queue s ++ [x]) (S (unfinished_tasks s)) s).

(** [get(timeout=...)], when the time is over. *)
Definition queue_get : M (responser U W) (pystr * pystr) := fun s =>
  match data_queue s with
  | [] => (Raise QueueEmpty, s)
  | x :: q => (Ret x, set_queue q (unfinished_tasks s) s)
  end.

(** [task_done()] raises [ValueError] when it is called too often. *)
Definition task_done : M (responser U W) unit := fun s =>
  match unfinished_tasks s with
  | O => (Raise ValueError, s)
  | S n => (Ret tt, set_queue (data_queue s) n s)
  end.

(** ** The methods *)

Definition init : M (responser U W) unit :=
  on_responser (connect_to_server (str_of "127.0.0.1") 6378) >>
  on_responser (modify (TcpClient.set_callback (Some tt))) >>
  let! s := gets (fun s => s) in
  let s_key := appID s ++ DASH ++ openSocketID s in
  let! s_key_bytes := encode s_key in
  on_responser (send_data s_key_bytes) >>
  modify (fun s => set_workers (S (workers s)) s).

Definition __init__ (APPID OpenSocketID : pystr) (listening : bool) (room : option nat) (w : W) :
    outcome unit * responser U W :=
  init (Responser _ _ APPID OpenSocketID None [] 0 0 (TcpClient.__init__ listening room) w).

Definition sendBack (data key : pystr) : M (responser U W) unit :=
  let s_key := key ++ DELIM in
  let! s_key_bytes := encode s_key in
  let! bs := encode data in
  let s_data := s_key_bytes ++ bs in
  on_responser (send_data s_data).

(** The [try] block of [_internal_data_recv]: the key and the payload. *)
Definition parse_request (data : bytes) : M (responser U W) (pystr * bytes) :=
  let! key_end := of_option ValueError (index DELIM_BYTES data) in
  let! key := decode (slice 0 key_end data) in
  let payload := slice_from (key_end + 3) data in
  ret (key, payload).

Definition _internal_data_recv (data : bytes) : M (responser U W) unit :=
  let! parsed := try_except (let! p := parse_request data in ret (Some p))
                   is_value_error (fun _ => ret None) in
  match parsed with
  | None => ret tt
  | Some (key, payload) =>
    if bool_decide (payload = []) then ret tt
    else queue_put (utf8_decode_replace payload, key)
  end.

Definition set_RecvFunc (f : U) : M (responser U W) unit := modify (set_recv_func (Some f)).

Definition disconnect : M (responser U W) unit := on_responser TcpClient.disconnect.

Definition close : M (responser U W) unit := disconnect.

Definition __enter__ : M (responser U W) (responser U W) := gets (fun s => s).

Definition __exit__ : M (responser U W) bool := disconnect >> ret false.

Definition responser_host : TcpHost (responser U W) unit.
Proof.
  refine {| client := KLresponser; set_client := set_KLresponser;
            on_data _ d := _internal_data_recv d |}.
  all: by intros; try destruct s.
Defined.

Section worker.
Variable user : U -> pystr -> M (responser U W) (option pystr).

(** The body of the loop for one request. *)
Definition answer (payload key : pystr) : M (responser U W) unit :=
  try_finally
    (let! f := gets recv_func in
     match f with
     | Some f =>
       let! response := user f payload in
       match response with
       | Some response => sendBack response key
       | None => ret tt
       end
     | None => ret tt
     end)
    task_done.

(** The worker thread. Each turn, other threads run first, while it waits in
    [get]; the loop is [Stuck] when it is still running after these turns. *)
Fixpoint _process_queue (turns : list (M (responser U W) unit)) : M (responser U W) unit :=
  let! c := on_responser connected in
  if negb c then ret tt
  else
    match turns with
    | [] => stuck
    | others :: turns =>
      in_thread others >>
      let! item := try_except (let! x := queue_get in ret (Some x))
                     (fun e => bool_decide (e = QueueEmpty)) (fun _ => ret None) in
      match item with
      | None => _process_queue turns
      | Some (payload, key) => answer payload key >> _process_queue turns
      end
    end.

End worker.
End responser.

(** ** Applications, and what serving their requests gives *)

Section application.
Context {U W : Type} (app : U -> pystr -> W -> option pystr * W).

(** A callback that only acts on the application. *)
Definition app_user (c : U) (text : pystr) : M (responser U W) (option pystr) := fun s =>
  let '(r, w) := app c text (world s) in (Ret r, set_world w s).

(** The body of an answer; [None] when it cannot be encoded or is too long. *)
Definition reply_body (response key : pystr) : option bytes :=
  match utf8_encode (key ++ DELIM), utf8_encode response with
  | Some k, Some r => if len (k ++ r) <=? MAX_MSG_SIZE then Some (k ++ r) else None
  | _, _ => None
  end.

(** The abstract server: the bodies of the answers to a list of requests, one
    after the other, and the application after them. *)
Fixpoint serve (c : U) (reqs : list (pystr * pystr)) (w : W) : option (list bytes * W) :=
  match reqs with
  | [] => Some ([], w)
  | (payload, key) :: reqs =>
    let '(r, w) := app c payload w in
    match r with
    | None => serve c reqs w
    | Some response =>
      match reply_body response key, serve c reqs w with
      | Some body, Some (bodies, w) => Some (body :: bodies, w)
      | _, _ => None
      end
    end
  end.

End application.

(** What [_internal_data_recv] puts into the queue for a message. *)
Definition accept (data : bytes) : option (pystr * pystr) :=
  match cut data with
  | Some (kb, pb) =>
    match utf8_decode kb with
    | Some key => if bool_decide (pb = []) then None else Some (utf8_decode_replace pb, key)
    | None => None
    end
  | None => None
  end.

(** ** Lemmas *)

Section responser_lemmas.
Context {U W : Type}.
Implicit Types s : responser U W.

Lemma internal_data_recv_eq data s :
  _internal_data_recv data s =
    match accept data with
    | Some x => (Ret tt, set_queue (data_queue s ++ [x]) (S (unfinished_tasks s)) s)
    | None => (Ret tt, s)
    end.
Proof.
  unfold _internal_data_recv, accept, parse_request, cut, index, decode, try_except. step.
  destruct (find_sub DELIM_BYTES data) as [i|]; simpl; [|done].
  unfold slice, slice_from. rewrite Z.sub_0_r, Nat2Z.id.
  change (Z.to_nat 0) with 0%nat. rewrite drop_0.
  replace (Z.to_nat (Z.of_nat i + 3)) with (i + 3)%nat by lia.
  destruct (utf8_decode (take i data)); simpl; [|done].
  by case_bool_decide.
Qed.

Lemma sendBack_eq response key s :
  sendBack response key s =
    match utf8_encode (key ++ DELIM), utf8_encode response with
    | Some k, Some r => on_responser (send_data (k ++ r)) s
    | _, _ => (Raise UnicodeEncodeError, s)
    end.
Proof.
  unfold sendBack, encode. step.
  destruct (utf8_encode (key ++ DELIM)); [|done]. by destruct (utf8_encode response).
Qed.

(** A message that was sent over a connection that does not break. *)
Lemma on_responser_send_Ret body s s' :
  live (KLresponser s) -> on_responser (send_data body) s = (Ret tt, s') ->
  exists x, frame body = Some x /\ len body <= MAX_MSG_SIZE /\
    s' = set_KLresponser (more_sent x (KLresponser s)) s.
Proof.
  intros Hl. unfold on_responser, zoom.
  destruct (Z.ltb_spec MAX_MSG_SIZE (len body)) as [Hlt|Hlen].
  - rewrite send_data_too_long; [done|apply Hl|done].
  - destruct (frame_is_Some body Hlen) as [x Hx].
    rewrite (send_data_frame _ body x) by done. intros E. exists x.
    split_and!; [done..|]. by apply pair_equal_spec in E as [_ <-].
Qed.

Lemma accept_Some data payload key :
  accept data = Some (payload, key) ->
  exists kb pb, cut data = Some (kb, pb) /\ pb <> [] /\ utf8_decode kb = Some key /\
    payload = utf8_decode_replace pb.
Proof.
  unfold accept. destruct (cut data) as [[kb pb]|]; [|done].
  destruct (utf8_decode kb) as [k|] eqn:Ek; [|done].
  case_bool_decide; [done|]. intros E. apply (inj Some) in E. exists kb, pb. split_and!; congruence.
Qed.

(** What is accepted of a text: it is cut at its first delimiter. *)
Lemma accept_text text data :
  utf8_encode text = Some data ->
  accept data =
    match find_sub DELIM text with
    | None => None
    | Some i =>
      if bool_decide (drop (i + 3) text = []) then None
      else Some (drop (i + 3) text, take i text)
    end.
Proof.
  intros Ht. pose proof (cut_text text data Ht) as Hc. unfold accept.
  destruct (find_sub DELIM text) as [i|]; [|by rewrite Hc].
  destruct Hc as (kb & tb & -> & Hk & Hd).
  rewrite (utf8_decode_encode _ _ Hk), (utf8_decode_replace_encode _ _ Hd).
  assert (tb = [] <-> drop (i + 3) text = []) as Hiff.
  { split; intros E; rewrite E in Hd; [|by apply (inj Some) in Hd].
    by apply utf8_decode_encode in Hd as [= <-]. }
  by rewrite (bool_decide_ext _ _ Hiff).
Qed.

Lemma sendBack_live response key body x s :
  live (KLresponser s) -> reply_body response key = Some body -> frame body = Some x ->
  sendBack response key s = (Ret tt, set_KLresponser (more_sent x (KLresponser s)) s).
Proof.
  intros Hl Hb Hx. rewrite sendBack_eq. unfold reply_body in Hb.
  destruct (utf8_encode (key ++ DELIM)) as [k|]; [|done].
  destruct (utf8_encode response) as [r|]; [|done].
  destruct (Z.leb_spec (len (k ++ r)) MAX_MSG_SIZE); [|done].
  apply (inj Some) in Hb. subst body. unfold on_responser, zoom.
  by rewrite (send_data_frame _ (k ++ r) x).
Qed.

(** The accepted messages, in order, are what the queue gets. *)
Definition enqueue (d : bytes) s : responser U W := snd (_internal_data_recv d s).

Definition responser_quiet : @QuietHost (responser U W) unit responser_host.
Proof.
  refine (@Build_QuietHost _ _ responser_host (fun _ d s => enqueue d s) _ _ _);
    intros h d; intros; unfold enqueue; simpl on_data; rewrite !internal_data_recv_eq;
    by destruct (accept d).
Defined.

Lemma deliver_all_requests ds s :
  @deliver_all _ _ responser_host responser_quiet (Some tt) ds s =
    set_queue (data_queue s ++ omap accept ds)
      (unfinished_tasks s + length (omap accept ds)) s.
Proof.
  revert s. induction ds as [|d ds IH]; intros s.
  - simpl. rewrite app_nil_r, Nat.add_0_r. by destruct s.
  - cbn [omap list_omap deliver_all fold_left].
    change (fold_left _ ds ?x) with
      (@deliver_all _ _ responser_host responser_quiet (Some tt) ds x).
    rewrite IH. cbn [deliver_opt deliver responser_quiet]. unfold enqueue.
    rewrite internal_data_recv_eq. simpl. destruct (accept d) as [x|]; simpl; [|done].
    rewrite <- app_assoc. simpl. by rewrite Nat.add_succ_r.
Qed.

Lemma on_responser_connected s :
  on_responser connected s = (Ret (_connected_event (KLresponser s)), s).
Proof. by destruct s. Qed.

(** One turn of the worker on a non-empty queue. *)
Lemma process_queue_turn user turns s payload key q :
  _connected_event (KLresponser s) = true -> data_queue s = (payload, key) :: q ->
  _process_queue user (ret tt :: turns) s =
    bind (answer user payload key) (fun _ => _process_queue user turns)
      (set_queue q (unfinished_tasks s) s).
Proof.
  intros Hc Hq. cbn [_process_queue].
  rewrite (bind_Ret _ _ _ _ _ (on_responser_connected s)), Hc. cbn [negb].
  unfold bind at 1, in_thread at 1. cbn [snd ret].
  unfold bind at 1, try_except, bind at 1, queue_get. by rewrite Hq.
Qed.

Lemma process_queue_idle user s :
  _connected_event (KLresponser s) = true -> _process_queue user [] s = (Stuck, s).
Proof.
  intros Hc. cbn [_process_queue].
  by rewrite (bind_Ret _ _ _ _ _ (on_responser_connected s)), Hc.
Qed.

(** The answer to one request. *)
Lemma answer_silent app c payload key s w n :
  recv_func s = Some c -> app c payload (world s) = (None, w) -> unfinished_tasks s = S n ->
  answer (app_user app) payload key s = (Ret tt, set_queue (data_queue s) n (set_world w s)).
Proof.
  intros Hf Ha Hn. unfold answer, try_finally, app_user. step. rewrite Hf, Ha.
  unfold task_done. simpl. by rewrite Hn.
Qed.

Lemma answer_reply app c payload key s w n response body x :
  recv_func s = Some c -> app c payload (world s) = (Some response, w) ->
  unfinished_tasks s = S n -> live (KLresponser s) ->
  reply_body response key = Some body -> frame body = Some x ->
  answer (app_user app) payload key s =
    (Ret tt, set_queue (data_queue s) n
       (set_world w (set_KLresponser (more_sent x (KLresponser s)) s))).
Proof.
  intros Hf Ha Hn Hl Hb Hx. unfold answer, try_finally, app_user. step. rewrite Hf, Ha.
  rewrite (sendBack_live response key body x) by done.
  unfold task_done. simpl. by rewrite Hn.
Qed.

(** The worker refines the abstract server. *)
Lemma process_queue_serves app reqs c s bodies w x n :
  live (KLresponser s) -> recv_func s = Some c -> data_queue s = reqs ->
  unfinished_tasks s = (n + length reqs)%nat ->
  serve app c reqs (world s) = Some (bodies, w) -> frames bodies = Some x ->
  _process_queue (app_user app) (replicate (length reqs) (ret tt)) s =
    (Stuck, set_queue [] n (set_world w (set_KLresponser (more_sent x (KLresponser s)) s))).
Proof.
  revert s bodies x. induction reqs as [|[payload key] reqs IH];
    intros s bodies x Hl Hf Hq Hn Hs Hx.
  - cbn [serve] in Hs. simplify_eq. apply (inj Some) in Hx. subst x.
    cbn [length replicate]. rewrite process_queue_idle by apply Hl. f_equal.
    destruct Hl as (_ & Ho & Hr). destruct s as [? ? ? ? ? ? [[] ? ? ? ? ? ? ? ?] ?].
    simpl in *. subst. unfold more_sent, TcpClient.set_socket. simpl.
    by rewrite app_nil_r, Nat.add_0_r.
  - cbn [length replicate]. rewrite (process_queue_turn _ _ s payload key reqs)
      by (done || apply Hl).
    cbn [serve] in Hs. destruct (app c payload (world s)) as [r w1] eqn:Ea.
    set (s0 := set_queue reqs (unfinished_tasks s) s).
    assert (unfinished_tasks s0 = S (n + length reqs)) as Hn0 by (simpl in *; lia).
    destruct r as [response|].
    + destruct (reply_body response key) as [body|] eqn:Eb; [|done].
      destruct (serve app c reqs w1) as [[bodies' w']|] eqn:Es; [|done]. simplify_eq.
      cbn [frames] in Hx. destruct (frame body) as [y|] eqn:Ey; [|done].
      destruct (frames bodies') as [z|] eqn:Ez; [|done]. apply (inj Some) in Hx. subst x.
      rewrite (bind_Ret _ _ _ _ _ (answer_reply app c payload key s0 w1 _ response body y
        Hf Ea Hn0 Hl Eb Ey)).
      rewrite (IH _ bodies' z); [|by apply live_more_sent|done..].
      by rewrite <- more_sent_twice.
    + rewrite (bind_Ret _ _ _ _ _ (answer_silent app c payload key s0 w1 _ Hf Ea Hn0)).
      by rewrite (IH _ bodies x).
Qed.

End responser_lemmas.

(** ** The properties *)

(** Requests are served in order. When requests arrive, in chunks cut
    anywhere, at a responser whose callback only acts on the application, every
    accepted one is queued once, and the worker sends exactly the answers of the
    abstract server, in order, each in one frame; it then waits with an empty
    queue and no unfinished task. *)
Theorem requests_served {U W : Type} (app : U -> pystr -> W -> option pystr * W)
    (s : responser U W) c (ms chunks bodies : list bytes) w x :
  live (KLresponser s) -> received_data_callback (KLresponser s) = Some tt ->
  buffer (KLresponser s) = [] -> recv_func s = Some c ->
  data_queue s = [] -> unfinished_tasks s = 0%nat ->
  Forall (fun m => valid_body m = true) ms -> frames ms = Some (concat chunks) ->
  Forall (fun c => c <> []) chunks ->
  serve app c (omap accept (payloads ms)) (world s) = Some (bodies, w) ->
  frames bodies = Some x ->
  exists s', @receive_data _ _ responser_host (chunk_events chunks) s = (Stuck, s') /\
    _process_queue (app_user app)
        (replicate (length (omap accept (payloads ms))) (ret tt)) s' =
      (Stuck, set_world w (set_KLresponser (more_sent x (KLresponser s)) s)).
Proof.
  intros Hl Hcb Hb Hf Hq Hu Hv Hx Hne Hs Hbx.
  pose proof (@receive_data_frames _ _ responser_host responser_quiet ms chunks s Hne
    (proj1 Hl) (proj1 (proj2 Hl)) Hb Hv Hx) as Hr.
  change (@client _ _ responser_host s) with (KLresponser s) in Hr.
  rewrite Hcb, deliver_all_requests, Hq, Hu in Hr.
  eexists. split; [exact Hr|].
  rewrite (process_queue_serves app _ c _ bodies w x 0) by done.
  f_equal. destruct s. simpl in *. by subst.
Qed.

(** An answer goes back under the key of its request. Whatever key a server
    put before a message that [_internal_data_recv] queued as a request, an answer
    that [sendBack] sends with the queued key is one frame, whose body holds the
    very same key bytes before its first delimiter and the answer's text, in
    UTF-8, after it, also when either of the two holds delimiters. *)
Theorem reply_keeps_key {U W : Type} (s s1 s2 s3 : responser U W) (data : bytes)
    payload key response :
  _internal_data_recv data s = (Ret tt, s1) ->
  data_queue s1 = data_queue s ++ [(payload, key)] ->
  live (KLresponser s2) -> sendBack response key s2 = (Ret tt, s3) ->
  exists kb pb rb x, cut data = Some (kb, pb) /\ pb <> [] /\
    payload = utf8_decode_replace pb /\ utf8_encode response = Some rb /\
    frame (kb ++ DELIM_BYTES ++ rb) = Some x /\
    s3 = set_KLresponser (more_sent x (KLresponser s2)) s2 /\
    cut (kb ++ DELIM_BYTES ++ rb) = Some (kb, rb) /\
    valid_body (kb ++ DELIM_BYTES ++ rb) = true /\ kb ++ DELIM_BYTES ++ rb <> HEARTBEAT.
Proof.
  intros Hr Hq Hl Hs. rewrite internal_data_recv_eq in Hr.
  destruct (accept data) as [y|] eqn:Ha; apply pair_equal_spec in Hr as [_ <-].
  2:{ apply (f_equal length) in Hq. rewrite length_app in Hq. simpl in Hq. lia. }
  simpl in Hq. apply app_inv_head in Hq. assert (y = (payload, key)) as -> by congruence.
  destruct (accept_Some _ _ _ Ha) as (kb & pb & Hc & Hpb & Hk & Hp).
  rewrite sendBack_eq, utf8_encode_app, utf8_encode_DELIM, (utf8_encode_decode _ _ Hk) in Hs.
  destruct (utf8_encode response) as [rb|]; [|done].
  rewrite <- app_assoc in Hs.
  destruct (on_responser_send_Ret _ _ _ Hl Hs) as (x & Hx & Hlen & ->).
  exists kb, pb, rb, x. split_and!; try done.
  - by eapply cut_again.
  - apply valid_body_intro; [|done]. by destruct kb.
  - apply (not_heartbeat amp_byte).
    + rewrite !elem_of_app. right. left. apply list_elem_of_here.
    + by apply (bool_decide_unpack _).
Qed.

(** What a responser accepts. A message that is a key without ['&'], the
    delimiter and a non-empty text is queued as that text and that key, also
    when the text holds the delimiter; a message without the delimiter, with a
    key that is not UTF-8 or with nothing after it is dropped, and nothing is
    raised. *)
Theorem request_accepted {U W : Type} (s : responser U W) (data : bytes) :
  (forall key text kb tb,
     utf8_encode key = Some kb -> utf8_encode text = Some tb -> text <> [] -> amp ∉ key ->
     data = kb ++ DELIM_BYTES ++ tb ->
     _internal_data_recv data s =
       (Ret tt, set_queue (data_queue s ++ [(text, key)]) (S (unfinished_tasks s)) s)) /\
  ((forall k p, data = k ++ DELIM_BYTES ++ p -> utf8_decode k = None \/ p = []) ->
     _internal_data_recv data s = (Ret tt, s)).
Proof.
  split.
  - intros key text kb tb Hk Ht Hne Hamp ->. rewrite internal_data_recv_eq. unfold accept.
    rewrite cut_app by by eapply amp_fresh.
    rewrite (utf8_decode_encode _ _ Hk), (utf8_decode_replace_encode _ _ Ht).
    rewrite bool_decide_false; [done|]. intros ->. by apply utf8_decode_encode in Ht as [= <-].
  - intros Hbad. rewrite internal_data_recv_eq. unfold accept.
    destruct (cut data) as [[kb pb]|] eqn:Ec; [|done].
    apply cut_Some in Ec. destruct (Hbad kb pb Ec) as [-> | ->]; [done|].
    by destruct (utf8_decode kb).
Qed.

(** C34: An exception ends the worker. When the callback raises on a request, or
    its answer cannot be encoded, the worker thread ends at that request, which
    is marked done without an answer; whatever other threads do later, the
    requests behind it stay in the queue although the client is connected. *)
Theorem worker_dies {U W : Type} (app : U -> pystr -> W -> option pystr * W)
    (user : U -> pystr -> M (responser U W) (option pystr))
    (s : responser U W) c payload key q n turns e :
  _connected_event (KLresponser s) = true -> data_queue s = (payload, key) :: q ->
  unfinished_tasks s = S n -> recv_func s = Some c ->
  (user c payload = raise e \/
   user c payload = app_user app c payload /\ e = UnicodeEncodeError /\
   exists response w, app c payload (world s) = (Some response, w) /\
     utf8_encode response = None) ->
  exists s', _process_queue user (ret tt :: turns) s = (Raise e, s') /\
    data_queue s' = q /\ unfinished_tasks s' = n /\
    KLresponser s' = KLresponser s.
Proof.
  intros Hc Hq Hn Hf Hu. rewrite (process_queue_turn _ _ s payload key q) by done.
  set (s0 := set_queue q (unfinished_tasks s) s).
  enough (exists s', answer user payload key s0 = (Raise e, s') /\
    data_queue s' = q /\ unfinished_tasks s' = n /\ KLresponser s' = KLresponser s)
    as (s' & Ha & Hs') by (exists s'; split; [by apply bind_Raise|done]).
  assert (recv_func s0 = Some c) as Hf0 by done.
  unfold answer, try_finally. step. rewrite Hf0.
  destruct Hu as [-> | (-> & -> & response & w & Ha & Hr)].
  - unfold raise, bind, task_done. simpl. rewrite Hn. by eexists.
  - assert (app c payload (world s0) = (Some response, w)) as Ha0 by done.
    step. unfold app_user. rewrite Ha0, sendBack_eq, Hr.
    destruct (utf8_encode (key ++ DELIM)); unfold bind, task_done; simpl; rewrite Hn; by eexists.
Qed.

(** ** Witnesses *)

Definition ex_app (c : unit) (d : pystr) (w : nat) : option pystr * nat :=
  (Some (str_of "Echo: " ++ d), S w).

Definition ex_responser : responser unit nat :=
  snd (set_RecvFunc tt
    (snd (__init__ (str_of "app.knotlinksdk.test") (str_of "test_socket") true None 0%nat))).

Definition ex_request : bytes := bytes_of "42&*&Hi".
Definition ex_reply : bytes := bytes_of "42&*&Echo: Hi".

Lemma requests_served_witness :
  exists s', @receive_data _ _ responser_host
      (chunk_events [MAGIC ++ [x00; x00]; [x00; x07] ++ ex_request]) ex_responser = (Stuck, s') /\
    _process_queue (app_user ex_app) [ret tt] s' =
      (Stuck, set_world 1%nat (set_KLresponser
         (more_sent (MAGIC ++ [x00; x00; x00; x0d] ++ ex_reply) (KLresponser ex_responser))
         ex_responser)).
Proof.
  apply (requests_served ex_app ex_responser tt [ex_request]
    [MAGIC ++ [x00; x00]; [x00; x07] ++ ex_request] [ex_reply] 1%nat);
    try reflexivity; try (by split_and!); by repeat constructor.
Defined.

Definition ex_queued : responser unit nat := snd (_internal_data_recv ex_request ex_responser).

Lemma reply_keeps_key_witness :
  exists kb pb rb x, cut ex_request = Some (kb, pb) /\ pb <> [] /\
    str_of "Hi" = utf8_decode_replace pb /\
    utf8_encode (str_of "Echo: Hi") = Some rb /\
    frame (kb ++ DELIM_BYTES ++ rb) = Some x /\
    snd (sendBack (str_of "Echo: Hi") (str_of "42") ex_queued) =
      set_KLresponser (more_sent x (KLresponser ex_queued)) ex_queued /\
    cut (kb ++ DELIM_BYTES ++ rb) = Some (kb, rb) /\
    valid_body (kb ++ DELIM_BYTES ++ rb) = true /\ kb ++ DELIM_BYTES ++ rb <> HEARTBEAT.
Proof.
  apply (reply_keeps_key ex_responser ex_queued ex_queued _ ex_request
    (str_of "Hi") (str_of "42") (str_of "Echo: Hi"));
    [vm_compute; reflexivity..|by split_and!|vm_compute; reflexivity].
Defined.

Lemma request_accepted_witness :
  _internal_data_recv ex_request ex_responser =
    (Ret tt, set_queue [(str_of "Hi", str_of "42")] 1 ex_responser).
Proof.
  apply (proj1 (request_accepted ex_responser ex_request) (str_of "42") (str_of "Hi")
    (bytes_of "42") (bytes_of "Hi")); try reflexivity; [discriminate|].
  apply (bool_decide_unpack _). vm_compute. exact I.
Defined.

Lemma worker_dies_witness :
  exists s', _process_queue (fun _ _ => raise (UserError 7)) [ret tt; ret tt]
      (set_queue [(str_of "a", str_of "1"); (str_of "b", str_of "2")] 2 ex_responser) =
      (Raise (UserError 7), s') /\
    data_queue s' = [(str_of "b", str_of "2")] /\ unfinished_tasks s' = 1%nat /\
    KLresponser s' = KLresponser ex_responser.
Proof.
  apply (worker_dies ex_app (fun _ _ => raise (UserError 7))
    (set_queue [(str_of "a", str_of "1"); (str_of "b", str_of "2")] 2 ex_responser)
    tt (str_of "a") (str_of "1") _ 1 [ret tt] (UserError 7)); try reflexivity. by left.
Defined.
