(* ===== verification/ContextManagers.v ===== *)
(** * The [with] statement over the four Python classes

    [SignalSender], [SignalSubscriber], [OpenSocketQuerier] and
    [OpenSocketResponser] of knotlink-sdk-python can be used in a [with]
    statement. [with_block] is Python's statement over the two methods of such a
    class; the property runs it with the [__enter__] and [__exit__] of each. *)

From S2P Require Export SignalSender SignalSubscriber OpenSocketQuerier OpenSocketResponser.

(** [with x as y: body]. An exception of the body is given to [__exit__], and goes
    on unless it returns a true value. *)
Definition with_block {St} (enter : M St St) (exit : M St bool) (body : M St unit) : M St unit :=
  fun s =>
    bind enter (fun _ s =>
      match body s with
      | (Ret _, s) => bind exit (fun _ => ret tt) s
      | (Raise e, s) => bind exit (fun suppress => if suppress then ret tt else raise e) s
      | (Stuck, s) => (Stuck, s)
      end) s.

(** What [disconnect] leaves: the client is not connected, its socket is closed
    and it has no timer. *)
Definition released {H} (t : tcp H) : Prop :=
  _connected_event t = false /\ sk_phase (tcp_socket t) = Closed /\ heart_beat_timer t = None.

Lemma disconnect_released {H} (t : tcp H) : released (snd (TcpClient.disconnect t)).
Proof.
  rewrite disconnect_eq. simpl. destruct (heart_beat_timer t) as [i|] eqn:E; by split_and!.
Qed.

(** A [with] block with these methods, over an object whose client is [managed]:
    it ends as its body does, with the same result or the same exception;
    afterwards the client is released, what was sent is what the body sent, and
    sending does nothing any more. *)
Definition always_disconnects {St H} (managed : St -> tcp H) (enter : M St St)
    (exit : M St bool) : Prop :=
  forall (body : M St unit) s s' o,
    body s = (o, s') -> o <> Stuck ->
    exists s'',
      with_block enter exit body s = (o, s'') /\
      released (managed s'') /\
      wire (managed s'') = wire (managed s') /\
      (forall data, send_data data (managed s'') = (Ret tt, managed s'')).

(** It is enough that the object itself is entered, and that [exit] disconnects
    the client and gives [False]. *)
Lemma disconnecting_exit {St H} (managed : St -> tcp H) enter exit :
  (forall s, enter s = (Ret s, s)) ->
  (forall s, exists s'', exit s = (Ret false, s'') /\
    managed s'' = snd (TcpClient.disconnect (managed s))) ->
  always_disconnects managed enter exit.
Proof.
  intros Hn Hx body s s' o Hb Ho. destruct (Hx s') as (s'' & He & Hm). exists s''.
  pose proof (disconnect_released (managed s')) as Hr. rewrite <- Hm in Hr. split_and!.
  - unfold with_block, bind. rewrite Hn, Hb. by destruct o as [[]|e|]; rewrite ?He.
  - done.
  - rewrite Hm, disconnect_eq. simpl. by destruct (heart_beat_timer (managed s')).
  - intros data. apply send_data_disconnected, Hr.
Qed.

(** ** The property *)

(** C25: A [with] block always disconnects. For each of [SignalSender],
    [SignalSubscriber], [OpenSocketQuerier] and [OpenSocketResponser], with the
    [__enter__] and [__exit__] of that class, and for every body, one that raises
    included, the block ends as its body does, with the same result or the same
    exception; afterwards the client is not connected, its socket is closed, no
    timer is left in it, what was sent is what the body sent, and sending does
    nothing any more. *)
Theorem with_block_disconnects {U W : Type} :
  always_disconnects KLsender SignalSender.__enter__ SignalSender.__exit__ /\
  always_disconnects (@KLsubscriber U W) SignalSubscriber.__enter__ SignalSubscriber.__exit__ /\
  always_disconnects (@KLquerier U W) OpenSocketQuerier.__enter__ OpenSocketQuerier.__exit__ /\
  always_disconnects (@KLresponser U W) OpenSocketResponser.__enter__ OpenSocketResponser.__exit__.
Proof.
  split_and!; apply disconnecting_exit; try done; intros s.
  - unfold SignalSender.__exit__, SignalSender.disconnect, on_sender, zoom, bind.
    rewrite disconnect_eq. by eexists.
  - unfold SignalSubscriber.__exit__, SignalSubscriber.disconnect, on_subscriber, zoom, bind.
    rewrite disconnect_eq. by eexists.
  - unfold OpenSocketQuerier.__exit__, bind. rewrite querier_disconnect_eq. by eexists.
  - unfold OpenSocketResponser.__exit__, OpenSocketResponser.disconnect, on_responser, zoom, bind.
    rewrite disconnect_eq. by eexists.
Qed.

(** ** Witness: a sender whose body raises after one signal, and a querier whose
    body asks without waiting *)

Definition ex_body : M sender unit := emitt (PyStr (str_of "hi")) >> emitt PyOther.

Definition ex_managed : sender :=
  SignalSender.__init__ (Some (str_of "app")) (Some (str_of "sig")) true None.

Definition ex_asking : M (querier unit unit) unit := query_async (str_of "hi").

Definition ex_managed_querier : querier unit unit :=
  snd (OpenSocketQuerier.__init__ (Some (str_of "app")) (Some (str_of "sock")) true None tt).

Lemma with_block_disconnects_witness :
  (exists s'',
    with_block SignalSender.__enter__ SignalSender.__exit__ ex_body ex_managed =
      (Raise TypeError, s'') /\
    released (KLsender s'') /\ wire (KLsender s'') = wire (KLsender (snd (ex_body ex_managed)))) /\
  (exists s'',
    with_block OpenSocketQuerier.__enter__ OpenSocketQuerier.__exit__ ex_asking
      ex_managed_querier = (Ret tt, s'') /\
    released (KLquerier s'') /\ frame (bytes_of "app-sock&*&hi") = Some (wire (KLquerier s''))).
Proof.
  destruct (@with_block_disconnects unit unit) as (Hs & _ & Hq & _). split.
  - destruct (Hs ex_body ex_managed (snd (ex_body ex_managed)) (Raise TypeError))
      as (s'' & Hw & Hr & Hx & _); [by vm_compute|done|].
    exists s''. split; [exact Hw|]. split; [exact Hr|exact Hx].
  - destruct (Hq ex_asking ex_managed_querier (snd (ex_asking ex_managed_querier)) (Ret tt))
      as (s'' & Hw & Hr & Hx & _); [by vm_compute|done|].
    exists s''. split; [exact Hw|]. split; [exact Hr|]. rewrite Hx. by vm_compute.
Defined.
