(* ===== verification/Mains.v ===== *)
(** * The example programs at the end of the Python modules

    Each file of knotlink-sdk-python ends with a program under
    [if __name__ == "__main__"]. A program is modelled as a whole: it makes an
    object of the class, calls its methods, and sleeps, while other threads run;
    what these do is an argument. The application's state is what was printed,
    one entry a line. The theorems follow two of them from the constructor to the
    end. *)

From S2P Require Export ContextManagers Kludf.

(** [print] appends a line. *)
Abbreviation stdout := (list pystr).

(** A literal with characters outside ASCII. *)
Definition lit (s : string) : pystr := utf8_decode_replace (bytes_of s).

(** [time.sleep]: other threads run meanwhile. *)
Definition sleep {S} (others : list (M S unit)) : M S unit := seq_all (map in_thread others).

(** ** tcpclient.py *)

Module TcpClientMain.

Definition main (listening : bool) (room : option nat)
    (one_second one_minute : list (M (tcp unit) unit)) : outcome unit * tcp unit :=
  (connect_to_server (str_of "127.0.0.1") 6370 >>
   sleep one_second >>
   send_data (bytes_of "Hello, Server!") >>
   sleep one_minute >>
   TcpClient.disconnect) (TcpClient.__init__ listening room).

End TcpClientMain.

(** ** kludf.py *)

Module KludfMain.

(** What a line shows after its label: a map, or a text. *)
Inductive shown := Map (m : kvmap) | Text (s : pystr).

Definition main : list (pystr * shown) :=
  let kv_map := dict_set (str_of "key1") (str_of "value1") [] in
  let kv_map := dict_set (str_of "key2") (str_of "value2") kv_map in
  let serialized := serialize kv_map in
  let new_kv_map := deserialize [] serialized in
  [(lit "序列化前：", Map kv_map);
   (lit "序列化后：", Text serialized);
   (lit "反序列化后：", Map new_kv_map);
   (lit "获取 key1 的值：", Text (get new_kv_map (str_of "key1") []));
   (lit "获取不存在的 key3 的值：", Text (get new_kv_map (str_of "key3") []))].

Example main_prints :
  map snd main =
    [Map [(str_of "key1", str_of "value1"); (str_of "key2", str_of "value2")];
     Text (str_of "key1=value1;key2=value2");
     Map [(str_of "key1", str_of "value1"); (str_of "key2", str_of "value2")];
     Text (str_of "value1"); Text []].
Proof. vm_compute. reflexivity. Qed.

End KludfMain.

(** ** SignalSender.py *)

Module SignalSenderMain.

Definition main (listening : bool) (room : option nat) (ten_seconds : list (M sender unit)) :
    outcome unit * sender :=
  (emitt (PyStr (str_of "Hello, Server!")) >>
   sleep ten_seconds >>
   on_sender TcpClient.disconnect)
    (SignalSender.__init__ (Some (str_of "1")) (Some (str_of "1")) listening room).

Example main_sends :
  let '(o, s) := main true None [] in
  o = Ret tt /\ p_msgs (parse (wire (KLsender s))) = [bytes_of "1-1&*&Hello, Server!"] /\
  _connected_event (KLsender s) = false.
Proof. by vm_compute. Qed.

End SignalSenderMain.

(** ** SignalSubscriber.py *)

Module SignalSubscriberMain.

Definition my_callback (_ : unit) (data : pystr) (out : stdout) : stdout :=
  out ++ [str_of "Callback received data: " ++ data].

Definition main (listening : bool) (room : option nat)
    (one_minute : list (M (subscriber unit stdout) unit)) : outcome unit * subscriber unit stdout :=
  match SignalSubscriber.__init__ (str_of "1") (str_of "1") listening room [] with
  | (Ret _, s) =>
    (SignalSubscriber.set_RecvFunc tt >>
     sleep one_minute >>
     on_subscriber TcpClient.disconnect) s
  | r => r
  end.

(** The receive thread while the program sleeps. *)
Definition receiving (chunks : list bytes) : M (subscriber unit stdout) unit :=
  @receive_data _ _ (quiet_host my_callback) (chunk_events chunks).

End SignalSubscriberMain.

(** ** OpenSocketQuerier.py *)

Module OpenSocketQuerierMain.

Definition my_callback (_ : unit) (data : pystr) (out : stdout) : stdout :=
  out ++ [str_of "Callback received data: " ++ data].

Definition print (line : pystr) : M (querier unit stdout) unit :=
  modify (fun s => OpenSocketQuerier.set_world (OpenSocketQuerier.world s ++ [line]) s).

(** [f"{x}"] of what [query] returns. *)
Definition show (x : option pystr) : pystr := default (str_of "None") x.

Definition main (listening : bool) (room : option nat)
    (others late one_minute : list (M (querier unit stdout) unit)) :
    outcome unit * querier unit stdout :=
  match OpenSocketQuerier.__init__ (Some (str_of "0x00000001")) (Some (str_of "0x00000011"))
          listening room [] with
  | (Ret _, s) =>
    (OpenSocketQuerier.set_RecvFunc tt >>
     let! result := query (str_of "Hello, Server!") None others late in
     print (str_of "Synchronous query result: " ++ show result) >>
     query_async (str_of "Another message") >>
     sleep one_minute >>
     on_querier TcpClient.disconnect) s
  | r => r
  end.

Definition receive (d : bytes) : M (querier unit stdout) unit :=
  OpenSocketQuerier._internal_data_recv (OpenSocketQuerier.quiet_user my_callback) d.

End OpenSocketQuerierMain.

(** ** OpenSocketResponser.py *)

Module OpenSocketResponserMain.

(** The callback; [time.sleep(5)] lets the other threads run. *)
Definition on_received_data (five_seconds : list (M (responser unit stdout) unit))
    (_ : unit) (data : pystr) : M (responser unit stdout) (option pystr) :=
  modify (fun s => OpenSocketResponser.set_world
    (OpenSocketResponser.world s ++ [lit "接收到字符串数据：" ++ data]) s) >>
  sleep five_seconds >>
  ret (Some (str_of "Hello, Client! Your message has been received.")).

Definition main (listening : bool) (room : option nat)
    (one_minute : list (M (responser unit stdout) unit)) :
    outcome unit * responser unit stdout :=
  match OpenSocketResponser.__init__ (str_of "0x00000001") (str_of "0x00000002")
          listening room [] with
  | (Ret _, s) =>
    (OpenSocketResponser.set_RecvFunc tt >>
     sleep one_minute >>
     on_responser TcpClient.disconnect) s
  | r => r
  end.

Definition ex_turn : list (M (responser unit stdout) unit) :=
  [OpenSocketResponser._internal_data_recv (bytes_of "7&*&ping");
   _process_queue (on_received_data []) [ret tt]].

Example main_answers :
  let '(o, s) := main true None ex_turn in
  o = Ret tt /\ data_queue s = [] /\
  p_msgs (parse (wire (KLresponser s))) =
    [bytes_of "0x00000001-0x00000002";
     bytes_of "7&*&Hello, Client! Your message has been received."].
Proof. by vm_compute. Qed.

End OpenSocketResponserMain.

(** ** Lemmas *)

Lemma seq_all_threads {S A} (f : A -> M S unit) (g : A -> S -> S) xs s :
  (forall x s, snd (f x s) = g x s) ->
  sleep (map f xs) s = (Ret tt, fold_left (fun s x => g x s) xs s).
Proof.
  intros H. revert s. induction xs as [|x xs IH]; intros s; [done|].
  unfold sleep in *. cbn [map seq_all fold_left]. unfold bind, in_thread at 1. rewrite H. apply IH.
Qed.

Import OpenSocketQuerierMain.

(** The callback prints when no query is under way. *)
Lemma fold_receive ms (s : querier unit stdout) :
  is_querying s = false -> OpenSocketQuerier.callback s = Some tt ->
  sleep (map receive ms) s =
    (Ret tt, OpenSocketQuerier.set_world
       (OpenSocketQuerier.world s ++
        map (fun d => str_of "Callback received data: " ++ utf8_decode_replace d) ms) s).
Proof.
  intros Hq Hc.
  rewrite (seq_all_threads _ (fun d s => snd (receive d s))) by done. f_equal.
  revert s Hq Hc. induction ms as [|d ms IH]; intros s Hq Hc; simpl.
  - rewrite app_nil_r. by destruct s.
  - assert (receive d s = (Ret tt, OpenSocketQuerier.set_world
      (my_callback tt (utf8_decode_replace d) (OpenSocketQuerier.world s)) s)) as ->.
    { unfold receive. rewrite recv_not_querying by by left. by rewrite Hc. }
    simpl. rewrite IH by done. unfold my_callback. simpl. by rewrite <- app_assoc.
Qed.

(** ** The properties *)

(** The example of the querier, from start to end. When a service listens and
    the first message [m] comes while the program waits in [query], and the
    messages [ms] while it sleeps, the program prints the text of [m] as the
    result and then those of [ms] from the callback, in order; it has sent the
    two requests as two frames, and leaves the connection closed. *)
Theorem querier_main_prints (m : bytes) (ms : list bytes) :
  exists s,
    OpenSocketQuerierMain.main true None [OpenSocketQuerierMain.receive m] []
      (map OpenSocketQuerierMain.receive ms) = (Ret tt, s) /\
    OpenSocketQuerier.world s =
      (str_of "Synchronous query result: " ++ utf8_decode_replace m) ::
      map (fun d => str_of "Callback received data: " ++ utf8_decode_replace d) ms /\
    p_msgs (parse (wire (KLquerier s))) =
      [bytes_of "0x00000001-0x00000011&*&Hello, Server!";
       bytes_of "0x00000001-0x00000011&*&Another message"] /\
    released (KLquerier s).
Proof.
  set (s0 := snd (OpenSocketQuerier.__init__ (U:=unit) (Some (str_of "0x00000001"))
    (Some (str_of "0x00000011")) true None (@nil pystr))).
  set (s1 := snd (OpenSocketQuerier.set_RecvFunc tt s0)).
  set (b1 := bytes_of "0x00000001-0x00000011&*&Hello, Server!").
  set (b2 := bytes_of "0x00000001-0x00000011&*&Another message").
  assert (len b1 <= MAX_MSG_SIZE) as Hl1 by by vm_compute.
  assert (len b2 <= MAX_MSG_SIZE) as Hl2 by by vm_compute.
  destruct (frame_is_Some b1 Hl1) as [x1 Hx1]. destruct (frame_is_Some b2 Hl2) as [x2 Hx2].
  assert (live (KLquerier s1)) as Hlive by by vm_compute.
  assert (request s1 (str_of "Hello, Server!") = Some b1) as Hr1 by by vm_compute.
  pose proof (query_returns_reply (quiet_user my_callback) s1 _ None m [] [] b1 x1 Hlive Hr1 Hl1 Hx1)
    as Hq. cbn [last default map] in Hq.
  set (s2 := set_query _ true false false _) in Hq.
  set (s3 := OpenSocketQuerier.set_world
    (OpenSocketQuerier.world s2 ++ [str_of "Synchronous query result: " ++ utf8_decode_replace m]) s2).
  assert (query_async (str_of "Another message") s3 =
    (Ret tt, set_KLquerier (more_sent x2 (KLquerier s3)) s3)) as Ha.
  { apply (query_async_live _ s3 b2); [by apply live_more_sent|by vm_compute|done..]. }
  set (s4 := set_KLquerier _ s3) in Ha.
  pose proof (fold_receive ms s4 eq_refl eq_refl) as Hs.
  set (s5 := OpenSocketQuerier.set_world _ s4) in Hs.
  exists (set_KLquerier (snd (TcpClient.disconnect (KLquerier s5))) s5). split_and!.
  - unfold main. change (OpenSocketQuerier.__init__ _ _ true None _) with (Ret tt, s0).
    unfold bind at 1. change (OpenSocketQuerier.set_RecvFunc tt s0) with (Ret tt, s1).
    change [receive m] with [OpenSocketQuerier._internal_data_recv (quiet_user my_callback) m].
    cbv iota beta. rewrite (bind_Ret _ _ _ _ _ Hq). unfold bind at 1.
    change (print _ s2) with (Ret tt, s3). cbv iota beta. rewrite (bind_Ret _ _ _ _ _ Ha).
    rewrite (bind_Ret _ _ _ _ _ Hs). unfold on_querier, zoom. by rewrite disconnect_eq.
  - reflexivity.
  - assert (wire (KLquerier (set_KLquerier (snd (TcpClient.disconnect (KLquerier s5))) s5)) =
      x1 ++ x2) as ->.
    { change (wire (snd (TcpClient.disconnect (KLquerier s5))) = x1 ++ x2).
      by rewrite disconnect_eq. }
    rewrite <- (app_nil_r (x1 ++ x2)), (parse_frames [b1; b2]); [done|by repeat constructor|].
    cbn [frames]. by rewrite Hx1, Hx2, app_nil_r.
  - apply disconnect_released.
Qed.

(** The example of the subscriber, from start to end. When a service listens
    and texts [ds] arrive while the program sleeps, in chunks cut anywhere, the
    program prints them from its callback, in order and each once; it has sent
    its key as one frame, and leaves the connection closed. *)
Theorem subscriber_main_prints (ds : list pystr) (bs chunks : list bytes) :
  encode_all ds = Some bs -> Forall (fun m => valid_body m = true) bs ->
  str_of "heartbeat_response" ∉ ds ->
  frames bs = Some (concat chunks) -> Forall (fun c => c <> []) chunks ->
  exists s,
    SignalSubscriberMain.main true None [SignalSubscriberMain.receiving chunks] = (Ret tt, s) /\
    SignalSubscriber.world s = map (fun d => str_of "Callback received data: " ++ d) ds /\
    p_msgs (parse (wire (KLsubscriber s))) = [bytes_of "1-1"] /\
    released (KLsubscriber s).
Proof.
  intros Hds Hv Hhb Hx Hne.
  set (s0 := snd (SignalSubscriber.__init__ (U:=unit) (str_of "1") (str_of "1") true None
    (@nil pystr))).
  set (s1 := snd (SignalSubscriber.set_RecvFunc tt s0)).
  pose proof (texts_delivered SignalSubscriberMain.my_callback s1 tt ds bs chunks eq_refl eq_refl
    eq_refl eq_refl eq_refl Hds Hv Hhb Hx Hne) as Hr.
  set (s2 := SignalSubscriber.set_world _ s1) in Hr.
  exists (set_KLsubscriber (snd (TcpClient.disconnect (KLsubscriber s2))) s2). split_and!.
  - unfold SignalSubscriberMain.main.
    change (SignalSubscriber.__init__ _ _ true None _) with (Ret tt, s0). cbv iota beta.
    unfold bind at 1. change (SignalSubscriber.set_RecvFunc tt s0) with (Ret tt, s1).
    cbv iota beta. unfold sleep, SignalSubscriberMain.receiving. cbn [map seq_all].
    unfold bind, in_thread. rewrite Hr. unfold on_subscriber, zoom. by rewrite disconnect_eq.
  - change (SignalSubscriber.world (set_KLsubscriber (snd (TcpClient.disconnect (KLsubscriber s2)))
      s2)) with (fold_left (fun w d => SignalSubscriberMain.my_callback tt d w) ds []).
    rewrite <- (app_nil_l (map _ ds)). generalize (@nil pystr). clear.
    induction ds as [|d ds IH]; intros w; simpl; [by rewrite app_nil_r|].
    rewrite IH. unfold SignalSubscriberMain.my_callback. by rewrite <- app_assoc.
  - change (wire (KLsubscriber (set_KLsubscriber (snd (TcpClient.disconnect (KLsubscriber s2))) s2)))
      with (wire (snd (TcpClient.disconnect (KLsubscriber s2)))).
    rewrite disconnect_eq. by vm_compute.
  - apply disconnect_released.
Qed.

(** ** Witness *)

Lemma subscriber_main_prints_witness :
  exists s,
    SignalSubscriberMain.main true None
      [SignalSubscriberMain.receiving
         [MAGIC ++ [x00; x00]; [x00; x01; x41; x4b];
          [x4b; x00; x02; x00; x00; x00; x02; xc3; xa9]]] = (Ret tt, s) /\
    SignalSubscriber.world s =
      [str_of "Callback received data: A"; str_of "Callback received data: " ++ [233]].
Proof.
  destruct (subscriber_main_prints [str_of "A"; [233]] [[x41]; [xc3; xa9]]
    [MAGIC ++ [x00; x00]; [x00; x01; x41; x4b];
     [x4b; x00; x02; x00; x00; x00; x02; xc3; xa9]]) as (s & Hm & Hw & _);
    [reflexivity|by repeat constructor|apply (bool_decide_unpack _); vm_compute; exact I
    |reflexivity|by repeat constructor|].
  exists s. split; [exact Hm|]. rewrite Hw. reflexivity.
Defined.
