(* ===== verification/Qt.v ===== *)
(** * Qt and PyQt5, as the PyQt clients use them

    The PyQt package runs on a socket, a timer, an event loop and signals of Qt,
    which are not part of the repository. [Qt] is the interface the clients are
    written against: its operations are parameters of every definition of the
    files [Qt*]. [QtLaws] states what the clients rely on, as Qt documents it,
    and [Paper] is a small model of the interface that obeys the laws.

    Everything runs in the thread of the event loop. A socket signal that is
    emitted during a call is an element of the list the call returns; [emit]
    calls the slots of a signal; [exec_] runs a nested event loop on the events
    that come, until [quit] was called. *)

From S2P Require Export Framing.

Inductive SocketState :=
| UnconnectedState | HostLookupState | ConnectingState | ConnectedState
| BoundState | ListeningState | ClosingState.

#[export] Instance SocketState_eq_dec : EqDecision SocketState.
Proof. solve_decision. Defined.

(** The signals of a socket that can come during a call; [readyRead] only comes
    from the event loop. *)
Inductive socket_signal := sig_connected | sig_disconnected | sig_errorOccurred.

Class Qt (Q T : Type) := {
  QTcpSocket : Q;
  state : Q -> SocketState;
  connectToHost : pystr -> Z -> Q -> unit * list socket_signal * Q;
  waitForConnected : Z -> Q -> bool * list socket_signal * Q;
  disconnectFromHost : Q -> unit * list socket_signal * Q;
  write : bytes -> Q -> Z * Q;
  readAll : Q -> bytes * Q;
  QTimer : T;
  setInterval : Z -> T -> T;
  start : T -> T;
  stop : T -> T;
  emit : forall {St : Type}, list (M St unit) -> M St unit;
  exec_ : forall {St : Type}, M St bool -> list (M St unit) -> M St unit }.

(** [written] is what the socket took to send, over all its connections,
    [pending] what arrived and was not read yet. *)
Class QtLaws (Q T : Type) `{Qt Q T} := {
  written : Q -> bytes;
  pending : Q -> bytes;
  isActive : T -> bool;
  state_new : state QTcpSocket = UnconnectedState;
  written_new : written QTcpSocket = [];
  written_connect ip port q : written (connectToHost ip port q).2 = written q;
  written_wait ms q : written (waitForConnected ms q).2 = written q;
  state_wait ms q :
    (waitForConnected ms q).1.1 = true -> state (waitForConnected ms q).2 = ConnectedState;
  state_disconnect q : state (disconnectFromHost q).2 <> ConnectedState;
  written_disconnect q : written (disconnectFromHost q).2 = written q;
  state_write d q : state (write d q).2 = state q;
  write_bounds d q : -1 <= (write d q).1 <= len d;
  written_write d q :
    written (write d q).2 = written q ++ take (Z.to_nat (write d q).1) d;
  readAll_pending q : (readAll q).1 = pending q;
  pending_readAll q : pending (readAll q).2 = [];
  state_readAll q : state (readAll q).2 = state q;
  written_readAll q : written (readAll q).2 = written q;
  active_new : isActive QTimer = false;
  active_interval ms t : isActive (setInterval ms t) = isActive t;
  active_start t : isActive (start t) = true;
  active_stop t : isActive (stop t) = false;
  emit_nil {St} (s : St) : emit [] s = (Ret tt, s);
  emit_cons {St} (m : M St unit) ms (s s' : St) :
    m s = (Ret tt, s') -> emit (m :: ms) s = emit ms s';
  exec_nil {St} quit (s : St) :
    exec_ quit [] s = bind quit (fun b => if b then ret tt else stuck) s;
  exec_cons {St} quit e es (s : St) :
    exec_ quit (e :: es) s =
      bind quit (fun b => if b then ret tt else bind e (fun _ => exec_ quit es)) s }.

(** An exception that a slot lets out: unless the program installed an
    [excepthook] of its own, PyQt calls [qFatal], which ends the process. *)
Class QtAborts (Q T : Type) `{Qt Q T} := {
  emit_raise {St} (m : M St unit) ms (s s' : St) e :
    m s = (Raise e, s') -> emit (m :: ms) s = (Raise e, s') }.

(** ** Lemmas *)

Lemma emit_one {Q T} `{QtLaws Q T} {St} (m : M St unit) (s s' : St) :
  m s = (Ret tt, s') -> emit [m] s = (Ret tt, s').
Proof. intros Hm. by rewrite (emit_cons _ _ _ _ Hm), emit_nil. Qed.

Lemma emit_modify {Q T} `{QtLaws Q T} {St C} (f : C -> St -> St) cs (s : St) :
  emit (map (fun c => modify (f c)) cs) s = (Ret tt, fold_left (fun s c => f c s) cs s).
Proof.
  revert s. induction cs as [|c cs IH]; intros s; simpl; [apply emit_nil|].
  by rewrite (emit_cons _ _ _ (f c s)).
Qed.

(** Slots that only act on a part of the state. *)
Lemma emit_on_part {Q T} `{QtLaws Q T} {St W C} (get : St -> W) (set : W -> St -> St)
    (f : C -> W -> W) cs (s : St) :
  (forall s, set (get s) s = s) -> (forall w s, get (set w s) = w) ->
  (forall w w' s, set w (set w' s) = set w s) ->
  emit (map (fun c => modify (fun s => set (f c (get s)) s)) cs) s =
    (Ret tt, set (fold_left (fun w c => f c w) cs (get s)) s).
Proof.
  intros Hsg Hgs Hss. rewrite (emit_modify (fun c s => set (f c (get s)) s)). f_equal.
  revert s. induction cs as [|c cs IH]; intros s; simpl; [done|]. by rewrite IH, Hgs, Hss.
Qed.

Lemma take_all_written {Q T} `{QtLaws Q T} d q :
  (write d q).1 = len d -> written (write d q).2 = written q ++ d.
Proof. intros E. by rewrite written_write, E, to_nat_len, firstn_all. Qed.

(** The loop ends at once when [quit] was called. *)
Lemma exec_quit {Q T} `{QtLaws Q T} {St} (quit : M St bool) es (s : St) :
  quit s = (Ret true, s) -> exec_ quit es s = (Ret tt, s).
Proof.
  intros Hq. destruct es; rewrite ?exec_nil, ?exec_cons; by rewrite (bind_Ret _ _ _ _ _ Hq).
Qed.

Lemma exec_wait {Q T} `{QtLaws Q T} {St} (quit : M St bool) e es (s : St) :
  quit s = (Ret false, s) -> exec_ quit (e :: es) s = bind e (fun _ => exec_ quit es) s.
Proof. intros Hq. by rewrite exec_cons, (bind_Ret _ _ _ _ _ Hq). Qed.

(** ** A model of the interface *)

(** A socket that a server accepts when it listens, and that takes everything. *)
Record paper_socket := PaperSocket {
  ps_state : SocketState;
  ps_listening : bool;
  ps_pending : bytes;
  ps_written : bytes }.

Fixpoint paper_exec {St} (quit : M St bool) (es : list (M St unit)) : M St unit :=
  let! b := quit in
  if b then ret tt
  else match es with
       | [] => stuck
       | e :: es => e >> paper_exec quit es
       end.

#[export] Instance Paper : Qt paper_socket bool.
Proof.
  refine {|
    QTcpSocket := PaperSocket UnconnectedState true [] [];
    state := ps_state;
    connectToHost ip port q :=
      (tt, [], PaperSocket ConnectingState (ps_listening q) [] (ps_written q));
    waitForConnected ms q :=
      if ps_listening q
      then (true, [sig_connected],
            PaperSocket ConnectedState true (ps_pending q) (ps_written q))
      else (false, [sig_errorOccurred],
            PaperSocket UnconnectedState false (ps_pending q) (ps_written q));
    disconnectFromHost q :=
      (tt, if decide (ps_state q = ConnectedState) then [sig_disconnected] else [],
       PaperSocket UnconnectedState (ps_listening q) (ps_pending q) (ps_written q));
    write d q :=
      (len d, PaperSocket (ps_state q) (ps_listening q) (ps_pending q) (ps_written q ++ d));
    readAll q :=
      (ps_pending q, PaperSocket (ps_state q) (ps_listening q) [] (ps_written q));
    QTimer := false;
    setInterval _ t := t;
    start _ := true;
    stop _ := false;
    emit _ := seq_all;
    exec_ _ := paper_exec |}.
Defined.

#[export] Instance Paper_laws : QtLaws paper_socket bool.
Proof.
  refine {| written := ps_written; pending := ps_pending; isActive t := t |}; try done.
  - intros ms q. simpl. by destruct (ps_listening q).
  - intros ms q. simpl. by destruct (ps_listening q).
  - intros d q. simpl. pose proof (len_nonneg d). lia.
  - intros d q. simpl. by rewrite to_nat_len, firstn_all.
  - intros St m ms s s' Hm. simpl. unfold bind. by rewrite Hm.
Defined.

#[export] Instance Paper_aborts : QtAborts paper_socket bool.
Proof. split. intros St m ms s s' e Hm. simpl. unfold bind. by rewrite Hm. Defined.
