(* ===== verification/QtTcpClient.v ===== *)
(** * The PyQt [TcpClient]

    Models knotlink-sdk-pyqt/knotlink-pyqt/knotlink-pyqt/tcpclient.py, over the
    interface [Qt]. The client's own signals are the lists of the slots that are
    connected to them; what a slot does belongs to the object that owns the
    client, which [QtHost] describes. The methods are computations on the state
    of that owner, since every signal they emit runs its slots at once. *)

From S2P Require Export Qt Keys.

(** What a signal carries. *)
Inductive sig_args := NoArgs | Data (data : bytes).

Record qtcp {Q T H : Type} := QTcp {
  tcpSocket : Q;
  heartBeatTimer : T;
  buffer : bytes;
  connected : list H;
  disconnected : list H;
  receivedData : list H }.
Arguments qtcp : clear implicits.
Arguments QTcp {Q T H}.

Section record.
Context {Q T H : Type}.
Implicit Types t : qtcp Q T H.

Definition set_tcpSocket (q : Q) t : qtcp Q T H :=
  QTcp q (heartBeatTimer t) (buffer t) (connected t) (disconnected t) (receivedData t).
Definition set_timer (x : T) t : qtcp Q T H :=
  QTcp (tcpSocket t) x (buffer t) (connected t) (disconnected t) (receivedData t).
Definition set_buffer (x : bytes) t : qtcp Q T H :=
  QTcp (tcpSocket t) (heartBeatTimer t) x (connected t) (disconnected t) (receivedData t).
Definition set_receivedData (x : list H) t : qtcp Q T H :=
  QTcp (tcpSocket t) (heartBeatTimer t) (buffer t) (connected t) (disconnected t) x.

Definition __init__ `{Qt Q T} : qtcp Q T H :=
  QTcp QTcpSocket (setInterval 180000 QTimer) [] [] [] [].

End record.

(** The owner of a client, and its slots. *)
Class QtHost (Q T St H : Type) := {
  client : St -> qtcp Q T H;
  set_client : qtcp Q T H -> St -> St;
  on_signal : H -> sig_args -> M St unit;
  client_set_client t s : client (set_client t s) = t;
  set_client_client s : set_client (client s) s = s;
  set_client_twice t t' s : set_client t (set_client t' s) = set_client t s }.

Section methods.
Context {Q T St H : Type} `{Qt Q T} `{QtHost Q T St H}.

Definition on_tcp {A} (m : M (qtcp Q T H) A) : M St A := zoom client set_client m.

Definition emit_signal (slots : qtcp Q T H -> list H) (a : sig_args) : M St unit :=
  let! hs := on_tcp (gets slots) in
  emit (map (fun h => on_signal h a) hs).

(** ** The slots of the socket and of the timer *)

Definition socketConnected : M St unit := emit_signal connected NoArgs.

Definition stop_timer : M St unit :=
  on_tcp (modify (fun t => set_timer (stop (heartBeatTimer t)) t)).

Definition socketDisconnected : M St unit :=
  emit_signal disconnected NoArgs >> stop_timer.

Definition handleError : M St unit := ret tt.

(** The connections [__init__] makes. *)
Definition socket_slot (sg : socket_signal) : M St unit :=
  match sg with
  | sig_connected => socketConnected
  | sig_disconnected => socketDisconnected
  | sig_errorOccurred => handleError
  end.

(** A call of a method of the socket: its result, after the slots of the signals
    it emitted. *)
Definition call {A} (f : Q -> A * list socket_signal * Q) : M St A :=
  let! r := on_tcp (fun t =>
    let '(r, q) := f (tcpSocket t) in (Ret r, set_tcpSocket q t)) in
  seq_all (map socket_slot r.2) >>
  ret r.1.

Definition socket_state : M St SocketState :=
  on_tcp (gets (fun t => state (tcpSocket t))).

(** ** Connecting *)

Definition connectToServer (ip : pystr) (port : Z) : M St bool :=
  call (connectToHost ip port) >>
  let! ok := call (waitForConnected 3000) in
  if negb ok then ret false
  else
    on_tcp (modify (fun t => set_timer (start (heartBeatTimer t)) t)) >>
    ret true.

(** ** Sending *)

Definition _writeWithLengthPrefix (data : bytes) : M St bool :=
  let! st := socket_state in
  if negb (bool_decide (st = ConnectedState)) then ret false
  else if MAX_MSG_SIZE <? len data then ret false
  else
    let! length_bytes := of_option StructError (pack_I (len data)) in
    on_tcp (modify (fun t =>
      set_tcpSocket (write (MAGIC ++ length_bytes ++ data) (tcpSocket t)).2 t)) >>
    ret true.

Definition sendData (data : bytes) : M St unit := _writeWithLengthPrefix data >> ret tt.

Definition sendHeartbeat : M St unit :=
  let! st := socket_state in
  if bool_decide (st = ConnectedState) then _writeWithLengthPrefix HEARTBEAT >> ret tt
  else stop_timer.

(** The timer goes off. *)
Definition timeout : M St unit := sendHeartbeat.

(** ** Receiving *)

(** The loop of [_processBuffer]. *)
Fixpoint process_loop (fuel : nat) : M St unit :=
  match fuel with
  | O => stuck
  | S fuel =>
    let! buf := on_tcp (gets buffer) in
    if len buf <? HEADER_LEN then ret tt
    else if negb (bool_decide (slice 0 MAGIC_LEN buf = MAGIC)) then
      call disconnectFromHost
    else
      let! length := of_option StructError (unpack_I (slice MAGIC_LEN HEADER_LEN buf)) in
      if (length =? 0) || (MAX_MSG_SIZE <? length) then call disconnectFromHost
      else if len buf <? HEADER_LEN + length then ret tt
      else
        let msg := slice HEADER_LEN (HEADER_LEN + length) buf in
        on_tcp (modify (set_buffer (slice_from (HEADER_LEN + length) buf))) >>
        (if bool_decide (msg = HEARTBEAT_RESPONSE) then ret tt
         else emit_signal receivedData (Data msg)) >>
        process_loop fuel
  end.

Definition _processBuffer : M St unit :=
  let! buf := on_tcp (gets buffer) in process_loop (S (length buf)).

Definition readData : M St unit :=
  let! new_data := on_tcp (fun t =>
    let '(d, q) := readAll (tcpSocket t) in (Ret d, set_tcpSocket q t)) in
  if bool_decide (new_data = []) then ret tt
  else
    on_tcp (modify (fun t => set_buffer (buffer t ++ new_data) t)) >>
    _processBuffer.

(** The event [readyRead]: the network changed the socket by [f]. *)
Definition readyRead (f : Q -> Q) : M St unit :=
  on_tcp (modify (fun t => set_tcpSocket (f (tcpSocket t)) t)) >> readData.

(** ** Disconnecting *)

Definition disconnect : M St unit :=
  call disconnectFromHost >> on_tcp (modify (set_buffer [])).

End methods.

(** ** Quiet owners *)

(** An owner whose slots return on the messages that are [fine], leave the client
    alone and do not look at it. *)
Class QuietQt (Q T St H : Type) `{QtHost Q T St H} := {
  fine : bytes -> Prop;
  deliver : H -> sig_args -> St -> St;
  on_signal_quiet h a s :
    match a with NoArgs => True | Data m => fine m end ->
    on_signal h a s = (Ret tt, deliver h a s);
  client_deliver h a s : client (deliver h a s) = client s;
  deliver_set_client h a t s : deliver h a (set_client t s) = set_client t (deliver h a s) }.

Section quiet_defs.
Context {Q T St H : Type} `{Qt Q T} `{QuietQt Q T St H}.

Definition deliver_slots (hs : list H) (a : sig_args) (s : St) : St :=
  fold_left (fun s h => deliver h a s) hs s.

Definition deliver_all (hs : list H) (ms : list bytes) (s : St) : St :=
  fold_left (fun s m => deliver_slots hs (Data m) s) ms s.

(** The state after [disconnectFromHost] and the slots of its signals. *)
Definition hang_up (s : St) : St := (call disconnectFromHost s).2.

Definition finish (f : option fault) (s : St) : St :=
  match f with Some _ => hang_up s | None => s end.

(** What has not changed after the slots of the socket have run. *)
Record same_but_timer (s s' : St) : Prop := Same {
  same_socket : tcpSocket (client s') = tcpSocket (client s);
  same_buffer : buffer (client s') = buffer (client s);
  same_connected : connected (client s') = connected (client s);
  same_disconnected : disconnected (client s') = disconnected (client s);
  same_receivedData : receivedData (client s') = receivedData (client s);
  same_seen {A} (see : St -> A) :
    (forall t s, see (set_client t s) = see s) ->
    (forall h s, see (deliver h NoArgs s) = see s) -> see s' = see s }.

End quiet_defs.

#[local] Arguments on_tcp : simpl never.

Section quiet_lemmas.
Context {Q T St H : Type} `{QtLaws Q T} `{QuietQt Q T St H}.
Implicit Types s : St.

Lemma qt_on_tcp_gets {A} (f : qtcp Q T H -> A) s : on_tcp (gets f) s = (Ret (f (client s)), s).
Proof. unfold on_tcp, zoom, gets. by rewrite set_client_client. Qed.

Lemma qt_on_tcp_modify (f : qtcp Q T H -> qtcp Q T H) s :
  on_tcp (modify f) s = (Ret tt, set_client (f (client s)) s).
Proof. done. Qed.

Definition fine_args (a : sig_args) : Prop :=
  match a with NoArgs => True | Data m => fine m end.

Lemma emit_quiet hs a s :
  fine_args a ->
  emit (map (fun h => on_signal h a) hs) s = (Ret tt, deliver_slots hs a s).
Proof.
  intros Ha. revert s. induction hs as [|h hs IH]; intros s; simpl; [apply emit_nil|].
  by rewrite (emit_cons _ _ _ _ (on_signal_quiet h a s Ha)).
Qed.

Lemma emit_signal_quiet f a s :
  fine_args a -> emit_signal f a s = (Ret tt, deliver_slots (f (client s)) a s).
Proof.
  intros Ha. unfold emit_signal. rewrite (bind_Ret _ _ _ _ _ (qt_on_tcp_gets f s)).
  by apply emit_quiet.
Qed.

Lemma client_deliver_slots hs a s : client (deliver_slots hs a s) = client s.
Proof.
  revert s. induction hs as [|h hs IH]; intros s; simpl; [done|]. by rewrite IH, client_deliver.
Qed.

Lemma deliver_slots_set_client hs a t s :
  deliver_slots hs a (set_client t s) = set_client t (deliver_slots hs a s).
Proof.
  revert s. induction hs as [|h hs IH]; intros s; simpl; [done|].
  by rewrite deliver_set_client, IH.
Qed.

Lemma qt_client_deliver_all hs ms s : client (deliver_all hs ms s) = client s.
Proof.
  revert s. induction ms as [|m ms IH]; intros s; simpl; [done|].
  by rewrite IH, client_deliver_slots.
Qed.

Lemma qt_deliver_all_set_client hs ms t s :
  deliver_all hs ms (set_client t s) = set_client t (deliver_all hs ms s).
Proof.
  revert s. induction ms as [|m ms IH]; intros s; simpl; [done|].
  by rewrite deliver_slots_set_client, IH.
Qed.

Lemma qt_deliver_all_app hs ms ns s :
  deliver_all hs (ms ++ ns) s = deliver_all hs ns (deliver_all hs ms s).
Proof. apply fold_left_app. Qed.

Lemma same_refl s : same_but_timer s s.
Proof. done. Qed.

Lemma same_trans s1 s2 s3 :
  same_but_timer s1 s2 -> same_but_timer s2 s3 -> same_but_timer s1 s3.
Proof.
  intros [? ? ? ? ? Hs] [? ? ? ? ? Hs']. split; [congruence..|].
  intros A see Hc Hn. by rewrite Hs', Hs.
Qed.

Lemma same_deliver_slots hs s : same_but_timer s (deliver_slots hs NoArgs s).
Proof.
  split; [by rewrite client_deliver_slots..|]. intros A see _ Hn. revert s.
  induction hs as [|h hs IH]; intros s; simpl; [done|]. by rewrite IH, Hn.
Qed.

Lemma same_set_timer x s : same_but_timer s (set_client (set_timer x (client s)) s).
Proof. split; [by rewrite client_set_client..|]. intros A see Hs _. apply Hs. Qed.

(** The slots of the socket's signals return. *)
Lemma socket_slot_quiet sg s :
  exists s', socket_slot sg s = (Ret tt, s') /\ same_but_timer s s'.
Proof.
  destruct sg; simpl.
  - unfold socketConnected. rewrite emit_signal_quiet by done.
    eexists. split; [done|]. apply same_deliver_slots.
  - unfold socketDisconnected. rewrite (bind_Ret _ _ _ _ _ (emit_signal_quiet _ NoArgs _ I)).
    eexists. split; [done|]. eapply same_trans; [apply same_deliver_slots|].
    apply same_set_timer.
  - by exists s.
Qed.

Lemma socket_slots_quiet sgs s :
  exists s', seq_all (map socket_slot sgs) s = (Ret tt, s') /\ same_but_timer s s'.
Proof.
  revert s. induction sgs as [|sg sgs IH]; intros s; [by exists s|].
  destruct (socket_slot_quiet sg s) as (s1 & Hs1 & Hsame1).
  destruct (IH s1) as (s2 & Hs2 & Hsame2).
  exists s2. split; [|by eapply same_trans].
  cbn [map seq_all]. by rewrite (bind_Ret _ _ _ _ _ Hs1).
Qed.

(** A call of the socket. *)
Lemma call_quiet {A} (f : Q -> A * list socket_signal * Q) s :
  exists s', call f s = (Ret (f (tcpSocket (client s))).1.1, s') /\
    same_but_timer
      (set_client (set_tcpSocket (f (tcpSocket (client s))).2 (client s)) s) s'.
Proof.
  destruct (f (tcpSocket (client s))) as [[r sgs] q] eqn:E. simpl.
  destruct (socket_slots_quiet sgs (set_client (set_tcpSocket q (client s)) s))
    as (s' & Hs' & Hsame).
  exists s'. split; [|done]. unfold call, on_tcp, zoom, bind at 1. rewrite E. cbn.
  by rewrite (bind_Ret _ _ _ _ _ Hs').
Qed.

Lemma hang_up_eq s :
  call disconnectFromHost s = (Ret tt, hang_up s) /\
  same_but_timer
    (set_client (set_tcpSocket (disconnectFromHost (tcpSocket (client s))).2 (client s)) s)
    (hang_up s).
Proof.
  unfold hang_up. destruct (call_quiet disconnectFromHost s) as (s' & -> & Hsame).
  split; [|done]. by destruct (disconnectFromHost _) as [[[] ?] ?].
Qed.

Lemma qt_set_buffer_id (t : qtcp Q T H) : set_buffer (buffer t) t = t.
Proof. by destruct t. Qed.

Definition dispatch (m : bytes) : M St unit :=
  if bool_decide (m = HEARTBEAT_RESPONSE) then ret tt else emit_signal receivedData (Data m).

(** One turn of the loop of [_processBuffer], by what the buffer starts with. *)
Lemma qt_process_loop_turn fuel s :
  process_loop (S fuel) s =
    match next_frame (buffer (client s)) with
    | More => (Ret tt, s)
    | Fault _ => (Ret tt, hang_up s)
    | Message m rest =>
      bind (dispatch m) (fun _ => process_loop fuel)
        (set_client (set_buffer rest (client s)) s)
    end.
Proof.
  cbn [process_loop]. rewrite (bind_Ret _ _ _ _ _ (qt_on_tcp_gets buffer s)).
  pose proof (header_tests (ret tt) (call disconnectFromHost) (raise StructError)
    (fun m rest => on_tcp (modify (set_buffer rest)) >> dispatch m >> process_loop fuel)
    (buffer (client s))) as Ht.
  apply (f_equal (fun m => m s)) in Ht. etrans; [|etrans; [exact Ht|]].
  - by destruct (unpack_I _).
  - destruct (next_frame _); [done|apply hang_up_eq|].
    by rewrite (bind_Ret _ _ _ _ _ (qt_on_tcp_modify _ s)).
Qed.

Lemma qt_dispatch_quiet m s :
  Forall fine (if bool_decide (m = HEARTBEAT_RESPONSE) then [] else [m]) -> dispatch m s =
    (Ret tt, deliver_all (receivedData (client s))
       (if bool_decide (m = HEARTBEAT_RESPONSE) then [] else [m]) s).
Proof.
  unfold dispatch. intros Hm. case_bool_decide as E; [done|].
  apply emit_signal_quiet. by inversion Hm.
Qed.

Lemma qt_process_loop_quiet fuel s :
  (length (buffer (client s)) < fuel)%nat ->
  let p := parse (buffer (client s)) in
  Forall fine (payloads (p_msgs p)) ->
  process_loop fuel s =
    (Ret tt, finish (p_fault p)
       (deliver_all (receivedData (client s)) (payloads (p_msgs p))
          (set_client (set_buffer (p_rest p) (client s)) s))).
Proof.
  revert s. induction fuel as [|fuel IH]; intros s Hf; [lia|].
  rewrite qt_process_loop_turn, parse_unfold. cbv zeta.
  destruct (next_frame (buffer (client s))) as [|f|m rest] eqn:E; simpl; intros Hfine.
  - by rewrite qt_set_buffer_id, set_client_client.
  - by rewrite qt_set_buffer_id, set_client_client.
  - rewrite payloads_cons, Forall_app in Hfine. destruct Hfine as [Hm Hfine].
    rewrite (bind_Ret _ _ _ _ _ (qt_dispatch_quiet _ _ Hm)).
    apply next_frame_shorter in E.
    rewrite IH; rewrite qt_client_deliver_all, client_set_client; simpl; [|lia|done].
    rewrite payloads_cons, qt_deliver_all_app. do 2 f_equal.
    by rewrite <- qt_deliver_all_set_client, set_client_twice.
Qed.

End quiet_lemmas.

(** ** The receive loop *)

(** The network brings the bytes [c]: they are what the socket has to read, and
    nothing else of it changes. *)
Definition brings {Q T} `{QtLaws Q T} (f : Q -> Q) (c : bytes) : Prop :=
  c <> [] /\
  forall q, pending (f q) = c /\ state (f q) = state q /\ written (f q) = written q.

Section progress.
Context {Q T St H : Type} `{QtLaws Q T} `{QuietQt Q T St H}.
Implicit Types s : St.

(** What an observer that sees the messages has seen after [ms]. *)
Definition see_all {A} (g : A -> H -> bytes -> A) (hs : list H) (ms : list bytes) (a : A) : A :=
  fold_left (fun a m => fold_left (fun a h => g a h m) hs a) ms a.

(** What the bytes [k] have done to a client. *)
Record progress (k : bytes) s s' : Prop := Progress {
  pr_buffer : buffer (client s') = p_rest (parse (buffer (client s) ++ k));
  pr_slots : receivedData (client s') = receivedData (client s);
  pr_written : written (tcpSocket (client s')) = written (tcpSocket (client s));
  pr_state :
    match p_fault (parse (buffer (client s) ++ k)) with
    | None => state (tcpSocket (client s')) = state (tcpSocket (client s))
    | Some _ => state (tcpSocket (client s')) <> ConnectedState
    end;
  pr_seen {A} (see : St -> A) g :
    (forall t s, see (set_client t s) = see s) ->
    (forall h s, see (deliver h NoArgs s) = see s) ->
    (forall h m s, see (deliver h (Data m) s) = g (see s) h m) ->
    see s' = see_all g (receivedData (client s))
               (payloads (p_msgs (parse (buffer (client s) ++ k)))) (see s) }.

Lemma see_deliver_all {A} (see : St -> A) g hs ms s :
  (forall h m s, see (deliver h (Data m) s) = g (see s) h m) ->
  see (deliver_all hs ms s) = see_all g hs ms (see s).
Proof.
  intros Hg. unfold see_all, deliver_all, deliver_slots. revert s.
  induction ms as [|m ms IH]; intros s; [done|]. simpl. rewrite IH. f_equal. clear IH.
  revert s. induction hs as [|h hs IH]; intros s; simpl; [done|]. by rewrite IH, Hg.
Qed.

Lemma progress_nil s : next_frame (buffer (client s)) = More -> progress [] s s.
Proof.
  intros Hm. assert (parse (buffer (client s) ++ []) = Parsed [] (buffer (client s)) None) as Hp
    by by rewrite app_nil_r, parse_unfold, Hm.
  split; by rewrite ?Hp.
Qed.

Lemma progress_app k c s1 s2 s3 :
  progress k s1 s2 -> progress c s2 s3 -> progress (k ++ c) s1 s3.
Proof.
  intros [Hb Hsl Hw Hst Hsee] [Hb' Hsl' Hw' Hst' Hsee'].
  assert (parse (buffer (client s1) ++ k ++ c) =
    prepend (p_msgs (parse (buffer (client s1) ++ k))) (parse (buffer (client s2) ++ c))) as Hp.
  { by rewrite app_assoc, parse_step, Hb. }
  split.
  - by rewrite Hp.
  - congruence.
  - congruence.
  - rewrite Hp. simpl. revert Hst'. destruct (p_fault (parse (buffer (client s2) ++ c))) eqn:Ef; [done|].
    intros ->. destruct (p_fault (parse (buffer (client s1) ++ k))) eqn:Ef'; [|done].
    exfalso. pose proof (parse_sound (buffer (client s1) ++ k)) as (_ & _ & Hf).
    rewrite Ef', <- Hb in Hf. rewrite parse_unfold in Ef.
    pose proof (next_frame_app (buffer (client s2)) c) as Ha. rewrite Hf in Ha.
    by rewrite Ha in Ef.
  - intros A see g Hc1 Hn1 Hg1. rewrite Hp. simpl.
    rewrite payloads_app, (Hsee' _ see g), (Hsee _ see g), Hsl by done.
    symmetry. apply fold_left_app.
Qed.

(** The client when the network has brought [c], before it is processed. *)
Definition arrived (f : Q -> Q) (c : bytes) s : St :=
  set_client (set_buffer (buffer (client s) ++ c)
    (set_tcpSocket (readAll (f (tcpSocket (client s)))).2 (client s))) s.

Lemma readyRead_eq f c s : brings f c -> readyRead f s = _processBuffer (arrived f c s).
Proof.
  intros [Hc Hf]. destruct (Hf (tcpSocket (client s))) as (Hpend & _ & _).
  unfold readyRead, arrived. rewrite (bind_Ret _ _ _ _ _ (qt_on_tcp_modify _ s)).
  unfold readData, on_tcp at 1, zoom. unfold bind at 1.
  rewrite client_set_client. simpl.
  destruct (readAll (f (tcpSocket (client s)))) as [d q'] eqn:E. simpl.
  assert (d = c) as -> by (rewrite <- Hpend, <- readAll_pending, E; done).
  rewrite bool_decide_false by done.
  rewrite (bind_Ret _ _ _ _ _ (qt_on_tcp_modify _ _)), client_set_client.
  by rewrite !set_client_twice.
Qed.

(** A slot that raises ends the processing at its message. *)
Lemma readyRead_raises `{!QtAborts Q T} f c s h m rest e s' :
  brings f c -> next_frame (buffer (client s) ++ c) = Message m rest ->
  m <> HEARTBEAT_RESPONSE -> receivedData (client s) = [h] ->
  on_signal h (Data m)
    (set_client (set_buffer rest (client (arrived f c s))) (arrived f c s)) = (Raise e, s') ->
  readyRead f s = (Raise e, s').
Proof.
  intros Hf Hm Hhb Hsl He. rewrite (readyRead_eq f c s Hf). unfold _processBuffer.
  rewrite (bind_Ret _ _ _ _ _ (qt_on_tcp_gets _ _)), qt_process_loop_turn.
  set (s1 := arrived f c s) in *.
  assert (buffer (client s1) = buffer (client s) ++ c /\ receivedData (client s1) = [h])
    as [-> Hsl1] by (unfold s1, arrived; by rewrite client_set_client).
  rewrite Hm. apply bind_Raise. unfold dispatch. rewrite bool_decide_false by done.
  unfold emit_signal. rewrite (bind_Ret _ _ _ _ _ (qt_on_tcp_gets _ _)), client_set_client.
  simpl. rewrite Hsl1. by apply emit_raise.
Qed.

(** One event. *)
Lemma readyRead_progress f c s :
  brings f c -> Forall fine (payloads (p_msgs (parse (buffer (client s) ++ c)))) ->
  exists s', readyRead f s = (Ret tt, s') /\ progress c s s'.
Proof.
  intros Hbr Hfine. rewrite (readyRead_eq f c s Hbr). destruct Hbr as [_ Hf].
  destruct (Hf (tcpSocket (client s))) as (_ & Hst & Hw).
  set (q := (readAll (f (tcpSocket (client s)))).2).
  set (s1 := arrived f c s). change (arrived f c s) with
    (set_client (set_buffer (buffer (client s) ++ c) (set_tcpSocket q (client s))) s) in s1.
  unfold _processBuffer. rewrite (bind_Ret _ _ _ _ _ (qt_on_tcp_gets _ s1)).
  rewrite qt_process_loop_quiet by (lia || unfold s1; by rewrite client_set_client).
  set (p := parse (buffer (client s1))). eexists. split; [done|].
  assert (parse (buffer (client s) ++ c) = p) as Hp
    by (unfold p, s1; by rewrite client_set_client).
  set (s2 := deliver_all _ _ (set_client _ s1)).
  assert (client s2 = set_buffer (p_rest p) (set_tcpSocket q (client s))) as Hs2.
  { unfold s2. rewrite qt_client_deliver_all, client_set_client.
    unfold s1. by rewrite client_set_client. }
  assert (forall A (see : St -> A) g,
    (forall t s, see (set_client t s) = see s) ->
    (forall h m s, see (deliver h (Data m) s) = g (see s) h m) ->
    see s2 = see_all g (receivedData (client s)) (payloads (p_msgs p)) (see s)) as Hsee.
  { intros A see g Hc1 Hg1. unfold s2, s1. rewrite (see_deliver_all see g) by done.
    by rewrite client_set_client, !Hc1. }
  assert (state q = state (tcpSocket (client s)) /\ written q = written (tcpSocket (client s)))
    as [Hqs Hqw] by (unfold q; rewrite state_readAll, written_readAll; done).
  destruct (hang_up_eq s2) as [_ [Hsock Hbuf _ _ Hsl Hseen]].
  rewrite client_set_client in Hsock, Hbuf, Hsl.
  split; rewrite ?Hp; destruct (p_fault p); simpl; rewrite ?Hsock, ?Hbuf, ?Hsl, ?Hs2; simpl;
    try done.
  - by rewrite written_disconnect.
  - apply state_disconnect.
  - intros A see g Hc1 Hn1 Hg1. rewrite (Hseen _ see), Hc1 by done. by apply Hsee.
  - intros A see g Hc1 Hn1 Hg1. by apply Hsee.
Qed.

Lemma readyReads_progress fs chunks s0 s k :
  Forall2 brings fs chunks -> progress k s0 s ->
  Forall fine (payloads (p_msgs (parse (buffer (client s0) ++ k ++ concat chunks)))) ->
  exists s', seq_all (map readyRead fs) s = (Ret tt, s') /\ progress (k ++ concat chunks) s0 s'.
Proof.
  intros Hfs. revert s k. induction Hfs as [|f c fs chunks Hf _ IH]; intros s k Hk Hfine; simpl.
  - exists s. by rewrite app_nil_r.
  - destruct (readyRead_progress f c s Hf) as (s1 & Hs1 & Hp1).
    { rewrite (pr_buffer _ _ _ Hk). simpl in Hfine.
      rewrite app_assoc, app_assoc, payloads_step in Hfine. destruct Hfine as [Hfine _].
      rewrite payloads_step in Hfine. apply Hfine. }
    destruct (IH s1 (k ++ c)) as (s2 & Hs2 & Hp2);
      [by eapply progress_app|by rewrite <- app_assoc|].
    exists s2. rewrite (bind_Ret _ _ _ _ _ Hs1). by rewrite app_assoc.
Qed.

(** When the slots ignore the signals without data, the deliveries are all that
    happens to the rest of the owner. *)
Lemma progress_exact k s s' :
  (forall h s, deliver h NoArgs s = s) -> progress k s s' ->
  s' = set_client (client s')
         (deliver_all (receivedData (client s))
            (payloads (p_msgs (parse (buffer (client s) ++ k)))) s).
Proof.
  intros Hn [_ _ _ _ Hsee].
  specialize (Hsee _ (set_client (client s')) (fun a h m => deliver h (Data m) a)).
  rewrite set_client_client in Hsee. etrans; [apply Hsee|].
  - intros t s0. apply set_client_twice.
  - intros h s0. by rewrite Hn.
  - intros h m s0. by rewrite deliver_set_client.
  - rewrite <- qt_deliver_all_set_client. reflexivity.
Qed.

(** Whole messages that arrive at an empty buffer. *)
Lemma readyReads_frames fs ms chunks s :
  Forall2 brings fs chunks -> buffer (client s) = [] ->
  Forall (fun m => valid_body m = true) ms -> frames ms = Some (concat chunks) ->
  Forall fine (payloads ms) ->
  exists s', seq_all (map readyRead fs) s = (Ret tt, s') /\
    buffer (client s') = [] /\ receivedData (client s') = receivedData (client s) /\
    written (tcpSocket (client s')) = written (tcpSocket (client s)) /\
    state (tcpSocket (client s')) = state (tcpSocket (client s)) /\
    forall A (see : St -> A) g,
      (forall t s, see (set_client t s) = see s) ->
      (forall h s, see (deliver h NoArgs s) = see s) ->
      (forall h m s, see (deliver h (Data m) s) = g (see s) h m) ->
      see s' = see_all g (receivedData (client s)) (payloads ms) (see s).
Proof.
  intros Hfs Hb Hv Hx Hfine.
  assert (parse (buffer (client s) ++ concat chunks) = Parsed ms [] None) as Hp.
  { rewrite Hb. simpl. rewrite <- (app_nil_r (concat chunks)), (parse_frames ms) by done.
    unfold prepend. simpl. by rewrite app_nil_r. }
  destruct (readyReads_progress fs chunks s s [] Hfs) as (s' & Hs' & [Hbuf Hsl Hw Hst Hsee]).
  { apply progress_nil. by rewrite Hb. }
  { simpl app. by rewrite Hp. }
  simpl app in *. rewrite Hp in *. by exists s'.
Qed.

End progress.

(** ** What the other methods do to a client with a quiet owner *)

Section method_lemmas.
Context {Q T St H : Type} `{QtLaws Q T} `{QuietQt Q T St H}.
Implicit Types s : St.

Lemma readyReads_start fs chunks s :
  chunks <> [] -> Forall2 brings fs chunks ->
  Forall fine (payloads (p_msgs (parse (buffer (client s) ++ concat chunks)))) ->
  exists s', seq_all (map readyRead fs) s = (Ret tt, s') /\ progress (concat chunks) s s'.
Proof.
  intros Hne Hall. destruct Hall as [|f c fs' chunks' Hf Hfs]; [done|]. simpl. intros Hfine.
  destruct (readyRead_progress f c s Hf) as (s1 & Hs1 & Hp1).
  { rewrite app_assoc, payloads_step in Hfine. apply Hfine. }
  destruct (readyReads_progress fs' chunks' s s1 c Hfs Hp1 Hfine) as (s2 & Hs2 & Hp2).
  exists s2. by rewrite (bind_Ret _ _ _ _ _ Hs1).
Qed.

(** [_writeWithLengthPrefix] on every branch; what it returns does not depend on
    what the socket took. *)
Lemma write_eq data s :
  _writeWithLengthPrefix data s =
    if bool_decide (state (tcpSocket (client s)) = ConnectedState) then
      match frame data with
      | Some x =>
        if len data <=? MAX_MSG_SIZE then
          (Ret true, set_client (set_tcpSocket (write x (tcpSocket (client s))).2 (client s)) s)
        else (Ret false, s)
      | None => (Ret false, s)
      end
    else (Ret false, s).
Proof.
  unfold _writeWithLengthPrefix, socket_state. rewrite (bind_Ret _ _ _ _ _ (qt_on_tcp_gets _ s)).
  case_bool_decide; [|done]. cbn [negb].
  destruct (Z.ltb_spec MAX_MSG_SIZE (len data)) as [Hlt|Hle].
  - rewrite (proj2 (Z.leb_gt (len data) MAX_MSG_SIZE)) by done.
    by destruct (frame data).
  - rewrite (proj2 (Z.leb_le (len data) MAX_MSG_SIZE)) by done.
    destruct (frame_is_Some data Hle) as [x Hx]. rewrite Hx. unfold frame in Hx.
    destruct (pack_I (len data)) as [p|]; [|done]. apply (inj Some) in Hx as <-. done.
Qed.

Lemma sendData_eq data s :
  sendData data s = (Ret tt, (_writeWithLengthPrefix data s).2).
Proof.
  unfold sendData, bind. rewrite write_eq.
  case_bool_decide; [|done]. destruct (frame data); [|done]. by destruct (_ <=? _).
Qed.

Lemma connectToServer_quiet ip port s :
  exists b s', connectToServer ip port s = (Ret b, s') /\
    buffer (client s') = buffer (client s) /\
    receivedData (client s') = receivedData (client s) /\
    written (tcpSocket (client s')) = written (tcpSocket (client s)) /\
    (b = true -> state (tcpSocket (client s')) = ConnectedState /\
                 isActive (heartBeatTimer (client s')) = true) /\
    (forall A (see : St -> A), (forall t s, see (set_client t s) = see s) ->
       (forall h s, see (deliver h NoArgs s) = see s) -> see s' = see s).
Proof.
  destruct (call_quiet (connectToHost ip port) s) as (s1 & Hs1 & Hsame1).
  set (q1 := (connectToHost ip port (tcpSocket (client s))).2) in *.
  destruct (call_quiet (waitForConnected 3000) s1) as (s2 & Hs2 & Hsame2).
  set (w := waitForConnected 3000 (tcpSocket (client s1))) in *.
  assert (same_but_timer (set_client (set_tcpSocket w.2 (client s1)) s1) s2) as [Ha Hb _ _ Hd He]
    by done. clear Hsame2.
  destruct Hsame1 as [Ha1 Hb1 _ _ Hd1 He1]. rewrite client_set_client in *. simpl in *.
  assert (written w.2 = written (tcpSocket (client s))) as Hw.
  { unfold w. rewrite written_wait, Ha1. unfold q1. by rewrite written_connect. }
  unfold connectToServer. rewrite (bind_Ret _ _ _ _ _ Hs1), (bind_Ret _ _ _ _ _ Hs2).
  destruct w.1.1 eqn:Ew; simpl.
  - eexists true, _. split; [done|]. rewrite client_set_client. simpl.
    split_and!; try congruence.
    + intros _. split; [|apply active_start]. rewrite Ha. by apply state_wait.
    + intros A see Hc Hn. rewrite Hc, (He _ see), Hc, (He1 _ see), Hc by done. done.
  - eexists false, _. split; [done|]. split_and!; try congruence.
    intros A see Hc Hn. rewrite (He _ see), Hc, (He1 _ see), Hc by done. done.
Qed.

Lemma disconnect_quiet s :
  exists s', disconnect s = (Ret tt, s') /\
    buffer (client s') = [] /\ receivedData (client s') = receivedData (client s) /\
    state (tcpSocket (client s')) <> ConnectedState /\
    written (tcpSocket (client s')) = written (tcpSocket (client s)).
Proof.
  destruct (hang_up_eq s) as [Hh [Hsock _ _ _ Hsl _]]. rewrite client_set_client in *.
  unfold disconnect. rewrite (bind_Ret _ _ _ _ _ Hh). eexists. split; [done|].
  rewrite client_set_client. simpl. rewrite Hsock, Hsl. simpl.
  split_and!; [done|done|apply state_disconnect|by rewrite written_disconnect].
Qed.

Lemma sendHeartbeat_eq s :
  sendHeartbeat s =
    if bool_decide (state (tcpSocket (client s)) = ConnectedState) then sendData HEARTBEAT s
    else (Ret tt, set_client (set_timer (stop (heartBeatTimer (client s))) (client s)) s).
Proof.
  unfold sendHeartbeat, socket_state. rewrite (bind_Ret _ _ _ _ _ (qt_on_tcp_gets _ s)).
  by case_bool_decide.
Qed.

End method_lemmas.

(** ** Statements *)

(** An owner that keeps what its slots are handed. *)
Record recorder {Q T : Type} := Recorder { rec_client : qtcp Q T unit; rec_log : list sig_args }.
Arguments recorder : clear implicits.
Arguments Recorder {Q T}.

#[export] Instance recorder_host {Q T} : QtHost Q T (recorder Q T) unit.
Proof.
  refine {| client := rec_client; set_client t s := Recorder t (rec_log s);
            on_signal _ a := modify (fun s => Recorder (rec_client s) (rec_log s ++ [a])) |}.
  all: by intros; try destruct s.
Defined.

#[export] Instance recorder_quiet {Q T} : QuietQt Q T (recorder Q T) unit.
Proof. refine {| fine _ := True; deliver _ a s := Recorder (rec_client s) (rec_log s ++ [a]) |}; done. Defined.

Definition data_of (a : sig_args) : option bytes :=
  match a with Data d => Some d | NoArgs => None end.

(** The messages a recorder was handed. *)
Definition received {Q T} (r : recorder Q T) : list bytes := omap data_of (rec_log r).

Lemma progress_received {Q T} `{QtLaws Q T} k (r r' : recorder Q T) :
  receivedData (rec_client r) = [tt] -> progress (H:=unit) k r r' ->
  received r' = received r ++ payloads (p_msgs (parse (buffer (rec_client r) ++ k))).
Proof.
  intros Hs Hp. pose proof (pr_seen _ _ _ Hp received (fun a _ m => a ++ [m])) as Hg.
  rewrite Hg; simpl client.
  - clear Hg. rewrite Hs. generalize (received r).
    unfold see_all. simpl. induction (payloads _) as [|m ms IH]; intros a; simpl;
      [by rewrite app_nil_r|]. by rewrite IH, <- app_assoc.
  - done.
  - intros [] s. unfold received. simpl. rewrite omap_app. simpl. by rewrite app_nil_r.
  - intros [] m s. unfold received. simpl. by rewrite omap_app.
Qed.

(** What can happen to a client: its methods are called, its timer goes off,
    the network brings something. *)
Inductive qt_step {Q T St H} `{QtLaws Q T} `{QuietQt Q T St H} : St -> St -> Prop :=
| qs_connect ip port s : qt_step s (connectToServer ip port s).2
| qs_send data s : qt_step s (sendData data s).2
| qs_timeout s : qt_step s (timeout s).2
| qs_read f c s :
    brings f c -> Forall fine (payloads (p_msgs (parse (buffer (client s) ++ c)))) ->
    qt_step s (readyRead f s).2
| qs_disconnect s : qt_step s (disconnect s).2.

(** ** Lemmas on the wire *)

Section wire_lemmas.
Context {Q T St H : Type} `{QtLaws Q T} `{QuietQt Q T St H}.
Implicit Types s : St.

Definition takes_all : Prop :=
  forall d (q : Q), state q = ConnectedState -> (write d q).1 = len d.

Lemma whole_write data s :
  takes_all ->
  whole_frames (written (tcpSocket (client s)))
    (written (tcpSocket (client (_writeWithLengthPrefix data s).2))).
Proof.
  intros Hall. rewrite write_eq. case_bool_decide as Hst; [|apply whole_refl].
  destruct (frame data) as [x|] eqn:Hx; [|apply whole_refl].
  destruct (Z.leb_spec (len data) MAX_MSG_SIZE); [|apply whole_refl].
  simpl. rewrite client_set_client. simpl. rewrite take_all_written by auto.
  exists [data], x. simpl. rewrite Hx, app_nil_r. split_and!; [by repeat constructor|done..].
Qed.

Lemma whole_step s s' :
  takes_all -> qt_step s s' ->
  whole_frames (written (tcpSocket (client s))) (written (tcpSocket (client s'))).
Proof.
  intros Hall [ip port s0|data s0|s0|f c s0 Hf Hfine|s0].
  - destruct (connectToServer_quiet ip port s0) as (b & s1 & -> & _ & _ & Hw & _).
    simpl. rewrite Hw. apply whole_refl.
  - rewrite sendData_eq. by apply whole_write.
  - unfold timeout. rewrite sendHeartbeat_eq. case_bool_decide.
    + rewrite sendData_eq. by apply whole_write.
    + simpl. rewrite client_set_client. apply whole_refl.
  - destruct (readyRead_progress f c s0 Hf Hfine) as (s1 & -> & Hp). simpl.
    rewrite (pr_written _ _ _ Hp). apply whole_refl.
  - destruct (disconnect_quiet s0) as (s1 & -> & _ & _ & _ & Hw). simpl.
    rewrite Hw. apply whole_refl.
Qed.

End wire_lemmas.

(** ** The properties *)

(** C26: The receive loop of the PyQt client refines the reference parser.
    Whatever the pieces in which the network brings a stream, the slots of
    [receivedData] get exactly the messages [parse] finds in the whole of it, but
    for the answers to heartbeats, and the buffer holds exactly what [parse]
    leaves; nothing is sent; the connection is given up when the stream has a
    fault, and untouched when it has none. *)
Theorem qt_receive_refines_parse {Q T} `{QtLaws Q T} (fs : list (Q -> Q)) (chunks : list bytes)
    (r : recorder Q T) :
  Forall2 brings fs chunks -> next_frame (buffer (rec_client r)) = More ->
  receivedData (rec_client r) = [tt] ->
  let p := parse (buffer (rec_client r) ++ concat chunks) in
  exists r', seq_all (map readyRead fs) r = (Ret tt, r') /\
    received r' = received r ++ payloads (p_msgs p) /\
    buffer (rec_client r') = p_rest p /\
    written (tcpSocket (rec_client r')) = written (tcpSocket (rec_client r)) /\
    match p_fault p with
    | None => state (tcpSocket (rec_client r')) = state (tcpSocket (rec_client r))
    | Some _ => state (tcpSocket (rec_client r')) <> ConnectedState
    end.
Proof.
  intros Hfs Hm Hs. cbv zeta.
  destruct (readyReads_progress (H:=unit) fs chunks r r [] Hfs) as (r' & Hr' & Hp);
    [by apply progress_nil|by apply Forall_true|].
  simpl in Hp. exists r'. split; [done|]. split; [by apply progress_received|].
  split; [apply Hp|]. split; [apply Hp|]. exact (pr_state _ _ _ Hp).
Qed.

(** C35: A new connection is read after what the old one left. [connectToServer]
    does not clear the buffer: what the new connection brings is parsed after the
    bytes the old one left there. In particular, after a fault no message of a
    new connection is handed on, and it is given up as well; only [disconnect],
    which clears the buffer, gives a client that can be connected again. *)
Theorem qt_reconnect_keeps_buffer {Q T} `{QtLaws Q T} (fs : list (Q -> Q))
    (chunks : list bytes) (r : recorder Q T) ip port :
  Forall2 brings fs chunks -> chunks <> [] -> receivedData (rec_client r) = [tt] ->
  exists b r1 r2, connectToServer ip port r = (Ret b, r1) /\
    seq_all (map readyRead fs) r1 = (Ret tt, r2) /\
    received r2 =
      received r ++ payloads (p_msgs (parse (buffer (rec_client r) ++ concat chunks))) /\
    (forall f, next_frame (buffer (rec_client r)) = Fault f ->
       received r2 = received r /\ state (tcpSocket (rec_client r2)) <> ConnectedState) /\
    buffer (rec_client (disconnect r2).2) = [].
Proof.
  intros Hfs Hne Hs.
  destruct (connectToServer_quiet ip port r) as (b & r1 & Hr1 & Hb & Hsl & _ & _ & Hsee).
  simpl client in *.
  destruct (readyReads_start fs chunks r1 Hne Hfs) as (r2 & Hr2 & Hp);
    [by apply Forall_true|].
  exists b, r1, r2. split; [done|]. split; [done|].
  assert (received r1 = received r) as Hrec.
  { apply Hsee; [done|]. intros [] s. unfold received. simpl. rewrite omap_app. simpl.
    by rewrite app_nil_r. }
  pose proof (progress_received _ r1 r2 (eq_trans Hsl Hs) Hp) as Hrecv.
  rewrite Hrec, Hb in Hrecv. split; [done|]. split.
  - intros f Hf. pose proof (pr_state _ _ _ Hp) as Hst. simpl in Hst.
    pose proof (next_frame_app (buffer (rec_client r)) (concat chunks)) as Ha.
    rewrite Hf in Ha. rewrite Hb, parse_unfold, Ha in Hst.
    rewrite parse_unfold, Ha in Hrecv. simpl in *. by rewrite app_nil_r in Hrecv.
  - by destruct (disconnect_quiet r2) as (r3 & -> & Hb3 & _).
Qed.

(** C36: Only whole frames are sent. Whatever is done with a client, connecting
    several times, sending, heartbeats, receiving and disconnecting in any order,
    what its socket took is a sequence of whole frames, none over 16 MiB, as long
    as a connected socket takes everything it is handed. *)
Theorem qt_wire_whole_frames {Q T St H} `{QtLaws Q T} `{QuietQt Q T St H} (s s' : St) :
  (forall d (q : Q), state q = ConnectedState -> (write d q).1 = len d) ->
  rtc (fun s s' : St => qt_step s s') s s' ->
  exists ms y, Forall (fun m => len m <= MAX_MSG_SIZE) ms /\ frames ms = Some y /\
    written (tcpSocket (client s')) = written (tcpSocket (client s)) ++ y.
Proof.
  intros Hall Hr.
  change (whole_frames (written (tcpSocket (client s))) (written (tcpSocket (client s')))).
  induction Hr as [s|s1 s2 s3 Hs _ IH]; [apply whole_refl|].
  eapply whole_trans; [|exact IH]. by apply whole_step.
Qed.

(** [sendData] never raises and never fails loudly. Nothing happens when the
    socket is not connected or the message is over 16 MiB; otherwise the socket
    is handed one frame, and [True] is the result even when it took only a part
    of it or refused it. The heartbeat does the same with its own message on a
    connected client, and otherwise stops the timer, without writing. *)
Theorem qt_send_spec {Q T St H} `{QtLaws Q T} `{QuietQt Q T St H} (s : St) (data : bytes) :
  let q := tcpSocket (client s) in
  (exists b s', _writeWithLengthPrefix data s = (Ret b, s') /\
     sendData data s = (Ret tt, s') /\
     (b = false -> s' = s /\ (state q <> ConnectedState \/ MAX_MSG_SIZE < len data)) /\
     (b = true -> state q = ConnectedState /\ exists x, frame data = Some x /\
        written (tcpSocket (client s')) = written q ++ take (Z.to_nat (write x q).1) x)) /\
  (state q = ConnectedState -> timeout s = sendData HEARTBEAT s) /\
  (state q <> ConnectedState -> exists s', timeout s = (Ret tt, s') /\
     isActive (heartBeatTimer (client s')) = false /\ tcpSocket (client s') = q).
Proof.
  cbv zeta. split; [|unfold timeout; rewrite sendHeartbeat_eq; split].
  - rewrite sendData_eq, write_eq. case_bool_decide as Hst.
    2:{ exists false, s. split_and!; try done. auto. }
    destruct (frame data) as [x|] eqn:Hx.
    + destruct (Z.leb_spec (len data) MAX_MSG_SIZE).
      * eexists true, _. split_and!; try done. intros _. split; [done|]. exists x.
        rewrite client_set_client. simpl. by rewrite written_write.
      * exists false, s. split_and!; try done. intros _. split; [done|]. by right.
    + exists false, s. split_and!; try done. intros _. split; [done|]. right.
      destruct (Z.ltb_spec MAX_MSG_SIZE (len data)) as [|Hle]; [done|].
      destruct (frame_is_Some data Hle) as [x Hx']. congruence.
  - intros Hst. by rewrite bool_decide_true.
  - intros Hst. rewrite bool_decide_false by done. eexists. split; [done|].
    rewrite client_set_client. simpl. split; [apply active_stop|done].
Qed.

(** ** Witnesses *)

Definition paper_bring (c : bytes) (q : paper_socket) : paper_socket :=
  PaperSocket (ps_state q) (ps_listening q) c (ps_written q).

Lemma paper_brings c : c <> [] -> brings (paper_bring c) c.
Proof. done. Qed.

Definition ex_qt : recorder paper_socket bool :=
  (connectToServer (str_of "127.0.0.1") 6370
     (Recorder (set_receivedData [tt] __init__) [])).2.

Definition ex_chunks : list bytes := [MAGIC ++ [x00]; [x00; x00; x01; x41; x4b]; [x4b; x00]].

Lemma qt_receive_refines_parse_witness :
  exists r', seq_all (map readyRead (map paper_bring ex_chunks)) ex_qt = (Ret tt, r') /\
    received r' = [[x41]] /\ buffer (rec_client r') = [x4b; x4b; x00].
Proof.
  destruct (qt_receive_refines_parse (map paper_bring ex_chunks) ex_chunks ex_qt)
    as (r' & Hr & Hs & Hb & _); [|reflexivity..|].
  - repeat constructor; try discriminate.
  - exists r'. split; [exact Hr|]. split; [exact Hs|exact Hb].
Defined.

Lemma qt_reconnect_keeps_buffer_witness :
  exists b r1 r2,
    connectToServer (str_of "127.0.0.1") 6370
      (Recorder (set_buffer (bytes_of "HTTP/1.1") (rec_client ex_qt)) []) = (Ret b, r1) /\
    seq_all (map readyRead [paper_bring (MAGIC ++ [x00; x00; x00; x01; x41])]) r1 = (Ret tt, r2) /\
    received r2 = [] /\ state (tcpSocket (rec_client r2)) <> ConnectedState.
Proof.
  destruct (qt_reconnect_keeps_buffer [paper_bring (MAGIC ++ [x00; x00; x00; x01; x41])]
    [MAGIC ++ [x00; x00; x00; x01; x41]]
    (Recorder (set_buffer (bytes_of "HTTP/1.1") (rec_client ex_qt)) [])
    (str_of "127.0.0.1") 6370) as (b & r1 & r2 & H1 & H2 & _ & Hf & _).
  - by repeat constructor.
  - discriminate.
  - reflexivity.
  - exists b, r1, r2. split; [exact H1|]. split; [exact H2|].
    exact (Hf BadMagic eq_refl).
Defined.

Lemma qt_wire_whole_frames_witness :
  exists ms y, Forall (fun m => len m <= MAX_MSG_SIZE) ms /\ frames ms = Some y /\
    written (tcpSocket (client (disconnect (sendData (bytes_of "Hi") ex_qt).2).2)) =
      written (tcpSocket (client ex_qt)) ++ y.
Proof.
  apply (qt_wire_whole_frames ex_qt (disconnect (sendData (bytes_of "Hi") ex_qt).2).2).
  - reflexivity.
  - eapply rtc_l; [apply qs_send|]. apply rtc_once, qs_disconnect.
Defined.

Lemma qt_send_spec_witness :
  exists s', timeout (disconnect ex_qt).2 = (Ret tt, s') /\
    isActive (heartBeatTimer (client s')) = false /\
    tcpSocket (client s') = tcpSocket (client (disconnect ex_qt).2).
Proof. apply (qt_send_spec (disconnect ex_qt).2 []). discriminate. Defined.
