(* ===== verification/QtHeartbeat.v ===== *)
(** * The heartbeat of the PyQt [TcpClient]

    knotlink-sdk-pyqt/knotlink-pyqt/knotlink-pyqt/tcpclient.py starts its timer in
    [connectToServer] and stops it in [socketDisconnected], a slot, and in
    [sendHeartbeat], when the client is not connected. Here is what these give
    together, for everything that can happen to a client: calls of its methods, the
    timer, the network, and a connection that is lost with whatever signals the
    socket emits then, or none. *)

From S2P Require Export QtTcpClient.

(** What happens: a call of [connectToServer], the timer, or anything else. *)
Inductive happening := Connecting | Beat | Other.

#[export] Instance happening_eq_dec : EqDecision happening.
Proof. solve_decision. Defined.

Section steps.
Context {Q T St H : Type} `{QtLaws Q T} `{QuietQt Q T St H}.

(** One event. [h_lost]: the socket changes its state by itself, the connection is
    lost or comes to its end, and the slots of the signals [sgs] run. *)
Inductive happens : happening -> St -> St -> Prop :=
| h_connect ip port s : happens Connecting s (connectToServer ip port s).2
| h_timeout s : isActive (heartBeatTimer (client s)) = true -> happens Beat s (timeout s).2
| h_send data s : happens Other s (sendData data s).2
| h_read f c s :
    brings f c -> Forall fine (payloads (p_msgs (parse (buffer (client s) ++ c)))) ->
    happens Other s (readyRead f s).2
| h_disconnect s : happens Other s (disconnect s).2
| h_lost f sgs s :
    state (f (tcpSocket (client s))) <> ConnectedState ->
    written (f (tcpSocket (client s))) = written (tcpSocket (client s)) ->
    happens Other s
      (seq_all (map socket_slot sgs)
        (set_client (set_tcpSocket (f (tcpSocket (client s))) (client s)) s)).2.

(** A history of events. *)
Inductive history : list happening -> St -> St -> Prop :=
| history_nil s : history [] s s
| history_cons h hs s1 s2 s3 : happens h s1 s2 -> history hs s2 s3 -> history (h :: hs) s1 s3.

End steps.

(** ** Lemmas *)

Section lemmas.
Context {Q T St H : Type} `{QtLaws Q T} `{QuietQt Q T St H}.
Implicit Types s : St.

(** What the theorem relies on besides [QtLaws]: [waitForConnected] gives [False]
    only when the socket is not connected. *)
Definition wait_tells : Prop :=
  forall ms (q : Q), (waitForConnected ms q).1.1 = false -> state (waitForConnected ms q).2 <> ConnectedState.

Definition online s : Prop := state (tcpSocket (client s)) = ConnectedState.
Definition active s : bool := isActive (heartBeatTimer (client s)).

(** The slots of the socket stop the timer or leave it alone. *)
Lemma slots_timer sgs s :
  active (seq_all (map socket_slot sgs) s).2 = true -> active s = true.
Proof.
  unfold active. revert s. induction sgs as [|sg sgs IH]; intros s; [done|].
  cbn [map seq_all]. destruct (socket_slot_quiet sg s) as (s1 & Hs1 & _).
  rewrite (bind_Ret _ _ _ _ _ Hs1). intros Ha. apply IH in Ha. revert Ha.
  destruct sg; simpl in Hs1.
  - unfold socketConnected in Hs1. rewrite emit_signal_quiet in Hs1 by done. simplify_eq.
    by rewrite client_deliver_slots.
  - unfold socketDisconnected in Hs1. rewrite (bind_Ret _ _ _ _ _ (emit_signal_quiet _ NoArgs _ I)) in Hs1.
    unfold stop_timer in Hs1. rewrite qt_on_tcp_modify in Hs1. simplify_eq.
    rewrite client_set_client. simpl. by rewrite active_stop.
  - unfold handleError, ret in Hs1. by simplify_eq.
Qed.

Lemma call_timer {A} (f : Q -> A * list socket_signal * Q) s :
  active (call f s).2 = true -> active s = true.
Proof.
  unfold call, on_tcp, zoom. destruct (f (tcpSocket (client s))) as [[r sgs] q] eqn:E.
  unfold bind at 1. rewrite E. cbn [fst snd].
  destruct (socket_slots_quiet sgs (set_client (set_tcpSocket q (client s)) s)) as (s' & Hs' & _).
  rewrite (bind_Ret _ _ _ _ _ Hs'). intros Ha.
  assert (active (seq_all (map socket_slot sgs) (set_client (set_tcpSocket q (client s)) s)).2 = true) as Hb
    by by rewrite Hs'.
  apply slots_timer in Hb. unfold active in *. by rewrite client_set_client in Hb.
Qed.

(** Sending leaves the timer and the state of the socket alone. *)
Lemma qt_send_kept data s :
  active (sendData data s).2 = active s /\
  state (tcpSocket (client (sendData data s).2)) = state (tcpSocket (client s)) /\
  (~ online s -> (sendData data s).2 = s).
Proof.
  unfold online, active. rewrite sendData_eq, write_eq. cbn [snd].
  case_bool_decide; [|done]. destruct (frame data); [|done]. destruct (_ <=? _); [|done].
  cbn [snd]. rewrite client_set_client. simpl. by rewrite state_write.
Qed.

(** Reading stops the timer only when it gives the connection up. *)
Lemma read_timer f c s :
  brings f c -> Forall fine (payloads (p_msgs (parse (buffer (client s) ++ c)))) ->
  (active (readyRead f s).2 = true -> active s = true) /\
  (online (readyRead f s).2 -> online s /\ active (readyRead f s).2 = active s).
Proof.
  intros Hbr Hfine. destruct (readyRead_progress f c s Hbr Hfine) as (s' & Hs' & Hp).
  pose proof (pr_state _ _ _ Hp) as Hst. rewrite Hs'. cbn [snd].
  rewrite (readyRead_eq f c s Hbr) in Hs'. unfold _processBuffer in Hs'.
  rewrite (bind_Ret _ _ _ _ _ (qt_on_tcp_gets _ _)) in Hs'.
  assert (buffer (client (arrived f c s)) = buffer (client s) ++ c /\
    heartBeatTimer (client (arrived f c s)) = heartBeatTimer (client s)) as [Hb Ht]
    by (unfold arrived; by rewrite client_set_client).
  rewrite qt_process_loop_quiet in Hs'; rewrite Hb in *; [|lia|done].
  injection Hs' as E. set (s2 := deliver_all _ _ _) in E.
  assert (heartBeatTimer (client s2) = heartBeatTimer (client s)) as Ht2
    by (unfold s2; rewrite qt_client_deliver_all, client_set_client; exact Ht).
  unfold online, active in *. destruct (p_fault (parse (buffer (client s) ++ c))); simpl in E; subst s'.
  - split; [|done]. intros Ha. apply (call_timer disconnectFromHost s2) in Ha.
    unfold active in Ha. by rewrite Ht2 in Ha.
  - rewrite Ht2, Hst. by split.
Qed.

Lemma connect_timer ip port s :
  wait_tells -> online (connectToServer ip port s).2 -> active (connectToServer ip port s).2 = true.
Proof.
  intros Hwait. unfold online, active.
  destruct (call_quiet (connectToHost ip port) s) as (s1 & Hs1 & _).
  destruct (call_quiet (waitForConnected 3000) s1) as (s2 & Hs2 & Hsame2).
  pose proof (same_socket _ _ Hsame2) as Hsock. rewrite client_set_client in Hsock. simpl in Hsock.
  unfold connectToServer. rewrite (bind_Ret _ _ _ _ _ Hs1), (bind_Ret _ _ _ _ _ Hs2).
  destruct (waitForConnected 3000 (tcpSocket (client s1))).1.1 eqn:Ew; cbn [negb].
  - intros _. rewrite (bind_Ret _ _ _ _ _ (qt_on_tcp_modify _ _)). cbn [ret snd].
    rewrite client_set_client. simpl. apply active_start.
  - cbn [ret snd]. rewrite Hsock. intros Hc. by destruct (Hwait 3000 _ Ew).
Qed.

Lemma lost_state sgs q s :
  tcpSocket (client (seq_all (map socket_slot sgs) (set_client (set_tcpSocket q (client s)) s)).2) = q.
Proof.
  destruct (socket_slots_quiet sgs (set_client (set_tcpSocket q (client s)) s)) as (s' & Hs' & Hsame).
  rewrite Hs'. cbn [snd]. rewrite (same_socket _ _ Hsame). by rewrite client_set_client.
Qed.

Lemma timeout_off s :
  ~ online s -> (timeout s).2 = set_client (set_timer (stop (heartBeatTimer (client s))) (client s)) s.
Proof. intros Ho. unfold timeout. by rewrite sendHeartbeat_eq, bool_decide_false by done. Qed.

(** A connected client has a timer that runs. *)
Lemma happens_beating h s s' :
  wait_tells -> happens h s s' -> (online s -> active s = true) -> online s' -> active s' = true.
Proof.
  intros Hwait Hs Hb. destruct Hs as [ip port s|s Ha|data s|f c s Hf Hfine|s|f sgs s Hst _].
  - by apply connect_timer.
  - intros Ho. unfold timeout in *. rewrite sendHeartbeat_eq in *. case_bool_decide as E; [|].
    + destruct (qt_send_kept HEARTBEAT s) as (-> & _). by apply Hb.
    + exfalso. revert Ho. unfold online. cbn [snd]. by rewrite client_set_client.
  - destruct (qt_send_kept data s) as (-> & Hk & _). unfold online in *. by rewrite Hk.
  - intros Ho. apply (read_timer f c s Hf Hfine) in Ho as [Ho ->]. by apply Hb.
  - destruct (disconnect_quiet s) as (s' & -> & _ & _ & Hn & _). by intros ?%Hn.
  - unfold online. by rewrite lost_state.
Qed.

(** A client that is not connected: the timer runs out, and nothing is written. *)
Lemma happens_off h s s' :
  happens h s s' -> h <> Connecting -> ~ online s ->
  ~ online s' /\ written (tcpSocket (client s')) = written (tcpSocket (client s)) /\
  (active s' = true -> active s = true /\ h <> Beat).
Proof.
  intros Hs Hh Ho. destruct Hs as [ip port s|s Ha|data s|f c s Hf Hfine|s|f sgs s Hst Hw]; [done|..].
  - rewrite timeout_off by done. unfold online, active in *. rewrite client_set_client. simpl.
    rewrite active_stop. by split_and!.
  - rewrite (proj2 (proj2 (qt_send_kept data s)) Ho). by split_and!.
  - destruct (readyRead_progress f c s Hf Hfine) as (s' & Hs' & Hp).
    destruct (read_timer f c s Hf Hfine) as [Ht Hon]. split_and!.
    + intros Hc. apply Ho. by apply Hon.
    + rewrite Hs'. apply (pr_written _ _ _ Hp).
    + intros Hc. split; [by apply Ht|done].
  - destruct (disconnect_quiet s) as (s' & E & _ & _ & Hn & Hw). split_and!.
    + by rewrite E.
    + by rewrite E.
    + intros Ha. split; [|done]. apply (call_timer disconnectFromHost s). revert Ha. unfold disconnect, active.
      destruct (hang_up_eq s) as [Hh' _]. rewrite (bind_Ret _ _ _ _ _ Hh'), qt_on_tcp_modify, Hh'.
      cbn [snd]. by rewrite client_set_client.
  - unfold online. rewrite !lost_state. split_and!; [done|done|]. intros Ha. split; [|done].
    apply slots_timer in Ha. unfold active in *. by rewrite client_set_client in Ha.
Qed.

Lemma history_off hs s s' :
  history hs s s' -> Connecting ∉ hs -> ~ online s ->
  ~ online s' /\ written (tcpSocket (client s')) = written (tcpSocket (client s)) /\
  (length (filter (.= Beat) hs) + (if active s' then 1 else 0) <= if active s then 1 else 0)%nat.
Proof.
  induction 1 as [s|h hs s1 s2 s3 Hs _ IH]; intros Hn Ho; [by split_and!|].
  apply not_elem_of_cons in Hn as [Hh Hn].
  destruct (happens_off h s1 s2 Hs ltac:(done) Ho) as (Ho2 & Hw & Ha).
  destruct (IH Hn Ho2) as (Ho3 & Hw3 & Hlen). split_and!; [done|congruence|].
  rewrite filter_cons. case_decide as E.
  - subst h. assert (active s1 = true) as -> by by inversion Hs.
    destruct (active s2) eqn:E2; [by destruct (Ha eq_refl)|]. simpl. lia.
  - destruct (active s2); [|destruct (active s1); lia]. by destruct (Ha eq_refl) as [-> _].
Qed.

End lemmas.

(** ** The property *)

(** C27: The heartbeat of the PyQt client runs as long as the connection. For every
    history of calls, timeouts, packets and losses of the connection: a client whose
    timer ran while it was connected, as that of a new one did, which never was, has
    a timer that runs whenever it is connected, and each timeout then is a call of
    [sendData] with the heartbeat. Once it is not connected, whichever way it came to
    that and whether or not the socket told it, and until [connectToServer] is called
    again, it stays not connected, nothing is written, and the timer goes off at most
    once more, and not at all when it was stopped. *)
Theorem qt_heartbeat {Q T St H} `{QtLaws Q T} `{QuietQt Q T St H} (hs : list happening) (s s' : St) :
  history hs s s' ->
  (wait_tells -> (online s -> active s = true) -> online s' -> active s' = true) /\
  (online s' -> timeout s' = sendData HEARTBEAT s') /\
  (Connecting ∉ hs -> ~ online s ->
   ~ online s' /\ written (tcpSocket (client s')) = written (tcpSocket (client s)) /\
   (length (filter (.= Beat) hs) <= if active s then 1 else 0)%nat).
Proof.
  intros Hh. split_and!.
  - intros Hwait. induction Hh as [s|h hs s1 s2 s3 Hs _ IH]; [done|]. intros Hb. apply IH.
    by apply (happens_beating h s1).
  - intros Ho. unfold timeout. by rewrite sendHeartbeat_eq, bool_decide_true.
  - intros Hn Ho. destruct (history_off hs s s' Hh Hn Ho) as (? & ? & Hlen). split_and!; [done|done|].
    etrans; [|exact Hlen]. lia.
Qed.

(** ** Witnesses *)

Lemma paper_wait_tells : wait_tells (Q:=paper_socket).
Proof. intros ms q. simpl. by destruct (ps_listening q). Qed.

Definition ex_new : recorder paper_socket bool := Recorder __init__ [].

(** A socket that loses its connection and says nothing. *)
Definition paper_lose (q : paper_socket) : paper_socket :=
  PaperSocket UnconnectedState (ps_listening q) (ps_pending q) (ps_written q).

Lemma qt_heartbeat_witness :
  active (connectToServer (str_of "127.0.0.1") 6370 ex_new).2 = true /\
  let s := (seq_all (map socket_slot []) (set_client (set_tcpSocket
              (paper_lose (tcpSocket (client ex_qt))) (client ex_qt)) ex_qt)).2 in
  active s = true /\ history [Beat] s (timeout s).2 /\
  written (tcpSocket (client (timeout s).2)) = written (tcpSocket (client s)).
Proof.
  split.
  - apply (qt_heartbeat [Connecting] ex_new (connectToServer (str_of "127.0.0.1") 6370 ex_new).2).
    + eapply history_cons; [apply h_connect|apply history_nil].
    + apply paper_wait_tells.
    + intros E. discriminate E.
    + vm_compute. reflexivity.
  - intros s.
    assert (history [Beat] s (timeout s).2) as Hh
      by (eapply history_cons; [apply h_timeout; reflexivity|apply history_nil]).
    split; [reflexivity|]. split; [exact Hh|].
    apply (qt_heartbeat [Beat] s (timeout s).2 Hh).
    + intros E. by apply list_elem_of_singleton in E.
    + discriminate.
Defined.
