(* ===== verification/QtSignalSender.v ===== *)
(** * The PyQt [SignalSender]

    Models knotlink-sdk-pyqt/knotlink-pyqt/knotlink-pyqt/SignalSender.py, over the
    interface [Qt]. Nothing is connected to the signals of its client, which the
    type [Empty_set] of the slots says. *)

From S2P Require Export QtTcpClient.

Record sender {Q T : Type} := Sender {
  appID : option pystr;
  signalID : option pystr;
  KLsender : qtcp Q T Empty_set }.
Arguments sender : clear implicits.
Arguments Sender {Q T}.

(** The [data] of [emitt]. *)
Inductive pydata :=
| PyStr (s : pystr)
| PyBytes (bs : bytes)
| PyOther.

Section sender.
Context {Q T : Type} `{Qt Q T}.
Implicit Types s : sender Q T.

Definition set_KLsender (t : qtcp Q T Empty_set) s : sender Q T :=
  Sender (appID s) (signalID s) t.

#[export] Instance sender_host : QtHost Q T (sender Q T) Empty_set.
Proof.
  refine {| client := KLsender; set_client := set_KLsender;
            on_signal h _ := match h with end |}.
  all: by intros; try destruct s.
Defined.

Definition __init__ (APPID SignalID : option pystr) : outcome bool * sender Q T :=
  connectToServer (str_of "127.0.0.1") 6370 (Sender APPID SignalID QtTcpClient.__init__).

Definition setConfig (APPID SignalID : option pystr) : M (sender Q T) unit :=
  modify (fun s => Sender APPID SignalID (KLsender s)).

Definition __emitt (APPID SignalID : option pystr) (data : pydata) : M (sender Q T) unit :=
  let s_key := format APPID ++ DASH ++ format SignalID ++ DELIM in
  let! s_key_bytes := encode s_key in
  match data with
  | PyBytes bs => let s_data := s_key_bytes ++ bs in sendData s_data
  | _ => raise TypeError
  end.

Definition _emitt (APPID SignalID : option pystr) (data : pydata) : M (sender Q T) unit :=
  match data with
  | PyStr d => let! bs := encode d in __emitt APPID SignalID (PyBytes bs)
  | _ => __emitt APPID SignalID data
  end.

Definition emitt (data : pydata) : M (sender Q T) unit :=
  let! a := gets appID in
  let! i := gets signalID in
  _emitt a i data.

(** ** Lemmas *)

Lemma qt_emitt_str d s :
  emitt (PyStr d) s =
    match utf8_encode d with
    | Some bs =>
      match keyed_body (appID s) (signalID s) bs with
      | Some body => sendData body s
      | None => (Raise UnicodeEncodeError, s)
      end
    | None => (Raise UnicodeEncodeError, s)
    end.
Proof.
  unfold emitt, _emitt, __emitt, keyed_body, encode. step.
  destruct (utf8_encode d) as [bs|]; [|done]. by destruct (utf8_encode _).
Qed.

End sender.

#[export] Instance sender_quiet {Q T} : QuietQt Q T (sender Q T) Empty_set.
Proof.
  refine (@Build_QuietQt Q T _ _ sender_host (fun _ => True)
    (fun h _ s => match h with end) _ _ _); by intros [].
Defined.
