(* ===== verification/QtSignalSubscriber.v ===== *)
(** * The PyQt [SignalSubscriber]

    Models knotlink-sdk-pyqt/knotlink-pyqt/knotlink-pyqt/SignalSubscriber.py, over
    the interface [Qt]. [U] names the slots an application connects to the
    subscriber's signals; [user] and [user_a] are what calling them does. *)

From S2P Require Export QtTcpClient.

Record subscriber {Q T U W : Type} := Subscriber {
  appID : pystr;
  signalID : pystr;
  received_data : list U;
  received_data_a : list U;
  KLsubscriber : qtcp Q T unit;
  world : W }.
Arguments subscriber : clear implicits.
Arguments Subscriber {Q T U W}.

Section subscriber.
Context {Q T U W : Type} `{Qt Q T}.
Implicit Types s : subscriber Q T U W.

Definition set_KLsubscriber (t : qtcp Q T unit) s : subscriber Q T U W :=
  Subscriber (appID s) (signalID s) (received_data s) (received_data_a s) t (world s).
Definition set_world (w : W) s : subscriber Q T U W :=
  Subscriber (appID s) (signalID s) (received_data s) (received_data_a s) (KLsubscriber s) w.

Variable user : U -> pystr -> M (subscriber Q T U W) unit.
Variable user_a : U -> bytes -> M (subscriber Q T U W) unit.

Definition dataRecv (data : bytes) : M (subscriber Q T U W) unit :=
  let! slots_a := gets received_data_a in
  emit (map (fun c => user_a c data) slots_a) >>
  let! received_text := decode data in
  let! slots := gets received_data in
  emit (map (fun c => user c received_text) slots).

(** The only slot of the client is [dataRecv]. *)
Definition subscriber_host : QtHost Q T (subscriber Q T U W) unit.
Proof.
  refine {| client := KLsubscriber; set_client := set_KLsubscriber;
            on_signal _ a := match a with Data d => dataRecv d | NoArgs => ret tt end |}.
  all: by intros; try destruct s.
Defined.

#[local] Existing Instance subscriber_host.

Definition send_key : M (subscriber Q T U W) unit :=
  let! s := gets (fun s => s) in
  let s_key := appID s ++ DASH ++ signalID s in
  let! s_key_bytes := encode s_key in
  sendData s_key_bytes.

Definition init : M (subscriber Q T U W) unit :=
  connectToServer (str_of "127.0.0.1") 6372 >>
  on_tcp (modify (fun t => set_receivedData (receivedData t ++ [tt]) t)) >>
  send_key.

Definition __init__ (APPID SignalID : pystr) (w : W) : outcome unit * subscriber Q T U W :=
  init (Subscriber APPID SignalID [] [] QtTcpClient.__init__ w).

Definition subscribe (APPID SignalID : pystr) : M (subscriber Q T U W) unit :=
  modify (fun s => Subscriber APPID SignalID (received_data s) (received_data_a s)
                     (KLsubscriber s) (world s)) >>
  send_key.

End subscriber.

(** ** Applications whose slots only act on the application *)

Section quiet.
Context {Q T U W : Type} `{QtLaws Q T}.
Context (app : U -> pystr -> W -> W) (app_a : U -> bytes -> W -> W).
Implicit Types s : subscriber Q T U W.

Definition quiet_user (c : U) (text : pystr) : M (subscriber Q T U W) unit :=
  modify (fun s => set_world (app c text (world s)) s).
Definition quiet_user_a (c : U) (d : bytes) : M (subscriber Q T U W) unit :=
  modify (fun s => set_world (app_a c d (world s)) s).

Definition quiet_host : QtHost Q T (subscriber Q T U W) unit :=
  subscriber_host quiet_user quiet_user_a.

(** What the application has become when the slots were called for a text. *)
Definition world_after (slots slots_a : list U) (d : bytes) (text : pystr) (w : W) : W :=
  fold_left (fun w c => app c text w) slots (fold_left (fun w c => app_a c d w) slots_a w).

(** Slots that only act on the application. *)
Lemma signal_emit_world {C} (f : C -> W -> W) cs s :
  emit (map (fun c => modify (fun s => set_world (f c (world s)) s)) cs) s =
    (Ret tt, set_world (fold_left (fun w c => f c w) cs (world s)) s).
Proof. by apply emit_on_part; [intros []| |]. Qed.

Lemma signal_dataRecv_quiet d s :
  dataRecv quiet_user quiet_user_a d s =
    match utf8_decode d with
    | Some text =>
      (Ret tt, set_world (world_after (received_data s) (received_data_a s) d text (world s)) s)
    | None =>
      (Raise UnicodeDecodeError,
       set_world (fold_left (fun w c => app_a c d w) (received_data_a s) (world s)) s)
    end.
Proof.
  unfold dataRecv, bind at 1, gets.
  unfold quiet_user_a.
  rewrite (bind_Ret _ _ _ _ _ (signal_emit_world (fun c => app_a c d) (received_data_a s) s)).
  unfold decode. destruct (utf8_decode d) as [text|]; [|done]. step. simpl.
  unfold quiet_user. by rewrite (signal_emit_world (fun c => app c text)).
Qed.

Definition deliver_text (d : bytes) s : subscriber Q T U W :=
  match utf8_decode d with
  | Some text => set_world (world_after (received_data s) (received_data_a s) d text (world s)) s
  | None => s
  end.

Definition subscriber_quiet : @QuietQt Q T (subscriber Q T U W) unit quiet_host.
Proof.
  refine (@Build_QuietQt Q T _ _ quiet_host (fun d => is_Some (utf8_decode d))
    (fun _ a s => match a with Data d => deliver_text d s | NoArgs => s end) _ _ _).
  - intros h [|d] s Hd; [done|]. simpl. rewrite signal_dataRecv_quiet. unfold deliver_text.
    by destruct Hd as [text ->].
  - intros h [|d] s; [done|]. unfold deliver_text. by destruct (utf8_decode d).
  - intros h [|d] t s; [done|]. unfold deliver_text. by destruct (utf8_decode d).
Defined.

End quiet.

(** What an observer of the application sees. *)
Definition app_state {Q T U W} (s : subscriber Q T U W) : list U * list U * W :=
  (received_data s, received_data_a s, world s).

Lemma see_texts {U W} (app : list U -> list U -> bytes -> pystr -> W -> W) x y ds bs w :
  Forall2 (fun d b => utf8_decode b = Some d) ds bs ->
  see_all (fun (a : list U * list U * W) (_ : unit) m =>
    match utf8_decode m with
    | Some d => (a.1, app a.1.1 a.1.2 m d a.2)
    | None => a
    end) [tt] bs (x, y, w) =
  (x, y, fold_left (fun w p => app x y p.1 p.2 w) (zip bs ds) w).
Proof.
  intros Hdec. revert w. induction Hdec as [|d b ds bs Hd _ IH]; intros w; [done|].
  unfold see_all in *. simpl. rewrite Hd. apply IH.
Qed.

(** ** The properties *)

(** Delivery through the PyQt client. When messages that are texts arrive, in
    pieces cut anywhere, at a subscriber whose slots only act on the application,
    every message reaches first the slots of [received_data_a], as bytes, and then
    those of [received_data], as the text that was sent; the messages keep their
    order, and nothing is left in the buffer. *)
Theorem qt_texts_delivered {Q T U W : Type} `{QtLaws Q T}
    (app : U -> pystr -> W -> W) (app_a : U -> bytes -> W -> W) (s : subscriber Q T U W)
    (ds : list pystr) (bs chunks : list bytes) (fs : list (Q -> Q)) :
  receivedData (KLsubscriber s) = [tt] -> buffer (KLsubscriber s) = [] ->
  encode_all ds = Some bs -> Forall (fun m => valid_body m = true) bs ->
  str_of "heartbeat_response" ∉ ds ->
  frames bs = Some (concat chunks) -> Forall2 brings fs chunks ->
  exists s', seq_all (map (@readyRead _ _ _ _ _ (quiet_host app app_a)) fs) s = (Ret tt, s') /\
    world s' =
      fold_left (fun w p =>
        world_after app app_a (received_data s) (received_data_a s) p.1 p.2 w)
        (zip bs ds) (world s) /\
    buffer (KLsubscriber s') = [] /\
    state (tcpSocket (KLsubscriber s')) = state (tcpSocket (KLsubscriber s)).
Proof.
  intros Hsl Hb Hds Hv Hhb Hx Hfs.
  pose proof (encode_all_Forall2 _ _ Hds) as Hdec.
  destruct (@readyReads_frames Q T _ _ _ _ (quiet_host app app_a) (subscriber_quiet app app_a)
    fs bs chunks s Hfs Hb Hv Hx) as (s' & Hs' & Hb' & _ & _ & Hst & Hsee).
  { rewrite (payloads_texts ds bs) by done. clear -Hdec.
    induction Hdec as [|d b ds bs Hd _ IH]; constructor; [by exists d|done]. }
  exists s'. split; [done|]. split; [|done].
  rewrite (payloads_texts ds bs) in Hsee by done.
  specialize (Hsee _ app_state (fun a _ m =>
    match utf8_decode m with
    | Some d => (a.1, world_after app app_a a.1.1 a.1.2 m d a.2)
    | None => a
    end)).
  assert (app_state s' = (received_data s, received_data_a s,
    fold_left (fun w p => world_after app app_a (received_data s) (received_data_a s) p.1 p.2 w)
      (zip bs ds) (world s))) as Hw by
    (rewrite Hsee; [|done|done|intros h m s0; simpl; unfold deliver_text; by destruct (utf8_decode m)];
     simpl; rewrite Hsl; by apply (see_texts (world_after app app_a))).
  by injection Hw.
Qed.

(** A message that is not UTF-8 ends the process. The slots of
    [received_data_a] still get its bytes, and then [dataRecv] lets a
    [UnicodeDecodeError] out of a slot, which is never caught. *)
Theorem qt_bad_text_raises {Q T U W : Type} `{QtLaws Q T} `{!QtAborts Q T}
    (app : U -> pystr -> W -> W) (app_a : U -> bytes -> W -> W) (s : subscriber Q T U W)
    (f : Q -> Q) (m x : bytes) :
  receivedData (KLsubscriber s) = [tt] -> buffer (KLsubscriber s) = [] ->
  valid_body m = true -> m <> HEARTBEAT_RESPONSE -> frame m = Some x -> brings f x ->
  utf8_decode m = None ->
  exists s', @readyRead _ _ _ _ _ (quiet_host app app_a) f s = (Raise UnicodeDecodeError, s') /\
    world s' = fold_left (fun w c => app_a c m w) (received_data_a s) (world s).
Proof.
  intros Hsl Hb Hv Hhb Hx Hf Hd. eexists. split.
  - eapply (@readyRead_raises Q T _ _ _ _ (quiet_host app app_a) (subscriber_quiet app app_a) _
      f x s tt m []); [done| |done|done|].
    + simpl client. rewrite Hb. simpl. rewrite <- (app_nil_r x). by apply next_frame_frame.
    + simpl. rewrite signal_dataRecv_quiet, Hd. reflexivity.
  - done.
Qed.

(** ** Witnesses *)

Definition ex_slot (c : nat) (d : pystr) (w : list (nat * pystr)) : list (nat * pystr) :=
  w ++ [(c, d)].
Definition ex_slot_a (c : nat) (d : bytes) (w : list (nat * pystr)) : list (nat * pystr) :=
  w ++ [(c, map Z_of_byte d)].

Definition ex_subscriber : subscriber paper_socket bool nat (list (nat * pystr)) :=
  let s := (__init__ (quiet_user ex_slot) (quiet_user_a ex_slot_a)
              (str_of "app") (str_of "sig") []).2 in
  Subscriber (appID s) (signalID s) [1%nat] [2%nat] (KLsubscriber s) [].

Lemma qt_texts_delivered_witness :
  exists s', seq_all (map (@readyRead _ _ _ _ _ (quiet_host ex_slot ex_slot_a))
      [paper_bring (MAGIC ++ [x00; x00; x00; x02; xc3]); paper_bring [xa9]]) ex_subscriber =
      (Ret tt, s') /\
    world s' = [(2%nat, [195; 169]); (1%nat, [233])].
Proof.
  destruct (qt_texts_delivered ex_slot ex_slot_a ex_subscriber [[233]] [[xc3; xa9]]
    [MAGIC ++ [x00; x00; x00; x02; xc3]; [xa9]]
    [paper_bring (MAGIC ++ [x00; x00; x00; x02; xc3]); paper_bring [xa9]])
    as (s' & Hs' & Hw & _); [reflexivity..| | | | |].
  - by repeat constructor.
  - apply (bool_decide_unpack _). vm_compute. exact I.
  - reflexivity.
  - repeat constructor; discriminate.
  - exists s'. split; [exact Hs'|exact Hw].
Defined.

Lemma qt_bad_text_raises_witness :
  exists s', @readyRead _ _ _ _ _ (quiet_host ex_slot ex_slot_a)
      (paper_bring (MAGIC ++ [x00; x00; x00; x01; xff])) ex_subscriber =
      (Raise UnicodeDecodeError, s') /\ world s' = [(2%nat, [255])].
Proof.
  apply (qt_bad_text_raises ex_slot ex_slot_a ex_subscriber _ [xff]
    (MAGIC ++ [x00; x00; x00; x01; xff])); try reflexivity; [discriminate|].
  by apply paper_brings.
Defined.
