(* ===== verification/QtOpenSocketResponser.v ===== *)
(** * The PyQt [OpenSocketResponser]

    Models knotlink-sdk-pyqt/knotlink-pyqt/knotlink-pyqt/OpenSocketResponser.py,
    over the interface [Qt]. There is no queue and no thread: a request is the
    emission of two signals, and the application calls [sendBack] when it likes.
    The fields [sig_receivedData] and [sig_receivedData_a] are the slots of the
    signals [receivedData] and [receivedData_a] of the class. *)

From S2P Require Export QtTcpClient.

Record responser {Q T U W : Type} := Responser {
  appID : pystr;
  openSocketID : pystr;
  sig_receivedData : list U;
  sig_receivedData_a : list U;
  KLresponser : qtcp Q T unit;
  world : W }.
Arguments responser : clear implicits.
Arguments Responser {Q T U W}.

Section responser.
Context {Q T U W : Type} `{Qt Q T}.
Implicit Types s : responser Q T U W.

Definition set_KLresponser (t : qtcp Q T unit) s : responser Q T U W :=
  Responser (appID s) (openSocketID s) (sig_receivedData s) (sig_receivedData_a s) t (world s).
Definition set_world (w : W) s : responser Q T U W :=
  Responser (appID s) (openSocketID s) (sig_receivedData s) (sig_receivedData_a s)
    (KLresponser s) w.

Variable user : U -> pystr -> pystr -> M (responser Q T U W) unit.
Variable user_a : U -> bytes -> pystr -> M (responser Q T U W) unit.

Definition dataRecv (data : bytes) : M (responser Q T U W) unit :=
  let! s_data := decode data in
  let parts := split DELIM s_data in
  match parts with
  | [key; t_data] =>
    let! t_bytes := encode t_data in
    let! slots_a := gets sig_receivedData_a in
    emit (map (fun c => user_a c t_bytes key) slots_a) >>
    let! slots := gets sig_receivedData in
    emit (map (fun c => user c t_data key) slots)
  | _ => ret tt
  end.

(** The only slot of the client is [dataRecv]. *)
Definition responser_host : QtHost Q T (responser Q T U W) unit.
Proof.
  refine {| client := KLresponser; set_client := set_KLresponser;
            on_signal _ a := match a with Data d => dataRecv d | NoArgs => ret tt end |}.
  all: by intros; try destruct s.
Defined.

#[local] Existing Instance responser_host.

Definition init : M (responser Q T U W) unit :=
  connectToServer (str_of "127.0.0.1") 6378 >>
  on_tcp (modify (fun t => set_receivedData (receivedData t ++ [tt]) t)) >>
  let! s := gets (fun s => s) in
  let s_key := appID s ++ DASH ++ openSocketID s in
  let! s_key_bytes := encode s_key in
  sendData s_key_bytes.

Definition __init__ (APPID OpenSocketID : pystr) (w : W) : outcome unit * responser Q T U W :=
  init (Responser APPID OpenSocketID [] [] QtTcpClient.__init__ w).

Definition sendBack_a (data : bytes) (questionID : pystr) : M (responser Q T U W) unit :=
  let! d := decode data in
  let data_r := questionID ++ DELIM ++ d in
  let! bs := encode data_r in
  sendData bs.

Definition sendBack (data questionID : pystr) : M (responser Q T U W) unit :=
  let! bs := encode data in
  sendBack_a bs questionID.

(** ** Lemmas *)

Lemma qt_sendBack_eq data key s :
  sendBack data key s =
    match utf8_encode (key ++ DELIM), utf8_encode data with
    | Some k, Some r => sendData (k ++ r) s
    | _, _ => (Raise UnicodeEncodeError, s)
    end.
Proof.
  unfold sendBack, sendBack_a, encode, decode. step.
  destruct (utf8_encode data) as [r|] eqn:Er; [|by destruct (utf8_encode (key ++ DELIM))].
  rewrite (utf8_decode_encode _ _ Er). rewrite app_assoc, (utf8_encode_app (key ++ DELIM)), Er.
  by destruct (utf8_encode (key ++ DELIM)).
Qed.

End responser.

(** ** Applications whose slots only act on the application *)

Section quiet.
Context {Q T U W : Type} `{QtLaws Q T}.
Context (app : U -> pystr -> pystr -> W -> W) (app_a : U -> bytes -> pystr -> W -> W).
Implicit Types s : responser Q T U W.

Definition quiet_user (c : U) (text key : pystr) : M (responser Q T U W) unit :=
  modify (fun s => set_world (app c text key (world s)) s).
Definition quiet_user_a (c : U) (d : bytes) (key : pystr) : M (responser Q T U W) unit :=
  modify (fun s => set_world (app_a c d key (world s)) s).

Definition quiet_host : QtHost Q T (responser Q T U W) unit :=
  responser_host quiet_user quiet_user_a.

(** What the application has become when the slots were called for a request. *)
Definition world_after (slots slots_a : list U) (d : bytes) (text key : pystr) (w : W) : W :=
  fold_left (fun w c => app c text key w) slots
    (fold_left (fun w c => app_a c d key w) slots_a w).

(** The request a text holds. *)
Definition request_of (text : pystr) : option (pystr * pystr) :=
  match split DELIM text with [key; t] => Some (t, key) | _ => None end.

(** Slots that only act on the application. *)
Lemma request_emit_world {C} (f : C -> W -> W) cs s :
  emit (map (fun c => modify (fun s => set_world (f c (world s)) s)) cs) s =
    (Ret tt, set_world (fold_left (fun w c => f c w) cs (world s)) s).
Proof. by apply emit_on_part; [intros []| |]. Qed.

Lemma request_dataRecv_quiet d s :
  dataRecv quiet_user quiet_user_a d s =
    match utf8_decode d with
    | None => (Raise UnicodeDecodeError, s)
    | Some s_data =>
      match request_of s_data with
      | Some (t, key) =>
        match utf8_encode t with
        | Some bs =>
          (Ret tt, set_world (world_after (sig_receivedData s) (sig_receivedData_a s)
                     bs t key (world s)) s)
        | None => (Raise UnicodeEncodeError, s)
        end
      | None => (Ret tt, s)
      end
    end.
Proof.
  unfold dataRecv, decode, request_of, encode. step.
  destruct (utf8_decode d) as [text|]; [|done].
  destruct (split DELIM text) as [|key [|t [|? ?]]]; try done.
  destruct (utf8_encode t) as [bs|]; [|done].
  unfold quiet_user_a. rewrite (request_emit_world (fun c => app_a c bs key)). simpl.
  unfold quiet_user. by rewrite (request_emit_world (fun c => app c t key)).
Qed.

(** The requests on which the slots return. *)
Definition fine_request (d : bytes) : Prop :=
  match utf8_decode d with
  | None => False
  | Some s_data =>
    match request_of s_data with
    | Some (t, key) => is_Some (utf8_encode t)
    | None => True
    end
  end.

Definition deliver_request (d : bytes) s : responser Q T U W :=
  match utf8_decode d with
  | None => s
  | Some s_data =>
    match request_of s_data with
    | Some (t, key) =>
      match utf8_encode t with
      | Some bs =>
        set_world (world_after (sig_receivedData s) (sig_receivedData_a s) bs t key (world s)) s
      | None => s
      end
    | None => s
    end
  end.

Lemma deliver_request_world d s :
  deliver_request d s = set_world (world (deliver_request d s)) s.
Proof.
  unfold deliver_request. destruct s, (utf8_decode d) as [x|]; [|done].
  destruct (request_of x) as [[t key]|]; [|done]. by destruct (utf8_encode t).
Qed.

Definition responser_quiet : @QuietQt Q T (responser Q T U W) unit quiet_host.
Proof.
  refine (@Build_QuietQt Q T _ _ quiet_host fine_request
    (fun _ a s => match a with Data d => deliver_request d s | NoArgs => s end) _ _ _).
  - intros h [|d] s Hd; [done|]. revert Hd. simpl. rewrite request_dataRecv_quiet.
    unfold fine_request, deliver_request. destruct (utf8_decode d) as [x|]; [|done].
    destruct (request_of x) as [[t key]|]; [|done]. by intros [bs ->].
  - intros h [|d] s; [done|]. by rewrite deliver_request_world.
  - intros h [|d] t s; [done|]. unfold deliver_request. simpl.
    destruct (utf8_decode d) as [x|]; [|done].
    destruct (request_of x) as [[y key]|]; [|done]. by destruct (utf8_encode y).
Defined.

End quiet.
