(* ===== verification/QtOpenSocketQuerier.v ===== *)
(** * The PyQt [OpenSocketQuerier]

    Models knotlink-sdk-pyqt/knotlink-pyqt/knotlink-pyqt/OpenSocketQuerier.py, over
    the interface [Qt]. [query_l] runs a nested event loop; its local variables,
    which the closure [on_data_received] changes, are in the list [calls] of the
    state: for every activation of [query_l], [result] and whether [loop.quit()]
    was called. Of the two methods [__init__] of the class, the second one hides
    the first. *)

From S2P Require Export QtTcpClient.

(** The slots of the client: [dataRecv], and the closure of an activation. *)
Inductive slot := DataRecv | OnDataReceived (i : nat).

#[export] Instance slot_eq_dec : EqDecision slot.
Proof. solve_decision. Defined.

Record querier {Q T U W : Type} := Querier {
  appID : pystr;
  openSocketID : pystr;
  lock : bool;
  dataBack : list U;
  dataBack_a : list U;
  calls : list (pystr * bool);
  KLquerier : qtcp Q T slot;
  world : W }.
Arguments querier : clear implicits.
Arguments Querier {Q T U W}.

Section querier.
Context {Q T U W : Type} `{Qt Q T}.
Implicit Types s : querier Q T U W.

Definition set_KLquerier (t : qtcp Q T slot) s : querier Q T U W :=
  Querier (appID s) (openSocketID s) (lock s) (dataBack s) (dataBack_a s) (calls s) t (world s).
Definition set_lock (b : bool) s : querier Q T U W :=
  Querier (appID s) (openSocketID s) b (dataBack s) (dataBack_a s) (calls s)
    (KLquerier s) (world s).
Definition set_calls (c : list (pystr * bool)) s : querier Q T U W :=
  Querier (appID s) (openSocketID s) (lock s) (dataBack s) (dataBack_a s) c
    (KLquerier s) (world s).
Definition set_world (w : W) s : querier Q T U W :=
  Querier (appID s) (openSocketID s) (lock s) (dataBack s) (dataBack_a s) (calls s)
    (KLquerier s) w.

Definition setConfig (APPID OpenSocketID : pystr) : M (querier Q T U W) unit :=
  modify (fun s => Querier APPID OpenSocketID (lock s) (dataBack s) (dataBack_a s) (calls s)
                     (KLquerier s) (world s)).

Variable user : U -> pystr -> M (querier Q T U W) unit.
Variable user_a : U -> bytes -> M (querier Q T U W) unit.

(** ** The slots of the client *)

Definition dataRecv (data : bytes) : M (querier Q T U W) unit :=
  let! locked := gets lock in
  if locked then ret tt
  else
    let! slots_a := gets dataBack_a in
    emit (map (fun c => user_a c data) slots_a) >>
    let! received_text := decode data in
    let! slots := gets dataBack in
    emit (map (fun c => user c received_text) slots).

Definition on_data_received (i : nat) (received_data : bytes) : M (querier Q T U W) unit :=
  let! result := decode received_data in
  modify (fun s => set_calls (alter (fun c => (result, c.2)) i (calls s)) s) >>
  modify (set_lock false) >>
  modify (fun s => set_calls (alter (fun c => (c.1, true)) i (calls s)) s).

Definition querier_host : QtHost Q T (querier Q T U W) slot.
Proof.
  refine {| client := KLquerier; set_client := set_KLquerier;
            on_signal h a :=
              match a, h with
              | NoArgs, _ => ret tt
              | Data d, DataRecv => dataRecv d
              | Data d, OnDataReceived i => on_data_received i d
              end |}.
  all: by intros; try destruct s.
Defined.

#[local] Existing Instance querier_host.

(** ** The methods *)

Definition connect_slot (h : slot) : M (querier Q T U W) unit :=
  on_tcp (modify (fun t => set_receivedData (receivedData t ++ [h]) t)).

Definition disconnect_slot (h : slot) : M (querier Q T U W) unit :=
  on_tcp (modify (fun t => set_receivedData (filter (fun h' => h' <> h) (receivedData t)) t)).

Definition init : M (querier Q T U W) unit :=
  connectToServer (str_of "127.0.0.1") 6376 >>
  connect_slot DataRecv >>
  modify (set_lock false).

Definition __init__ (APPID OpenSocketID : pystr) (w : W) : outcome unit * querier Q T U W :=
  init (Querier APPID OpenSocketID false [] [] [] QtTcpClient.__init__ w).

Definition _query_a (APPID OpenSocketID : pystr) (data : bytes) : M (querier Q T U W) unit :=
  let s_key := APPID ++ DASH ++ OpenSocketID ++ DELIM in
  let! s_key_bytes := encode s_key in
  let s_data := s_key_bytes ++ data in
  sendData s_data.

Definition _query (APPID OpenSocketID data : pystr) : M (querier Q T U W) unit :=
  let! bs := encode data in
  _query_a APPID OpenSocketID bs.

Definition query (data : pystr) : M (querier Q T U W) unit :=
  let! s := gets (fun s => s) in
  let! bs := encode data in
  _query_a (appID s) (openSocketID s) bs.

Definition query_a (data : bytes) : M (querier Q T U W) unit :=
  let! s := gets (fun s => s) in
  _query_a (appID s) (openSocketID s) data.

(** Whether the loop of activation [i] was told to quit. *)
Definition quit_called (i : nat) : M (querier Q T U W) bool :=
  gets (fun s => match calls s !! i with Some c => c.2 | None => false end).

(** [events] is what the event loop gets to handle while [query_l] waits. *)
Definition query_l (data : pystr) (events : list (M (querier Q T U W) unit)) :
    M (querier Q T U W) pystr :=
  let! i := gets (fun s => length (calls s)) in
  modify (fun s => set_calls (calls s ++ [([], false)]) s) >>
  connect_slot (OnDataReceived i) >>
  query data >>
  modify (set_lock true) >>
  exec_ (quit_called i) events >>
  disconnect_slot (OnDataReceived i) >>
  gets (fun s => match calls s !! i with Some c => c.1 | None => [] end).

End querier.

(** ** Applications whose slots only act on the application *)

Section quiet.
Context {Q T U W : Type} `{QtLaws Q T}.
Context (app : U -> pystr -> W -> W) (app_a : U -> bytes -> W -> W).
Implicit Types s : querier Q T U W.

Definition quiet_user (c : U) (text : pystr) : M (querier Q T U W) unit :=
  modify (fun s => set_world (app c text (world s)) s).
Definition quiet_user_a (c : U) (d : bytes) : M (querier Q T U W) unit :=
  modify (fun s => set_world (app_a c d (world s)) s).

Definition quiet_host : QtHost Q T (querier Q T U W) slot :=
  querier_host quiet_user quiet_user_a.

(** What the application has become when the slots were called for a message. *)
Definition world_after (slots slots_a : list U) (d : bytes) (text : pystr) (w : W) : W :=
  fold_left (fun w c => app c text w) slots (fold_left (fun w c => app_a c d w) slots_a w).

Definition deliver_back (d : bytes) s : querier Q T U W :=
  match lock s, utf8_decode d with
  | false, Some text =>
    set_world (world_after (dataBack s) (dataBack_a s) d text (world s)) s
  | _, _ => s
  end.

Definition deliver_result (i : nat) (d : bytes) s : querier Q T U W :=
  match utf8_decode d with
  | Some text => set_lock false (set_calls (alter (fun _ => (text, true)) i (calls s)) s)
  | None => s
  end.

(** Slots that only act on the application. *)
Lemma reply_emit_world {C} (f : C -> W -> W) cs s :
  emit (map (fun c => modify (fun s => set_world (f c (world s)) s)) cs) s =
    (Ret tt, set_world (fold_left (fun w c => f c w) cs (world s)) s).
Proof. by apply emit_on_part; [intros []| |]. Qed.

Lemma reply_dataRecv_quiet d s :
  is_Some (utf8_decode d) ->
  dataRecv quiet_user quiet_user_a d s = (Ret tt, deliver_back d s).
Proof.
  intros [text Hd]. unfold dataRecv, deliver_back, decode. step.
  destruct (lock s); [done|]. rewrite Hd.
  unfold quiet_user_a. rewrite (reply_emit_world (fun c => app_a c d)). simpl.
  unfold quiet_user. by rewrite (reply_emit_world (fun c => app c text)).
Qed.

Lemma on_data_received_quiet i d s :
  is_Some (utf8_decode d) ->
  on_data_received i d s = (Ret tt, deliver_result i d s).
Proof.
  intros [text Hd]. unfold on_data_received, deliver_result, decode. step. rewrite Hd.
  unfold set_lock, set_calls. simpl. by rewrite list_alter_alter_eq.
Qed.

Definition querier_quiet : @QuietQt Q T (querier Q T U W) slot quiet_host.
Proof.
  refine (@Build_QuietQt Q T _ _ quiet_host (fun d => is_Some (utf8_decode d))
    (fun h a s =>
       match a, h with
       | NoArgs, _ => s
       | Data d, DataRecv => deliver_back d s
       | Data d, OnDataReceived i => deliver_result i d s
       end) _ _ _).
  - intros [|i] [|d] s Hd; [done| |done|].
    + by apply reply_dataRecv_quiet.
    + by apply on_data_received_quiet.
  - intros [|i] [|d] s; try done; unfold deliver_back, deliver_result;
      by destruct (lock s), (utf8_decode d).
  - intros [|i] [|d] t s; try done; unfold deliver_back, deliver_result; simpl;
      by destruct (lock s), (utf8_decode d).
Defined.

End quiet.

(** ** Lemmas on [query_l] *)

Section query_lemmas.
Context {Q T U W : Type} `{QtLaws Q T}.
Context (app : U -> pystr -> W -> W) (app_a : U -> bytes -> W -> W).
Implicit Types s : querier Q T U W.

#[local] Hint Extern 0 (QtHost _ _ _ _) => exact (quiet_host app app_a) : typeclass_instances.
#[local] Hint Extern 0 (QuietQt _ _ _ _) => exact (querier_quiet app app_a) : typeclass_instances.

(** The application after messages that reach the slots of [dataBack]. *)
Definition world_all (s : querier Q T U W) (ms : list bytes) (ds : list pystr) (w : W) : W :=
  fold_left (fun w p => world_after app app_a (dataBack s) (dataBack_a s) p.1 p.2 w)
    (zip ms ds) w.

(** The request a text makes. *)
Definition request s (d : pystr) : option bytes :=
  match utf8_encode d with
  | Some bs => keyed_body (Some (appID s)) (Some (openSocketID s)) bs
  | None => None
  end.

Lemma query_eq d s :
  query (quiet_user app) (quiet_user_a app_a) d s =
    match request s d with
    | Some body => sendData body s
    | None => (Raise UnicodeEncodeError, s)
    end.
Proof.
  unfold query, _query_a, request, keyed_body, encode. step.
  destruct (utf8_encode d); [|done]. simpl format. by destruct (utf8_encode _).
Qed.

(** A message while [query_l] waits, and the messages after it. *)
Lemma deliver_unlocked i ms ds s r :
  lock s = false -> calls s !! i = Some (r, true) ->
  Forall2 (fun m d => utf8_decode m = Some d) ms ds ->
  exists cs,
    deliver_all [DataRecv; OnDataReceived i] ms s =
      set_calls cs (set_world (world_all s ms ds (world s)) s) /\
    cs !! i = Some (default r (last ds), true).
Proof.
  intros Hl Hc Hms. revert s r Hl Hc.
  induction Hms as [|m d ms ds Hd _ IH]; intros s r Hl Hc.
  { exists (calls s). split; [by destruct s|done]. }
  set (s1 := set_calls (alter (fun _ => (d, true)) i (calls s))
    (set_world (world_after app app_a (dataBack s) (dataBack_a s) m d (world s)) s)).
  assert (deliver_all [DataRecv; OnDataReceived i] (m :: ms) s =
    deliver_all [DataRecv; OnDataReceived i] ms s1) as ->.
  { unfold deliver_all. cbn [fold_left]. f_equal. unfold deliver_slots. simpl.
    unfold deliver_back. rewrite Hl, Hd. unfold deliver_result. rewrite Hd.
    unfold s1, set_lock, set_calls. simpl. by rewrite Hl. }
  destruct (IH s1 d) as (cs & Hcs & Hi); [done| |].
  { unfold s1. simpl. rewrite list_lookup_alter_eq, Hc. done. }
  exists cs. rewrite Hcs. split; [done|]. rewrite Hi, last_cons. by destruct (last ds).
Qed.

Lemma deliver_locked i m d ms ds s c :
  lock s = true -> calls s !! i = Some c ->
  Forall2 (fun m d => utf8_decode m = Some d) (m :: ms) (d :: ds) ->
  exists cs,
    deliver_all [DataRecv; OnDataReceived i] (m :: ms) s =
      set_lock false (set_calls cs (set_world (world_all s ms ds (world s)) s)) /\
    cs !! i = Some (default d (last ds), true).
Proof.
  intros Hl Hc Hms. inversion Hms as [|? ? ? ? Hd Hms' E1 E2]. subst.
  set (s1 := set_lock false (set_calls (alter (fun _ => (d, true)) i (calls s)) s)).
  assert (deliver_all [DataRecv; OnDataReceived i] (m :: ms) s =
    deliver_all [DataRecv; OnDataReceived i] ms s1) as ->.
  { unfold deliver_all. cbn [fold_left]. f_equal. unfold deliver_slots. simpl.
    unfold deliver_back. rewrite Hl. unfold deliver_result. by rewrite Hd. }
  destruct (deliver_unlocked i ms ds s1 d) as (cs & Hcs & Hi); [done| |done|].
  { unfold s1. simpl. by rewrite list_lookup_alter_eq, Hc. }
  exists cs. by rewrite Hcs.
Qed.

Lemma NoArgs_ignored (h : slot) s : deliver h NoArgs s = s.
Proof. by destruct h. Qed.

(** The nested loop waits while no message is complete. *)
Lemma exec_prefix i fs chunks rest s0 s k :
  Forall2 brings fs chunks -> progress k s0 s ->
  payloads (p_msgs (parse (buffer (client s0) ++ k ++ concat chunks))) = [] ->
  quit_called i s0 = (Ret false, s0) ->
  exists s', exec_ (quit_called i) (map readyRead fs ++ rest) s = exec_ (quit_called i) rest s' /\
    progress (k ++ concat chunks) s0 s'.
Proof.
  intros Hfs. revert s k. induction Hfs as [|f c fs chunks Hf _ IH]; intros s k Hk Hnone Hq.
  { exists s. simpl. by rewrite app_nil_r. }
  cbn [concat] in Hnone. pose proof (proj2 (Forall_nil (fun _ : bytes => False)) I) as Hfalse.
  rewrite <- Hnone, app_assoc, app_assoc, payloads_step in Hfalse.
  destruct Hfalse as [Hkc _]. pose proof Hkc as Hkc'.
  rewrite payloads_step in Hkc. destruct Hkc as [Hk0 Hc].
  assert (forall l : list bytes, Forall (fun _ => False) l -> l = []) as Hnil
    by (intros [|x l] Hl; [done|by inversion Hl]).
  apply Hnil in Hk0, Hc.
  assert (quit_called i s = (Ret false, s)) as Hqs.
  { pose proof (progress_exact k s0 s NoArgs_ignored Hk) as E.
    rewrite Hk0 in E.
    unfold quit_called, gets in *. apply pair_equal_spec in Hq as [Hq _].
    rewrite E. simpl. f_equal. exact Hq. }
  cbn [map List.app]. rewrite (exec_wait _ _ _ _ Hqs).
  destruct (readyRead_progress f c s Hf) as (s1 & Hs1 & Hp1).
  { rewrite (pr_buffer _ _ _ Hk), Hc. constructor. }
  rewrite (bind_Ret _ _ _ _ _ Hs1).
  destruct (IH s1 (k ++ c)) as (s' & Hs' & Hp'); [by eapply progress_app| |done|].
  { by rewrite <- app_assoc. }
  exists s'. split; [done|]. simpl. by rewrite app_assoc.
Qed.

(** The querier when its request was handed to the socket, and the loop begins. *)
Definition waiting (x : bytes) s : querier Q T U W :=
  set_lock true (set_calls (calls s ++ [([], false)])
    (set_KLquerier
       (set_tcpSocket (write x (tcpSocket (KLquerier s))).2
          (set_receivedData (receivedData (KLquerier s) ++ [OnDataReceived (length (calls s))])
             (KLquerier s))) s)).

Lemma query_l_start d body x evs s :
  state (tcpSocket (KLquerier s)) = ConnectedState ->
  request s d = Some body -> len body <= MAX_MSG_SIZE -> frame body = Some x ->
  let i := length (calls s) in
  query_l (quiet_user app) (quiet_user_a app_a) d evs s =
    bind (exec_ (quit_called i) evs) (fun _ =>
      disconnect_slot (quiet_user app) (quiet_user_a app_a) (OnDataReceived i) >>
      gets (fun s => match calls s !! i with Some c => c.1 | None => [] end)) (waiting x s).
Proof.
  intros Hst Hbody Hlen Hx i. unfold query_l. unfold bind at 1, gets at 1.
  fold i. unfold bind at 1, modify at 1. unfold bind at 1, connect_slot at 1.
  set (s1 := set_calls _ s).
  rewrite qt_on_tcp_modify. set (s2 := set_client _ s1).
  assert (query (quiet_user app) (quiet_user_a app_a) d s2 =
    (Ret tt, set_KLquerier (set_tcpSocket (write x (tcpSocket (KLquerier s))).2
       (KLquerier s2)) s2)) as Hq.
  { rewrite query_eq. change (request s2 d) with (request s d). rewrite Hbody, sendData_eq, write_eq.
    rewrite bool_decide_true by done. rewrite Hx.
    by rewrite (proj2 (Z.leb_le (len body) MAX_MSG_SIZE)). }
  rewrite (bind_Ret _ _ _ _ _ Hq). unfold bind at 1, modify at 1. reflexivity.
Qed.

(** The nested loop until the packet that completes the first messages. *)
Lemma exec_batch i fs chunks f c evs s0 m ms d0 ds :
  Forall2 brings fs chunks -> brings f c -> buffer (KLquerier s0) = [] ->
  receivedData (KLquerier s0) = [DataRecv; OnDataReceived i] ->
  lock s0 = true -> calls s0 !! i = Some ([], false) ->
  payloads (p_msgs (parse (concat chunks))) = [] ->
  parse (concat chunks ++ c) = Parsed (m :: ms) [] None ->
  HEARTBEAT_RESPONSE ∉ m :: ms ->
  Forall2 (fun m d => utf8_decode m = Some d) (m :: ms) (d0 :: ds) ->
  exists s2 cs,
    exec_ (quit_called i) (map readyRead fs ++ readyRead f :: evs) s0 = (Ret tt, s2) /\
    s2 = set_KLquerier (KLquerier s2)
           (set_lock false (set_calls cs (set_world (world_all s0 ms ds (world s0)) s0))) /\
    cs !! i = Some (default d0 (last ds), true) /\
    progress (concat chunks ++ c) s0 s2.
Proof.
  intros Hfs Hf Hb Hsl Hl Hc Hnone Hp Hhb Hdec.
  change (KLquerier s0) with (client s0) in Hb, Hsl.
  destruct (exec_prefix i fs chunks (readyRead f :: evs) s0 s0 [] Hfs) as (s1 & He & Hp1).
  { apply progress_nil. by rewrite Hb. }
  { by rewrite Hb. }
  { unfold quit_called, gets. by rewrite Hc. }
  cbn [List.app] in Hp1. pose proof (progress_exact _ s0 s1 NoArgs_ignored Hp1) as Hs1.
  rewrite Hb in Hs1. cbn [List.app] in Hs1. rewrite Hnone in Hs1.
  assert (calls s1 = calls s0) as Hc1 by by rewrite Hs1.
  assert (Forall fine (payloads (p_msgs (parse (concat chunks ++ c))))) as Hfine.
  { rewrite Hp. cbn [p_msgs]. rewrite payloads_all by done. clear -Hdec.
    induction Hdec as [|m' d ms' ds' Hd _ IH]; constructor; [by exists d|done]. }
  rewrite payloads_step in Hfine. destruct Hfine as [_ Hfine].
  destruct (readyRead_progress f c s1 Hf) as (s2 & Hs2 & Hp2).
  { by rewrite (pr_buffer _ _ _ Hp1), Hb. }
  pose proof (progress_app _ _ _ _ _ Hp1 Hp2) as Hp02.
  pose proof (progress_exact _ s0 s2 NoArgs_ignored Hp02) as Hs2'.
  rewrite Hb, Hsl in Hs2'. cbn [List.app] in Hs2'. rewrite Hp in Hs2'. cbn [p_msgs] in Hs2'.
  rewrite payloads_all in Hs2' by done.
  destruct (deliver_locked i m d0 ms ds s0 ([], false) Hl Hc Hdec) as (cs & Hcs & Hi).
  rewrite Hcs in Hs2'. exists s2, cs. split; [|done].
  rewrite He, exec_wait by (unfold quit_called, gets; by rewrite Hc1, Hc).
  rewrite (bind_Ret _ _ _ _ _ Hs2). apply exec_quit.
  assert (calls s2 = cs) as Hc2 by by rewrite Hs2'.
  unfold quit_called, gets. by rewrite Hc2, Hi.
Qed.

End query_lemmas.

(** The whole of [query_l], when the first messages come in one packet. *)
Lemma qt_query_l_batch {Q T U W : Type} `{QtLaws Q T}
    (app : U -> pystr -> W -> W) (app_a : U -> bytes -> W -> W) (s : querier Q T U W)
    d body x fs chunks f c evs m ms d0 ds :
  receivedData (KLquerier s) = [DataRecv] -> buffer (KLquerier s) = [] ->
  state (tcpSocket (KLquerier s)) = ConnectedState ->
  request s d = Some body -> len body <= MAX_MSG_SIZE -> frame body = Some x ->
  Forall2 brings fs chunks -> brings f c ->
  payloads (p_msgs (parse (concat chunks))) = [] ->
  frames (m :: ms) = Some (concat chunks ++ c) ->
  Forall (fun m => valid_body m = true) (m :: ms) -> HEARTBEAT_RESPONSE ∉ m :: ms ->
  Forall2 (fun m d => utf8_decode m = Some d) (m :: ms) (d0 :: ds) ->
  exists s',
    query_l (quiet_user app) (quiet_user_a app_a) d
      (map (@readyRead _ _ _ _ _ (quiet_host app app_a)) fs ++
       @readyRead _ _ _ _ _ (quiet_host app app_a) f :: evs) s =
      (Ret (default d0 (last ds)), s') /\
    world s' = world_all app app_a s ms ds (world s) /\
    lock s' = false /\ receivedData (KLquerier s') = [DataRecv] /\
    buffer (KLquerier s') = [] /\
    written (tcpSocket (KLquerier s')) =
      written (tcpSocket (KLquerier s)) ++
      take (Z.to_nat (write x (tcpSocket (KLquerier s))).1) x.
Proof.
  intros Hsl Hb Hst Hbody Hlen Hx Hfs Hf Hnone Hms Hv Hhb Hdec.
  set (i := length (calls s)). set (s0 := waiting x s).
  assert (parse (concat chunks ++ c) = Parsed (m :: ms) [] None) as Hp.
  { rewrite <- (app_nil_r (_ ++ _)), (parse_frames (m :: ms)) by done.
    unfold prepend. simpl. by rewrite app_nil_r. }
  destruct (exec_batch app app_a i fs chunks f c evs s0 m ms d0 ds)
    as (s2 & cs & He & Hs2 & Hi & Hpr); try done.
  { unfold s0, waiting. simpl. by rewrite Hsl. }
  { unfold s0, waiting. simpl. by rewrite lookup_app_r, Nat.sub_diag by done. }
  rewrite (query_l_start app app_a d body x) by done. fold i. fold s0.
  rewrite (bind_Ret _ _ _ _ _ He). unfold disconnect_slot.
  rewrite (bind_Ret _ _ _ _ _ (qt_on_tcp_modify _ s2)). unfold gets.
  assert (calls s2 = cs) as Hc2 by by rewrite Hs2.
  eexists. split.
  { change (calls (set_client _ s2)) with (calls s2). rewrite Hc2, Hi. reflexivity. }
  destruct Hpr as [Hbuf Hslots Hw _ _].
  change (client s2) with (KLquerier s2) in *. change (client s0) with (KLquerier s0) in *.
  split; [by rewrite Hs2|]. split; [by rewrite Hs2|].
  cbn [client set_client quiet_host querier_host KLquerier set_KLquerier
       receivedData set_receivedData buffer tcpSocket].
  assert (receivedData (KLquerier s0) = [DataRecv; OnDataReceived i]) as Hsl0
    by (unfold s0, waiting; simpl; by rewrite Hsl).
  rewrite Hslots, Hsl0, Hbuf, Hw. change (buffer (KLquerier s0)) with (buffer (KLquerier s)).
  rewrite Hb. cbn [List.app]. rewrite Hp. split_and!; [|done|apply written_write].
  rewrite filter_cons_True by done. by rewrite filter_cons_False by auto.
Qed.

(** ** The properties *)

(** C30: What [query_l] returns. On a connected socket it hands one frame with the
    request to the socket, and runs the event loop until the packet that
    completes the first message: while it runs, nothing of a partial message
    reaches the application. The messages that are complete in the same packet
    are all handled before the loop ends: the text of the last of them is the
    result, and all but the first also reach the slots of [dataBack_a] and
    [dataBack]. Afterwards the querier is unlocked, the closure is disconnected
    and nothing is left in the buffer; later events are not handled. *)
Theorem qt_query_l_returns {Q T U W : Type} `{QtLaws Q T}
    (app : U -> pystr -> W -> W) (app_a : U -> bytes -> W -> W) (s : querier Q T U W)
    d body x fs chunks f c evs m ms d0 ds :
  receivedData (KLquerier s) = [DataRecv] -> buffer (KLquerier s) = [] ->
  state (tcpSocket (KLquerier s)) = ConnectedState ->
  request s d = Some body -> len body <= MAX_MSG_SIZE -> frame body = Some x ->
  Forall2 brings fs chunks -> brings f c ->
  payloads (p_msgs (parse (concat chunks))) = [] ->
  frames (m :: ms) = Some (concat chunks ++ c) ->
  Forall (fun m => valid_body m = true) (m :: ms) -> HEARTBEAT_RESPONSE ∉ m :: ms ->
  Forall2 (fun m d => utf8_decode m = Some d) (m :: ms) (d0 :: ds) ->
  exists s',
    query_l (quiet_user app) (quiet_user_a app_a) d
      (map (@readyRead _ _ _ _ _ (quiet_host app app_a)) fs ++
       @readyRead _ _ _ _ _ (quiet_host app app_a) f :: evs) s =
      (Ret (default d0 (last ds)), s') /\
    world s' = world_all app app_a s ms ds (world s) /\
    lock s' = false /\ receivedData (KLquerier s') = [DataRecv] /\
    buffer (KLquerier s') = [] /\
    written (tcpSocket (KLquerier s')) =
      written (tcpSocket (KLquerier s)) ++
      take (Z.to_nat (write x (tcpSocket (KLquerier s))).1) x.
Proof. apply qt_query_l_batch. Qed.

(** ** Witnesses *)

Definition ex_slot (c : nat) (d : pystr) (w : list (nat * pystr)) : list (nat * pystr) :=
  w ++ [(c, d)].
Definition ex_slot_a (c : nat) (d : bytes) (w : list (nat * pystr)) : list (nat * pystr) :=
  w ++ [(c, map Z_of_byte d)].

Definition ex_querier : querier paper_socket bool nat (list (nat * pystr)) :=
  let s := (__init__ (quiet_user ex_slot) (quiet_user_a ex_slot_a)
              (str_of "app") (str_of "sock") []).2 in
  Querier (appID s) (openSocketID s) (lock s) [1%nat] [2%nat] (calls s) (KLquerier s) [].

Definition ex_request : bytes := bytes_of "app-sock&*&ping".

(** Two messages in one packet: the second one is the result. *)
Lemma qt_query_l_returns_witness :
  exists s',
    query_l (quiet_user ex_slot) (quiet_user_a ex_slot_a) (str_of "ping")
      (map (@readyRead _ _ _ _ _ (quiet_host ex_slot ex_slot_a)) [paper_bring [x4b]] ++
       [@readyRead _ _ _ _ _ (quiet_host ex_slot ex_slot_a)
          (paper_bring ([x4b; x00; x02; x00; x00; x00; x01; x41] ++
             MAGIC ++ [x00; x00; x00; x01; x42]))]) ex_querier =
      (Ret (str_of "B"), s') /\
    world s' = [(2%nat, [66]); (1%nat, [66])] /\ lock s' = false.
Proof.
  destruct (qt_query_l_returns ex_slot ex_slot_a ex_querier (str_of "ping") ex_request
    (MAGIC ++ [x00; x00; x00; x0f] ++ ex_request) [paper_bring [x4b]] [[x4b]]
    (paper_bring ([x4b; x00; x02; x00; x00; x00; x01; x41] ++ MAGIC ++ [x00; x00; x00; x01; x42]))
    ([x4b; x00; x02; x00; x00; x00; x01; x41] ++ MAGIC ++ [x00; x00; x00; x01; x42])
    [] [x41] [[x42]] (str_of "A") [str_of "B"]) as (s' & Hq & Hw & Hl & _);
    [reflexivity|reflexivity|reflexivity|reflexivity|vm_compute; discriminate|reflexivity
    | | |reflexivity|reflexivity| | | |].
  - repeat constructor; discriminate.
  - repeat constructor; discriminate.
  - by repeat constructor.
  - apply (bool_decide_unpack _). vm_compute. exact I.
  - by repeat constructor.
  - exists s'. split; [exact Hq|]. split; [exact Hw|exact Hl].
Defined.
