(* ===== verification/Agreement.v ===== *)
(** * The two packages of the SDK against each other

    The Python package and the PyQt package implement the same protocol twice.
    This file compares them, operation by operation: the same bytes are the same
    messages for both, the senders put the same bytes on the wire, and the two
    responsers accept the same requests but for two kinds. *)

From S2P Require Import TcpClient SignalSender OpenSocketResponser.
From S2P Require Import QtTcpClient QtSignalSender QtOpenSocketResponser.

(** ** What the comparisons are about *)

(** The Python client is connected exactly when the PyQt one is. *)
Definition connected_alike {Q T H H' : Type} `{Qt Q T} (t : tcp H) (t' : qtcp Q T H') : Prop :=
  _connected_event t = true <-> state (tcpSocket t') = ConnectedState.

(** Both sockets took the same bytes since the states [t0] and [t0']. *)
Definition sent_alike {Q T H H' : Type} `{QtLaws Q T} (t0 t : tcp H) (t0' t' : qtcp Q T H') :
    Prop :=
  exists x, wire t = wire t0 ++ x /\
    written (tcpSocket t') = written (tcpSocket t0') ++ x.

(** The key and the text of a request, cut at its first delimiter. *)
Definition key_and_text (text : pystr) : option (pystr * pystr) :=
  match find_sub DELIM text with
  | Some i => Some (take i text, drop (i + 3) text)
  | None => None
  end.

(** ** The properties *)

(** C18: The same bytes are the same messages. When both clients hold the same
    incomplete bytes and then receive the same stream, each in pieces cut in any
    way, they hand on the same messages in the same order, and the Python client
    is still connected exactly when the socket of the PyQt client is. *)
Theorem clients_agree {Q T} `{QtLaws Q T} (r : TcpClient.recorder)
    (q : QtTcpClient.recorder Q T) (fs : list (Q -> Q)) (chunks pieces : list bytes) :
  _connected_event (TcpClient.rec_client r) = true ->
  sk_phase (tcp_socket (TcpClient.rec_client r)) = Open ->
  received_data_callback (TcpClient.rec_client r) = Some tt ->
  receivedData (rec_client q) = [tt] ->
  state (tcpSocket (rec_client q)) = ConnectedState ->
  TcpClient.buffer (TcpClient.rec_client r) = buffer (rec_client q) ->
  next_frame (buffer (rec_client q)) = More ->
  Forall (fun c => c <> []) chunks -> Forall2 brings fs pieces ->
  concat chunks = concat pieces ->
  exists r' q' ms o, TcpClient.receive_data (chunk_events chunks) r = (o, r') /\
    seq_all (map readyRead fs) q = (Ret tt, q') /\
    TcpClient.rec_log r' = TcpClient.rec_log r ++ ms /\ received q' = received q ++ ms /\
    connected_alike (TcpClient.rec_client r') (rec_client q').
Proof.
  intros Hc Ho Hcb Hsl Hst Hb Hm Hne Hfs Hcat.
  destruct (readyReads_progress (H:=unit) fs pieces q q [] Hfs) as (q' & Hq' & Hp);
    [by apply progress_nil|by apply Forall_true|].
  cbn [List.app] in Hp.
  pose proof (progress_received _ q q' Hsl Hp) as Hrec. pose proof (pr_state _ _ _ Hp) as Hst'.
  simpl client in Hst'. rewrite <- Hb in Hm, Hrec, Hst'. rewrite <- Hcat in Hrec, Hst'.
  pose proof (receive_data_chunks chunks r Hne Hc Ho Hm) as Hr. simpl in Hr. revert Hr Hst'.
  destruct (p_fault _).
  - intros (x & _ & _ & Hr) Hst'. eexists _, q', _, _. split; [exact Hr|].
    split; [done|]. rewrite Hcb, deliver_all_log. split; [done|]. split; [exact Hrec|]. done.
  - intros Hr Hst'. eexists _, q', _, _. split; [exact Hr|].
    split; [done|]. rewrite Hcb, deliver_all_log. split; [done|]. split; [exact Hrec|].
    unfold connected_alike. simpl. by rewrite Hst', Hc.
Qed.

(** C29: Which requests the two responsers accept. For every message that is UTF-8,
    the PyQt responser hands on exactly the text and the key the Python one
    queues, but for two kinds of messages: a text that holds the delimiter once
    more is accepted by the Python responser only, and an empty text by the PyQt
    responser only. A message without a delimiter is dropped by both. *)
Theorem responsers_agree {Q T U W U' W' : Type} `{QtLaws Q T}
    (app : U -> pystr -> pystr -> W -> W) (app_a : U -> bytes -> pystr -> W -> W)
    (s : OpenSocketResponser.responser U' W') (q : QtOpenSocketResponser.responser Q T U W)
    (text : pystr) (data : bytes) :
  utf8_encode text = Some data ->
  let python := OpenSocketResponser._internal_data_recv data s in
  let pyqt := dataRecv (quiet_user app) (quiet_user_a app_a) data q in
  match key_and_text text with
  | None => python = (Ret tt, s) /\ pyqt = (Ret tt, q)
  | Some (key, t) =>
    python =
      (if bool_decide (t = []) then (Ret tt, s)
       else (Ret tt, set_queue (data_queue s ++ [(t, key)]) (S (unfinished_tasks s)) s)) /\
    exists tb, utf8_encode t = Some tb /\
      pyqt =
        match find_sub DELIM t with
        | Some _ => (Ret tt, q)
        | None =>
          (Ret tt, set_world (world_after app app_a (sig_receivedData q) (sig_receivedData_a q)
                     tb t key (world q)) q)
        end
  end.
Proof.
  intros Ht. cbv zeta.
  rewrite internal_data_recv_eq, (accept_text text data Ht), request_dataRecv_quiet.
  rewrite (utf8_decode_encode _ _ Ht). unfold request_of, key_and_text.
  pose proof (cut_text text data Ht) as Hc.
  destruct (find_sub DELIM text) as [i|] eqn:Ei.
  - destruct Hc as (kb & tb & _ & _ & Htb). split; [by case_bool_decide|].
    exists tb. split; [done|]. rewrite split_unfold, Ei by done.
    change (length DELIM) with 3%nat. rewrite split_unfold by done.
    destruct (find_sub DELIM (drop (i + 3) text)); [|by rewrite Htb].
    rewrite split_unfold by done. by destruct (find_sub DELIM (drop (_ + _) (drop _ _))).
  - rewrite split_unfold, Ei by done. done.
Qed.

(** The senders put the same bytes on the wire. On connections that take
    everything, and with the same identifiers, [emitt] of a text does the same in
    both packages: a text that cannot be encoded raises [UnicodeEncodeError] and
    sends nothing, any other one sends the same frame. Only a message over 16 MiB
    differs: Python raises [ValueError], PyQt drops it silently. *)
Theorem senders_agree {Q T} `{QtLaws Q T} (s : SignalSender.sender)
    (q : QtSignalSender.sender Q T) (d : pystr) :
  live (SignalSender.KLsender s) -> state (tcpSocket (KLsender q)) = ConnectedState ->
  (forall x (k : Q), state k = ConnectedState -> (write x k).1 = len x) ->
  SignalSender.appID s = QtSignalSender.appID q -> SignalSender.signalID s = signalID q ->
  exists o s' q', SignalSender.emitt (SignalSender.PyStr d) s = (o, s') /\
    match o with
    | Ret _ =>
      emitt (PyStr d) q = (Ret tt, q') /\
      sent_alike (SignalSender.KLsender s) (SignalSender.KLsender s') (KLsender q) (KLsender q')
    | Raise e =>
      s' = s /\ q' = q /\
      (e = UnicodeEncodeError /\ emitt (PyStr d) q = (Raise UnicodeEncodeError, q) \/
       e = ValueError /\ emitt (PyStr d) q = (Ret tt, q))
    | Stuck => False
    end.
Proof.
  intros Hl Hst Hall Ha Hi.
  rewrite SignalSender.emitt_str, (qt_emitt_str d q).
  destruct (utf8_encode d) as [bs|]; [|exists (Raise UnicodeEncodeError), s, q; by eauto 6].
  rewrite emitt_bytes, Ha, Hi.
  destruct (keyed_body (QtSignalSender.appID q) (signalID q) bs) as [body|];
    [|exists (Raise UnicodeEncodeError), s, q; by eauto 6].
  unfold on_sender, zoom.
  destruct (Z.ltb_spec MAX_MSG_SIZE (len body)) as [Hlt|Hle].
  - rewrite send_data_too_long by (done || apply Hl).
    exists (Raise ValueError), s, q. split; [by destruct s|].
    split; [done|]. split; [done|]. right. split; [done|].
    rewrite sendData_eq, write_eq. rewrite bool_decide_true by done.
    rewrite (proj2 (Z.leb_gt (len body) MAX_MSG_SIZE)) by done. by destruct (frame body).
  - destruct (frame_is_Some body Hle) as [x Hx]. rewrite (send_data_frame _ body x) by done.
    eexists _, _, _. split; [done|]. split; [by rewrite sendData_eq|]. exists x. split; [done|].
    rewrite write_eq. rewrite bool_decide_true by done.
    rewrite Hx, (proj2 (Z.leb_le (len body) MAX_MSG_SIZE)) by done.
    simpl. by rewrite take_all_written by auto.
Qed.

(** ** Witnesses *)

Lemma clients_agree_witness :
  exists r' q' ms o,
    TcpClient.receive_data (chunk_events [MAGIC ++ [x00; x00; x00; x01; x41]])
      TcpClient.ex_recorder = (o, r') /\
    seq_all (map readyRead [paper_bring MAGIC; paper_bring [x00; x00; x00; x01; x41]]) ex_qt =
      (Ret tt, q') /\
    TcpClient.rec_log r' = TcpClient.rec_log TcpClient.ex_recorder ++ ms /\
    received q' = received ex_qt ++ ms /\
    connected_alike (TcpClient.rec_client r') (rec_client q').
Proof.
  apply (clients_agree TcpClient.ex_recorder ex_qt
    [paper_bring MAGIC; paper_bring [x00; x00; x00; x01; x41]]
    [MAGIC ++ [x00; x00; x00; x01; x41]] [MAGIC; [x00; x00; x00; x01; x41]]);
    [reflexivity..| | |reflexivity].
  - by repeat constructor.
  - repeat constructor; discriminate.
Defined.

Definition ex_responser_qt : responser paper_socket bool unit nat :=
  Responser (str_of "app") (str_of "sock") [tt] [] QtTcpClient.__init__ 0%nat.

Lemma responsers_agree_witness :
  OpenSocketResponser._internal_data_recv (bytes_of "7&*&") OpenSocketResponser.ex_responser =
    (Ret tt, OpenSocketResponser.ex_responser) /\
  exists tb, utf8_encode [] = Some tb /\
    dataRecv (quiet_user (fun _ _ _ w => S w)) (quiet_user_a (fun _ _ _ w => w))
      (bytes_of "7&*&") ex_responser_qt = (Ret tt, set_world 1%nat ex_responser_qt).
Proof.
  apply (responsers_agree (fun _ _ _ w => S w) (fun _ _ _ w => w)
    OpenSocketResponser.ex_responser ex_responser_qt (str_of "7&*&") (bytes_of "7&*&")).
  reflexivity.
Defined.

Definition ex_sender_qt : sender paper_socket bool :=
  (setConfig (Some (str_of "app.knotlinksdk.test")) (Some (str_of "test_signal"))
     (QtSignalSender.__init__ None None).2).2.

Lemma senders_agree_witness :
  exists o s' q', SignalSender.emitt (SignalSender.PyStr (str_of "Hi")) ex_sender = (o, s') /\
    match o with
    | Ret _ =>
      emitt (PyStr (str_of "Hi")) ex_sender_qt = (Ret tt, q') /\
      sent_alike (SignalSender.KLsender ex_sender) (SignalSender.KLsender s')
        (KLsender ex_sender_qt) (KLsender q')
    | Raise e =>
      s' = ex_sender /\ q' = ex_sender_qt /\
      (e = UnicodeEncodeError /\
         emitt (PyStr (str_of "Hi")) ex_sender_qt = (Raise UnicodeEncodeError, ex_sender_qt) \/
       e = ValueError /\ emitt (PyStr (str_of "Hi")) ex_sender_qt = (Ret tt, ex_sender_qt))
    | Stuck => False
    end.
Proof.
  apply (senders_agree ex_sender ex_sender_qt (str_of "Hi")); [by split_and!|reflexivity..].
Defined.
