(* ===== verification/TcpStatements.v ===== *)
(** * The statements of a Python [TcpClient]

    TcpClient.v runs every method of
    knotlink-sdk-python/knotlink/knotlink/tcpclient.py in one piece. Here all the
    methods are cut into the accesses to the shared object between which another
    thread can run: [connect_to_server], [send_data] and [disconnect] in the
    threads of the application, [send_heart_beat] in the threads of the timers,
    [receive_data] and [_process_buffer] in the receive thread. A thread is the
    statement it runs next; line numbers are those of tcpclient.py. TcpThreads.v
    proves what holds under every interleaving. *)

From S2P Require Export Threads Socket.

(** ** What the threads share *)

(** The timers of the client. A timer is [live] when it was started and has
    neither fired nor been cancelled; [once] are those that were ever started. *)
Record heart := Heart {
  heart_beat_timer : option nat;
  live : list nat;
  cancelled : list nat;
  once : list nat;
  next : nat }.

(** [threading.Timer(...)], stored in [heart_beat_timer] *)
Definition create (h : heart) : heart :=
  Heart (Some (next h)) (live h) (cancelled h) (once h) (S (next h)).

(** [start()] of timer [i]; a timer that was cancelled before it was started ends
    at once. *)
Definition start (i : nat) (h : heart) : heart :=
  Heart (heart_beat_timer h)
    (if bool_decide (i ∈ cancelled h) then live h else i :: live h)
    (cancelled h) (i :: once h) (next h).

(** Timer [i] has fired. *)
Definition quench (i : nat) (h : heart) : heart :=
  Heart (heart_beat_timer h) (filter (fun j => j <> i) (live h)) (cancelled h) (once h) (next h).

(** [cancel()] of timer [i] *)
Definition cancel (i : nat) (h : heart) : heart :=
  Heart (heart_beat_timer h) (filter (fun j => j <> i) (live h)) (i :: cancelled h) (once h)
    (next h).

(** [heart_beat_timer = None] *)
Definition forget (h : heart) : heart :=
  Heart None (live h) (cancelled h) (once h) (next h).

(** The receiving side. [received] are all the bytes [recv] has returned,
    [extracted] the messages that were taken from the buffer, [missed] those that
    came when no callback was installed, [called] those the callback was called
    with: the history of the attributes above them. *)
Record inbox := Inbox {
  lock : bool;
  buffer : bytes;
  callback : bool;
  received : bytes;
  extracted : list bytes;
  missed : list bytes;
  called : list bytes }.

Definition set_lock (x : bool) (r : inbox) : inbox :=
  Inbox x (buffer r) (callback r) (received r) (extracted r) (missed r) (called r).
Definition recv_returns (c : bytes) (r : inbox) : inbox :=
  Inbox (lock r) (buffer r) (callback r) (received r ++ c) (extracted r) (missed r) (called r).
Definition append (c : bytes) (r : inbox) : inbox :=
  Inbox (lock r) (buffer r ++ c) (callback r) (received r) (extracted r) (missed r) (called r).
Definition extract (m rest : bytes) (r : inbox) : inbox :=
  Inbox (lock r) rest (callback r) (received r) (extracted r ++ [m]) (missed r) (called r).
Definition install (r : inbox) : inbox :=
  Inbox (lock r) (buffer r) true (received r) (extracted r) (missed r) (called r).
Definition miss (m : bytes) (r : inbox) : inbox :=
  Inbox (lock r) (buffer r) (callback r) (received r) (extracted r) (missed r ++ [m]) (called r).
Definition call_back (m : bytes) (r : inbox) : inbox :=
  Inbox (lock r) (buffer r) (callback r) (received r) (extracted r) (missed r) (called r ++ [m]).

Record shared := Shared {
  connected : bool;
  sock : phase;
  wire : bytes;
  hearts : heart;
  reading : inbox }.

Definition set_connected (x : bool) (s : shared) : shared :=
  Shared x (sock s) (wire s) (hearts s) (reading s).
Definition set_sock (x : phase) (s : shared) : shared :=
  Shared (connected s) x (wire s) (hearts s) (reading s).
Definition set_wire (x : bytes) (s : shared) : shared :=
  Shared (connected s) (sock s) x (hearts s) (reading s).
Definition on_heart (f : heart -> heart) (s : shared) : shared :=
  Shared (connected s) (sock s) (wire s) (f (hearts s)) (reading s).
Definition on_inbox (f : inbox -> inbox) (s : shared) : shared :=
  Shared (connected s) (sock s) (wire s) (hearts s) (f (reading s)).

Definition acquire : shared -> shared := on_inbox (set_lock true).
Definition release : shared -> shared := on_inbox (set_lock false).

(** [__init__] *)
Definition fresh : shared :=
  Shared false Fresh [] (Heart None [] [] [] 0) (Inbox false [] false [] [] [] []).

(** ** The threads *)

(** What the application does with a client: it calls its methods, and it sets
    [received_data_callback]. *)
Inductive op := Connect | Install | Send (data : bytes) | Disconnect.

(** Who called [_write_with_length_prefix] or [start_heart_beat]: the thread of a
    timer, or a thread of the application, which has more to do. *)
Inductive caller := From_heart_beat | From_call (todo : list op).

(** Where a thread is: the statement it runs next. *)
Inductive thread :=
| C_connect (todo : list op)                  (* 43: self.tcp_socket.connect *)
| C_flag (todo : list op)                     (* 44: self.connected = True *)
| C_thread (todo : list op)                   (* 47: Thread(...).start() *)
| O_install (todo : list op)                  (* received_data_callback = ... *)
| Hb_test                                     (* 80: if self.connected *)
| W_test (k : caller) (data : bytes)          (* 61: if not self.connected *)
| W_send (k : caller) (rest : bytes)          (* 69: sendall, rest still to send *)
| W_error (k : caller)                        (* 72: self.connected = False *)
| Hb_rearm (k : caller)                       (* 52: if not self.connected *)
| Hb_create (k : caller)                      (* 54: self.heart_beat_timer = Timer *)
| Hb_daemon (k : caller)                      (* 55: self.heart_beat_timer.daemon = *)
| Hb_start (k : caller)                       (* 56: self.heart_beat_timer.start() *)
| R_test                                      (* 90: while self.connected *)
| R_recv                                      (* 92: self.tcp_socket.recv is called *)
| R_blocked                                   (* 92: and waits *)
| R_chunk (chunk : bytes)                     (* 93: if not chunk *)
| R_lost                                      (* 95: self.connected = False *)
| R_lock (chunk : bytes)                      (* 97: with self.lock *)
| R_append (chunk : bytes)                    (* 98: self.buffer += chunk *)
| R_except                                    (* 101: if not self.connected *)
| R_error                                     (* 104: self.connected = False *)
| P_lock                                      (* 112: with self.lock *)
| P_parse                                     (* 113-117, 122-123, 128-132 *)
| P_fault                                     (* 118, 125: self.connected = False *)
| P_close                                     (* 119, 126: self.tcp_socket.close() *)
| P_msg (msg : bytes)                         (* 134: if msg == b"heartbeat_response" *)
| P_handle (msg : bytes)                      (* 143: if self.received_data_callback *)
| P_call (msg : bytes)                        (* 144: self.received_data_callback(data) *)
| D_flag (todo : list op)                     (* 148: self.connected = False *)
| D_test (todo : list op)                     (* 150: if self.heart_beat_timer *)
| D_cancel (todo : list op)                   (* 151: self.heart_beat_timer.cancel() *)
| D_clear (todo : list op)                    (* 152: self.heart_beat_timer = None *)
| D_close (todo : list op).                   (* 155: self.tcp_socket.close() *)

(** The threads that a list of calls is: one, or none when it is over. *)
Definition begin (todo : list op) : list thread :=
  match todo with
  | [] => []
  | Connect :: todo => [C_connect todo]
  | Install :: todo => [O_install todo]
  | Send data :: todo => [W_test (From_call todo) data]
  | Disconnect :: todo => [D_flag todo]
  end.

(** What the thread does after [_write_with_length_prefix]. *)
Definition after_write (k : caller) : list thread :=
  match k with From_heart_beat => [Hb_rearm From_heart_beat] | From_call todo => begin todo end.

(** What the thread does after [start_heart_beat]. *)
Definition after_beat (k : caller) : list thread :=
  match k with From_heart_beat => [] | From_call todo => [C_thread todo] end.

(** One turn of the loop of [_process_buffer], as far as it only reads the
    buffer. *)
Inductive block :=
| Break
| Bad
| Got (msg rest : bytes)
| Struct_error.

Definition parse_block (buf : bytes) : block :=
  if len buf <? HEADER_LEN then Break
  else if negb (bool_decide (slice 0 MAGIC_LEN buf = MAGIC)) then Bad
  else
    match unpack_I (slice MAGIC_LEN HEADER_LEN buf) with
    | Some length =>
      if (length =? 0) || (MAX_MSG_SIZE <? length) then Bad
      else if len buf <? HEADER_LEN + length then Break
      else Got (slice HEADER_LEN (HEADER_LEN + length) buf)
             (slice_from (HEADER_LEN + length) buf)
    | None => Struct_error
    end.

Definition RECV_SIZE : Z := 4096.

(** ** The statements *)

Section steps.
(** How much of its data one [send] inside [sendall] may take. *)
Variable takes : bytes -> nat -> Prop.

(** One statement of a thread: what the thread does next, with the threads it
    starts; no thread is its end, by return or by an exception. *)
Inductive statement : thread -> shared -> list thread -> shared -> Prop :=
(* connect_to_server *)
| st_c_connect todo s :
    sock s = Fresh -> statement (C_connect todo) s [C_flag todo] (set_sock Open s)
| st_c_connect_fails todo s : statement (C_connect todo) s (begin todo) s
| st_c_flag todo s :
    statement (C_flag todo) s [Hb_rearm (From_call todo)] (set_connected true s)
| st_c_thread todo s : statement (C_thread todo) s (R_test :: begin todo) s
| st_o_install todo s : statement (O_install todo) s (begin todo) (on_inbox install s)
(* send_heart_beat *)
| st_hb_test s :
    statement Hb_test s (if connected s then [W_test From_heart_beat HEARTBEAT] else []) s
(* _write_with_length_prefix *)
| st_w_test k data x s :
    connected s = true -> len data <= MAX_MSG_SIZE -> frame data = Some x ->
    statement (W_test k data) s [W_send k x] s
| st_w_test_off k data s :
    connected s = false -> statement (W_test k data) s (after_write k) s
| st_w_test_long k data s :
    connected s = true -> MAX_MSG_SIZE < len data -> statement (W_test k data) s [] s
| st_w_send k rest n s :
    sock s = Open -> rest <> [] -> takes rest n ->
    statement (W_send k rest) s [W_send k (drop n rest)] (set_wire (wire s ++ take n rest) s)
| st_w_done k s : statement (W_send k []) s (after_write k) s
| st_w_fail k rest s : rest <> [] -> statement (W_send k rest) s [W_error k] s
| st_w_error k s : statement (W_error k) s (after_write k) (set_connected false s)
(* start_heart_beat *)
| st_hb_rearm k s :
    statement (Hb_rearm k) s (if connected s then [Hb_create k] else after_beat k) s
| st_hb_create k s : statement (Hb_create k) s [Hb_daemon k] (on_heart create s)
| st_hb_daemon k s :
    statement (Hb_daemon k) s
      (match heart_beat_timer (hearts s) with
       | Some i => if bool_decide (i ∈ once (hearts s)) then [] else [Hb_start k]
       | None => []
       end) s
| st_hb_start k i s :
    heart_beat_timer (hearts s) = Some i -> i ∉ once (hearts s) ->
    statement (Hb_start k) s (after_beat k) (on_heart (start i) s)
| st_hb_start_raises k s :
    match heart_beat_timer (hearts s) with Some i => i ∈ once (hearts s) | None => True end ->
    statement (Hb_start k) s [] s
(* receive_data *)
| st_r_test s : statement R_test s (if connected s then [R_recv] else []) s
| st_r_recv s :
    statement R_recv s (if bool_decide (sock s = Open) then [R_blocked] else [R_except]) s
| st_r_blocked chunk s :
    len chunk <= RECV_SIZE -> statement R_blocked s [R_chunk chunk] (on_inbox (recv_returns chunk) s)
| st_r_blocked_raises s : statement R_blocked s [R_except] s
| st_r_chunk chunk s :
    statement (R_chunk chunk) s (if bool_decide (chunk = []) then [R_lost] else [R_lock chunk]) s
| st_r_lost s : statement R_lost s [] (set_connected false s)
| st_r_lock chunk s :
    lock (reading s) = false -> statement (R_lock chunk) s [R_append chunk] (acquire s)
| st_r_append chunk s :
    statement (R_append chunk) s [P_lock] (release (on_inbox (append chunk) s))
| st_r_except s : statement R_except s (if connected s then [R_error] else []) s
| st_r_error s : statement R_error s [] (set_connected false s)
(* _process_buffer *)
| st_p_lock s : lock (reading s) = false -> statement P_lock s [P_parse] (acquire s)
| st_p_break s :
    parse_block (buffer (reading s)) = Break -> statement P_parse s [R_test] (release s)
| st_p_bad s : parse_block (buffer (reading s)) = Bad -> statement P_parse s [P_fault] s
| st_p_got m rest s :
    parse_block (buffer (reading s)) = Got m rest ->
    statement P_parse s [P_msg m] (release (on_inbox (extract m rest) s))
| st_p_struct s :
    parse_block (buffer (reading s)) = Struct_error -> statement P_parse s [] (release s)
| st_p_fault s : statement P_fault s [P_close] (set_connected false s)
| st_p_close s : statement P_close s [R_test] (release (set_sock Closed s))
| st_p_msg m s :
    statement (P_msg m) s
      (if bool_decide (m = HEARTBEAT_RESPONSE) then [P_lock] else [P_handle m]) s
| st_p_handle m s :
    statement (P_handle m) s (if callback (reading s) then [P_call m] else [P_lock])
      (if callback (reading s) then s else on_inbox (miss m) s)
(* the callback returns, raises an error that receive_data catches, or another one *)
| st_p_call m ts s :
    ts = [P_lock] \/ ts = [R_except] \/ ts = [] ->
    statement (P_call m) s ts (on_inbox (call_back m) s)
(* disconnect *)
| st_d_flag todo s : statement (D_flag todo) s [D_test todo] (set_connected false s)
| st_d_test todo s :
    statement (D_test todo) s
      (match heart_beat_timer (hearts s) with
       | Some _ => [D_cancel todo] | None => [D_close todo] end) s
| st_d_cancel todo i s :
    heart_beat_timer (hearts s) = Some i ->
    statement (D_cancel todo) s [D_clear todo] (on_heart (cancel i) s)
| st_d_cancel_raises todo s :
    heart_beat_timer (hearts s) = None -> statement (D_cancel todo) s [] s
| st_d_clear todo s : statement (D_clear todo) s [D_close todo] (on_heart forget s)
| st_d_close todo s : statement (D_close todo) s (begin todo) (set_sock Closed s).

(** The whole: a thread runs, a live timer fires, or the application calls
    methods, also from the callback. *)
Inductive step : shared * list thread -> shared * list thread -> Prop :=
| step_run c c' : run statement c c' -> step c c'
| step_fire i s ts : i ∈ live (hearts s) -> step (s, ts) (on_heart (quench i) s, Hb_test :: ts)
| step_call todo s ts : step (s, ts) (s, begin todo ++ ts).

End steps.

(** [send] takes at least one byte, or all of them. *)
Definition some_bytes (rest : bytes) (n : nat) : Prop := (0 < n <= length rest)%nat.
Definition all_bytes (rest : bytes) (n : nat) : Prop := n = length rest.

(** ** Observers *)

(** The threads that carry the heartbeat on, or are going to start it. *)
Definition heart_token (t : thread) : nat :=
  match t with
  | C_flag _ | Hb_test | Hb_rearm _ | Hb_create _ | Hb_daemon _ | Hb_start _ => 1
  | W_test From_heart_beat _ | W_send From_heart_beat _ | W_error From_heart_beat => 1
  | _ => 0
  end.

(** The threads that are about to connect the client or to start a timer. *)
Definition arming (t : thread) : bool :=
  match t with C_flag _ | Hb_create _ | Hb_daemon _ | Hb_start _ => true | _ => false end.

(** The receive thread. *)
Definition reads (t : thread) : bool :=
  match t with
  | R_test | R_recv | R_blocked | R_chunk _ | R_lost | R_lock _ | R_append _ | R_except | R_error
  | P_lock | P_parse | P_fault | P_close | P_msg _ | P_handle _ | P_call _ => true
  | _ => false
  end.

(** The receive thread, and the threads that are going to start one. *)
Definition reader_token (t : thread) : nat :=
  match t with
  | C_flag _ | C_thread _ => 1
  | Hb_rearm (From_call _) | Hb_create (From_call _) | Hb_daemon (From_call _)
  | Hb_start (From_call _) => 1
  | t => if reads t then 1 else 0
  end.

(** The threads inside a block of [with self.lock]. *)
Definition critical (t : thread) : nat :=
  match t with R_append _ | P_parse | P_fault | P_close => 1 | _ => 0 end.

(** The receive thread between two messages: it waits for more bytes, or it is
    about to. *)
Definition waits (t : thread) : bool :=
  match t with R_test | R_recv | R_blocked => true | _ => false end.

(** The bytes and the message the receive thread holds in its hands. *)
Definition hand (t : thread) : bytes :=
  match t with R_chunk c | R_lock c | R_append c => c | _ => [] end.

Definition pending (t : thread) : list bytes :=
  match t with P_msg m => payloads [m] | P_handle m | P_call m => [m] | _ => [] end.

(** A thread that sends has a whole frame to send, or nothing. *)
Definition whole_thread (t : thread) : Prop :=
  match t with
  | W_send _ rest => rest = [] \/ exists b, len b <= MAX_MSG_SIZE /\ frame b = Some rest
  | _ => True
  end.

(** A socket that has not been connected stands for one more token. *)
Definition unconnected (s : shared) : nat := if bool_decide (sock s = Fresh) then 1 else 0.

(** ** Lemmas on single statements *)

Lemma parse_block_spec buf :
  parse_block buf =
    match next_frame buf with
    | More => Break
    | Fault _ => Bad
    | Message m rest => Got m rest
    end.
Proof. exact (header_tests Break Bad Struct_error Got buf). Qed.

(** What starts to run is no token of anything. *)
Lemma begin_cases (P : list thread -> Prop) todo :
  P [] ->
  (forall t, heart_token t = 0%nat -> reader_token t = 0%nat -> critical t = 0%nat ->
     arming t = false -> reads t = false -> whole_thread t -> P [t]) ->
  P (begin todo).
Proof. intros H0 H. destruct todo as [|[] todo]; simpl; [done|by apply H..]. Qed.

(** [statement_cases] goes through the statements, with every test of a statement
    decided and every list of calls begun. *)
Ltac statement_cases Hs :=
  destruct Hs; simpl in *;
  repeat match goal with
    | H : _ \/ _ |- _ => destruct H
    | k : caller |- _ => destruct k
    end;
  repeat case_match; repeat case_bool_decide; simplify_eq/=;
  try match goal with
    | |- context [begin ?todo] => pattern (begin todo); apply begin_cases; [|intros ???????]; simpl in *
    end.

Section statements.
Context (takes : bytes -> nat -> Prop).

Lemma statement_heart t s new s' :
  statement takes t s new s' ->
  (unconnected s' + length (live (hearts s')) + sum_list_with heart_token new
   <= unconnected s + length (live (hearts s)) + heart_token t)%nat.
Proof.
  intros Hs. unfold unconnected. statement_cases Hs; try congruence; try lia.
  all: pose proof (length_filter (fun j => j <> i) (live (hearts s))); lia.
Qed.

Lemma statement_reader t s new s' :
  statement takes t s new s' ->
  (unconnected s' + sum_list_with reader_token new <= unconnected s + reader_token t)%nat.
Proof. intros Hs. unfold unconnected. statement_cases Hs; try congruence; lia. Qed.

Definition locked (s : shared) : nat := if lock (reading s) then 1 else 0.

Lemma statement_lock t s new s' :
  statement takes t s new s' -> (critical t <= locked s)%nat ->
  (sum_list_with critical new + locked s = critical t + locked s')%nat.
Proof.
  intros Hs. unfold locked. statement_cases Hs; intros; simplify_eq/=; try congruence; try lia.
Qed.

Lemma statement_off t s new s' :
  statement takes t s new s' -> connected s = false -> arming t = false -> connected s' = false.
Proof. intros Hs Hc Ha. destruct Hs; try done. by case_match. Qed.

Lemma statement_arming t s new s' :
  statement takes t s new s' -> connected s = false -> sock s = Closed -> arming t = false ->
  live (hearts s') ⊆ live (hearts s) /\ Forall (fun t => arming t = false) new.
Proof.
  intros Hs Hc Hk Ha. statement_cases Hs; simplify_eq/=; try congruence;
    try (split; [|by repeat constructor]); try done.
  intros j Hj. by apply list_elem_of_filter in Hj as [_ ?].
Qed.

Lemma statement_closed t s new s' :
  statement takes t s new s' -> sock s = Closed -> sock s' = Closed /\ wire s' = wire s.
Proof. intros Hs Hc. destruct Hs; simpl; try done; try congruence. by case_match. Qed.

(** Only the receive thread touches what was received, but for the callback, and
    it starts at [R_test]. *)
Lemma statement_inbox t s new s' :
  statement takes t s new s' -> reads t = false ->
  (reading s' = reading s \/ reading s' = install (reading s)) /\
  Forall (fun t' => reads t' = true -> t' = R_test) new.
Proof.
  intros Hs Hr. split.
  - destruct Hs; simpl in *; auto; congruence.
  - statement_cases Hs; repeat constructor; simpl; congruence.
Qed.

End statements.
