(* ===== verification/TcpThreads.v ===== *)
(** * The threads of a Python [TcpClient], under every interleaving

    The statements of TcpStatements.v, run in any order by any number of threads:
    the heartbeat is a single chain of timers, frames stay whole when [sendall]
    is one step, what the receive thread hands on is what [parse] reads in the
    bytes that came, and after [disconnect] every thread ends. The theorems also
    give the runs in which things go wrong: a timer that survives [disconnect], a
    heartbeat inside a frame, a message that finds no callback. *)

From S2P Require Export TcpStatements.

(** ** Lemmas: tokens and the lock *)

Section lemmas.
Context (takes : bytes -> nat -> Prop).

Lemma run_heart c c' :
  run (statement takes) c c' ->
  (unconnected c'.1 + length (live (hearts c'.1)) + sum_list_with heart_token c'.2
   <= unconnected c.1 + length (live (hearts c.1)) + sum_list_with heart_token c.2)%nat.
Proof.
  apply (run_count _ heart_token (fun s => unconnected s + length (live (hearts s)))%nat).
  apply statement_heart.
Qed.

Lemma begin_tokens todo :
  sum_list_with heart_token (begin todo) = 0%nat /\
  sum_list_with reader_token (begin todo) = 0%nat /\
  sum_list_with critical (begin todo) = 0%nat /\
  Forall (fun t => arming t = false) (begin todo) /\
  Forall (fun t => reads t = false) (begin todo) /\
  Forall whole_thread (begin todo).
Proof. apply begin_cases; intros; simpl; split_and!; try lia; by repeat constructor. Qed.

Lemma step_heart c c' :
  step takes c c' ->
  (unconnected c'.1 + length (live (hearts c'.1)) + sum_list_with heart_token c'.2
   <= unconnected c.1 + length (live (hearts c.1)) + sum_list_with heart_token c.2)%nat.
Proof.
  intros [c1 c2 Hr|i s ts Hi|todo s ts]; [by apply run_heart| |].
  - unfold unconnected. simpl.
    pose proof (length_filter_lt (fun j => j <> i) (live (hearts s)) i Hi ltac:(auto)). lia.
  - simpl. rewrite sum_list_with_app. destruct (begin_tokens todo) as [-> _]. lia.
Qed.

Lemma step_reader c c' :
  step takes c c' ->
  (unconnected c'.1 + sum_list_with reader_token c'.2
   <= unconnected c.1 + sum_list_with reader_token c.2)%nat.
Proof.
  intros [c1 c2 Hr|i s ts Hi|todo s ts]; simpl; [|done|].
  - by apply (run_count _ reader_token unconnected _ _ (statement_reader takes)).
  - rewrite sum_list_with_app. destruct (begin_tokens todo) as (_ & -> & _). done.
Qed.

(** The lock is held exactly while a thread is in a block. *)
Definition lock_inv (c : shared * list thread) : Prop :=
  sum_list_with critical c.2 = locked c.1.

Lemma step_lock c c' : step takes c c' -> lock_inv c -> lock_inv c'.
Proof.
  unfold lock_inv. intros [c1 c2 Hr|i s ts Hi|todo s ts]; simpl; [|done|].
  - by apply (run_flag _ critical locked _ _ (statement_lock takes)).
  - rewrite sum_list_with_app. by destruct (begin_tokens todo) as (_ & _ & -> & _).
Qed.

(** ** Lemmas: after [disconnect] *)

(** Disconnected for good: nothing arms a timer or connects any more. *)
Definition over (c : shared * list thread) : Prop :=
  connected c.1 = false /\ sock c.1 = Closed /\ Forall (fun t => arming t = false) c.2.

Lemma step_over c c' :
  step takes c c' -> over c ->
  over c' /\ live (hearts c'.1) ⊆ live (hearts c.1) /\ wire c'.1 = wire c.1.
Proof.
  intros [c1 c2 [ts1 t ts2 s new s' Hs]|i s ts Hi|todo s ts] (Hc & Hk & Ha); simpl in *.
  - apply Forall_app in Ha as [Ha1 Ha2]. apply Forall_cons in Ha2 as [Ht Ha2].
    destruct (statement_arming _ _ _ _ _ Hs Hc Hk Ht) as [Hsub Hnew].
    destruct (statement_closed _ _ _ _ _ Hs Hk) as [Hk' Hw].
    split; [|done]. split_and!; [by eapply statement_off|done|].
    by repeat apply Forall_app_2.
  - split; [split_and!; [done..|by constructor]|]. split; [|done].
    intros j Hj. by apply list_elem_of_filter in Hj as [_ ?].
  - split; [split_and!; [done..|]|done].
    apply Forall_app_2; [by apply begin_tokens|done].
Qed.

Lemma step_closed c c' :
  step takes c c' -> sock c.1 = Closed -> sock c'.1 = Closed /\ wire c'.1 = wire c.1.
Proof.
  intros [c1 c2 [ts1 t ts2 s new s' Hs]|i s ts Hi|todo s ts]; simpl; try done.
  by apply (statement_closed _ _ _ _ _ Hs).
Qed.

Lemma reach_heart c :
  rtc (step takes) (fresh, []) c ->
  (unconnected c.1 + length (live (hearts c.1)) + sum_list_with heart_token c.2 <= 1)%nat.
Proof.
  intros Hr. refine (steps_inv (step takes) (fun c => _ <= 1)%nat _ _ _ Hr _); [|done].
  intros c1 c2 Hs Hle. pose proof (step_heart _ _ Hs). lia.
Qed.

Lemma reach_reader c :
  rtc (step takes) (fresh, []) c ->
  (unconnected c.1 + sum_list_with reader_token c.2 <= 1)%nat.
Proof.
  intros Hr. refine (steps_inv (step takes) (fun c => _ <= 1)%nat _ _ _ Hr _); [|done].
  intros c1 c2 Hs Hle. pose proof (step_reader _ _ Hs). lia.
Qed.

Lemma reach_lock c : rtc (step takes) (fresh, []) c -> lock_inv c.
Proof. intros Hr. by apply (steps_inv (step takes) lock_inv _ _ step_lock Hr). Qed.

End lemmas.

(** ** Lemmas: whole frames *)

Lemma statement_whole t s new s' :
  statement all_bytes t s new s' -> whole_thread t ->
  whole_frames (wire s) (wire s') /\ Forall whole_thread new.
Proof.
  intros Hs Ht. revert Ht. statement_cases Hs; intros Ht;
    try (split; [apply whole_refl|by repeat constructor]).
  1, 2: split; [apply whole_refl|]; constructor; [|constructor]; right; by exists data.
  all: unfold all_bytes in *; subst; rewrite firstn_all, drop_all;
    (split; [|by repeat constructor]);
    destruct Ht as [->|(b & Hb & Hx)]; [done|];
    exists [b], rest; simpl; rewrite Hx, app_nil_r; by repeat constructor.
Qed.

Lemma step_whole c c' :
  step all_bytes c c' -> Forall whole_thread c.2 ->
  whole_frames (wire c.1) (wire c'.1) /\ Forall whole_thread c'.2.
Proof.
  intros [c1 c2 [ts1 t ts2 s new s' Hs]|i s ts Hi|todo s ts] Hw; simpl in *.
  - apply Forall_app in Hw as [Hw1 Hw2]. apply Forall_cons in Hw2 as [Ht Hw2].
    destruct (statement_whole _ _ _ _ Hs Ht) as [Hx Hnew].
    split; [done|]. by repeat apply Forall_app_2.
  - split; [apply whole_refl|by constructor].
  - split; [apply whole_refl|]. apply Forall_app_2; [by apply begin_tokens|done].
Qed.

(** ** Runs *)

(** [run_at n c] runs the next statement of thread [n], which the rule [c] is. *)
Ltac run_at n c :=
  cbn [List.app begin after_write after_beat];
  eapply rtc_l;
  [match goal with
   | |- step ?tk (?s, ?ts) _ =>
     let t1 := eval cbv [firstn] in (firstn n ts) in
     let t2 := eval cbv [skipn] in (skipn n ts) in
     lazymatch t2 with
     | ?t :: ?t2 => apply step_run, (run_thread (statement tk) t1 t t2); by apply c
     end
   end
  |cbn [List.app begin after_write after_beat]].

Definition hb_frame : bytes := MAGIC ++ [x00; x00; x00; x09] ++ HEARTBEAT.

Definition opened : shared := set_connected true (set_sock Open fresh).

(** A client after [connect_to_server]: its receive thread is about to start. *)
Definition connected_client : shared := on_heart (start 0) (on_heart create opened).

Lemma reach_connected takes todo :
  rtc (step takes) (fresh, []) (connected_client, R_test :: begin todo).
Proof.
  eapply rtc_l; [apply (step_call takes (Connect :: todo))|]. cbn [begin List.app].
  run_at 0%nat (st_c_connect takes). run_at 0%nat (st_c_flag takes).
  run_at 0%nat (st_hb_rearm takes). cbn [connected set_connected].
  run_at 0%nat (st_hb_create takes). run_at 0%nat (st_hb_daemon takes).
  cbn [heart_beat_timer hearts on_heart create List.app].
  eapply rtc_l; [apply step_run, (run_thread (statement takes) [] _ []), (st_hb_start takes _ 0%nat);
    [done|by apply not_elem_of_nil]|].
  cbn [List.app after_beat]. eapply rtc_l; [|apply rtc_refl].
  rewrite <- (app_nil_r (R_test :: begin todo)).
  apply step_run, (run_thread (statement takes) [] (C_thread todo) [] _ (R_test :: begin todo)), st_c_thread.
Qed.

(** The timer has fired, its heartbeat was sent, and it is about to be replaced. *)
Definition rearming : shared := set_wire hb_frame (on_heart (quench 0) connected_client).

Lemma reach_rearming :
  rtc (step all_bytes) (fresh, []) (rearming, [Hb_create From_heart_beat; R_test]).
Proof.
  etrans; [apply (reach_connected _ [])|].
  eapply rtc_l; [apply (step_fire _ 0); apply list_elem_of_here|].
  run_at 0%nat (st_hb_test all_bytes). cbn [connected on_heart connected_client opened set_connected].
  run_at 0%nat (st_w_test all_bytes From_heart_beat HEARTBEAT hb_frame).
  run_at 0%nat (st_w_send all_bytes From_heart_beat hb_frame (length hb_frame)).
  run_at 0%nat (st_w_done all_bytes From_heart_beat). run_at 0%nat (st_hb_rearm all_bytes).
  apply rtc_refl.
Qed.

(** [disconnect] runs while the other threads wait. *)
Lemma run_disconnect takes i s ts :
  heart_beat_timer (hearts s) = Some i ->
  rtc (step takes) (s, ts)
    (set_sock Closed (on_heart forget (on_heart (cancel i) (set_connected false s))), ts).
Proof.
  intros Hi. eapply rtc_l; [apply (step_call takes [Disconnect])|].
  run_at 0%nat (st_d_flag takes). run_at 0%nat (st_d_test takes).
  cbn [hearts set_connected]. rewrite Hi. run_at 0%nat (st_d_cancel takes [] i).
  run_at 0%nat (st_d_clear takes). run_at 0%nat (st_d_close takes). apply rtc_refl.
Qed.

(** ** The properties *)

(** C16: The heartbeat under all interleavings. Whatever the application calls, in
    any number of threads and in any interleaving of their statements with those
    of the receive thread and of the timer threads: at most one timer is live or
    being re-armed, and at most one receive thread runs; once the client is
    disconnected and its socket closed, and no thread is just connecting it or
    creating a timer, it stays disconnected and no timer is ever started again;
    once the socket is closed, not one more byte is sent. *)
Theorem heartbeat_threads (takes : bytes -> nat -> Prop) (s : shared) (ts : list thread) :
  rtc (step takes) (fresh, []) (s, ts) ->
  (length (live (hearts s)) + sum_list_with heart_token ts <= 1)%nat /\
  (sum_list_with reader_token ts <= 1)%nat /\
  (connected s = false -> sock s = Closed -> Forall (fun t => arming t = false) ts ->
   forall s' ts', rtc (step takes) (s, ts) (s', ts') ->
     connected s' = false /\ live (hearts s') ⊆ live (hearts s)) /\
  (sock s = Closed ->
   forall s' ts', rtc (step takes) (s, ts) (s', ts') -> wire s' = wire s).
Proof.
  intros Hr. split_and!.
  - pose proof (reach_heart _ _ Hr). simpl in *. lia.
  - pose proof (reach_reader _ _ Hr). simpl in *. lia.
  - intros Hc Hk Ha s' ts' Hr'.
    pose (P (c : shared * list thread) := over c /\ live (hearts c.1) ⊆ live (hearts s)).
    assert (P (s', ts')) as ((? & _) & ?); [|done].
    refine (steps_inv (step takes) P _ _ _ Hr' _); [|by split].
    intros c c' Hs [Ho Hl]. destruct (step_over _ _ _ Hs Ho) as (? & ? & _).
    split; [done|]. by etrans.
  - intros Hk s' ts' Hr'.
    pose (P (c : shared * list thread) := sock c.1 = Closed /\ wire c.1 = wire s).
    assert (P (s', ts')) as [_ ?]; [|done].
    refine (steps_inv (step takes) P _ _ _ Hr' _); [|by split].
    intros c c' Hs [Hk' Hw]. destruct (step_closed _ _ _ Hs Hk') as [? ?].
    split; [done|congruence].
Qed.

(** A timer survives [disconnect]. Clearing [connected] first does not keep
    the timer thread from creating a timer: when it has passed its test, the
    timer it starts is live after [disconnect] has returned. When it has created
    the timer and [disconnect] clears the attribute before it is started, the
    timer thread ends with an exception instead, on [None]. *)
Theorem timer_survives_disconnect :
  (exists s, rtc (step all_bytes) (fresh, []) (s, [R_test]) /\
     connected s = false /\ sock s = Closed /\ live (hearts s) <> []) /\
  (exists s, rtc (step all_bytes) (fresh, []) (s, [Hb_daemon From_heart_beat; R_test]) /\
     connected s = false /\ heart_beat_timer (hearts s) = None /\
     forall new s', statement all_bytes (Hb_daemon From_heart_beat) s new s' -> new = []).
Proof.
  split; eexists; split.
  - etrans; [apply reach_rearming|].
    etrans; [by apply (run_disconnect _ 0)|].
    run_at 0%nat (st_hb_create all_bytes). run_at 0%nat (st_hb_daemon all_bytes).
    eapply rtc_l; [|apply rtc_refl].
    apply step_run, (run_thread (statement all_bytes) [] (Hb_start From_heart_beat) [R_test] _ []),
      (st_hb_start all_bytes From_heart_beat 1); [done|].
    by apply (bool_decide_unpack _).
  - done.
  - etrans; [apply reach_rearming|]. run_at 0%nat (st_hb_create all_bytes).
    etrans; [by apply (run_disconnect _ 1)|]. apply rtc_refl.
  - split_and!; [done..|]. intros new s' Hs. by inversion Hs.
Qed.

Definition long_data : bytes := replicate 16 x41.
Definition long_frame : bytes := MAGIC ++ [x00; x00; x00; x10] ++ long_data.

(** The bytes on the wire when the heartbeat was sent between two [send]s. *)
Definition mixed : bytes := take 12 long_frame ++ hb_frame ++ drop 12 long_frame.

Lemma reach_mixed :
  rtc (step some_bytes) (fresh, [])
    (set_wire mixed (on_heart (quench 0) connected_client),
     [Hb_rearm From_heart_beat; R_test]).
Proof.
  etrans; [apply (reach_connected _ [])|].
  eapply rtc_l; [apply (step_call _ [Send long_data])|].
  run_at 0%nat (st_w_test some_bytes (From_call []) long_data long_frame).
  eapply rtc_l; [apply step_run, (run_thread (statement _) [] _ [R_test]),
    (st_w_send _ (From_call []) long_frame 12); [done|done|by apply (bool_decide_unpack _)]|].
  eapply rtc_l; [apply (step_fire _ 0); apply list_elem_of_here|].
  run_at 0%nat (st_hb_test some_bytes).
  cbn [connected on_heart connected_client opened set_connected set_wire].
  run_at 0%nat (st_w_test some_bytes From_heart_beat HEARTBEAT hb_frame).
  cbn [List.app].
  eapply rtc_l; [apply step_run, (run_thread (statement _) [] _ [_; R_test]),
    (st_w_send _ From_heart_beat hb_frame (length hb_frame));
    [done|done|by apply (bool_decide_unpack _)]|].
  run_at 0%nat (st_w_done some_bytes From_heart_beat). cbn [List.app after_write].
  eapply rtc_l; [apply step_run, (run_thread (statement _) [Hb_rearm From_heart_beat] _ [R_test]),
    (st_w_send _ (From_call []) (drop 12 long_frame) 12);
    [done|done|by apply (bool_decide_unpack _)]|].
  run_at 1%nat (st_w_done some_bytes (From_call [])). apply rtc_refl.
Qed.

(** C17: Frames on the wire when several threads send. As long as every [sendall]
    hands all its bytes over at once, the wire always holds whole frames, under
    every interleaving. But [sendall] is not protected by the lock: when one
    [send] takes a part only, a heartbeat can go between the parts of a message,
    and the receiver, after a message that was never sent, finds a broken frame
    and drops the connection. *)
Theorem frames_under_threads :
  (forall s ts, rtc (step all_bytes) (fresh, []) (s, ts) ->
     exists ms, Forall (fun m => len m <= MAX_MSG_SIZE) ms /\ frames ms = Some (wire s)) /\
  (exists s ts, rtc (step some_bytes) (fresh, [])(s, ts) /\
     connected s = true /\ (forall k rest, W_send k rest ∉ ts) /\
     (exists m, p_msgs (parse (wire s)) = [m] /\ m <> long_data /\ m <> HEARTBEAT) /\
     p_fault (parse (wire s)) = Some BadMagic).
Proof.
  split.
  - intros s ts Hr.
    pose (P (c : shared * list thread) := whole_frames [] (wire c.1) /\ Forall whole_thread c.2).
    assert (P (s, ts)) as [(ms & y & Hm & Hy & Hw) _].
    { refine (steps_inv (step all_bytes) P _ _ _ Hr _); [|split; [apply whole_refl|done]].
      intros c c' Hs [Hw Hp]. destruct (step_whole _ _ Hs Hp) as [Hw' Hp'].
      split; [by eapply whole_trans|done]. }
    exists ms. split; [done|]. simpl in Hw. by rewrite Hw.
  - eexists _, _. split; [apply reach_mixed|]. split; [done|]. split.
    + intros k rest Hin. by apply elem_of_cons in Hin as [?|?%list_elem_of_singleton].
    + split; [|by vm_compute]. eexists. split; [vm_compute; reflexivity|]. by split.
Qed.

(** ** Witnesses *)

Lemma heartbeat_threads_witness :
  rtc (step all_bytes) (fresh, []) (rearming, [Hb_create From_heart_beat; R_test]) /\
  (length (live (hearts rearming)) +
   sum_list_with heart_token [Hb_create From_heart_beat; R_test] <= 1)%nat.
Proof.
  split; [exact reach_rearming|]. apply (heartbeat_threads all_bytes), reach_rearming.
Defined.
