(* ===== verification/TcpReading.v ===== *)
(** * The receive thread of a Python [TcpClient], under every interleaving

    What the receive thread of TcpStatements.v does with the bytes that come,
    whatever the other threads do meanwhile: [received_under_threads] relates what
    was handed to the callback to [parse]; [disconnect_stops_reading] and
    [threads_end] say what is left to happen after [disconnect];
    [message_before_callback_lost] is the run in which a message is lost because
    the receive thread runs before the callback is installed. *)

From S2P Require Export TcpThreads.

(** ** The invariant of the receiving side *)

(** With [h] and [p] in the hands of the receive thread: what was extracted, and
    what parsing would still find, is what parsing finds in all that came; what
    was called is what was extracted but for the messages that were missed and
    those in hand. *)
Definition history (r : inbox) (h : bytes) (p : list bytes) : Prop :=
  prepend (extracted r) (parse (buffer r ++ h)) = parse (received r) /\
  payloads (extracted r) = missed r ++ called r ++ p /\
  (callback r = false -> called r = []).

(** What holds where the receive thread is: between two messages the buffer holds
    none; before it is started the buffer is empty. *)
Definition reader_ok (r : inbox) (t : thread) : Prop :=
  match t with
  | P_call _ => callback r = true
  | R_test | R_recv | R_blocked | P_fault | P_close => p_msgs (parse (buffer r)) = []
  | C_flag _ | C_thread _
  | Hb_rearm (From_call _) | Hb_create (From_call _) | Hb_daemon (From_call _)
  | Hb_start (From_call _) => buffer r = []
  | _ => True
  end.

Lemma reader_ok_trivial r t : reader_token t = 0%nat -> reader_ok r t.
Proof. destruct t; simpl; try done; by destruct k. Qed.

Lemma hand_trivial t : reader_token t = 0%nat -> hand t = [] /\ pending t = [].
Proof. by destruct t. Qed.

Lemma reader_ok_all r ts : sum_list_with reader_token ts = 0%nat -> Forall (reader_ok r) ts.
Proof.
  induction ts as [|t ts IH]; simpl; intros H; constructor;
    [apply reader_ok_trivial; lia|apply IH; lia].
Qed.

Lemma hand_all ts :
  sum_list_with reader_token ts = 0%nat -> flat_map hand ts = [] /\ flat_map pending ts = [].
Proof.
  induction ts as [|t ts IH]; simpl; intros H; [done|].
  destruct (hand_trivial t ltac:(lia)) as [-> ->]. apply IH. lia.
Qed.

Lemma history_recv r c :
  history r [] [] -> history (recv_returns c r) c [].
Proof.
  intros (Hp & Hm & Hc). split; [|done]. simpl. rewrite app_nil_r in Hp.
  rewrite (parse_step (received r) c), <- Hp. cbn [prepend p_msgs p_rest].
  by rewrite prepend_app, <- parse_step.
Qed.

Lemma history_got r m rest :
  history r [] [] -> next_frame (buffer r) = Message m rest ->
  history (extract m rest r) [] (payloads [m]).
Proof.
  intros (Hp & Hm & Hc) Hn. split_and!; [| |done].
  - simpl. rewrite app_nil_r in *. rewrite prepend_app, <- Hp.
    by rewrite (parse_unfold (buffer r)), Hn.
  - simpl. rewrite payloads_app, Hm. by rewrite app_nil_r, <- !app_assoc.
Qed.

(** A message that is dropped, and one that is handed on. *)
Lemma history_missed r m :
  history r [] [m] -> callback r = false -> history (miss m r) [] [].
Proof.
  intros (Hp & Hm & Hc) Hcb. split_and!; [done| |done].
  simpl. rewrite (Hc Hcb) in *. by rewrite Hm, <- app_assoc.
Qed.

Lemma history_called r m :
  history r [] [m] -> callback r = true -> history (call_back m r) [] [].
Proof.
  intros (Hp & Hm & Hc) Hcb. split_and!; [done| |simpl; congruence].
  simpl. by rewrite app_nil_r.
Qed.

Lemma history_install r h p : history r h p -> history (install r) h p.
Proof. by intros (? & ? & ?). Qed.

Lemma history_lock x r h p : history (set_lock x r) h p <-> history r h p.
Proof. done. Qed.

Section statements.
Context (takes : bytes -> nat -> Prop).

(** A step of the receive thread, or of the thread that is going to start it. *)
Lemma statement_history t s new s' :
  statement takes t s new s' -> reader_token t = 1%nat -> reader_ok (reading s) t ->
  history (reading s) (hand t) (pending t) ->
  history (reading s') (flat_map hand new) (flat_map pending new) /\
  Forall (reader_ok (reading s')) new.
Proof.
  intros Hs Ht Hok Hh. revert Ht Hok Hh.
  destruct Hs; simpl; try done; try (destruct k; try done);
    intros _ Hok Hh; try match goal with
    | H : parse_block _ = _ |- _ => rewrite parse_block_spec in H;
        destruct (next_frame (buffer (reading s))) as [|f|m' rest'] eqn:En; simplify_eq
    end; repeat case_match; repeat case_bool_decide; simplify_eq; simpl;
    rewrite ?app_nil_r; try (split; [done|by repeat constructor]).
  - destruct (hand_all (begin todo) (proj1 (proj2 (begin_tokens todo)))) as [-> ->].
    split; [done|]. constructor; [simpl; by rewrite Hok|].
    apply reader_ok_all, begin_tokens.
  - split; [by apply history_recv|by repeat constructor].
  - split; [|by repeat constructor]. destruct Hh as (Hp & Hm & Hc).
    split_and!; [|done..]. simpl. by rewrite app_nil_r.
  - split; [done|]. constructor; [|done]. simpl. by rewrite parse_unfold, En.
  - split; [done|]. constructor; [|done]. simpl. by rewrite parse_unfold, En.
  - split; [by apply history_lock, history_got|by repeat constructor].
  - split; [|by repeat constructor].
    rewrite payloads_cons, bool_decide_false in Hh by done. exact Hh.
  - split; [by apply history_missed|by repeat constructor].
  - pose proof (history_called _ _ Hh Hok).
    match goal with H : _ \/ _ |- _ => destruct H as [->|[->| ->]] end;
      (split; [done|by repeat constructor]).
Qed.

(** A step of any other thread. *)
Lemma statement_other t s new s' h p :
  statement takes t s new s' -> reader_token t = 0%nat ->
  (sock s = Fresh -> buffer (reading s) = []) -> history (reading s) h p ->
  history (reading s') h p /\ flat_map hand new = [] /\ flat_map pending new = [] /\
  Forall (reader_ok (reading s')) new /\ buffer (reading s') = buffer (reading s) /\
  (callback (reading s) = true -> callback (reading s') = true).
Proof.
  intros Hs Ht Hf Hh. revert Ht Hf Hh.
  destruct Hs; simpl; try done; try (destruct k; try done);
    intros _ Hf Hh; repeat case_match; simplify_eq; simpl;
    try (match goal with |- context [flat_map hand (begin ?todo)] =>
           destruct (hand_all (begin todo) (proj1 (proj2 (begin_tokens todo)))) as [-> ->] end);
    (split_and!; try done); try (by apply history_install);
    try (by apply reader_ok_all, begin_tokens); apply Forall_singleton; simpl; auto.
Qed.

Lemma reader_ok_mono r r' t :
  reader_ok r t -> buffer r' = buffer r -> (callback r = true -> callback r' = true) ->
  reader_ok r' t.
Proof. intros H Hb Hc. destruct t; simpl in *; try destruct k; rewrite ?Hb; auto. Qed.

(** The invariant of the whole. *)
Definition reading_inv (c : shared * list thread) : Prop :=
  (unconnected c.1 + sum_list_with reader_token c.2 <= 1)%nat /\
  (sock c.1 = Fresh -> buffer (reading c.1) = []) /\
  history (reading c.1) (flat_map hand c.2) (flat_map pending c.2) /\
  Forall (reader_ok (reading c.1)) c.2.

Lemma statement_phase t s new s' :
  statement takes t s new s' -> sock s <> Fresh -> sock s' <> Fresh.
Proof. intros Hs H. destruct Hs; simpl; try case_match; simpl; congruence. Qed.

Lemma statement_phase_other t s new s' :
  statement takes t s new s' -> sock s' = Fresh -> sock s = Fresh.
Proof. intros Hs. destruct Hs; simpl; try case_match; simpl; congruence. Qed.

Lemma step_reading c c' : step takes c c' -> reading_inv c -> reading_inv c'.
Proof.
  intros Hst (Hle & Hf & Hh & Hok). pose proof (step_reader _ _ _ Hst) as Hle'.
  split; [lia|]. clear Hle'.
  destruct Hst as [c1 c2 [ts1 t ts2 s new s' Hs]|i s ts Hi|todo s ts]; simpl in *;
    [|split_and!; [done..|by constructor]|].
  2:{ rewrite !flat_map_app.
      destruct (hand_all (begin todo) (proj1 (proj2 (begin_tokens todo)))) as [-> ->].
      split_and!; [done..|]. apply Forall_app_2; [apply reader_ok_all, begin_tokens|done]. }
  rewrite !flat_map_app in *. simpl in *. rewrite sum_list_with_app in Hle. simpl in Hle.
  apply Forall_app in Hok as [Hok1 Hok2]. apply Forall_cons in Hok2 as [Hok Hok2].
  destruct (decide (reader_token t = 0%nat)) as [Ht|Ht].
  - destruct (hand_trivial t Ht) as [Eh Ep]. rewrite Eh, Ep in Hh. simpl in Hh.
    destruct (statement_other _ _ _ _ _ _ Hs Ht Hf Hh) as (Hh' & -> & -> & Hn & Hb & Hc).
    split_and!; [|done|].
    + intros Hfr. rewrite Hb. eauto using statement_phase_other.
    + apply Forall_app_2; [|apply Forall_app_2; [done|]];
        (eapply Forall_impl; [eassumption|]); eauto using reader_ok_mono.
  - destruct (hand_all ts1 ltac:(lia)) as [E1 E1']. destruct (hand_all ts2 ltac:(lia)) as [E2 E2'].
    rewrite E1, E2, E1', E2', !app_nil_r in *. simpl in *.
    destruct (statement_history _ _ _ _ Hs ltac:(lia) Hok Hh) as [Hh' Hn].
    split_and!; [|done|].
    + intros Hfr. exfalso. unfold unconnected in Hle.
      rewrite bool_decide_true in Hle by eauto using statement_phase_other. lia.
    + apply Forall_app_2; [|apply Forall_app_2; [done|]]; apply reader_ok_all; lia.
Qed.

Lemma reach_reading c : rtc (step takes) (fresh, []) c -> reading_inv c.
Proof.
  intros Hr. apply (steps_inv (step takes) reading_inv _ _ step_reading Hr).
  split_and!; [done..| |by constructor].
  by split_and!.
Qed.

(** The messages that were called are, in order, those received after the missed. *)
Lemma called_in_order n ts :
  rtc (step takes) (fresh, []) (n, ts) ->
  exists later, payloads (p_msgs (parse (received (reading n)))) =
    missed (reading n) ++ called (reading n) ++ later.
Proof.
  intros Hr. destruct (reach_reading _ Hr) as (_ & _ & (Hp & Hm & _) & _). simpl in *.
  rewrite <- Hp. simpl. rewrite payloads_app, Hm, <- !app_assoc. by eexists.
Qed.

(** A message the callback was called with is in the bytes that were received. *)
Lemma called_received n ts d :
  rtc (step takes) (fresh, []) (n, ts) -> d ∈ called (reading n) ->
  d ∈ payloads (p_msgs (parse (received (reading n)))).
Proof.
  intros Hr Hd. destruct (called_in_order _ _ Hr) as [later ->]. rewrite !elem_of_app. auto.
Qed.

End statements.

(** ** Lemmas: what is left to happen after [disconnect] *)

(** The threads that are waiting in [recv]. *)
Definition blocked (t : thread) : nat := match t with R_blocked => 1 | _ => 0 end.

Definition todo_weight (todo : list op) : nat := 8 * length todo.

Definition write_weight (k : caller) : nat :=
  match k with From_heart_beat => 1 | From_call todo => todo_weight todo end.

Definition beat_weight (k : caller) : nat :=
  match k with From_heart_beat => 0 | From_call todo => 2 + todo_weight todo end.

(** A bound on the statements a thread of a disconnected client still runs, when
    the buffer has [n] bytes. Every message takes bytes from the buffer. *)
Definition weight (n : nat) (t : thread) : nat :=
  match t with
  | C_connect todo | O_install todo | D_close todo => 1 + todo_weight todo
  | D_clear todo => 2 + todo_weight todo
  | D_cancel todo => 3 + todo_weight todo
  | D_test todo => 4 + todo_weight todo
  | D_flag todo => 5 + todo_weight todo
  | C_thread todo => 2 + todo_weight todo
  | W_error k => 1 + write_weight k
  | W_send k _ => 2 + write_weight k
  | W_test k _ => 3 + write_weight k
  | Hb_rearm k => 1 + beat_weight k
  | Hb_test | R_test | R_lost | R_error => 1
  | R_except => 2
  | R_recv | P_close => 3
  | P_fault => 4
  | P_parse => 5 * n + 5
  | P_lock => 5 * n + 6
  | P_call _ => 5 * n + 7
  | P_handle _ => 5 * n + 8
  | P_msg _ => 5 * n + 9
  | R_append c => 5 * (n + length c) + 7
  | R_lock c => 5 * (n + length c) + 8
  | R_chunk c => 5 * (n + length c) + 9
  | R_blocked => 5 * (n + Z.to_nat RECV_SIZE) + 10
  | _ => 0
  end.

Definition total (c : shared * list thread) : nat :=
  sum_list_with (weight (length (buffer (reading c.1)))) c.2.

Lemma begin_weight n todo : (sum_list_with (weight n) (begin todo) <= todo_weight todo)%nat.
Proof. destruct todo as [|[] todo]; simpl; unfold todo_weight; cbn [length]; lia. Qed.

Lemma weight_other n n' t : reads t = false -> weight n t = weight n' t.
Proof. by destruct t. Qed.

Lemma weight_others n n' ts :
  sum_list_with reader_token ts = 0%nat ->
  sum_list_with (weight n) ts = sum_list_with (weight n') ts.
Proof.
  induction ts as [|t ts IH]; simpl; intros H; [done|]. rewrite IH by lia.
  rewrite (weight_other n n' t); [done|]. destruct t; simpl in *; done || lia.
Qed.

Section ending.
Context (takes : bytes -> nat -> Prop).

Lemma statement_blocked t s new s' :
  statement takes t s new s' -> sock s = Closed ->
  exists x, received (reading s') = received (reading s) ++ x /\
    len x + RECV_SIZE * Z.of_nat (sum_list_with blocked new) <= RECV_SIZE * Z.of_nat (blocked t).
Proof.
  intros Hs Hk.
  assert (forall todo, sum_list_with blocked (begin todo) = 0%nat) as Hb
    by (intros [|[] todo]; done).
  unfold RECV_SIZE in *. destruct Hs; simpl; rewrite ?Hk, ?Hb; simpl;
    try match goal with H : _ \/ _ |- _ => destruct H as [->|[->| ->]] end;
    try (destruct k); simpl; rewrite ?Hb;
    repeat case_match; simpl;
    try (exists []; rewrite app_nil_r; split; [done|unfold len; simpl; lia]).
  exists chunk. split; [done|]. unfold RECV_SIZE in *. simpl. lia.
Qed.

Lemma step_blocked c c' r n :
  step takes c c' -> sock c.1 = Closed ->
  (exists x, received (reading c.1) = r ++ x /\
     len x + RECV_SIZE * Z.of_nat (sum_list_with blocked c.2) <= RECV_SIZE * n) ->
  exists x, received (reading c'.1) = r ++ x /\
    len x + RECV_SIZE * Z.of_nat (sum_list_with blocked c'.2) <= RECV_SIZE * n.
Proof.
  unfold RECV_SIZE.
  intros [c1 c2 [ts1 t ts2 s new s' Hs]|i s ts Hi|todo s ts] Hk (x & Hx & Hle); simpl in *.
  - destruct (statement_blocked _ _ _ _ Hs Hk) as (y & -> & Hy).
    unfold RECV_SIZE in Hy. exists (x ++ y). rewrite Hx, <- app_assoc. split; [done|].
    rewrite !sum_list_with_app in *. simpl in *. rewrite len_app. lia.
  - by exists x.
  - exists x. split; [done|]. rewrite sum_list_with_app.
    assert (sum_list_with blocked (begin todo) = 0%nat) as -> by by destruct todo as [|[]].
    done.
Qed.

Lemma blocked_le ts : (sum_list_with blocked ts <= sum_list_with reader_token ts)%nat.
Proof. induction ts as [|[] ts IH]; simpl; try case_match; lia. Qed.

Lemma statement_weight t s new s' :
  statement takes t s new s' -> connected s = false -> sock s = Closed -> arming t = false ->
  (sum_list_with (weight (length (buffer (reading s')))) new
   < weight (length (buffer (reading s))) t)%nat.
Proof.
  intros Hs Hc Hk Ha.
  destruct Hs; simpl in *; rewrite ?Hc, ?Hk in *; try done; try congruence;
    try match goal with H : _ \/ _ |- _ => destruct H as [->|[->| ->]] end;
    try (destruct k; simpl in *);
    try match goal with |- context [sum_list_with (weight ?n) (begin ?todo)] =>
          pose proof (begin_weight n todo) end;
    rewrite ?length_app; try (repeat case_match; simpl in *; lia).
  - unfold len, RECV_SIZE in *. lia.
  - match goal with H : parse_block _ = _ |- _ => rewrite parse_block_spec in H;
      destruct (next_frame (buffer (reading s))) as [|f|m' rest'] eqn:En; simplify_eq end.
    apply next_frame_shorter in En. lia.
Qed.

(** A disconnected client comes to its end, whoever runs. *)
Lemma run_total c c' :
  run (statement takes) c c' -> over c -> (sum_list_with reader_token c.2 <= 1)%nat ->
  (total c' < total c)%nat.
Proof.
  intros [ts1 t ts2 s new s' Hs] (Hc & Hk & Ha) Hle. unfold total. simpl in *.
  apply Forall_app in Ha as [_ Ha]. apply Forall_cons in Ha as [Ha _].
  pose proof (statement_weight _ _ _ _ Hs Hc Hk Ha) as Hw.
  rewrite !sum_list_with_app in *. simpl in *.
  set (n := length (buffer (reading s))) in *. set (n' := length (buffer (reading s'))) in *.
  destruct (reads t) eqn:Er.
  - assert (reader_token t = 1%nat) as Ht by by destruct t.
    rewrite (weight_others n' n ts1), (weight_others n' n ts2) by lia. lia.
  - assert (n' = n) as ->; [|lia].
    destruct (proj1 (statement_inbox _ _ _ _ _ Hs Er)) as [E|E]; unfold n', n; by rewrite E.
Qed.

Lemma over_sn c :
  over c -> (unconnected c.1 + sum_list_with reader_token c.2 <= 1)%nat -> sn (run (statement takes)) c.
Proof.
  remember (total c) as n eqn:E. revert c E.
  induction n as [n IH] using lt_wf_ind. intros c -> Ho Hle. constructor. intros c' Hr.
  pose proof (step_run takes _ _ Hr) as Hs.
  refine (IH (total c') _ _ eq_refl _ _).
  - apply run_total; [done..|]. lia.
  - by apply (step_over takes _ _ Hs).
  - pose proof (step_reader _ _ _ Hs). lia.
Qed.

(** ** Lemmas: nobody waits for ever for the lock *)

Lemma can_run t s :
  (lock (reading s) = false \/ critical t = 1%nat) -> exists new s', statement takes t s new s'.
Proof.
  intros Hl. destruct t; simpl in Hl;
    try (eexists _, _; solve [econstructor; eauto]);
    try (destruct Hl; [|done]; eexists _, _; by econstructor).
  - destruct (connected s) eqn:Hc; [|eexists _, _; by apply st_w_test_off].
    destruct (Z.ltb_spec MAX_MSG_SIZE (len data)) as [?|Hle];
      [eexists _, _; by apply st_w_test_long|].
    destruct (frame_is_Some data Hle) as [x Hx]. eexists _, _; by eapply st_w_test.
  - destruct rest as [|b rest]; eexists _, _; [apply st_w_done|by apply st_w_fail].
  - destruct (heart_beat_timer (hearts s)) as [i|] eqn:Hi;
      [|eexists _, _; apply st_hb_start_raises; by rewrite Hi].
    destruct (decide (i ∈ once (hearts s)));
      [eexists _, _; apply st_hb_start_raises; by rewrite Hi|].
    eexists _, _; by eapply st_hb_start.
  - destruct (parse_block (buffer (reading s))) as [| |m rest|] eqn:Hb;
      eexists _, _; [by apply st_p_break|by apply st_p_bad|by eapply st_p_got|by apply st_p_struct].
  - destruct (heart_beat_timer (hearts s)) as [i|] eqn:Hi; eexists _, _;
      [by eapply st_d_cancel|by apply st_d_cancel_raises].
Qed.

Lemma no_deadlock s ts : lock_inv (s, ts) -> ts <> [] -> exists c', run (statement takes) (s, ts) c'.
Proof.
  unfold lock_inv, locked. simpl. intros Hl Hne. destruct (lock (reading s)) eqn:El.
  - destruct (count_some critical ts) as (t & Ht & Hc); [lia|].
    destruct (can_run t s) as (new & s' & Hs); [right; by destruct t|]. by eapply run_in.
  - destruct ts as [|t ts]; [done|].
    destruct (can_run t s) as (new & s' & Hs); [by left|].
    eapply run_in; [apply list_elem_of_here|done].
Qed.

End ending.

(** ** The properties *)

(** Once the callback is installed it stays, and no message is missed. *)
Definition called_back (l : list bytes) (c : shared * list thread) : Prop :=
  callback (reading c.1) = true /\ missed (reading c.1) = l.

Lemma step_called_back takes l c c' : step takes c c' -> called_back l c -> called_back l c'.
Proof.
  intros [c1 c2 [ts1 t ts2 s new s' Hs]|i s ts Hi|todo s ts] [Hc Hm]; try done.
  unfold called_back. simpl in *. by destruct Hs; simpl; rewrite ?Hc.
Qed.

(** C8: What the receive thread hands on, under all interleavings. Whatever the
    application calls meanwhile, also from the callback, and however the bytes
    are cut: the callback is called with the messages that parsing finds in the
    bytes received, in their order and each once, but for those that were missed
    before it was installed; at most one is still in hand, and while the thread
    waits for bytes there is none and all were handed on. Once the callback is
    installed nothing is missed any more. At most one thread is inside a block
    of the lock, and then the lock is held. *)
Theorem received_under_threads (takes : bytes -> nat -> Prop) (s : shared) (ts : list thread) :
  rtc (step takes) (fresh, []) (s, ts) ->
  let r := reading s in
  (exists in_hand later,
     payloads (p_msgs (parse (received r))) = missed r ++ called r ++ in_hand ++ later /\
     (length in_hand <= 1)%nat /\
     (existsb waits ts = true -> in_hand = [] /\ later = [])) /\
  (callback r = false -> called r = []) /\
  (callback r = true ->
   forall s' ts', rtc (step takes) (s, ts) (s', ts') -> missed (reading s') = missed r) /\
  sum_list_with critical ts = if lock r then 1%nat else 0%nat.
Proof.
  intros Hr r. pose proof (reach_reading takes _ Hr) as (Hle & _ & (Hp & Hm & Hc) & Hok).
  split_and!; [|done| |by apply (reach_lock takes (s, ts))].
  - exists (flat_map pending ts), (payloads (p_msgs (parse (buffer r ++ flat_map hand ts)))).
    simpl in *. fold r in Hp, Hm, Hok. split_and!.
    + rewrite <- Hp. simpl. by rewrite payloads_app, Hm, <- !app_assoc.
    + clear -Hle. revert Hle. induction ts as [|t ts IH]; simpl; [lia|]. intros Hle.
      destruct (decide (reader_token t = 0%nat)) as [Ht|Ht].
      * destruct (hand_trivial t Ht) as [_ ->]. simpl. apply IH. lia.
      * destruct (hand_all ts ltac:(lia)) as [_ ->]. rewrite app_nil_r.
        destruct t; cbn [pending length]; try lia.
        rewrite payloads_cons. case_bool_decide; simpl; lia.
    + intros (t & Ht & Hw)%existsb_exists.
      apply list_elem_of_In, list_elem_of_split in Ht as (ts1 & ts2 & ->).
      rewrite !flat_map_app in *. simpl. rewrite sum_list_with_app in Hle. simpl in Hle.
      assert (reader_token t = 1%nat /\ hand t = [] /\ pending t = []) as (Ht & -> & ->)
        by by destruct t.
      destruct (hand_all ts1 ltac:(lia)) as [-> ->]. destruct (hand_all ts2 ltac:(lia)) as [-> ->].
      split; [done|]. rewrite app_nil_r.
      apply Forall_app in Hok as [_ Hok]. apply Forall_cons in Hok as [Hok _].
      assert (p_msgs (parse (buffer r)) = []) as -> by by destruct t. done.
  - intros Hcb s' ts' Hr'.
    assert (called_back (missed r) (s', ts')) as [_ ?]; [|done].
    refine (steps_inv (step takes) (called_back (missed r)) _ _ _ Hr' _); [|done].
    apply step_called_back.
Qed.

(** [disconnect] stops the reading. When the client is disconnected, its
    socket closed and nobody is just connecting it, then at most one more chunk
    of at most 4096 bytes is taken from the socket, by a [recv] that was already
    waiting; if none was waiting, no byte is read any more. *)
Theorem disconnect_stops_reading (takes : bytes -> nat -> Prop) (s s' : shared)
    (ts ts' : list thread) :
  rtc (step takes) (fresh, []) (s, ts) ->
  connected s = false -> sock s = Closed -> Forall (fun t => arming t = false) ts ->
  rtc (step takes) (s, ts) (s', ts') ->
  exists x, received (reading s') = received (reading s) ++ x /\ len x <= RECV_SIZE /\
    (R_blocked ∉ ts -> x = []).
Proof.
  intros Hr Hc Hk Ha Hr'. pose proof (reach_reader takes _ Hr) as Hle. simpl in Hle.
  set (n := Z.of_nat (sum_list_with blocked ts)).
  pose (P (c : shared * list thread) := sock c.1 = Closed /\
    exists x, received (reading c.1) = received (reading s) ++ x /\
      len x + RECV_SIZE * Z.of_nat (sum_list_with blocked c.2) <= RECV_SIZE * n).
  assert (P (s', ts')) as [_ (x & Hx & Hlen)].
  { refine (steps_inv (step takes) P _ _ _ Hr' _).
    - intros c c' Hs [Hk' HP]. split; [by apply (step_closed _ _ _ Hs Hk')|].
      by apply (step_blocked takes c c' _ n).
    - split; [done|]. exists []. rewrite app_nil_r. split; [done|]. unfold n, len. simpl. lia. }
  pose proof (blocked_le ts). simpl in *. unfold RECV_SIZE in *.
  exists x. split_and!; [done|lia|]. intros Hno.
  assert (sum_list_with blocked ts = 0%nat) as E.
  { clear -Hno. induction ts as [|t ts IH]; [done|].
    apply not_elem_of_cons in Hno as [Hne Hno]. simpl. rewrite IH by done. by destruct t. }
  apply nil_length_inv. unfold len, n in *. rewrite E in Hlen. lia.
Qed.

(** The threads end. No thread ever waits for the lock for ever: as long as a
    thread is left, one of them can run. And when the client is disconnected, its
    socket closed and nobody is just connecting it, there is no infinite run of
    its threads, in whatever order they take turns, unless the application makes
    new calls: all the threads come to their end. *)
Theorem threads_end (takes : bytes -> nat -> Prop) (s : shared) (ts : list thread) :
  rtc (step takes) (fresh, []) (s, ts) ->
  (ts <> [] -> exists c', run (statement takes) (s, ts) c') /\
  (connected s = false -> sock s = Closed -> Forall (fun t => arming t = false) ts ->
   sn (run (statement takes)) (s, ts)).
Proof.
  intros Hr. split.
  - apply no_deadlock. by apply (reach_lock takes (s, ts)).
  - intros Hc Hk Ha. apply over_sn; [done|]. by apply (reach_reader takes (s, ts)).
Qed.

Definition ex_hello : bytes := bytes_of "hello".
Definition ex_hello_frame : bytes := MAGIC ++ [x00; x00; x00; x05] ++ ex_hello.

(** The receive thread reads one message. *)
Lemma run_read takes s ts :
  connected s = true -> sock s = Open -> buffer (reading s) = [] -> lock (reading s) = false ->
  callback (reading s) = false ->
  rtc (step takes) (s, R_test :: ts)
    (on_inbox (fun r => set_lock false (miss ex_hello (extract ex_hello []
       (recv_returns ex_hello_frame r)))) s, R_test :: ts).
Proof.
  destruct s as [c k w h [l b cb r e m d]]. cbn [connected sock reading buffer lock callback].
  intros -> -> -> -> ->.
  run_at 0%nat (st_r_test takes). cbn [connected]. run_at 0%nat (st_r_recv takes).
  cbn [sock List.app]. rewrite bool_decide_true by done.
  run_at 0%nat (st_r_blocked takes ex_hello_frame). run_at 0%nat (st_r_chunk takes ex_hello_frame).
  rewrite bool_decide_false by done.
  run_at 0%nat (st_r_lock takes ex_hello_frame). run_at 0%nat (st_r_append takes ex_hello_frame).
  run_at 0%nat (st_p_lock takes). run_at 0%nat (st_p_got takes ex_hello []).
  run_at 0%nat (st_p_msg takes ex_hello). rewrite bool_decide_false by done.
  run_at 0%nat (st_p_handle takes ex_hello).
  simpl. run_at 0%nat (st_p_lock takes).
  run_at 0%nat (st_p_break takes). apply rtc_refl.
Qed.

(** A message that finds no callback. [connect_to_server] starts the receive
    thread, and the owners install their callback after it has returned. A
    message that the service sends at once can be read in between: it is dropped,
    and the callback that is then installed never sees it. *)
Theorem message_before_callback_lost (takes : bytes -> nat -> Prop) :
  exists s, rtc (step takes) (fresh, []) (s, [R_test]) /\
    connected s = true /\ callback (reading s) = true /\
    p_msgs (parse (received (reading s))) = [ex_hello] /\ called (reading s) = [].
Proof.
  eexists. split.
  - etrans; [apply (reach_connected takes [Install])|].
    etrans; [by apply run_read|]. cbn [begin].
    run_at 1%nat (st_o_install takes []). apply rtc_refl.
  - by vm_compute.
Qed.

(** ** Witnesses *)

Definition ex_reading : shared :=
  on_inbox (fun r => set_lock false (miss ex_hello (extract ex_hello []
    (recv_returns ex_hello_frame r)))) connected_client.

Lemma ex_reading_reached : rtc (step all_bytes) (fresh, []) (ex_reading, [R_test]).
Proof. etrans; [apply (reach_connected all_bytes [])|]. by apply run_read. Qed.

Lemma received_under_threads_witness :
  rtc (step all_bytes) (fresh, []) (ex_reading, [R_test]) /\
  payloads (p_msgs (parse (received (reading ex_reading)))) = [ex_hello].
Proof.
  split; [exact ex_reading_reached|].
  destruct (received_under_threads all_bytes ex_reading [R_test] ex_reading_reached)
    as [(h & l & E & _ & Hw) _].
  destruct (Hw eq_refl) as [-> ->]. exact E.
Defined.

Definition ex_closed : shared :=
  set_sock Closed (on_heart forget (on_heart (cancel 0) (set_connected false ex_reading))).

Lemma ex_closed_reached : rtc (step all_bytes) (fresh, []) (ex_closed, [R_test]).
Proof. etrans; [exact ex_reading_reached|]. by apply run_disconnect. Qed.

Lemma disconnect_stops_reading_witness :
  exists x, received (reading ex_closed) = received (reading ex_closed) ++ x /\ x = [].
Proof.
  destruct (disconnect_stops_reading all_bytes ex_closed ex_closed [R_test] [R_test]
    ex_closed_reached eq_refl eq_refl ltac:(by repeat constructor) (rtc_refl _ _))
    as (x & Hx & _ & Hn).
  exists x. split; [exact Hx|]. apply Hn. by intros ?%list_elem_of_singleton.
Defined.

Lemma threads_end_witness :
  (exists c', run (statement all_bytes) (ex_closed, [R_test]) c') /\ sn (run (statement all_bytes)) (ex_closed, [R_test]).
Proof.
  destruct (threads_end all_bytes ex_closed [R_test] ex_closed_reached) as [Hr Hs].
  split; [by apply Hr|]. apply Hs; [reflexivity|reflexivity|by repeat constructor].
Defined.
