(* ===== verification/QueryThreads.v ===== *)
(** * The threads of a Python [OpenSocketQuerier], statement by statement

    OpenSocketQuerier.v runs the blocks of
    knotlink-sdk-python/knotlink/knotlink/OpenSocketQuerier.py under the lock in
    one piece, for one caller of [query]. Here [query], [_internal_data_recv] and
    [disconnect] are cut into their statements, for any number of callers; line
    numbers are those of the file. What [query] sends goes through the client in
    one piece; QuerierSystem.v has the statements of the client as well. *)

From S2P Require Export Threads OpenSocketQuerier.

(** What the threads share: the lock, the object, and, as history, the messages
    that arrived. *)
Record shared {U W : Type} := Shared {
  _state_lock : bool;
  object : querier U W;
  arrived : list bytes }.
Arguments shared U W : clear implicits.

(** Where a thread is: the statement it runs next. *)
Inductive thread {U : Type} :=
| Q_lock (data : pystr) (timeout : option Z)        (* 38: with self._state_lock *)
| Q_result (data : pystr) (timeout : option Z)      (* 39: self.query_result = None *)
| Q_clear (data : pystr) (timeout : option Z)       (* 40: self.query_event.clear() *)
| Q_mark (data : pystr) (timeout : option Z)        (* 41: self.is_querying = True *)
| Q_reset (data : pystr) (timeout : option Z)       (* 42: self._timeout_occurred = False *)
| Q_send (data : pystr) (timeout : option Z)        (* 43: self.appID is read *)
| Q_key (APPID : option pystr) (data : pystr) (timeout : option Z)
                                                    (* 43, 56-58: self.openSocketID is read *)
| Q_write (body : bytes) (timeout : option Z)       (* 59: self.KLquerier.send_data *)
| Q_wait (timeout : option Z)                       (* 44: self.query_event.wait *)
| Q_relock (success : bool)                         (* 45: with self._state_lock *)
| Q_end (success : bool)                            (* 46: self.is_querying = False *)
| Q_test (success : bool)                           (* 47: if not success *)
| Q_late                                            (* 48, 49: _timeout_occurred, raise *)
| Q_return                                          (* 50: return self.query_result *)
| Q_returned (r : outcome (option pystr))           (* query is over *)
| A_send (data : pystr)                             (* 53: self.appID is read *)
| A_key (APPID : option pystr) (data : pystr)       (* 53, 56-58: self.openSocketID is read *)
| A_write (body : bytes)                            (* 59: self.KLquerier.send_data *)
| I_decode (data : bytes)                           (* 62: data.decode *)
| I_lock (text : pystr)                             (* 63: with self._state_lock *)
| I_test (text : pystr)                             (* 64: if self.is_querying and ... *)
| I_store (text : pystr)                            (* 66: self.query_result = *)
| I_set                                             (* 67: self.query_event.set() *)
| I_callback (text : pystr)                         (* 70: if self.callback *)
| I_call (text : pystr)                             (* 71: self.callback(received_text) *)
| X_client                                          (* 83: self.KLquerier.disconnect() *)
| X_lock                                            (* 85: with self._state_lock *)
| X_flag                                            (* 86: self._timeout_occurred = True *)
| X_set                                             (* 88: self.query_event.set() *)
| O_config (APPID OpenSocketID : pystr)             (* 28: self.appID = APPID *)
| O_socket (OpenSocketID : pystr)                   (* 29: self.openSocketID = OpenSocketID *)
| O_callback (c : U).                               (* set_RecvFunc *)
Arguments thread U : clear implicits.

Section steps.
Context {U W : Type}.
Implicit Types (s : shared U W) (o : querier U W) (t : thread U).

(** What the callback of the application does, to the application's state. *)
Variable app : U -> pystr -> W -> W.

Definition acquire s : shared U W := Shared _ _ true (object s) (arrived s).
Definition release s : shared U W := Shared _ _ false (object s) (arrived s).
Definition on (f : querier U W -> querier U W) s : shared U W :=
  Shared _ _ (_state_lock s) (f (object s)) (arrived s).
Definition arrive (d : bytes) s : shared U W :=
  Shared _ _ (_state_lock s) (object s) (arrived s ++ [d]).

(** The assignments to the attributes. *)
Definition put_result (r : option pystr) o : querier U W :=
  set_query r (query_event o) (is_querying o) (_timeout_occurred o) o.
Definition put_event (b : bool) o : querier U W :=
  set_query (query_result o) b (is_querying o) (_timeout_occurred o) o.
Definition put_querying (b : bool) o : querier U W :=
  set_query (query_result o) (query_event o) b (_timeout_occurred o) o.
Definition put_timeout (b : bool) o : querier U W :=
  set_query (query_result o) (query_event o) (is_querying o) b o.

Definition put_appID (a : pystr) o : querier U W :=
  Querier _ _ (Some a) (openSocketID o) (callback o) (query_result o) (query_event o)
    (is_querying o) (_timeout_occurred o) (KLquerier o) (world o).
Definition put_socketID (i : pystr) o : querier U W :=
  Querier _ _ (appID o) (Some i) (callback o) (query_result o) (query_event o)
    (is_querying o) (_timeout_occurred o) (KLquerier o) (world o).

(** [data.encode], and [_query] up to the call of [send_data]: no bytes when they
    raise. *)
Definition request_bytes (a i : option pystr) (d : pystr) : option bytes :=
  match utf8_encode d with Some bs => keyed_body a i bs | None => None end.

(** The call of the callback; [callback] is read again. *)
Definition called (x : pystr) o : querier U W :=
  match callback o with Some c => set_world (app c x (world o)) o | None => o end.

(** One statement of a thread: where the thread is then, with the state. An
    exception ends [query] and [_query_async]; a callback runs in one piece. *)
Inductive statement : thread U -> shared U W -> list (thread U) -> shared U W -> Prop :=
(* query *)
| st_q_lock d m s :
    _state_lock s = false -> statement (Q_lock d m) s [Q_result d m] (acquire s)
| st_q_result d m s : statement (Q_result d m) s [Q_clear d m] (on (put_result None) s)
| st_q_clear d m s : statement (Q_clear d m) s [Q_mark d m] (on (put_event false) s)
| st_q_mark d m s : statement (Q_mark d m) s [Q_reset d m] (on (put_querying true) s)
| st_q_reset d m s :
    statement (Q_reset d m) s [Q_send d m] (release (on (put_timeout false) s))
| st_q_send d m s : statement (Q_send d m) s [Q_key (appID (object s)) d m] s
| st_q_key a d m body s :
    request_bytes a (openSocketID (object s)) d = Some body ->
    statement (Q_key a d m) s [Q_write body m] s
| st_q_key_raises a d m s :
    request_bytes a (openSocketID (object s)) d = None ->
    statement (Q_key a d m) s [Q_returned (Raise UnicodeEncodeError)] s
| st_q_write body m s o :
    on_querier (send_data body) (object s) = (Ret tt, o) ->
    statement (Q_write body m) s [Q_wait m] (on (fun _ => o) s)
| st_q_write_raises body m s e o :
    on_querier (send_data body) (object s) = (Raise e, o) ->
    statement (Q_write body m) s [Q_returned (Raise e)] (on (fun _ => o) s)
| st_q_wait m s : query_event (object s) = true -> statement (Q_wait m) s [Q_relock true] s
| st_q_timeout m s : statement (Q_wait (Some m)) s [Q_relock false] s
| st_q_relock b s : _state_lock s = false -> statement (Q_relock b) s [Q_end b] (acquire s)
| st_q_end b s : statement (Q_end b) s [Q_test b] (on (put_querying false) s)
| st_q_test b s : statement (Q_test b) s [if b then Q_return else Q_late] s
| st_q_late s :
    statement Q_late s [Q_returned (Raise TimeoutError)] (release (on (put_timeout true) s))
| st_q_return s :
    statement Q_return s [Q_returned (Ret (query_result (object s)))] (release s)
(* query_async *)
| st_a_send d s : statement (A_send d) s [A_key (appID (object s)) d] s
| st_a_key a d body s :
    request_bytes a (openSocketID (object s)) d = Some body ->
    statement (A_key a d) s [A_write body] s
| st_a_key_raises a d s :
    request_bytes a (openSocketID (object s)) d = None -> statement (A_key a d) s [] s
| st_a_write body s :
    statement (A_write body) s [] (on (fun o => snd (on_querier (send_data body) o)) s)
(* _internal_data_recv *)
| st_i_decode d s : statement (I_decode d) s [I_lock (utf8_decode_replace d)] s
| st_i_lock x s : _state_lock s = false -> statement (I_lock x) s [I_test x] (acquire s)
| st_i_test_yes x s :
    is_querying (object s) && negb (_timeout_occurred (object s)) = true ->
    statement (I_test x) s [I_store x] s
| st_i_test_no x s :
    is_querying (object s) && negb (_timeout_occurred (object s)) = false ->
    statement (I_test x) s [I_callback x] (release s)
| st_i_store x s : statement (I_store x) s [I_set] (on (put_result (Some x)) s)
| st_i_set s : statement I_set s [] (release (on (put_event true) s))
| st_i_callback x s :
    statement (I_callback x) s
      (match callback (object s) with Some _ => [I_call x] | None => [] end) s
| st_i_call x s :
    statement (I_call x) s []
      (on (called x) s)
(* disconnect *)
| st_x_client s :
    statement X_client s [X_lock]
      (on (fun o => set_KLquerier (snd (TcpClient.disconnect (KLquerier o))) o) s)
| st_x_lock s : _state_lock s = false -> statement X_lock s [X_flag] (acquire s)
| st_x_flag s : statement X_flag s [X_set] (on (put_timeout true) s)
| st_x_set s : statement X_set s [] (release (on (put_event true) s))
(* set_config, set_RecvFunc *)
| st_o_config a i s : statement (O_config a i) s [O_socket i] (on (put_appID a) s)
| st_o_socket i s : statement (O_socket i) s [] (on (put_socketID i) s)
| st_o_callback c s : statement (O_callback c) s [] (on (fun o => snd (set_RecvFunc c o)) s).

(** A call of [query] that has not returned. *)
Definition active t : nat :=
  match t with
  | Q_lock _ _ | Q_result _ _ | Q_clear _ _ | Q_mark _ _ | Q_reset _ _ | Q_send _ _
  | Q_key _ _ _ | Q_write _ _ | Q_wait _
  | Q_relock _ | Q_end _ | Q_test _ | Q_late | Q_return => 1
  | _ => 0
  end.

(** The whole: a thread runs, a message arrives, a method is called, or the client
    below changes, in any way that does not open its socket again. [alone] says that [query] is only called when no other call of it is under way. *)
Inductive step (alone : bool) :
    shared U W * list (thread U) -> shared U W * list (thread U) -> Prop :=
| step_run c c' : run statement c c' -> step alone c c'
| step_message d s ts : step alone (s, ts) (arrive d s, I_decode d :: ts)
| step_query d m s ts :
    (alone = true -> sum_list_with active ts = 0%nat) ->
    step alone (s, ts) (s, Q_lock d m :: ts)
| step_async d s ts : step alone (s, ts) (s, A_send d :: ts)
| step_disconnect s ts : step alone (s, ts) (s, X_client :: ts)
| step_config a i s ts : step alone (s, ts) (s, O_config a i :: ts)
| step_callback c s ts : step alone (s, ts) (s, O_callback c :: ts)
| step_client k s ts :
    (closed (object s) -> sk_phase (tcp_socket k) = Closed) ->
    step alone (s, ts) (on (set_KLquerier k) s, ts).

(** A querier whose methods nobody is running. *)
Definition idle o : shared U W * list (thread U) := (Shared _ _ false o [], []).

(** ** Observers *)

(** The threads inside a block of [with self._state_lock]. *)
Definition critical t : nat :=
  match t with
  | Q_result _ _ | Q_clear _ _ | Q_mark _ _ | Q_reset _ _ | Q_end _ | Q_test _ | Q_late | Q_return
  | I_test _ | I_store _ | I_set | X_flag | X_set => 1
  | _ => 0
  end.

Definition locked s : nat := if _state_lock s then 1 else 0.

(** How many statements a thread still runs, at most. *)
Definition weight t : nat :=
  match t with
  | Q_lock _ _ => 13 | Q_result _ _ => 12 | Q_clear _ _ => 11 | Q_mark _ _ => 10 | Q_reset _ _ => 9
  | Q_send _ _ => 8 | Q_key _ _ _ => 7 | Q_write _ _ => 6 | Q_wait _ => 5 | Q_relock _ => 4 | Q_end _ => 3 | Q_test _ => 2
  | Q_late | Q_return => 1 | Q_returned _ => 0
  | A_send _ => 3 | A_key _ _ => 2 | A_write _ => 1
  | I_decode _ => 6 | I_lock _ => 5 | I_test _ => 4 | I_store _ => 2 | I_set => 1
  | I_callback _ => 2 | I_call _ => 1
  | X_client => 4 | X_lock => 3 | X_flag => 2 | X_set => 1
  | O_config _ _ => 2 | O_socket _ | O_callback _ => 1
  end.

(** A text that arrived. *)
Definition came s (x : pystr) : Prop := x ∈ utf8_decode_replace <$> arrived s.

(** The querier has a text for the caller, or is closed. *)
Definition answered s : Prop := is_Some (query_result (object s)) \/ closed (object s).

End steps.

(** ** Lemmas *)

Section lemmas.
Context {U W : Type} (app : U -> pystr -> W -> W).
Implicit Types (s : shared U W) (o : querier U W) (t u : thread U).

Lemma query_statement_lock t s new s' :
  statement app t s new s' -> (critical t <= locked s)%nat ->
  (sum_list_with critical new + locked s = critical t + locked s')%nat.
Proof.
  unfold locked. intros Hs. destruct Hs; simpl; repeat case_match; simplify_eq/=; lia.
Qed.

Lemma statement_active t s new s' :
  statement app t s new s' -> (sum_list_with active new <= active t)%nat.
Proof. intros Hs. destruct Hs; simpl; repeat case_match; simpl; lia. Qed.

Lemma query_statement_weight t s new s' :
  statement app t s new s' -> (sum_list_with weight new < weight t)%nat.
Proof. intros Hs. destruct Hs; simpl; repeat case_match; simpl; lia. Qed.

Lemma query_step_lock alone c c' :
  step app alone c c' -> sum_list_with critical c.2 = locked c.1 ->
  sum_list_with critical c'.2 = locked c'.1.
Proof.
  intros [c1 c2 Hr| | | | | | |]; simpl; try done.
  by apply (run_flag _ critical locked _ _ query_statement_lock).
Qed.

(** A callback does not touch the object. *)
Lemma called_fields x o :
  query_result (called app x o) = query_result o /\
  query_event (called app x o) = query_event o /\
  KLquerier (called app x o) = KLquerier o.
Proof. unfold called. by destruct (callback o). Qed.

(** Sending does not touch the object but for the client, and does not open its
    socket. *)
Lemma send_fields body o r o' :
  on_querier (send_data body) o = (r, o') ->
  exists k, o' = set_KLquerier k o /\ (closed o -> sk_phase (tcp_socket k) = Closed).
Proof.
  unfold on_querier, zoom, closed. pose proof (send_data_phase body (KLquerier o)) as Hp.
  destruct (send_data body (KLquerier o)) as [x k]. intros [= <- <-]. exists k. simpl in Hp.
  by rewrite Hp.
Qed.

(** The socket stays closed, whatever runs. *)
Lemma query_statement_closed t s new s' :
  statement app t s new s' -> closed (object s) -> closed (object s').
Proof.
  intros Hs Hc. unfold closed in *. destruct Hs; simpl; try done.
  - destruct (send_fields _ _ _ _ H) as (k & -> & Hk). by apply Hk.
  - destruct (send_fields _ _ _ _ H) as (k & -> & Hk). by apply Hk.
  - destruct (on_querier (send_data body) (object s)) as [r o] eqn:E.
    destruct (send_fields _ _ _ _ E) as (k & -> & Hk). by apply Hk.
  - by rewrite (proj2 (proj2 (called_fields _ _))).
  - by rewrite disconnect_eq.
Qed.

(** What is known where a thread is, when calls of [query] do not overlap. *)
Definition ok s t : Prop :=
  match t with
  | Q_mark _ _ | Q_reset _ _ | Q_send _ _ | Q_key _ _ _ | Q_write _ _
  | Q_wait _ =>
    query_event (object s) = true -> answered s
  | Q_relock true | Q_end true | Q_test true | Q_return => answered s
  | Q_returned (Ret r) => is_Some r \/ closed (object s)
  | I_set => is_Some (query_result (object s))
  | X_lock | X_flag | X_set => closed (object s)
  | _ => True
  end.

Lemma send_kept body o r o' :
  on_querier (send_data body) o = (r, o') ->
  query_result o' = query_result o /\ query_event o' = query_event o.
Proof. intros (k & -> & _)%send_fields. done. Qed.

Lemma write_kept body o :
  query_result (snd (on_querier (send_data body) o)) = query_result o /\
  query_event (snd (on_querier (send_data body) o)) = query_event o.
Proof.
  destruct (on_querier (send_data body) o) as [r o'] eqn:E. by apply (send_kept _ _ _ _ E).
Qed.

Lemma statement_ok t s new s' : statement app t s new s' -> ok s t -> Forall (ok s') new.
Proof.
  intros Hs Hok. pose proof (query_statement_closed _ _ _ _ Hs) as Hcl.
  unfold ok, answered in *.
  destruct Hs; simpl in *; repeat case_match;
    rewrite ?Forall_singleton, ?Forall_nil; simpl; try done; auto;
    try match goal with H : on_querier _ _ = _ |- _ => apply send_kept in H as [Hr He] end;
    try (unfold closed; by rewrite disconnect_eq).
  rewrite Hr, He. intros Hev. destruct (Hok Hev); auto.
Qed.

(** Two threads of a pool: at most one holds the lock, at most one is in [query]. *)
Definition meets t u : Prop :=
  (critical t = 0%nat \/ critical u = 0%nat) /\ (active t = 0%nat \/ active u = 0%nat).

(** The facts only depend on the result, the event and the socket. *)
Lemma ok_kept s s' u :
  query_result (object s') = query_result (object s) ->
  query_event (object s') = query_event (object s) ->
  (closed (object s) -> closed (object s')) -> ok s u -> ok s' u.
Proof.
  intros Hr He Hc. unfold ok, answered.
  destruct u; try done; rewrite ?Hr, ?He; repeat case_match; tauto.
Qed.

Lemma query_statement_other t s new s' u :
  statement app t s new s' -> ok s t -> meets t u -> ok s u -> ok s' u.
Proof.
  intros Hs Hok [Hm1 Hm2] Hu. pose proof (query_statement_closed _ _ _ _ Hs) as Hcl.
  destruct Hs; try (by apply (ok_kept s));
    try match goal with H : on_querier _ _ = _ |- _ => apply send_kept in H as [? ?] end;
    try (by apply (ok_kept s)); try (by apply (ok_kept s); [apply called_fields..| |]).
  - destruct u; simpl in *; try (exfalso; lia); try done; case_match; try done; tauto.
  - destruct u; simpl in *; try (exfalso; lia); try done; case_match; try done; tauto.
  - apply (ok_kept s); [..|done]; [| |done]; simpl;
      apply write_kept.
  - unfold ok, answered in *. simpl in *.
    destruct u; simpl in *; try (exfalso; lia); try done; repeat case_match; eauto.
  - unfold ok, answered in *. simpl in *.
    destruct u; simpl in *; try (exfalso; lia); try done; repeat case_match; eauto.
  - unfold ok, answered in *. simpl in *.
    destruct u; simpl in *; try (exfalso; lia); try done; repeat case_match; eauto.
Qed.

(** What is known of the texts, also when calls overlap. *)
Definition text_ok s t : Prop :=
  match t with
  | I_decode d => d ∈ arrived s
  | I_lock x | I_test x | I_store x => came s x
  | Q_returned (Ret (Some x)) => came s x
  | _ => True
  end.

Definition texts (c : shared U W * list (thread U)) : Prop :=
  (forall x, query_result (object c.1) = Some x -> came c.1 x) /\ Forall (text_ok c.1) c.2.

Lemma text_ok_kept s s' u : arrived s `prefix_of` arrived s' -> text_ok s u -> text_ok s' u.
Proof.
  intros [l Hl]. unfold text_ok, came. rewrite Hl, fmap_app.
  destruct u; try done; repeat case_match; try done; intros ?; apply elem_of_app; by left.
Qed.

Lemma statement_arrived t s new s' : statement app t s new s' -> arrived s' = arrived s.
Proof. intros Hs. by destruct Hs. Qed.

Lemma statement_texts t s new s' :
  statement app t s new s' -> text_ok s t ->
  (forall x, query_result (object s) = Some x -> came s x) ->
  (forall x, query_result (object s') = Some x -> came s' x) /\ Forall (text_ok s') new.
Proof.
  intros Hs Ht Hr. pose proof (statement_arrived _ _ _ _ Hs) as Ha.
  unfold came in *. rewrite Ha.
  destruct Hs; simpl in *; rewrite ?Forall_singleton, ?Forall_nil; unfold came; simpl;
    try match goal with H : on_querier _ _ = _ |- _ => apply send_kept in H as [-> _] end;
    try (by split); try (split; [naive_solver|repeat case_match; by repeat constructor]).
  - split; [done|]. destruct (query_result (object s)); [by apply Hr|done].
  - by rewrite (proj1 (write_kept _ _)).
  - split; [done|]. unfold came. by apply list_elem_of_fmap_2.
  - rewrite (proj1 (called_fields _ _)). by split.
Qed.

Lemma step_texts alone c c' : step app alone c c' -> texts c -> texts c'.
Proof.
  intros [c1 c2 [ts1 t ts2 s new s' Hs]|d s ts| | | | | |k s ts Hk] [Hr Hf]; simpl in *;
    try (split; [done|by constructor]).
  - apply Forall_app in Hf as [Hf1 Hf2]. apply Forall_cons in Hf2 as [Ht Hf2].
    destruct (statement_texts _ _ _ _ Hs Ht Hr) as [Hr' Hn].
    assert (forall us, Forall (text_ok s) us -> Forall (text_ok s') us) as Hkeep.
    { intros us Hus. eapply Forall_impl; [done|]. intros u. apply text_ok_kept.
      by rewrite (statement_arrived _ _ _ _ Hs). }
    split; [done|]. by repeat apply Forall_app_2; auto.
  - split; [|constructor].
    + intros x Hx. unfold came. simpl. rewrite fmap_app. apply elem_of_app. left. by apply Hr.
    + simpl. apply elem_of_app. right. apply list_elem_of_here.
    + eapply Forall_impl; [done|]. intros u. apply text_ok_kept. by exists [d].
  - split; [done|]. eapply Forall_impl; [done|]. intros u. by apply text_ok_kept.
Qed.

(** The invariant of the querier when calls of [query] do not overlap. *)
Definition alone_inv (c : shared U W * list (thread U)) : Prop :=
  (sum_list_with active c.2 <= 1)%nat /\
  sum_list_with critical c.2 = locked c.1 /\ Forall (ok c.1) c.2.

Lemma locked_le s : (locked s <= 1)%nat.
Proof. unfold locked. by destruct (_state_lock s); lia. Qed.

Lemma step_alone c c' : step app true c c' -> alone_inv c -> alone_inv c'.
Proof.
  intros Hst (Ha & Hl & Hok). pose proof (query_step_lock _ _ _ Hst Hl) as Hl'.
  split; [|split; [done|]]; clear Hl'.
  - destruct Hst as [c1 c2 Hr| |d m s ts H| | | | |k s ts Hk]; simpl in *; try done.
    + pose proof (run_count _ active (fun _ => 0%nat) _ _
        (fun t s new s' Hs => statement_active t s new s' Hs) Hr). simpl in *. lia.
    + rewrite H by done. lia.
  - destruct Hst as [c1 c2 Hr| | | | | | |k s ts Hk]; simpl in *; try (by constructor);
      [|eapply Forall_impl; [exact Hok|]; intros u; by apply ok_kept].
    apply (run_forall (statement app) ok meets c1 c2); [apply statement_ok|apply query_statement_other| |done..].
    intros ts1 t ts2 E. rewrite E in Ha, Hl. pose proof (locked_le c1.1).
    apply Forall_and. split; apply count_one; lia.
Qed.

(** What [query] has returned. *)
Lemma returned_text alone o s ts x :
  query_result o = None -> rtc (step app alone) (idle o) (s, ts) ->
  Q_returned (Ret (Some x)) ∈ ts -> exists d, d ∈ arrived s /\ x = utf8_decode_replace d.
Proof.
  intros Hn Hr Hin. assert (texts (s, ts)) as [_ Hf].
  { refine (steps_inv _ texts _ _ (step_texts alone) Hr _). split; [simpl; congruence|constructor]. }
  pose proof (proj1 (Forall_forall _ _) Hf _ Hin) as Hx. simpl in Hx.
  apply list_elem_of_fmap in Hx as (d & -> & Hd). by exists d.
Qed.

Lemma returned_alone o s ts r :
  rtc (step app true) (idle o) (s, ts) -> Q_returned (Ret r) ∈ ts -> is_Some r \/ closed (object s).
Proof.
  intros Hr Hin. assert (alone_inv (s, ts)) as (_ & _ & Hf).
  { apply (steps_inv _ alone_inv _ _ step_alone Hr). split; [simpl; lia|]. by split. }
  exact (proj1 (Forall_forall _ _) Hf _ Hin).
Qed.

(** ** Lemmas: who can run *)

(** A thread that waits for ever: for the event, or because it is over. *)
Definition waiting s t : Prop :=
  (exists r, t = Q_returned r) \/ (t = Q_wait None /\ query_event (object s) = false).

Lemma query_can_run t s :
  _state_lock s = false \/ critical t = 1%nat ->
  (exists new s', statement app t s new s') \/ waiting s t.
Proof.
  intros Hl. destruct t; simpl in Hl;
    try (left; eexists _, _; solve [econstructor; eauto]);
    try (left; destruct Hl; [|done]; eexists _, _; by econstructor).
  - left. destruct (request_bytes APPID (openSocketID (object s)) data) as [body|] eqn:E;
      eexists _, _; [by apply st_q_key|by apply st_q_key_raises].
  - left. destruct (on_querier (send_data body) (object s)) as [[[]|e|] o] eqn:E.
    + eexists _, _; by eapply st_q_write.
    + eexists _, _; by eapply st_q_write_raises.
    + exfalso. unfold on_querier, zoom in E.
      pose proof (send_data_not_stuck body (KLquerier (object s))) as Hn.
      destruct (send_data body (KLquerier (object s))). simpl in *. congruence.
  - destruct (query_event (object s)) eqn:E; [left; eexists _, _; by apply st_q_wait|].
    destruct timeout; [left; eexists _, _; by apply st_q_timeout|]. right. by right.
  - right. left. by eexists.
  - left. destruct (request_bytes APPID (openSocketID (object s)) data) as [body|] eqn:E;
      eexists _, _; [by apply st_a_key|by apply st_a_key_raises].
  - left. destruct (is_querying (object s) && negb (_timeout_occurred (object s))) eqn:E;
      eexists _, _; [by apply st_i_test_yes|by apply st_i_test_no].
Qed.

Lemma stuck_waits s ts :
  sum_list_with critical ts = locked s -> (forall c', ~ run (statement app) (s, ts) c') ->
  Forall (waiting s) ts.
Proof.
  intros Hl Hno.
  assert (forall t, t ∈ ts -> ~ exists new s', statement app t s new s') as Hno'.
  { intros t Ht (new & s' & Hs). destruct (run_in _ _ _ _ _ _ Ht Hs) as [c' Hc]. by eapply Hno. }
  assert (_state_lock s = false) as Hfree.
  { unfold locked in Hl. destruct (_state_lock s) eqn:E; [|done]. exfalso.
    destruct (count_some critical ts) as (t & Ht & Hc); [lia|].
    destruct (query_can_run t s) as [H|[[r ->]|[-> _]]]; [right; by destruct t| |done..]. by eapply Hno'. }
  apply Forall_forall. intros t Ht.
  destruct (query_can_run t s) as [H|H]; [by left| |done]. by destruct (Hno' t Ht).
Qed.

End lemmas.

(** ** Blocks that are not interrupted *)

Section blocks.
Context {U W : Type} (app : U -> pystr -> W -> W) (alone : bool).
Implicit Types (s : shared U W) (o : querier U W) (t u : thread U).

(** Thread [t] runs, between others, until it is at [u]. *)
Definition runs t s u s' : Prop :=
  forall ts1 ts2, rtc (step app alone) (s, ts1 ++ t :: ts2) (s', ts1 ++ u :: ts2).
Definition ends t s s' : Prop :=
  forall ts1 ts2, rtc (step app alone) (s, ts1 ++ t :: ts2) (s', ts1 ++ ts2).

Lemma runs_one t s u s' : statement app t s [u] s' -> runs t s u s'.
Proof. intros Hs ts1 ts2. by apply rtc_once, step_run, (run_thread _ ts1 t ts2 s [u]). Qed.

Lemma ends_one t s s' : statement app t s [] s' -> ends t s s'.
Proof. intros Hs ts1 ts2. by apply rtc_once, step_run, (run_thread _ ts1 t ts2 s []). Qed.

Lemma runs_trans t s u s' v s'' : runs t s u s' -> runs u s' v s'' -> runs t s v s''.
Proof. intros H1 H2 ts1 ts2. etrans; [apply H1|apply H2]. Qed.

Lemma ends_trans t s u s' s'' : runs t s u s' -> ends u s' s'' -> ends t s s''.
Proof. intros H1 H2 ts1 ts2. etrans; [apply H1|apply H2]. Qed.

(** [walk] runs the statements of a thread one after the other. *)
Ltac walk :=
  repeat first
    [ eapply ends_one; solve [econstructor; eauto]
    | eapply runs_one; solve [econstructor; eauto]
    | eapply ends_trans; [eapply runs_one; solve [econstructor; eauto]|]
    | eapply runs_trans; [eapply runs_one; solve [econstructor; eauto]|] ].

Lemma shared_eq s : _state_lock s = false -> Shared _ _ false (object s) (arrived s) = s.
Proof. destruct s. simpl. by intros ->. Qed.

Lemma run_begin d m s :
  _state_lock s = false -> runs (Q_lock d m) s (Q_send d m) (on (fun o => snd (query_begin o)) s).
Proof. intros Hl. destruct s as [l o a]. simpl in Hl. subst l. walk. Qed.

Lemma run_end (b : bool) s :
  _state_lock s = false ->
  runs (Q_relock b) s (Q_returned (fst (query_end b (object s))))
    (on (fun o => snd (query_end b o)) s).
Proof.
  intros Hl. destruct s as [l o a]. simpl in Hl. subst l.
  eapply runs_trans; [apply runs_one; by apply st_q_relock|].
  eapply runs_trans; [apply runs_one; apply st_q_end|].
  eapply runs_trans; [apply runs_one; apply st_q_test|].
  destruct b; apply runs_one; constructor.
Qed.

Lemma run_receive d s :
  _state_lock s = false ->
  ends (I_decode d) s (on (fun o => snd (_internal_data_recv (quiet_user app) d o)) s).
Proof.
  intros Hl. destruct s as [l o a]. simpl in Hl. subst l.
  eapply ends_trans; [apply runs_one, st_i_decode|].
  eapply ends_trans; [apply runs_one; by apply st_i_lock|].
  unfold _internal_data_recv, on. step. simpl.
  destruct (is_querying o && negb (_timeout_occurred o)) eqn:E.
  - eapply ends_trans; [apply runs_one; by apply st_i_test_yes|].
    eapply ends_trans; [apply runs_one, st_i_store|]. apply ends_one, st_i_set.
  - eapply ends_trans; [apply runs_one; by apply st_i_test_no|].
    destruct (callback o) as [c|] eqn:Ec.
    + eapply ends_trans; [apply runs_one; pose proof (st_i_callback app (utf8_decode_replace d)
        (release (acquire (Shared _ _ false o a)))) as Hs; simpl in Hs; rewrite Ec in Hs; exact Hs|].
      pose proof (st_i_call app (utf8_decode_replace d) (Shared _ _ false o a)) as Hs.
      unfold on, called in Hs. simpl in Hs. rewrite Ec in Hs. by apply ends_one.
    + pose proof (st_i_callback app (utf8_decode_replace d)
        (release (acquire (Shared _ _ false o a)))) as Hs. simpl in Hs. rewrite Ec in Hs.
      by apply ends_one.
Qed.

Lemma query_run_disconnect s :
  _state_lock s = false -> ends X_client s (on (fun o => snd (disconnect o)) s).
Proof.
  intros Hl. destruct s as [l o a]. simpl in Hl. subst l.
  eapply ends_trans; [apply runs_one, st_x_client|].
  eapply ends_trans; [apply runs_one; by apply st_x_lock|].
  eapply ends_trans; [apply runs_one, st_x_flag|].
  unfold on. rewrite querier_disconnect_eq.
  exact (ends_one _ _ _ (st_x_set app (on (put_timeout true) (Shared _ _ true
    (set_KLquerier (snd (TcpClient.disconnect (KLquerier o))) o) a)))).
Qed.

Lemma query_run_config a i s : ends (O_config a i) s (on (fun o => snd (set_config a i o)) s).
Proof. eapply ends_trans; [apply runs_one, st_o_config|]. exact (ends_one _ _ _ (st_o_socket app i (on (put_appID a) s))). Qed.

(** What [query] sends is what [query_async] of OpenSocketQuerier.v sends. *)
Lemma query_run_key d m s body :
  request (object s) d = Some body -> runs (Q_send d m) s (Q_write body m) s.
Proof.
  intros Hb. eapply runs_trans; [apply runs_one, st_q_send|]. by apply runs_one, st_q_key.
Qed.

End blocks.

(** ** The properties *)

(** Without interruption the statements are the methods. When no other thread
    comes between its statements, each part of the querier does what the method of
    OpenSocketQuerier.v does in one piece: the two blocks of [query] and the request
    between them, [_internal_data_recv], [disconnect] and [set_config]. *)
Theorem blocks_are_methods {U W : Type} (app : U -> pystr -> W -> W) (alone : bool)
    (s : shared U W) :
  _state_lock s = false ->
  (forall d m, runs app alone (Q_lock d m) s (Q_send d m) (on (fun o => snd (query_begin o)) s)) /\
  (forall d m body, request (object s) d = Some body ->
     runs app alone (Q_send d m) s (Q_write body m) s) /\
  (forall b, runs app alone (Q_relock b) s (Q_returned (fst (query_end b (object s))))
     (on (fun o => snd (query_end b o)) s)) /\
  (forall d, ends app alone (I_decode d) s
     (on (fun o => snd (_internal_data_recv (quiet_user app) d o)) s)) /\
  ends app alone X_client s (on (fun o => snd (disconnect o)) s) /\
  (forall a i, ends app alone (O_config a i) s (on (fun o => snd (set_config a i o)) s)).
Proof.
  intros Hl. split_and!; intros; [by apply run_begin|by apply query_run_key|by apply run_end|
    by apply run_receive|by apply query_run_disconnect|by apply query_run_config].
Qed.

(** What [query] returns is what its annotation says, with threads. In every
    interleaving of any number of calls of [query], of messages that arrive and of
    the other methods, a text that [query] returns is the text of a message that
    arrived. When calls of [query] do not overlap, it returns a text, and no
    [None], unless the querier was disconnected. At most one thread is inside a
    block of the lock, and then the lock is held. *)
Theorem query_threads {U W : Type} (app : U -> pystr -> W -> W) (alone : bool)
    (o : querier U W) (s : shared U W) (ts : list (thread U)) :
  query_result o = None -> rtc (step app alone) (idle o) (s, ts) ->
  (forall r, Q_returned (Ret r) ∈ ts ->
     (forall x, r = Some x -> exists d, d ∈ arrived s /\ x = utf8_decode_replace d) /\
     (alone = true -> is_Some r \/ closed (object s))) /\
  sum_list_with critical ts = if _state_lock s then 1%nat else 0%nat.
Proof.
  intros Hn Hr. split; [intros r Hin; split|].
  - intros x ->. by eapply (returned_text app).
  - intros ->. by eapply (returned_alone app).
  - change (sum_list_with critical (s, ts).2 = locked (s, ts).1).
    by refine (steps_inv _ (fun c => sum_list_with critical c.2 = locked c.1) _ _
      (query_step_lock app alone) Hr _).
Qed.

(** Who can wait for ever. The threads of a querier end, in whatever order
    they run; and when none of them can run any more, every thread that is left
    is a call of [query] that is over, or one without a time limit that waits for
    an event that is not set. Nobody waits for ever for the lock. *)
Theorem query_threads_end {U W : Type} (app : U -> pystr -> W -> W) (alone : bool)
    (o : querier U W) (s : shared U W) (ts : list (thread U)) :
  rtc (step app alone) (idle o) (s, ts) ->
  sn (run (statement app)) (s, ts) /\
  ((forall c', ~ run (statement app) (s, ts) c') ->
   forall t, t ∈ ts ->
     (exists r, t = Q_returned r) \/ (t = Q_wait None /\ query_event (object s) = false)).
Proof.
  intros Hr. split; [apply (weight_sn _ weight), query_statement_weight|].
  intros Hno. apply Forall_forall, (stuck_waits app s ts); [|done].
  by refine (steps_inv _ (fun c => sum_list_with critical c.2 = locked c.1) _ _
    (query_step_lock app alone) Hr _).
Qed.

(** ** Overlapping calls *)

Section overlap.
Context {U W : Type} (app : U -> pystr -> W -> W).

(** A call of [query] runs until it waits. *)
Lemma run_query d m (s : shared U W) ts :
  _state_lock s = false ->
  fst (query_async d (snd (query_begin (object s)))) = Ret tt ->
  rtc (step app false) (s, ts)
    (on (fun o => snd (query_async d (snd (query_begin o)))) s, Q_wait m :: ts).
Proof.
  intros Hl Hq. eapply rtc_l; [by apply (step_query app false d m)|].
  etrans; [apply (run_begin app false d m s Hl [] ts)|].
  set (s1 := on _ s). change (snd (query_begin (object s))) with (object s1) in Hq.
  rewrite query_async_eq in Hq.
  assert ((on (fun o => snd (query_async d (snd (query_begin o)))) s) =
    on (fun o => snd (query_async d o)) s1) as -> by done.
  destruct (request (object s1) d) as [body|] eqn:Eb; [|done].
  etrans; [by apply (query_run_key app false d m s1 body Eb [] ts)|].
  apply rtc_once, step_run, (run_thread _ [] (Q_write body m) ts _ [Q_wait m]).
  destruct (on_querier (send_data body) (object s1)) as [res o] eqn:E. simpl in Hq. subst res.
  pose proof (st_q_write app body m s1 o E) as Hs. unfold on in *. simpl in *.
  by rewrite query_async_eq, Eb, E.
Qed.

(** A message arrives and is handled. *)
Lemma run_message d (s : shared U W) ts :
  _state_lock s = false ->
  rtc (step app false) (s, ts)
    (on (fun o => snd (_internal_data_recv (quiet_user app) d o)) (arrive d s), ts).
Proof.
  intros Hl. eapply rtc_l; [apply step_message|].
  by apply (run_receive app false d (arrive d s) Hl [] ts).
Qed.

(** A call of [query] that waits for an event that is set returns. *)
Lemma run_return m (s : shared U W) ts1 ts2 :
  _state_lock s = false -> query_event (object s) = true ->
  rtc (step app false) (s, ts1 ++ Q_wait m :: ts2)
    (on (fun o => snd (query_end true o)) s,
     ts1 ++ Q_returned (fst (query_end true (object s))) :: ts2).
Proof.
  intros Hl He. etrans; [by apply (runs_one app false _ _ _ _ (st_q_wait app m s He))|].
  by apply (run_end app false true s Hl).
Qed.

End overlap.

(** C37: Overlapping calls of [query] get each other's answers. Although the state
    is protected by a lock, the querier holds one result for all callers. Two
    calls that overlap can both return the answer to the first one, while the
    answer to the second goes to the callback; and when a second call begins
    just after the first one was woken, the first one returns [None]: nobody
    disconnected, and its answer has come. *)
Theorem overlapping_queries :
  let one := str_of "one" in let two := str_of "two" in
  (exists s ts, rtc (step ex_app false) (idle ex_querier) (s, ts) /\
     ts = [Q_returned (Ret (Some one)); Q_returned (Ret (Some one))] /\
     world (object s) = [two] /\ arrived s = [bytes_of "one"; bytes_of "two"]) /\
  (exists s ts, rtc (step ex_app false) (idle ex_querier) (s, ts) /\
     ts = [Q_wait None; Q_returned (Ret None)] /\
     ~ closed (object s) /\ arrived s = [bytes_of "one"]).
Proof.
  intros one two. split.
  - eexists _, _. split.
    + etrans; [by apply (run_query ex_app one None)|].
      etrans; [by apply (run_query ex_app two None)|].
      etrans; [by apply (run_message ex_app (bytes_of "one"))|].
      etrans; [by apply (run_return ex_app None _ [])|].
      etrans; [by apply (run_return ex_app None _ [Q_returned _])|].
      etrans; [by apply (run_message ex_app (bytes_of "two"))|]. apply rtc_refl.
    + by vm_compute.
  - eexists _, _. split.
    + etrans; [by apply (run_query ex_app one None)|].
      etrans; [by apply (run_message ex_app (bytes_of "one"))|].
      eapply rtc_l; [apply step_run, (run_thread _ [] (Q_wait None) [] _ [Q_relock true]);
        by apply st_q_wait|].
      etrans; [by apply (run_query ex_app two None)|].
      refine (run_end ex_app false true _ _ [Q_wait None] []). done.
    + split_and!; [by vm_compute|by vm_compute|by vm_compute].
Qed.

(** ** Witnesses *)

Definition ex_alone : shared unit (list pystr) * list (thread unit) :=
  (Shared _ _ false ex_querier [], []).

Definition ex_answered : shared unit (list pystr) :=
  on (fun o => snd (_internal_data_recv (quiet_user ex_app) (bytes_of "pong") o))
    (arrive (bytes_of "pong")
      (on (fun o => snd (query_async (str_of "ping") (snd (query_begin o)))) (fst ex_alone))).

Definition ex_over : shared unit (list pystr) := on (fun o => snd (query_end true o)) ex_answered.

Lemma ex_over_reached :
  rtc (step ex_app false) (idle ex_querier) (ex_over, [Q_returned (Ret (Some (str_of "pong")))]).
Proof.
  etrans; [by apply (run_query ex_app (str_of "ping") None)|].
  etrans; [by apply (run_message ex_app (bytes_of "pong"))|].
  etrans; [by apply (run_return ex_app None _ [] [])|]. apply rtc_refl.
Qed.

Lemma blocks_are_methods_witness :
  ends ex_app false (I_decode (bytes_of "pong")) (fst ex_alone)
    (on (fun o => snd (_internal_data_recv (quiet_user ex_app) (bytes_of "pong") o)) (fst ex_alone)).
Proof. by apply (blocks_are_methods ex_app false (fst ex_alone) eq_refl). Defined.

Lemma query_threads_witness :
  exists d, d ∈ arrived ex_over /\ str_of "pong" = utf8_decode_replace d.
Proof.
  destruct (query_threads ex_app false ex_querier ex_over
    [Q_returned (Ret (Some (str_of "pong")))] eq_refl ex_over_reached) as [H _].
  by apply (H _ (list_elem_of_here _ _)).
Defined.

Lemma query_threads_end_witness :
  sn (run (statement ex_app)) (ex_over, [Q_returned (Ret (Some (str_of "pong")))]).
Proof.
  apply (query_threads_end ex_app false ex_querier ex_over _ ex_over_reached).
Defined.
