(* ===== verification/ResponserThreads.v ===== *)
(** * The threads of a Python [OpenSocketResponser], statement by statement

    OpenSocketResponser.v runs the body of the worker's loop in one piece. Here
    [_internal_data_recv], [_process_queue], [set_RecvFunc] and [disconnect] of
    knotlink-sdk-python/knotlink/knotlink/OpenSocketResponser.py are cut into their
    statements; line numbers are those of the file. [Queue] is safe for threads:
    its methods are single steps. The callback runs in one piece, and so does
    [sendBack], for the worker and for the application, which may call it at any
    time; what the threads of the client below do is any change of it,
    or, with [once], any change that does not connect it again. ResponserSystem.v
    has the statements of the client as well. *)

From S2P Require Export Threads OpenSocketResponser.

(** What the threads share: the object, and, as history, the messages that
    arrived, the requests the worker took from the queue, the callbacks and the
    requests they were called with, and the answers for which [sendBack] has
    returned to the worker, whether the client could send them or not. *)
Record shared {U W : Type} := Shared {
  object : responser U W;
  arrived : list bytes;
  taken : list (pystr * pystr);
  asked : list (U * (pystr * pystr));
  handed_back : list (pystr * pystr) }.
Arguments shared U W : clear implicits.

(** Where a thread is: the statement it runs next. *)
Inductive thread {U : Type} :=
| I_parse (data : bytes)                       (* 43-46: the try block *)
| I_put (payload : bytes) (key : pystr)        (* 51, 52: if payload: put *)
| P_test                                       (* 56: while self.KLresponser.connected *)
| P_get                                        (* 58: self.data_queue.get(timeout=0.5) *)
| P_func (payload key : pystr)                 (* 64: if self.recv_func *)
| P_call (payload key : pystr)                 (* 65: self.recv_func(payload) *)
| P_back (response key : pystr)                (* 67: self.sendBack(response, key) *)
| P_done (raised : bool)                       (* 69: self.data_queue.task_done() *)
| A_back (response key : pystr)                (* 36-39: sendBack, called by the application *)
| X_client                                     (* 82: self.KLresponser.disconnect() *)
| O_func (f : U).                              (* 77: self.recv_func = recv_func *)
Arguments thread U : clear implicits.

Section steps.
Context {U W : Type}.
Implicit Types (s : shared U W) (o : responser U W) (t : thread U).

(** The callback of the application: what it returns or raises, and what it does
    to the application's state. *)
Variable app : U -> pystr -> W -> outcome (option pystr) * W.

Definition on (f : responser U W -> responser U W) s : shared U W :=
  Shared _ _ (f (object s)) (arrived s) (taken s) (asked s) (handed_back s).
Definition arrive (d : bytes) s : shared U W :=
  Shared _ _ (object s) (arrived s ++ [d]) (taken s) (asked s) (handed_back s).
Definition take_request (x : pystr * pystr) s : shared U W :=
  Shared _ _ (object s) (arrived s) (taken s ++ [x]) (asked s) (handed_back s).
Definition ask (c : U) (x : pystr * pystr) s : shared U W :=
  Shared _ _ (object s) (arrived s) (taken s) (asked s ++ [(c, x)]) (handed_back s).
Definition hand_back (x : pystr * pystr) s : shared U W :=
  Shared _ _ (object s) (arrived s) (taken s) (asked s) (handed_back s ++ [x]).

(** One statement of a thread: where the thread is then, with the state. An
    exception of the callback or of [sendBack] runs the [finally] block and ends
    the worker; a callback that does not return has no statement. *)
Inductive statement : thread U -> shared U W -> list (thread U) -> shared U W -> Prop :=
(* _internal_data_recv *)
| st_i_parse d s :
    statement (I_parse d) s
      (match fst (parse_request d (object s)) with
       | Ret (key, payload) => [I_put payload key]
       | _ => []
       end) s
| st_i_put payload key s :
    statement (I_put payload key) s []
      (if bool_decide (payload = []) then s
       else on (fun o => snd (queue_put (utf8_decode_replace payload, key) o)) s)
(* _process_queue *)
| st_p_test s :
    statement P_test s (if _connected_event (KLresponser (object s)) then [P_get] else []) s
| st_p_get payload key o s :
    queue_get (object s) = (Ret (payload, key), o) ->
    statement P_get s [P_func payload key] (take_request (payload, key) (on (fun _ => o) s))
| st_p_empty o s :
    queue_get (object s) = (Raise QueueEmpty, o) -> statement P_get s [P_test] s
| st_p_func payload key s :
    statement (P_func payload key) s
      (match recv_func (object s) with
       | Some _ => [P_call payload key]
       | None => [P_done false]
       end) s
| st_p_call payload key c response w s :
    recv_func (object s) = Some c ->
    app c payload (world (object s)) = (Ret response, w) ->
    statement (P_call payload key) s
      (match response with Some r => [P_back r key] | None => [P_done false] end)
      (ask c (payload, key) (on (set_world w) s))
| st_p_call_raises payload key c e w s :
    recv_func (object s) = Some c ->
    app c payload (world (object s)) = (Raise e, w) ->
    statement (P_call payload key) s [P_done true]
      (ask c (payload, key) (on (set_world w) s))
| st_p_back r key o s :
    sendBack r key (object s) = (Ret tt, o) ->
    statement (P_back r key) s [P_done false] (hand_back (r, key) (on (fun _ => o) s))
| st_p_back_raises r key e o s :
    sendBack r key (object s) = (Raise e, o) ->
    statement (P_back r key) s [P_done true] (on (fun _ => o) s)
| st_p_done (raised : bool) o s :
    task_done (object s) = (Ret tt, o) ->
    statement (P_done raised) s (if raised then [] else [P_test]) (on (fun _ => o) s)
| st_p_done_raises raised e o s :
    task_done (object s) = (Raise e, o) -> statement (P_done raised) s [] s
(* sendBack, disconnect, set_RecvFunc; an exception goes to the application *)
| st_a_back r key s : statement (A_back r key) s [] (on (fun o => snd (sendBack r key o)) s)
| st_x_client s : statement X_client s [] (on (fun o => snd (disconnect o)) s)
| st_o_func f s : statement (O_func f) s [] (on (fun o => snd (set_RecvFunc f o)) s).

(** The receive thread of the client, while it is in the callback. *)
Definition receiving t : nat := match t with I_parse _ | I_put _ _ => 1 | _ => 0 end.

(** The whole: a thread runs, the receive thread of the client calls back, a
    method is called, or the client below changes. [once] says that the client is
    never connected again. *)
Inductive step (once : bool) : shared U W * list (thread U) -> shared U W * list (thread U) -> Prop :=
| step_run c c' : run statement c c' -> step once c c'
| step_message d s ts :
    sum_list_with receiving ts = 0%nat -> step once (s, ts) (arrive d s, I_parse d :: ts)
| step_disconnect s ts : step once (s, ts) (s, X_client :: ts)
| step_func f s ts : step once (s, ts) (s, O_func f :: ts)
| step_back r key s ts : step once (s, ts) (s, A_back r key :: ts)
| step_client (k : tcp unit) s ts :
    (once = true -> _connected_event (KLresponser (object s)) = false -> _connected_event k = false) ->
    step once (s, ts) (on (set_KLresponser k) s, ts).

(** A responser when [__init__] has started its worker. *)
Definition started o : shared U W * list (thread U) := (Shared _ _ o [] [] [] [], [P_test]).

(** ** The abstract server *)

(** The answers to requests that are handled one after the other, each under the
    key of its request, and the application after them. *)
Fixpoint replay (reqs : list (U * (pystr * pystr))) (w : W) : list (pystr * pystr) * W :=
  match reqs with
  | [] => ([], w)
  | (c, (payload, key)) :: reqs =>
    let '(o, w) := app c payload w in
    let '(rs, w) := replay reqs w in
    (match o with Ret (Some r) => (r, key) :: rs | _ => rs end, w)
  end.

(** ** Observers *)

Definition working t : nat :=
  match t with P_test | P_get | P_func _ _ | P_call _ _ | P_back _ _ | P_done _ => 1 | _ => 0 end.

(** The worker has taken a request and not called [task_done] for it. *)
Definition holding t : nat :=
  match t with P_func _ _ | P_call _ _ | P_back _ _ | P_done _ => 1 | _ => 0 end.

(** The worker is about to take one more request. *)
Definition getting t : nat := match t with P_get => 1 | _ => 0 end.

(** The request the receive thread has in hand. *)
Definition in_hand t : list (pystr * pystr) :=
  match t with
  | I_parse d => omap accept [d]
  | I_put payload key =>
    if bool_decide (payload = []) then [] else [(utf8_decode_replace payload, key)]
  | _ => []
  end.

(** How many statements a thread still runs, at most, on a client that is not
    connected. *)
Definition weight t : nat :=
  match t with
  | I_parse _ => 2 | I_put _ _ => 1
  | P_test => 1 | P_get => 6 | P_func _ _ => 5 | P_call _ _ => 4 | P_back _ _ => 3 | P_done _ => 2
  | A_back _ _ | X_client | O_func _ => 1
  end.

End steps.

(** ** Lemmas *)

Section lemmas.
Context {U W : Type} (app : U -> pystr -> W -> outcome (option pystr) * W) (once : bool).
Implicit Types (s : shared U W) (o : responser U W) (t u : thread U).

Lemma parse_request_accept d o :
  omap accept [d] =
    match fst (parse_request d o) with
    | Ret (key, payload) => in_hand (U:=U) (I_put payload key)
    | _ => []
    end.
Proof.
  simpl. unfold accept, parse_request, cut, index, decode. step.
  destruct (find_sub DELIM_BYTES d) as [i|]; simpl; [|done].
  unfold slice, slice_from. rewrite Z.sub_0_r, Nat2Z.id.
  change (Z.to_nat 0) with 0%nat. rewrite drop_0.
  replace (Z.to_nat (Z.of_nat i + 3)) with (i + 3)%nat by lia.
  destruct (utf8_decode (take i d)); simpl; [|done]. by case_bool_decide.
Qed.

(** [sendBack] changes nothing but the client, and does not connect it. *)
Lemma sendBack_client r key o :
  exists k, snd (sendBack r key o) = set_KLresponser k o /\
    (_connected_event (KLresponser o) = false -> _connected_event k = false).
Proof.
  rewrite sendBack_eq.
  destruct (utf8_encode (key ++ DELIM)) as [kb|], (utf8_encode r) as [rb|];
    try (exists (KLresponser o); split; [by destruct o|done]).
  unfold on_responser, zoom.
  destruct (write_cases (kb ++ rb) (KLresponser o)) as (out & sk & c & -> & _ & Hc & _).
  eexists. split; [done|]. simpl. intros Hoff. destruct c; [|done]. by rewrite Hc in Hoff.
Qed.

Lemma sendBack_same r key o res o' :
  sendBack r key o = (res, o') ->
  exists k, o' = set_KLresponser k o /\
    (_connected_event (KLresponser o) = false -> _connected_event k = false).
Proof. intros E. pose proof (sendBack_client r key o) as H. by rewrite E in H. Qed.

Lemma task_done_Ret o o' :
  task_done o = (Ret tt, o') ->
  exists n, unfinished_tasks o = S n /\ o' = set_queue (data_queue o) n o.
Proof. unfold task_done. destruct (unfinished_tasks o) as [|n]; [done|]. intros [= <-]. by exists n. Qed.

Lemma queue_get_Ret o x o' :
  queue_get o = (Ret x, o') ->
  exists q, data_queue o = x :: q /\ o' = set_queue q (unfinished_tasks o) o.
Proof.
  unfold queue_get. destruct (data_queue o) as [|y q]; [done|]. intros [= -> <-]. by exists q.
Qed.

Lemma disconnect_same o :
  exists k, snd (disconnect o) = set_KLresponser k o /\ _connected_event k = false.
Proof.
  unfold disconnect, on_responser, zoom. rewrite disconnect_eq. eexists. split; [done|].
  simpl. by destruct (heart_beat_timer (KLresponser o)).
Qed.

(** [calls] puts in what the calls of a statement are known to do. *)
Ltac calls :=
  repeat match goal with
    | H : sendBack _ _ _ = _ |- _ => apply sendBack_same in H as (? & -> & ?)
    | H : task_done _ = (Ret _, _) |- _ => apply task_done_Ret in H as (? & ? & ->)
    | H : queue_get _ = (Ret _, _) |- _ => apply queue_get_Ret in H as (? & ? & ->)
    | |- context [snd (sendBack ?r ?k ?o)] => destruct (sendBack_client r k o) as (? & -> & ?)
    | |- context [disconnect ?o] => destruct (disconnect_same o) as (? & -> & ?)
    end.

(** ** The counts *)

Lemma statement_working t s new s' :
  statement app t s new s' -> (sum_list_with working new <= working t)%nat.
Proof. intros Hs. destruct Hs; simpl; repeat case_match; simpl; lia. Qed.

Lemma statement_receiving t s new s' :
  statement app t s new s' -> (sum_list_with receiving new <= receiving t)%nat.
Proof. intros Hs. destruct Hs; simpl; repeat case_match; simpl; lia. Qed.

(** The tasks that are not done are those in the queue and the one in hand. *)
Definition tasks (c : shared U W * list (thread U)) : Prop :=
  unfinished_tasks (object c.1) =
    (length (data_queue (object c.1)) + sum_list_with holding c.2)%nat.

Lemma statement_tasks t s new s' :
  statement app t s new s' ->
  (holding t = 0 \/ 0 < unfinished_tasks (object s))%nat ->
  (unfinished_tasks (object s') + length (data_queue (object s)) + holding t =
   unfinished_tasks (object s) + length (data_queue (object s')) + sum_list_with holding new)%nat.
Proof.
  intros Hs Hpos. destruct Hs; simpl in *; calls; simpl; repeat case_match; simpl;
    rewrite ?length_app; simpl; try lia.
  - match goal with H : data_queue _ = _ |- _ => rewrite H end. simpl. lia.
  - destruct Hpos as [|Hpos]; [done|]. unfold task_done in *.
    by destruct (unfinished_tasks (object s)); [lia|].
Qed.

Lemma step_tasks c c' :
  step app once c c' -> tasks c -> tasks c'.
Proof.
  intros [c1 c2 [ts1 t ts2 s new s' Hs]|d s ts Hi|s ts|f s ts|r key s ts|k s ts Hk] Ht; try done.
  unfold tasks in *. simpl in *. rewrite !sum_list_with_app in *. simpl in *.
  assert (holding t = 0 \/ 0 < unfinished_tasks (object s))%nat as Hpos by lia.
  pose proof (statement_tasks t s new s' Hs Hpos). lia.
Qed.

Lemma step_working c c' :
  step app once c c' -> (sum_list_with working c.2 <= 1)%nat -> (sum_list_with working c'.2 <= 1)%nat.
Proof.
  intros [c1 c2 Hr|d s ts Hi|s ts|f s ts|r key s ts|k s ts Hk] Ht; try done.
  pose proof (run_count (statement app) working (fun _ => 0%nat) _ _ statement_working Hr). lia.
Qed.

Lemma step_receiving c c' :
  step app once c c' -> (sum_list_with receiving c.2 <= 1)%nat ->
  (sum_list_with receiving c'.2 <= 1)%nat.
Proof.
  intros [c1 c2 Hr|d s ts Hi|s ts|f s ts|r key s ts|k s ts Hk] Ht; simpl in *; try done; try lia.
  pose proof (run_count (statement app) receiving (fun _ => 0%nat) _ _ statement_receiving Hr). lia.
Qed.

(** ** The queue *)

(** Every accepted request was taken, or waits, or is in hand, in this order. *)
Definition queued (c : shared U W * list (thread U)) : Prop :=
  omap accept (arrived c.1) =
    taken c.1 ++ data_queue (object c.1) ++ flat_map in_hand c.2.

Lemma in_hand_none t : receiving t = 0%nat -> in_hand (U:=U) t = [].
Proof. by destruct t. Qed.

Lemma in_hand_le ts :
  (length (flat_map (in_hand (U:=U)) ts) <= sum_list_with receiving ts)%nat.
Proof.
  induction ts as [|t ts IH]; simpl; [lia|]. rewrite length_app.
  assert (length (in_hand t) <= receiving t)%nat; [|lia].
  destruct t; cbn [in_hand receiving length]; try lia; [simpl|]; case_match; simpl; lia.
Qed.

Lemma in_hand_nil ts : sum_list_with receiving ts = 0%nat -> flat_map (in_hand (U:=U)) ts = [].
Proof.
  induction ts as [|t ts IH]; simpl; intros H; [done|].
  rewrite IH, in_hand_none by lia. done.
Qed.

Lemma statement_queued t s new s' :
  statement app t s new s' ->
  arrived s' = arrived s /\
  exists l, taken s' ++ data_queue (object s') = (taken s ++ data_queue (object s)) ++ l /\
    in_hand t = l ++ flat_map in_hand new.
Proof.
  intros Hs. destruct Hs; simpl; calls; simpl;
    try (split; [done|]; exists []; rewrite app_nil_r; split; [done|];
         repeat case_match; done).
  - split; [done|]. exists []. rewrite app_nil_r. split; [done|].
    change (omap accept [d] = flat_map in_hand
      match fst (parse_request d (object s)) with Ret (key, payload) => [I_put (U:=U) payload key] | _ => [] end).
    rewrite (parse_request_accept d (object s)).
    destruct (fst _) as [[key payload]| |]; simpl; by rewrite ?app_nil_r.
  - case_bool_decide; simpl; (split; [done|]).
    + exists []. split; [by rewrite app_nil_r|done].
    + eexists [_]. split; [by rewrite app_assoc|done].
  - split; [done|]. exists []. rewrite app_nil_r.
    match goal with H : data_queue _ = _ |- _ => rewrite H end. by rewrite <- app_assoc.
Qed.

Lemma step_queued c c' :
  step app once c c' -> (sum_list_with receiving c.2 <= 1)%nat -> queued c -> queued c'.
Proof.
  intros [c1 c2 [ts1 t ts2 s new s' Hs]|d s ts Hi|s ts|f s ts|r key s ts|k s ts Hk] Hle Hq; try done;
    unfold queued in *; simpl in *.
  - destruct (statement_queued t s new s' Hs) as [Ha (l & Hl & Ht)].
    rewrite Ha, Hq, !app_assoc, Hl, !flat_map_app. cbn [flat_map]. rewrite Ht.
    destruct (decide (receiving t = 0%nat)) as [E|E].
    + rewrite in_hand_none in Ht by done. symmetry in Ht. apply app_nil in Ht as [-> ->].
      by rewrite !app_nil_r.
    + rewrite sum_list_with_app in Hle. simpl in Hle.
      rewrite (in_hand_nil ts1) by (destruct t; simpl in *; lia).
      cbn [List.app]. by rewrite <- !app_assoc.
  - rewrite omap_app, Hq, in_hand_nil by done. by rewrite !app_nil_r, <- !app_assoc.
Qed.

(** ** The worker *)

(** What was handed to [sendBack], and the application, are those of the abstract
    server, but for an answer for which it has not returned yet, or has raised. *)
Definition served (w0 : W) s : Prop :=
  map snd (asked s) `sublist_of` taken s /\
  world (object s) = (replay app (asked s) w0).2 /\
  exists rest, (replay app (asked s) w0).1 = handed_back s ++ rest /\ (length rest <= 1)%nat.

(** What is known where the worker is. *)
Definition worker_ok (w0 : W) s t : Prop :=
  match t with
  | P_test | P_get | P_done false => (replay app (asked s) w0).1 = handed_back s
  | P_func payload key | P_call payload key =>
    (replay app (asked s) w0).1 = handed_back s /\
    exists l, taken s = l ++ [(payload, key)] /\ map snd (asked s) `sublist_of` l
  | P_back r key => (replay app (asked s) w0).1 = handed_back s ++ [(r, key)]
  | _ => True
  end.

Lemma replay_snoc reqs c payload key w :
  replay app (reqs ++ [(c, (payload, key))]) w =
    let '(rs, w') := replay app reqs w in
    let '(o, w'') := app c payload w' in
    (rs ++ match o with Ret (Some r) => [(r, key)] | _ => [] end, w'').
Proof.
  revert w. induction reqs as [|[c' [p' k']] reqs IH]; intros w; simpl.
  - destruct (app c payload w) as [[[]| |] w']; done.
  - destruct (app c' p' w) as [o w1]. rewrite IH.
    destruct (replay app reqs w1) as [rs w2]. destruct (app c payload w2) as [o' w3].
    by destruct o as [[]| |].
Qed.

(** A call of the callback. *)
Lemma ask_served w0 s c payload key res w :
  worker_ok w0 s (P_call payload key) -> served w0 s ->
  app c payload (world (object s)) = (res, w) ->
  let s' := ask c (payload, key) (on (set_world w) s) in
  served w0 s' /\
  (replay app (asked s') w0).1 =
    handed_back s ++ match res with Ret (Some r) => [(r, key)] | _ => [] end.
Proof.
  intros (Hr & l & Hl & Hsub) (_ & Hw & _) Happ s'.
  assert (replay app (asked s') w0 =
    (handed_back s ++ match res with Ret (Some r) => [(r, key)] | _ => [] end, w)) as E.
  { simpl. rewrite replay_snoc. destruct (replay app (asked s) w0) as [rs w1]. simpl in *. subst.
    by rewrite Happ. }
  split; [|by rewrite E]. split_and!.
  - simpl. rewrite map_app, Hl. by apply sublist_app.
  - by rewrite E.
  - rewrite E. eexists. split; [done|]. destruct res as [[]| |]; simpl; lia.
Qed.

Lemma statement_served w0 t s new s' :
  statement app t s new s' -> worker_ok w0 s t -> served w0 s ->
  served w0 s' /\ Forall (worker_ok w0 s') new.
Proof.
  intros Hs Hok Hsv. pose proof Hsv as (Hsub & Hw & rest & Hr & Hlen).
  destruct Hs; simpl in *; calls; simpl;
    try (by split; [done|repeat case_match; repeat constructor]).
  - split; [|constructor]. by case_bool_decide.
  - split.
    + split; [simpl; by apply sublist_inserts_r|]. split; [done|]. by exists rest.
    + constructor; [|done]. split; [done|]. by exists (taken s).
  - split; [done|]. case_match; (constructor; [|done]); [done|by destruct Hok].
  - destruct (ask_served w0 s c payload key _ w Hok Hsv ltac:(done)) as [Hsv' Hr']. split; [done|].
    case_match; (constructor; [|done]); simpl in *; [done|by rewrite Hr', app_nil_r].
  - destruct (ask_served w0 s c payload key _ w Hok Hsv ltac:(done)) as [Hsv' _].
    split; [done|]. by repeat constructor.
  - split; [|by repeat constructor]. split; [done|]. split; [done|]. exists []. simpl.
    rewrite app_nil_r. split; [done|lia].
  - split; [|done]. split; [done|]. split; [|by exists rest]. simpl.
    by destruct (sendBack_client r key (object s)) as (k & -> & _).
  - split; [|done]. split; [done|]. split; [|by exists rest]. simpl.
    by destruct (disconnect_same (object s)) as (k & -> & _).
Qed.

(** The other threads do not touch what the worker relies on. *)
Lemma statement_other_served w0 t s new s' u :
  statement app t s new s' -> working t = 0%nat \/ working u = 0%nat ->
  worker_ok w0 s u -> worker_ok w0 s' u.
Proof.
  intros Hs [Ht|Hu]; [|by destruct u].
  assert (asked s' = asked s /\ handed_back s' = handed_back s /\ taken s' = taken s) as (Ha & Hr & Hk)
    by (destruct Hs; simpl in *; try done; by case_bool_decide).
  unfold worker_ok. by rewrite Ha, Hr, Hk.
Qed.

Definition serving (w0 : W) (c : shared U W * list (thread U)) : Prop :=
  (sum_list_with working c.2 <= 1)%nat /\ served w0 c.1 /\ Forall (worker_ok w0 c.1) c.2.

Lemma step_serving w0 c c' : step app once c c' -> serving w0 c -> serving w0 c'.
Proof.
  intros Hs (Hw & Hsv & Hok). split; [by apply (step_working c)|].
  destruct Hs as [c1 c2 Hr|d s ts Hi|s ts|f s ts|r key s ts|k s ts Hk]; simpl in *;
    try (split; [done|]; by repeat constructor).
  assert (Forall (fun t => served w0 c1.1 /\ worker_ok w0 c1.1 t) c1.2) as Hboth
    by (eapply Forall_impl; [exact Hok|by split]).
  assert (Forall (fun t => served w0 c2.1 /\ worker_ok w0 c2.1 t) c2.2) as Hpool.
  { refine (run_forall (statement app) (fun s t => served w0 s /\ worker_ok w0 s t)
      (fun t u => working t = 0%nat \/ working u = 0%nat) c1 c2 _ _ _ Hr Hboth).
    - intros t s new s' Hs [Hsv' Hok']. destruct (statement_served w0 t s new s' Hs Hok' Hsv').
      by apply Forall_and; split; [apply Forall_true|].
    - intros t s new s' u Hs [Hsv' Hok'] Hm [_ Hu]. split; [by eapply statement_served|].
      by eapply statement_other_served.
    - intros ts1 t ts2 E. apply count_one. by rewrite <- E. }
  apply Forall_and in Hpool as [_ Hpool]. split; [|done].
  destruct Hr as [ts1 t ts2 s new s' Hs]. simpl in *.
  apply Forall_app in Hok as [_ Hok]. apply Forall_cons in Hok as [Hok _].
  by eapply statement_served.
Qed.

(** ** The end *)

(** The client is not connected, and stays so. *)
Definition off s : Prop := _connected_event (KLresponser (object s)) = false.

Lemma responser_statement_off t s new s' :
  statement app t s new s' -> off s ->
  off s' /\ (sum_list_with weight new < weight t)%nat /\
  (length (taken s') + sum_list_with getting new <= length (taken s) + getting t)%nat.
Proof.
  unfold off. intros Hs Hoff. split_and!.
  - destruct Hs; simpl in *; calls; simpl; try done; auto.
    by case_bool_decide.
  - destruct Hs; simpl in *; rewrite ?Hoff; repeat case_match; simpl; lia.
  - destruct Hs; simpl in *; rewrite ?Hoff, ?length_app; repeat case_match; simpl; lia.
Qed.

Lemma step_off c c' n :
  step app true c c' -> off c.1 /\ (length (taken c.1) + sum_list_with getting c.2 <= n)%nat ->
  off c'.1 /\ (length (taken c'.1) + sum_list_with getting c'.2 <= n)%nat.
Proof.
  intros [c1 c2 [ts1 t ts2 s new s' Hs]|d s ts Hi|s ts|f s ts|r key s ts|k s ts Hk] [Hoff Hn]; try done.
  - simpl in *. destruct (responser_statement_off t s new s' Hs Hoff) as (? & _ & ?). split; [done|].
    rewrite !sum_list_with_app in *. simpl in *. lia.
  - by split; [apply Hk|].
Qed.

Lemma step_taken c c' : step app once c c' -> taken c.1 `prefix_of` taken c'.1.
Proof.
  intros [c1 c2 [ts1 t ts2 s new s' Hs]|d s ts Hi|s ts|f s ts|r key s ts|k s ts Hk]; try done.
  destruct Hs; simpl; try done; [by case_bool_decide|by eexists].
Qed.

Lemma off_sn c : off c.1 -> sn (run (statement app)) c.
Proof.
  apply (weight_sn_under _ off weight). intros t s new s' Hs Hoff.
  by destruct (responser_statement_off t s new s' Hs Hoff) as (? & ? & _).
Qed.

(** ** Who can run *)

(** The worker only calls a callback that there is. *)
Definition callable s t : Prop :=
  match t with P_call _ _ => is_Some (recv_func (object s)) | _ => True end.

Lemma statement_recv_func t s new s' :
  statement app t s new s' -> is_Some (recv_func (object s)) -> is_Some (recv_func (object s')).
Proof. intros Hs Hf. destruct Hs; simpl; calls; simpl; try done. by case_bool_decide. Qed.

Lemma statement_callable t s new s' : statement app t s new s' -> Forall (callable s') new.
Proof. intros Hs. destruct Hs; simpl; repeat case_match; repeat constructor; simpl; by eauto. Qed.

Lemma step_callable c c' :
  step app once c c' -> Forall (callable c.1) c.2 -> Forall (callable c'.1) c'.2.
Proof.
  intros [c1 c2 [ts1 t ts2 s new s' Hs]|d s ts Hi|s ts|f s ts|r key s ts|k s ts Hk] Hc; simpl in *;
    try (by repeat constructor).
  assert (forall us, Forall (callable s) us -> Forall (callable s') us) as Hkeep.
  { intros us Hus. eapply Forall_impl; [exact Hus|]. intros [] Hu; simpl in *; try done.
    by eapply statement_recv_func. }
  apply Forall_app in Hc as [Hc1 Hc2]. apply Forall_cons in Hc2 as [_ Hc2].
  apply Forall_app_2; [|apply Forall_app_2]; eauto using statement_callable.
Qed.

(** A callback that does not return. *)
Definition hangs s t : Prop :=
  exists payload key c, t = P_call payload key /\ recv_func (object s) = Some c /\
    (app c payload (world (object s))).1 = Stuck.

Lemma responser_can_run t s :
  callable s t -> (exists new s', statement app t s new s') \/ hangs s t.
Proof.
  intros Hc. destruct t; try (left; eexists _, _; by econstructor).
  - left. destruct (queue_get (object s)) as [[[p k]|e|] o] eqn:E.
    + eexists _, _. by eapply st_p_get.
    + unfold queue_get in E. destruct (data_queue (object s)) eqn:Eq; simplify_eq.
      eexists _, _. apply (st_p_empty app (object s) s). unfold queue_get. by rewrite Eq.
    + unfold queue_get in E. by destruct (data_queue (object s)).
  - destruct Hc as [c Hc]. destruct (app c payload (world (object s))) as [[r|e|] w] eqn:E.
    + left. eexists _, _. by eapply st_p_call.
    + left. eexists _, _. by eapply st_p_call_raises.
    + right. exists payload, key, c. by rewrite E.
  - left. destruct (sendBack response key (object s)) as [[[]|e|] o] eqn:E.
    + eexists _, _. by eapply st_p_back.
    + eexists _, _. by eapply st_p_back_raises.
    + exfalso. rewrite sendBack_eq in E. destruct (utf8_encode (key ++ DELIM)), (utf8_encode response);
        try done. unfold on_responser, zoom in E.
      pose proof (send_data_not_stuck (l ++ l0) (KLresponser (object s))) as Hn.
      destruct (send_data (l ++ l0) (KLresponser (object s))). simpl in *. congruence.
  - left. destruct (task_done (object s)) as [[[]|e|] o] eqn:E.
    + eexists _, _. by eapply st_p_done.
    + eexists _, _. by eapply st_p_done_raises.
    + unfold task_done in E. by destruct (unfinished_tasks (object s)).
Qed.

(** What holds of a responser however its threads run. *)
Lemma responser_reach o s ts :
  data_queue o = [] -> unfinished_tasks o = 0%nat -> rtc (step app once) (started o) (s, ts) ->
  (sum_list_with receiving ts <= 1)%nat /\ queued (s, ts) /\ tasks (s, ts) /\
  serving (world o) (s, ts).
Proof.
  intros Hq Hn Hr.
  pose (P (c : shared U W * list (thread U)) :=
    (sum_list_with receiving c.2 <= 1)%nat /\ queued c).
  assert (P (s, ts)) as [H1 HQ].
  { refine (steps_inv (step app once) P _ _ _ Hr _).
    - intros c c' Hs [Hrc Hqc]. split; [by apply (step_receiving c)|by apply (step_queued c)].
    - split; [simpl; lia|]. unfold queued. simpl. by rewrite Hq. }
  split_and!; [done..| |].
  - refine (steps_inv (step app once) tasks _ _ step_tasks Hr _).
    unfold tasks. simpl. by rewrite Hq, Hn.
  - refine (steps_inv (step app once) (serving (world o)) _ _ (step_serving (world o)) Hr _).
    split; [simpl; lia|]. split; [|by repeat constructor]. split; [done|]. split; [done|].
    exists []. split; [done|simpl; lia].
Qed.

End lemmas.

(** ** Blocks that are not interrupted *)

Section blocks.
Context {U W : Type} (app : U -> pystr -> W -> outcome (option pystr) * W) (once : bool).
Implicit Types (s : shared U W) (o : responser U W) (t : thread U).

(** The callback, in the model of the methods. *)
Definition app_out (c : U) (text : pystr) : M (responser U W) (option pystr) := fun o =>
  let '(res, w) := app c text (world o) in (res, set_world w o).

(** Thread [t] runs, between others, until [new] is left of it. *)
Definition runs_to t s (new : list (thread U)) s' : Prop :=
  forall ts1 ts2, rtc (step app once) (s, ts1 ++ t :: ts2) (s', ts1 ++ new ++ ts2).

Lemma runs_to_one t s new s' : statement app t s new s' -> runs_to t s new s'.
Proof. intros Hs ts1 ts2. by apply rtc_once, step_run, run_thread. Qed.

Lemma runs_to_trans t s u s' new s'' :
  statement app t s [u] s' -> runs_to u s' new s'' -> runs_to t s new s''.
Proof. intros Hs Hr ts1 ts2. eapply rtc_l; [by apply step_run, run_thread|apply Hr]. Qed.

Lemma responser_run_receive d s :
  exists s', object s' = snd (_internal_data_recv d (object s)) /\ runs_to (I_parse d) s [] s'.
Proof.
  rewrite internal_data_recv_eq.
  pose proof (parse_request_accept (U:=U) d (object s)) as Hp.
  pose proof (st_i_parse app d s) as Hs.
  destruct (fst (parse_request d (object s))) as [[key payload]|e|].
  - eexists. split; [|eapply runs_to_trans; [exact Hs|apply runs_to_one, st_i_put]].
    simpl in Hp. destruct (accept d) as [[p k]|]; case_bool_decide; simplify_eq/=; done.
  - exists s. split; [|by apply runs_to_one]. simpl in Hp. by destruct (accept d).
  - exists s. split; [|by apply runs_to_one]. simpl in Hp. by destruct (accept d).
Qed.

(** The [finally] block. *)
Lemma run_done (raised : bool) s n :
  unfinished_tasks (object s) = S n ->
  runs_to (P_done raised) s (if raised then [] else [P_test])
    (on (fun o => set_queue (data_queue o) n o) s).
Proof.
  intros Hn. apply runs_to_one. apply (st_p_done app raised (set_queue _ n (object s)) s).
  unfold task_done. by rewrite Hn.
Qed.

(** The [finally] block after statement [t], in the words of the method. *)
Lemma run_finally {A} (raised : bool) t s s' n (x : outcome A) (res : outcome A) o :
  unfinished_tasks (object s') = S n -> statement app t s [P_done raised] s' ->
  bind task_done (fun _ o => (x, o)) (object s') = (res, o) ->
  exists s'', res = x /\ object s'' = o /\
    runs_to t s (if raised then [] else [P_test]) s''.
Proof.
  intros Hn Hs. unfold bind, task_done. rewrite Hn. intros [= <- <-].
  eexists. split; [done|]. split; [|eapply runs_to_trans; [exact Hs|by apply (run_done raised)]].
  done.
Qed.

Lemma run_answer payload key s n res o :
  unfinished_tasks (object s) = S n ->
  answer app_out payload key (object s) = (res, o) -> res <> Stuck ->
  exists s', object s' = o /\
    runs_to (P_func payload key) s (match res with Ret _ => [P_test] | _ => [] end) s'.
Proof.
  intros Hn He Hst. revert He. unfold answer, try_finally. step.
  pose proof (st_p_func app payload key s) as Hf. destruct (recv_func (object s)) as [c|] eqn:Ec.
  2:{ intros He. destruct (run_finally false _ s s n (Ret tt) res o Hn Hf He) as (s' & -> & ? & ?). by exists s'. }
  destruct (app c payload (world (object s))) as [out w] eqn:Ea.
  unfold app_out. rewrite Ea.
  set (s1 := ask c (payload, key) (on (set_world w) s)).
  change (set_world w (object s)) with (object s1).
  destruct out as [[r|]|e|]; [|intros He|intros He|by intros [= <- _]].
  - pose proof (st_p_call app payload key c (Some r) w s Ec Ea) as Hc.
    destruct (sendBack r key (object s1)) as [out2 o2] eqn:Eb.
    destruct (sendBack_same r key _ _ _ Eb) as (k & Ho2 & _).
    assert (unfinished_tasks o2 = S n) as Hn2 by by rewrite Ho2.
    destruct out2 as [[]|e|]; [intros He|intros He|by intros [= <- _]].
    + pose proof (st_p_back app r key o2 s1 Eb) as Hb.
      destruct (run_finally false _ s1 (hand_back (r, key) (on (fun _ => o2) s1)) n (Ret tt) res o
        Hn2 Hb He) as (s' & -> & ? & Hr).
      exists s'. split; [done|]. eapply runs_to_trans; [exact Hf|].
      by eapply runs_to_trans; [exact Hc|].
    + pose proof (st_p_back_raises app r key e o2 s1 Eb) as Hb.
      destruct (run_finally true _ s1 (on (fun _ => o2) s1) n (Raise e) res o Hn2 Hb He) as (s' & -> & ? & Hr).
      exists s'. split; [done|]. eapply runs_to_trans; [exact Hf|].
      by eapply runs_to_trans; [exact Hc|].
  - pose proof (st_p_call app payload key c None w s Ec Ea) as Hc.
    destruct (run_finally false _ s s1 n (Ret tt) res o Hn Hc He) as (s' & -> & ? & Hr).
    exists s'. split; [done|]. by eapply runs_to_trans; [exact Hf|].
  - pose proof (st_p_call_raises app payload key c e w s Ec Ea) as Hc.
    destruct (run_finally true _ s s1 n (Raise e) res o Hn Hc He) as (s' & -> & ? & Hr).
    exists s'. split; [done|]. by eapply runs_to_trans; [exact Hf|].
Qed.

(** One turn of the worker with a request. *)
Lemma run_turn payload key q s res o :
  _connected_event (KLresponser (object s)) = true ->
  data_queue (object s) = (payload, key) :: q -> unfinished_tasks (object s) <> 0%nat ->
  answer app_out payload key (set_queue q (unfinished_tasks (object s)) (object s)) = (res, o) ->
  res <> Stuck ->
  exists s', object s' = o /\
    runs_to P_test s (match res with Ret _ => [P_test] | _ => [] end) s'.
Proof.
  intros Hc Hq Hn He Hst. pose proof (st_p_test app s) as Ht. rewrite Hc in Ht.
  assert (queue_get (object s) = (Ret (payload, key), set_queue q (unfinished_tasks (object s)) (object s)))
    as Hget by (unfold queue_get; by rewrite Hq).
  pose proof (st_p_get app payload key _ s Hget) as Hg.
  destruct (unfinished_tasks (object s)) as [|n] eqn:En; [done|].
  destruct (run_answer payload key (take_request (payload, key) (on (fun _ => set_queue q (S n) (object s)) s))
    n res o) as (s' & Ho & Hr); [done..|].
  exists s'. split; [done|]. eapply runs_to_trans; [exact Ht|]. by eapply runs_to_trans; [exact Hg|].
Qed.

End blocks.

(** ** The properties *)

(** Requests are served in order under every interleaving. However the
    statements of the receive thread, of the worker, of [set_RecvFunc] and of
    [disconnect] are interleaved: the requests that were accepted are, in their
    order and each once, those the worker took, those in the queue, and at most
    one in hand; [unfinished_tasks] counts those in the queue and the one the
    worker has not finished; there is at most one worker; the callback was called
    with a subsequence of the requests that were taken; and what the application
    has become and the answers handed to [sendBack], each under the key of its
    request, are those of a server that handles these requests one after the
    other, but for at most one answer, for which [sendBack] has not returned yet or
    has raised. *)
Theorem responser_threads {U W : Type} (app : U -> pystr -> W -> outcome (option pystr) * W)
    (once : bool)
    (o : responser U W) (s : shared U W) (ts : list (thread U)) :
  data_queue o = [] -> unfinished_tasks o = 0%nat -> rtc (step app once) (started o) (s, ts) ->
  (exists hand, omap accept (arrived s) = taken s ++ data_queue (object s) ++ hand /\
     (length hand <= 1)%nat /\ (sum_list_with receiving ts = 0%nat -> hand = [])) /\
  unfinished_tasks (object s) =
    (length (data_queue (object s)) + sum_list_with holding ts)%nat /\
  (sum_list_with working ts <= 1)%nat /\
  map snd (asked s) `sublist_of` taken s /\
  world (object s) = (replay app (asked s) (world o)).2 /\
  exists rest, (replay app (asked s) (world o)).1 = handed_back s ++ rest /\
    (length rest <= 1)%nat /\ (P_test ∈ ts -> rest = []).
Proof.
  intros Hq Hn Hr. destruct (responser_reach app once o s ts Hq Hn Hr)
    as (H1 & HQ & HT & Hw & (Hsub & Hworld & rest & Hrest & Hlen) & Hok).
  split; [|split_and!; try done].
  - exists (flat_map in_hand ts). split; [exact HQ|]. split; [|apply in_hand_nil].
    etrans; [apply in_hand_le|exact H1].
  - exists rest. split; [done|]. split; [done|]. intros Hin.
    pose proof (proj1 (Forall_forall _ _) Hok _ Hin) as Ht. simpl in *.
    rewrite Hrest in Ht. apply (app_inv_head (handed_back s)). by rewrite app_nil_r.
Qed.

(** C23: [disconnect] ends the responser, and drops what is in the queue. Once the
    client is not connected, all the threads come to their end in whatever order
    they run, unless new messages come or methods are called; and whatever
    happens, the worker takes at most one more request, and only if it already
    was in [get]. The others stay in the queue and are never answered. *)
Theorem responser_threads_end {U W : Type}
    (app : U -> pystr -> W -> outcome (option pystr) * W) (s : shared U W)
    (ts : list (thread U)) :
  (sum_list_with working ts <= 1)%nat -> _connected_event (KLresponser (object s)) = false ->
  sn (run (statement app)) (s, ts) /\
  forall s' ts', rtc (step app true) (s, ts) (s', ts') ->
    exists more, taken s' = taken s ++ more /\ (length more <= 1)%nat /\
      (P_get ∉ ts -> more = []).
Proof.
  intros Hle Hoff. split; [by apply off_sn|]. intros s' ts' Hr.
  assert (taken s `prefix_of` taken s') as [more Hmore].
  { refine (steps_inv (step app true) (fun c => taken s `prefix_of` taken c.1) _ _ _ Hr _); [|done].
    intros c c' Hs Hp. etrans; [exact Hp|by apply (step_taken app true)]. }
  set (n := (length (taken s) + sum_list_with getting ts)%nat).
  assert (off (s', ts').1 /\
    (length (taken (s', ts').1) + sum_list_with getting (s', ts').2 <= n)%nat) as [_ Hn].
  { refine (steps_inv (step app true) (fun c => off c.1 /\
      (length (taken c.1) + sum_list_with getting c.2 <= n)%nat) _ _ _ Hr _); [|done].
    intros c c'. apply step_off. }
  simpl in Hn. rewrite Hmore, length_app in Hn. unfold n in Hn.
  assert (sum_list_with getting ts <= sum_list_with working ts)%nat as Hg.
  { clear. induction ts as [|t ts IH]; simpl; [lia|]. destruct t; simpl; lia. }
  exists more. split; [done|]. split; [lia|]. intros Hno. apply nil_length_inv.
  assert (sum_list_with getting ts = 0%nat) as Hz; [|lia].
  clear -Hno. induction ts as [|t ts IH]; [done|].
  apply not_elem_of_cons in Hno as [Hne Hno]. simpl. rewrite IH by done. by destruct t.
Qed.

(** Without interruption the statements are the methods. When no other thread
    comes between its statements, the callback of the client does what
    [_internal_data_recv] of OpenSocketResponser.v does in one piece, and a turn
    of the worker with a request what [answer] does: it goes on when that
    returns, and ends when that raises. *)
Theorem responser_blocks {U W : Type} (app : U -> pystr -> W -> outcome (option pystr) * W)
    (once : bool)
    (s : shared U W) :
  (forall d, exists s', object s' = snd (_internal_data_recv d (object s)) /\
     runs_to app once (I_parse d) s [] s') /\
  (forall payload key q res o,
     _connected_event (KLresponser (object s)) = true ->
     data_queue (object s) = (payload, key) :: q -> unfinished_tasks (object s) <> 0%nat ->
     answer (app_out app) payload key
       (set_queue q (unfinished_tasks (object s)) (object s)) = (res, o) ->
     res <> Stuck ->
     exists s', object s' = o /\
       runs_to app once P_test s (match res with Ret _ => [P_test] | _ => [] end) s').
Proof.
  split; [intros d; apply responser_run_receive|].
  intros payload key q res o Hc Hq Hn He Hst. by apply (run_turn app once payload key q).
Qed.

(** ** Witnesses *)

Definition ex_out (c : unit) (d : pystr) (w : nat) : outcome (option pystr) * nat :=
  let '(r, w) := ex_app c d w in (Ret r, w).

Definition ex_hi : pystr * pystr := (str_of "Hi", str_of "42").
Definition ex_echo : pystr * pystr := (str_of "Echo: Hi", str_of "42").

(** One request was answered, and the worker goes on. *)
Definition ex_answered : shared unit nat :=
  Shared _ _ (snd (sendBack (fst ex_echo) (snd ex_echo) (set_world 1%nat ex_responser)))
    [ex_request] [ex_hi] [(tt, ex_hi)] [ex_echo].

(** The object while the answer is sent. *)
Definition ex_sent : responser unit nat :=
  snd (sendBack (fst ex_echo) (snd ex_echo) (set_queue [] 1 (set_world 1%nat ex_responser))).

(** One statement of the first thread, to a state that is given. *)
Lemma ex_statement t s new s1 new' s1' c ts :
  statement ex_out t s new s1 -> new = new' -> s1 = s1' ->
  rtc (step ex_out true) (s1', new' ++ ts) c -> rtc (step ex_out true) (s, t :: ts) c.
Proof.
  intros Hs -> -> Hr. eapply rtc_l; [apply step_run|exact Hr].
  by apply (run_thread _ [] t ts s new' s1').
Qed.

Ltac run_to st new s1 :=
  eapply (ex_statement _ _ _ _ new s1);
    [apply st; vm_compute; reflexivity|vm_compute; reflexivity|vm_compute; reflexivity|];
  cbn [List.app].

Lemma ex_answered_reached : rtc (step ex_out true) (started ex_responser) (ex_answered, [P_test]).
Proof.
  set (r := [ex_request]). set (h := [ex_hi]). set (a := [(tt, ex_hi)]).
  set (o := set_queue [] 1 ex_responser).
  set (s1 := Shared _ _ (set_queue h 1 ex_responser) r [] [] []).
  set (s2 := Shared _ _ o r h [] []). set (s3 := Shared _ _ (set_world 1%nat o) r h a []).
  set (s4 := Shared _ _ ex_sent r h a [ex_echo]).
  eapply rtc_l; [by apply (step_message ex_out true ex_request)|].
  run_to (st_i_parse ex_out) [I_put (U:=unit) (bytes_of "Hi") (snd ex_hi)]
    (arrive ex_request (fst (started ex_responser))).
  run_to (st_i_put ex_out) (@nil (thread unit)) s1.
  run_to (st_p_test ex_out) [P_get (U:=unit)] s1.
  run_to (st_p_get ex_out (fst ex_hi) (snd ex_hi) o) [P_func (U:=unit) (fst ex_hi) (snd ex_hi)] s2.
  run_to (st_p_func ex_out) [P_call (U:=unit) (fst ex_hi) (snd ex_hi)] s2.
  run_to (st_p_call ex_out (fst ex_hi) (snd ex_hi) tt (Some (fst ex_echo)) 1%nat)
    [P_back (U:=unit) (fst ex_echo) (snd ex_echo)] s3.
  run_to (st_p_back ex_out (fst ex_echo) (snd ex_echo) ex_sent) [P_done (U:=unit) false] s4.
  run_to (st_p_done ex_out false (object ex_answered)) [P_test (U:=unit)] ex_answered.
  apply rtc_refl.
Qed.

Lemma responser_threads_witness :
  world (object ex_answered) = (replay ex_out (asked ex_answered) 0%nat).2 /\
  unfinished_tasks (object ex_answered) = 0%nat.
Proof.
  destruct (responser_threads ex_out true ex_responser ex_answered [P_test] eq_refl eq_refl
    ex_answered_reached) as (_ & Hn & _ & _ & Hw & _). by split.
Defined.

Definition ex_off : shared unit nat := on (fun o => snd (disconnect o)) ex_answered.

Lemma responser_threads_end_witness : sn (run (statement ex_out)) (ex_off, [P_get]).
Proof.
  apply (responser_threads_end ex_out ex_off [P_get]); [simpl; lia|vm_compute; reflexivity].
Defined.

Definition ex_arrived : shared unit nat :=
  Shared _ _ (snd (_internal_data_recv ex_request ex_responser)) [ex_request] [] [] [].

Lemma responser_blocks_witness :
  exists s', object s' = object ex_answered /\ runs_to ex_out true P_test ex_arrived [P_test] s'.
Proof.
  apply (proj2 (responser_blocks ex_out true ex_arrived) (fst ex_hi) (snd ex_hi) [] (Ret tt));
    [reflexivity|reflexivity|done|vm_compute; reflexivity|done].
Defined.
