(* ===== verification/Owners.v ===== *)
(** * A client together with the object that owns it, statement by statement

    TcpStatements.v has the statements of a client of
    knotlink-sdk-python/knotlink/knotlink/tcpclient.py, QueryThreads.v and
    ResponserThreads.v those of the objects that own one. Here both run in one
    pool: a thread of the owner that calls [send_data] or [disconnect] goes
    through the statements of the client and comes back with its result or its
    exception, and the receive thread of the client goes through the statements
    of the owner's callback and back to its loop. [Owner] is what this needs to
    know of an owner.

    [tcp_simulation] shows once and for all owners that the client's part of the
    pool is a run of TcpStatements.v, so that what is proved there holds of the
    whole. *)

From S2P Require Export TcpReading.

(** An owner with threads [O] and a state [S]. *)
Class Owner (O S : Type) := {
  (** the callback the client calls with a message, and the history it leaves *)
  entry : bytes -> O;
  arrives : bytes -> S -> S;
  (** a statement that does not call the client; it may read [connected] *)
  own : bool -> O -> S -> list O -> S -> Prop;
  (** the method of the client a statement calls *)
  client_call : O -> option op;
  (** what the thread does when the method has returned, or has raised *)
  on_return : O -> S -> list O * S;
  on_raise : O -> S -> list O * S;
  (** the methods the application may call while [O]s are running *)
  may_start : list O -> O -> Prop;
  (** what the application may do with the client itself *)
  may_call : list op -> Prop }.

(** What an application may do with the client itself: all but sending. *)
Definition no_send (c : op) : Prop := match c with Send _ => False | _ => True end.

(** A thread runs in the client, in the owner, in the client called from the
    owner, or in the owner called from the receive thread. *)
Inductive thread {O : Type} :=
| Tcp (t : TcpStatements.thread)
| Own (q : O)
| In (t : TcpStatements.thread) (q : O)
| Back (q : O).
Arguments thread O : clear implicits.

(** Whether a method of the client that ends with its next statement ends with an
    exception. *)
Definition raising (t : TcpStatements.thread) (n : TcpStatements.shared) : bool :=
  match t with
  | W_test _ data => connected n && (MAX_MSG_SIZE <? len data)
  | Hb_daemon _ | Hb_start (From_call _) | D_cancel _ => true
  | _ => false
  end.

(** The receive thread is about to call the callback. *)
Definition calls_back (t : TcpStatements.thread) : bool :=
  match t with P_call _ => true | _ => false end.

Section system.
Context {O S : Type} {owner : Owner O S}.
Variable takes : bytes -> nat -> Prop.
Implicit Types (n : TcpStatements.shared) (s : S) (q : O) (x : thread O) (t u : TcpStatements.thread).

Inductive statement : thread O -> TcpStatements.shared * S -> list (thread O) ->
    TcpStatements.shared * S -> Prop :=
| st_tcp t n new n' s :
    calls_back t = false -> TcpStatements.statement takes t n new n' ->
    statement (Tcp t) (n, s) (Tcp <$> new) (n', s)
| st_callback m n s :
    statement (Tcp (P_call m)) (n, s) [Back (entry m)] (on_inbox (call_back m) n, arrives m s)
| st_own q n s new s' :
    client_call q = None -> own (connected n) q s new s' ->
    statement (Own q) (n, s) (Own <$> new) (n, s')
| st_enter q c t n s :
    client_call q = Some c -> begin [c] = [t] -> statement (Own q) (n, s) [In t q] (n, s)
| st_in t q t' n n' s :
    reads t' = false -> TcpStatements.statement takes t n [t'] n' ->
    statement (In t q) (n, s) [In t' q] (n', s)
| st_in_starts t q u t' n n' s :
    reads u = true -> reads t' = false -> TcpStatements.statement takes t n [u; t'] n' ->
    statement (In t q) (n, s) [Tcp u; In t' q] (n', s)
| st_return t q us n n' s :
    raising t n = false -> Forall (fun u => reads u = true) us ->
    TcpStatements.statement takes t n us n' ->
    statement (In t q) (n, s) ((Tcp <$> us) ++ (Own <$> (on_return q s).1)) (n', (on_return q s).2)
| st_raise t q n n' s :
    raising t n = true -> TcpStatements.statement takes t n [] n' ->
    statement (In t q) (n, s) (Own <$> (on_raise q s).1) (n', (on_raise q s).2)
| st_back q q' n s s' :
    client_call q = None -> own (connected n) q s [q'] s' ->
    statement (Back q) (n, s) [Back q'] (n, s')
| st_back_ends q n s s' :
    client_call q = None -> own (connected n) q s [] s' ->
    statement (Back q) (n, s) [Tcp P_lock] (n, s').

(** The threads of the client in a pool, and those of the owner. *)
Definition tcp_of x : list TcpStatements.thread :=
  match x with Tcp t | In t _ => [t] | Own _ => [] | Back _ => [P_lock] end.
Definition own_of x : list O :=
  match x with Own q | In _ q | Back q => [q] | Tcp _ => [] end.

(** The whole: a thread runs, a live timer fires, a method of the owner is called,
    or the application calls methods of the client itself. *)
Inductive step : (TcpStatements.shared * S) * list (thread O) ->
    (TcpStatements.shared * S) * list (thread O) -> Prop :=
| step_run c c' : run statement c c' -> step c c'
| step_fire i n s xs :
    i ∈ live (hearts n) -> step ((n, s), xs) ((on_heart (quench i) n, s), Tcp Hb_test :: xs)
| step_start q n s xs :
    may_start (flat_map own_of xs) q -> step ((n, s), xs) ((n, s), Own q :: xs)
| step_call todo n s xs :
    may_call todo -> step ((n, s), xs) ((n, s), (Tcp <$> begin todo) ++ xs).

(** The constructor of the owner: it connects the client, and then does [todo] with
    it. [q] says how the constructor goes on. *)
Definition constructing (todo : list op) (q : O) (s : S) :
    (TcpStatements.shared * S) * list (thread O) := ((fresh, s), [In (C_connect todo) q]).

(** ** The client's part is a run of the client *)

Definition tcp_part (c : (TcpStatements.shared * S) * list (thread O))
    (d : TcpStatements.shared * list TcpStatements.thread) : Prop :=
  d.1 = c.1.1 /\ d.2 ≡ₚ flat_map tcp_of c.2.

Lemma tcp_of_Tcp ts : flat_map tcp_of (Tcp <$> ts) = ts.
Proof. induction ts as [|t ts IH]; [done|]. simpl. f_equal. exact IH. Qed.

Lemma tcp_of_Own qs : flat_map tcp_of (Own <$> qs) = [].
Proof. by induction qs. Qed.

(** One statement of the pool is one of the client, or none. *)
Lemma tcp_statement x n s new n' s' :
  statement x (n, s) new (n', s') ->
  (exists t, tcp_of x = [t] /\ TcpStatements.statement takes t n (flat_map tcp_of new) n') \/
  (n' = n /\ flat_map tcp_of new = tcp_of x) \/
  (exists c, tcp_of x = [] /\ flat_map tcp_of new = begin [c] /\ n' = n).
Proof.
  intros Hs. inversion Hs; subst; rewrite ?flat_map_app, ?tcp_of_Tcp, ?tcp_of_Own, ?app_nil_r;
    try (left; eexists; split; [reflexivity|]; eassumption); auto.
  - left. eexists. split; [done|]. simpl. apply st_p_call. by left.
  - right. right. eexists. split_and!; [done| |done]. simpl. symmetry. eassumption.
Qed.

Lemma tcp_simulation c c' d :
  step c c' -> tcp_part c d ->
  exists d', rtc (TcpStatements.step takes) d d' /\ tcp_part c' d'.
Proof.
  intros Hs [E Hp]. destruct d as [n0 us]. simpl in *. subst n0.
  destruct Hs as [c c' [xs1 x xs2 [n s] new [n' s'] Hs]|i n s xs Hi|q n s xs Hq|todo n s xs Hd];
    unfold tcp_part in *; simpl in *.
  - rewrite !flat_map_app in *. simpl in *.
    destruct (tcp_statement _ _ _ _ _ _ Hs) as [(t & Ht & Hst)|[[-> ->]|(o & Ht & -> & ->)]].
    + rewrite Ht in Hp. rewrite Permutation_app_swap_app in Hp.
      destruct (run_perm (TcpStatements.statement takes) t n _ n' us _ Hp Hst) as (us' & Hr & Hp').
      exists (n', us'). split; [by apply rtc_once, TcpStatements.step_run|]. split; [done|]. simpl.
      by rewrite Hp', Permutation_app_swap_app.
    + by exists (n, us).
    + exists (n, begin [o] ++ us). split; [by apply rtc_once, TcpStatements.step_call|].
      split; [done|]. cbn [snd]. by rewrite Hp, Ht, Permutation_app_swap_app.
  - exists (on_heart (quench i) n, Hb_test :: us). split; [by apply rtc_once, TcpStatements.step_fire|].
    split; [done|]. simpl. by rewrite Hp.
  - by exists (n, us).
  - exists (n, begin todo ++ us). split; [by apply rtc_once, TcpStatements.step_call|].
    split; [done|]. simpl. by rewrite flat_map_app, tcp_of_Tcp, Hp.
Qed.

(** What holds in a pool that an owner constructs holds of the client in it. *)
Lemma tcp_reach todo q s c :
  rtc step (constructing todo q s) c ->
  exists us, rtc (TcpStatements.step takes) (fresh, []) (c.1.1, us) /\ us ≡ₚ flat_map tcp_of c.2.
Proof.
  intros Hr. destruct (simulation step (TcpStatements.step takes) tcp_part _ _
    (fresh, [C_connect todo]) tcp_simulation Hr) as ([n us] & Hr' & E & Hp); [done|].
  simpl in *. subst n. exists us. split; [|done].
  eapply rtc_l; [exact (TcpStatements.step_call takes (Connect :: todo) fresh [])|done].
Qed.

(** The threads of the owner's own model in a pool, where [ask] are those that a
    thread of the owner stands for. *)
Section asked.
Context {T : Type} (ask : O -> list T).

Definition threads_of (xs : list (thread O)) : list T := flat_map ask (flat_map own_of xs).

Lemma threads_of_app xs ys : threads_of (xs ++ ys) = threads_of xs ++ threads_of ys.
Proof. unfold threads_of. by rewrite !flat_map_app. Qed.

Lemma threads_of_Tcp ts : threads_of (Tcp <$> ts) = [].
Proof. by induction ts. Qed.

Lemma threads_of_Own qs : threads_of (Own <$> qs) = flat_map ask qs.
Proof.
  unfold threads_of. f_equal. induction qs as [|q qs IH]; [done|]. simpl. f_equal. exact IH.
Qed.

Lemma threads_of_middle xs1 x xs2 :
  threads_of (xs1 ++ x :: xs2) ≡ₚ threads_of [x] ++ threads_of xs1 ++ threads_of xs2.
Proof.
  rewrite threads_of_app. change (x :: xs2) with ([x] ++ xs2).
  by rewrite threads_of_app, Permutation_app_swap_app.
Qed.

End asked.

(** ** Where the threads are *)

(** A thread in the client is in the method it called, or is the constructor [q0];
    it is not the receive thread. *)
Definition within (c : op) (t : TcpStatements.thread) : Prop :=
  match c, t with
  | Send data, W_test (From_call []) data' => data' = data
  | Send _, (W_send (From_call []) _ | W_error (From_call [])) => True
  | Disconnect, (D_flag [] | D_test [] | D_cancel [] | D_clear [] | D_close []) => True
  | (Connect | Install), _ => True
  | _, _ => False
  end.

Definition placed q0 x : Prop :=
  match x with
  | In t q => reads t = false /\ match client_call q with Some c => within c t | None => q = q0 end
  | _ => True
  end.

Lemma within_begin c t : begin [c] = [t] -> reads t = false /\ within c t.
Proof. destruct c; intros [= <-]; by split. Qed.

Lemma within_statement c t n t' us n' :
  TcpStatements.statement takes t n (us ++ [t']) n' -> within c t -> reads t = false ->
  reads t' = false -> within c t'.
Proof.
  intros Hs Hw Hr Hr'. destruct c; [done..| |].
  - destruct t; simpl in Hw; try done; destruct k as [|[]]; try done;
      inversion Hs; subst; simpl in *; destruct us as [|? []]; simplify_eq/=; done.
  - destruct t; simpl in Hw; try done; destruct todo; try done;
      inversion Hs; subst; simpl in *; repeat case_match; destruct us as [|? []]; simplify_eq/=; done.
Qed.

Lemma placed_Tcp q0 ts : Forall (placed q0) (Tcp <$> ts).
Proof. by apply Forall_fmap, Forall_true. Qed.

Lemma placed_Own q0 qs : Forall (placed q0) (Own <$> qs).
Proof. by apply Forall_fmap, Forall_true. Qed.

Lemma statement_placed q0 x c new c' : statement x c new c' -> placed q0 x -> Forall (placed q0) new.
Proof.
  pose proof (placed_Tcp q0). pose proof (placed_Own q0).
  intros Hs Hp. destruct Hs as [| | |q c t n s Hq Hb|t q t' n n' s Hr Hs|t q u t' n n' s Hu Hr Hs| | | |];
    rewrite ?Forall_app, ?Forall_cons; auto; simpl in *.
  - destruct (within_begin _ _ Hb). by rewrite Hq.
  - split_and!; [done| |done]. destruct (client_call q) as [c|]; [|tauto].
    apply (within_statement c t n t' [] n' Hs); tauto.
  - split_and!; [done..| |done]. destruct (client_call q) as [c|]; [|tauto].
    apply (within_statement c t n t' [u] n' Hs); tauto.
Qed.

Lemma step_placed q0 c c' : step c c' -> Forall (placed q0) c.2 -> Forall (placed q0) c'.2.
Proof.
  intros [c1 c2 [xs1 x xs2 a new a' Hs]|i n s xs Hi|q n s xs Hq|todo n s xs Hd]; simpl;
    rewrite ?Forall_app, ?Forall_cons; [|naive_solver..|].
  - intros (H1 & Hx & H2). eauto using statement_placed.
  - intros Hx. split; [apply placed_Tcp|done].
Qed.

Lemma reach_placed todo q0 s c :
  client_call q0 = None -> rtc step (constructing todo q0 s) c -> Forall (placed q0) c.2.
Proof.
  intros Hq Hr. apply (steps_inv step (fun c => Forall (placed q0) c.2) _ _ (step_placed q0) Hr).
  constructor; [|done]. simpl. by rewrite Hq.
Qed.

(** ** Where the threads of the owner are *)

(** What is known of a statement that is not in the client, of one that is, and of
    one that the receive thread runs in the callback. *)
Section settled.
Variable outside called_from inside : O -> Prop.
Hypothesis own_outside : forall b q s new s', own b q s new s' -> outside q -> Forall outside new.
Hypothesis own_inside : forall b q s new s', own b q s new s' -> inside q -> Forall inside new.
Hypothesis entry_inside : forall m, inside (entry m).
Hypothesis call_outside : forall q c, client_call q = Some c -> outside q -> called_from q.
Hypothesis return_outside : forall q s, called_from q -> Forall outside (on_return q s).1.
Hypothesis raise_outside : forall q s, called_from q -> Forall outside (on_raise q s).1.
Hypothesis start_outside : forall qs q, may_start qs q -> outside q.

Definition settled x : Prop :=
  match x with
  | Tcp _ => True
  | Own q => outside q
  | In _ q => called_from q
  | Back q => inside q
  end.

Lemma statement_settled x c new c' : statement x c new c' -> settled x -> Forall settled new.
Proof.
  assert (forall ts, Forall settled (Tcp <$> ts)) as Htcp by (intros; by apply Forall_fmap, Forall_true).
  assert (forall qs, Forall outside qs -> Forall settled (Own <$> qs)) as Hown
    by (intros; by apply Forall_fmap).
  intros Hs Hx. destruct Hs; simpl in Hx; rewrite ?Forall_app, ?Forall_cons; simpl;
    try (split_and!; by eauto); eauto.
  eapply own_inside in Hx; [|eassumption]. by apply Forall_cons in Hx as [? _].
Qed.

Lemma step_settled c c' : step c c' -> Forall settled c.2 -> Forall settled c'.2.
Proof.
  intros [c1 c2 [xs1 x xs2 a new a' Hs]|i n s xs Hi|q n s xs Hq|todo n s xs Hd]; simpl;
    rewrite ?Forall_app, ?Forall_cons.
  - intros (? & ? & ?). eauto using statement_settled.
  - by split.
  - intros ?. split; [by eapply start_outside|done].
  - intros ?. split; [by apply Forall_fmap, Forall_true|done].
Qed.

Lemma reach_settled todo q s c :
  called_from q -> rtc step (constructing todo q s) c -> Forall settled c.2.
Proof.
  intros Hq Hr. apply (steps_inv step (fun c => Forall settled c.2) _ _ step_settled Hr).
  by repeat constructor.
Qed.

(** There is at most one receive thread, so at most one is in the callback. *)
Lemma inside_readers (f : O -> nat) xs :
  (forall q, outside q -> f q = 0%nat) -> (forall q, called_from q -> f q = 0%nat) ->
  (forall q, inside q -> f q <= 1)%nat -> Forall settled xs ->
  (sum_list_with f (flat_map own_of xs) <= sum_list_with reader_token (flat_map tcp_of xs))%nat.
Proof.
  intros Ho Hc Hi. induction 1 as [|x xs Hx _ IH]; [done|].
  simpl. rewrite !sum_list_with_app. destruct x as [t|q|t q|q]; simpl in *.
  - lia.
  - rewrite Ho by done. lia.
  - rewrite Hc by done. lia.
  - specialize (Hi q Hx). lia.
Qed.

End settled.

(** ** The messages that arrive are those the client hands on *)

Lemma statement_called t n new n' :
  TcpStatements.statement takes t n new n' -> calls_back t = false ->
  called (reading n') = called (reading n).
Proof. intros Hs. destruct Hs; simpl; try done. by case_match. Qed.

Section log.
Variable log : S -> list bytes.
Hypothesis log_arrives : forall m s, log (arrives m s) = log s ++ [m].
Hypothesis log_own : forall b q s new s', own b q s new s' -> log s' = log s.
Hypothesis log_return : forall q s, log (on_return q s).2 = log s.
Hypothesis log_raise : forall q s, log (on_raise q s).2 = log s.

Lemma step_log q0 c c' :
  step c c' -> Forall (placed q0) c.2 -> log c.1.2 = called (reading c.1.1) ->
  log c'.1.2 = called (reading c'.1.1).
Proof.
  assert (forall t n new n', TcpStatements.statement takes t n new n' -> reads t = false ->
    called (reading n') = called (reading n)) as Hcalled.
  { intros t n new n' Hs Hr. apply (statement_called _ _ _ _ Hs). by destruct t. }
  intros [c1 c2 [xs1 x xs2 a new a' Hs]|i n s xs Hi|q n s xs Hq|todo n s xs Hd]; simpl; try done.
  rewrite Forall_app, Forall_cons. intros (_ & Hx & _). destruct Hs; simpl in *; intros E; try done.
  - by rewrite (statement_called _ _ _ _ H0).
  - by rewrite log_arrives, E.
  - by erewrite log_own.
  - by erewrite Hcalled by (destruct Hx; eauto).
  - by erewrite Hcalled by (destruct Hx; eauto).
  - rewrite log_return. by erewrite Hcalled by (destruct Hx; eauto).
  - rewrite log_raise. by erewrite Hcalled by (destruct Hx; eauto).
  - by erewrite log_own.
  - by erewrite log_own.
Qed.

Lemma reach_log todo q0 s c :
  client_call q0 = None -> log s = [] -> rtc step (constructing todo q0 s) c ->
  log c.1.2 = called (reading c.1.1).
Proof.
  intros Hq Hl Hr.
  assert (Forall (placed q0) c.2 /\ log c.1.2 = called (reading c.1.1)) as [_ ?]; [|done].
  refine (steps_inv step (fun c => Forall (placed q0) c.2 /\ log c.1.2 = called (reading c.1.1)) _ _ _ Hr _).
  - intros c1 c2 Hs [Hp E]. split; [by apply (step_placed _ _ _ Hs)|by apply (step_log q0 _ _ Hs)].
  - split; [|done]. constructor; [|done]. simpl. by rewrite Hq.
Qed.

End log.

(** ** What holds of the owner *)

(** [J] holds of the owner's state and [K] of each of its threads, whatever the
    client does. *)
Section held.
Variable J : S -> Prop.
Variable K : O -> Prop.
Hypothesis own_held : forall b q s new s', own b q s new s' -> J s -> K q -> J s' /\ Forall K new.
Hypothesis return_held : forall q s, J s -> K q -> J (on_return q s).2 /\ Forall K (on_return q s).1.
Hypothesis raise_held : forall q s, J s -> K q -> J (on_raise q s).2 /\ Forall K (on_raise q s).1.
Hypothesis arrives_held : forall m s, J s -> J (arrives m s) /\ K (entry m).
Hypothesis start_held : forall qs q, may_start qs q -> K q.

Definition held (c : (TcpStatements.shared * S) * list (thread O)) : Prop :=
  J c.1.2 /\ Forall K (flat_map own_of c.2).

Lemma own_of_app (xs ys : list (thread O)) :
  flat_map own_of (xs ++ ys) = flat_map own_of xs ++ flat_map own_of ys.
Proof. apply flat_map_app. Qed.

Lemma own_of_Own qs : flat_map own_of (Own <$> qs) = qs.
Proof. induction qs as [|q qs IH]; [done|]. simpl. f_equal. exact IH. Qed.

Lemma own_of_Tcp ts : flat_map own_of (Tcp <$> ts) = [].
Proof. by induction ts. Qed.

Lemma statement_held x n s new n' s' :
  statement x (n, s) new (n', s') -> J s -> Forall K (own_of x) ->
  J s' /\ Forall K (flat_map own_of new).
Proof.
  intros Hs HJ Hx.
  inversion Hs; subst; clear Hs; simpl in *; rewrite ?own_of_app, ?own_of_Own, ?own_of_Tcp;
    rewrite ?Forall_singleton in Hx; simpl in *; try (by split_and!; repeat constructor).
  - destruct (arrives_held m s HJ). split; [done|]. by repeat constructor.
  - by eapply own_held.
  - by apply return_held.
  - by apply raise_held.
  - by eapply own_held.
  - split; [|done]. by eapply own_held.
Qed.

Lemma step_held c c' : step c c' -> held c -> held c'.
Proof.
  unfold held.
  intros [c1 c2 [xs1 x xs2 [n s] new [n' s'] Hs]|i n s xs Hi|q n s xs Hq|todo n s xs Hd] [HJ HK];
    simpl in *; rewrite ?own_of_app, ?own_of_Tcp in *; simpl in *.
  - apply Forall_app in HK as [H1 [Hx H2]%Forall_app].
    destruct (statement_held _ _ _ _ _ _ Hs HJ Hx) as [? ?]. split; [done|].
    apply Forall_app_2; [done|]. by apply Forall_app_2.
  - done.
  - split; [done|]. constructor; [by eapply start_held|done].
  - done.
Qed.

Lemma reach_held todo q s c :
  J s -> K q -> rtc step (constructing todo q s) c -> held c.
Proof.
  intros HJ HK Hr. apply (steps_inv step held _ _ step_held Hr). split; [done|]. by repeat constructor.
Qed.

End held.

(** ** Nobody waits in the client for ever *)

(** A method of the client goes on, or ends, and may have started the receive
    thread. *)
Lemma method_shape t n new n' :
  TcpStatements.statement takes t n new n' -> reads t = false ->
  exists us vs, new = us ++ vs /\ Forall (fun u => reads u = true) us /\ (length us <= 1)%nat /\
    (raising t n = true -> us = []) /\ (vs = [] \/ exists t', vs = [t'] /\ reads t' = false).
Proof.
  assert (forall todo, begin todo = [] \/ exists t', begin todo = [t'] /\ reads t' = false) as Hb.
  { intros [|[] todo]; simpl; eauto. }
  intros Hs Hr. destruct Hs; simpl in *; try done;
    repeat match goal with k : caller |- _ => destruct k; simpl end; repeat case_match;
    try (exists [], []; split_and!; by auto);
    try (eexists [], [_]; split_and!; eauto; done);
    try (exists [], (begin todo); split_and!; auto; done).
  exists [R_test], (begin todo). split_and!; [done|by repeat constructor|done|done|apply Hb].
Qed.

(** A thread in the client runs, when it does not need the lock or has it. *)
Lemma client_runs q0 x t n s :
  placed q0 x -> x = Tcp t \/ (exists q, x = In t q) ->
  lock (reading n) = false \/ critical t = 1%nat ->
  exists new c', statement x (n, s) new c'.
Proof.
  intros Hp Hx Hl. destruct (can_run takes t n Hl) as (new & n' & Hs).
  destruct Hx as [->|[q ->]].
  - destruct (calls_back t) eqn:Ec; [destruct t; try done; eexists _, _; apply st_callback|].
    eexists _, _. by eapply st_tcp.
  - destruct Hp as [Hr _].
    destruct (method_shape _ _ _ _ Hs Hr) as (us & vs & -> & Hu & Hlen & Hra & [->|(t' & -> & Ht')]).
    + rewrite app_nil_r in Hs. destruct (raising t n) eqn:Er; eexists _, _.
      * rewrite (Hra eq_refl) in Hs. by eapply st_raise.
      * by eapply st_return.
    + destruct us as [|u [|]]; [| |simpl in Hlen; lia]; eexists _, _.
      * by eapply st_in.
      * eapply st_in_starts; [|exact Ht'|exact Hs]. by inversion Hu.
Qed.

(** In a pool that cannot run, the lock of the client is free and nobody is in the
    client; a thread of the owner is in no method of the client either. *)
Lemma stuck_client todo q s c :
  client_call q = None -> rtc step (constructing todo q s) c ->
  (forall c', ~ run statement c c') ->
  Forall (fun x => exists o, (x = Own o /\ client_call o = None) \/ x = Back o) c.2.
Proof.
  intros Hq Hr Hno. destruct (tcp_reach _ _ _ _ Hr) as (us & Hr' & Hp).
  pose proof (reach_placed _ _ _ _ Hq Hr) as Hpl. rewrite Forall_forall in Hpl.
  destruct c as [[n s'] xs]. simpl in *.
  assert (forall x, x ∈ xs -> ~ exists new c', statement x (n, s') new c') as Hno'.
  { intros x Hx (new & c' & Hs). destruct (run_in _ _ _ _ _ _ Hx Hs) as [c'' Hc]. by eapply Hno. }
  assert (lock (reading n) = false) as Hl.
  { destruct (lock (reading n)) eqn:El; [|done]. exfalso.
    pose proof (reach_lock takes _ Hr') as Hlock. unfold lock_inv, locked in Hlock. simpl in Hlock.
    rewrite El in Hlock. destruct (count_some critical us) as (t & Ht & Hc); [lia|].
    rewrite Hp in Ht. apply list_elem_of_In, in_flat_map in Ht as (x & Hx & Ht).
    apply list_elem_of_In in Hx.
    apply (Hno' x Hx), (client_runs q x t); [by apply Hpl| |right; by destruct t].
    destruct x as [t'|o|t' o|o]; simpl in Ht; [|done| |]; destruct Ht as [<-|[]]; eauto. done. }
  apply Forall_forall. intros x Hx. pose proof (Hno' x Hx) as Hnox.
  destruct x as [t|o|t o|o]; [| | |by eauto].
  - destruct Hnox. eapply client_runs; [by apply Hpl|by left|by left].
  - destruct (client_call o) as [c|] eqn:Ec; [|by eauto]. destruct Hnox.
    destruct c; eexists _, _; by eapply st_enter.
  - destruct Hnox. eapply client_runs; [by apply Hpl|by eauto|by left].
Qed.

(** ** A disconnected client brings its owner to an end *)

Definition client_of (c : (TcpStatements.shared * S) * list (thread O)) :
    TcpStatements.shared * list TcpStatements.thread := (c.1.1, flat_map tcp_of c.2).

(** What every step of a client keeps, in whatever order its threads are listed. *)
Lemma tcp_kept (P : TcpStatements.shared * list TcpStatements.thread -> Prop) c c' :
  (forall d d', TcpStatements.step takes d d' -> P d -> P d') ->
  (forall n us us', us ≡ₚ us' -> P (n, us) -> P (n, us')) ->
  step c c' -> P (client_of c) -> P (client_of c').
Proof.
  intros Hstep Hperm Hs HP.
  destruct (tcp_simulation c c' (client_of c) Hs) as ([n us] & Hr & E & Hp); [done|].
  simpl in *. subst n. apply (Hperm _ us); [done|]. by apply (steps_inv _ P _ _ Hstep Hr).
Qed.

Definition readers_one (d : TcpStatements.shared * list TcpStatements.thread) : Prop :=
  (unconnected d.1 + sum_list_with reader_token d.2 <= 1)%nat.

Lemma reach_readers todo q s c : rtc step (constructing todo q s) c -> readers_one (client_of c).
Proof.
  intros (us & Hr & Hp)%tcp_reach. unfold readers_one. simpl. rewrite <- Hp.
  exact (reach_reader takes _ Hr).
Qed.

Lemma step_readers c c' : step c c' -> readers_one (client_of c) -> readers_one (client_of c').
Proof.
  apply (tcp_kept readers_one).
  - intros d d' Hs. pose proof (step_reader takes _ _ Hs). unfold readers_one. lia.
  - intros n us us' Hp. unfold readers_one. simpl. by rewrite Hp.
Qed.

Section ending.
(** How many statements a thread of the owner still runs, at most, while the client
    is not connected, and how many a message makes it run. *)
Variable weight : O -> nat.
Variable arrival : nat.
Hypothesis own_weight : forall q s new s',
  own false q s new s' -> (sum_list_with weight new < weight q)%nat.
Hypothesis entry_weight : forall m, (weight (entry m) <= arrival)%nat.
Hypothesis call_weight : forall q c, client_call q = Some c -> (0 < weight q)%nat.
Hypothesis return_weight : forall q s, (sum_list_with weight (on_return q s).1 <= pred (weight q))%nat.
Hypothesis raise_weight : forall q s, (sum_list_with weight (on_raise q s).1 <= pred (weight q))%nat.

(** A method of the client takes at most eight statements. *)
Definition cost : nat := 8 * (1 + arrival) + 1.

Definition value x : nat :=
  match x with
  | Tcp _ => 0 | Own q => cost * weight q | In _ q => cost * pred (weight q) | Back q => weight q
  end.

Definition measure (c : (TcpStatements.shared * S) * list (thread O)) : nat :=
  (1 + arrival) * total (client_of c) + sum_list_with value c.2.

Lemma value_Tcp ts : sum_list_with value (Tcp <$> ts) = 0%nat.
Proof. by induction ts. Qed.

Lemma value_Own qs : sum_list_with value (Own <$> qs) = (cost * sum_list_with weight qs)%nat.
Proof.
  induction qs as [|q qs IH]; [simpl; lia|].
  change (cost * weight q + sum_list_with value (Own <$> qs) = cost * (weight q + sum_list_with weight qs))%nat.
  rewrite IH. lia.
Qed.

(** A thread of the client runs: what it hands to the owner is paid for. *)
Lemma measure_client xs1 x xs2 n s new n' s' t :
  tcp_of x = [t] -> TcpStatements.statement takes t n (flat_map tcp_of new) n' ->
  (sum_list_with value new <= value x + arrival)%nat ->
  over (client_of ((n, s), xs1 ++ x :: xs2)) -> readers_one (client_of ((n, s), xs1 ++ x :: xs2)) ->
  (measure ((n', s'), xs1 ++ new ++ xs2) < measure ((n, s), xs1 ++ x :: xs2))%nat.
Proof.
  intros Hx Hs Hv Ho Hr. unfold measure, client_of, readers_one in *. simpl in *.
  rewrite !flat_map_app in *. simpl in *. rewrite Hx in *. simpl in *.
  rewrite !sum_list_with_app in *. simpl in *.
  assert (total (n', flat_map tcp_of xs1 ++ flat_map tcp_of new ++ flat_map tcp_of xs2) <
    total (n, flat_map tcp_of xs1 ++ t :: flat_map tcp_of xs2))%nat as Ht; [|nia].
  apply (run_total takes); [by apply run_thread|done|].
  simpl. rewrite sum_list_with_app. simpl. lia.
Qed.

(** A thread of the owner runs, and the client stays as it was. *)
Lemma measure_owner xs1 x xs2 n s new s' :
  flat_map tcp_of new = tcp_of x -> (sum_list_with value new < value x)%nat ->
  (measure ((n, s'), xs1 ++ new ++ xs2) < measure ((n, s), xs1 ++ x :: xs2))%nat.
Proof.
  unfold measure, client_of. simpl. rewrite !flat_map_app, !sum_list_with_app. simpl.
  intros -> ?. lia.
Qed.

(** A method of the client begins. *)
Lemma measure_enter xs1 q c t xs2 n s :
  client_call q = Some c -> begin [c] = [t] ->
  (measure ((n, s), xs1 ++ [In t q] ++ xs2) < measure ((n, s), xs1 ++ Own q :: xs2))%nat.
Proof.
  intros Hq Hb. unfold measure, client_of, total. simpl.
  rewrite !flat_map_app, !sum_list_with_app. simpl.
  pose proof (begin_weight (length (buffer (reading n))) [c]) as Hw. rewrite Hb in Hw.
  unfold todo_weight in Hw. simpl in *.
  pose proof (call_weight _ _ Hq). destruct (weight q) as [|w]; [lia|]. simpl. unfold cost. nia.
Qed.

Lemma run_measure c c' :
  run statement c c' -> over (client_of c) -> readers_one (client_of c) ->
  (measure c' < measure c)%nat.
Proof.
  intros [xs1 x xs2 [n s] new [n' s'] Hs] Ho Hr.
  pose proof (proj1 Ho) as Hoff. simpl in Hoff.
  assert (forall us qs, sum_list_with value ((Tcp <$> us) ++ (Own <$> qs)) =
    (cost * sum_list_with weight qs)%nat) as Hv.
  { intros us qs. by rewrite sum_list_with_app, value_Tcp, value_Own. }
  assert (forall w w', w <= pred w' -> cost * w <= cost * pred w' + arrival)%nat as Hcost by nia.
  inversion Hs; subst; try (rewrite Hoff in *).
  - eapply measure_client; [done| | |done..]; rewrite ?tcp_of_Tcp, ?value_Tcp; [done|simpl; lia].
  - eapply (measure_client _ _ _ _ _ _ _ _ (P_call m)); [done| | |done..]; simpl.
    + apply st_p_call. by left.
    + pose proof (entry_weight m). lia.
  - apply measure_owner; [apply tcp_of_Own|]. rewrite value_Own. simpl.
    assert (sum_list_with weight new0 < weight q)%nat by eauto. unfold cost. nia.
  - by eapply measure_enter.
  - eapply (measure_client _ _ _ _ _ _ _ _ t); [done| | |done..]; simpl; [done|lia].
  - eapply (measure_client _ _ _ _ _ _ _ _ t); [done| | |done..]; simpl; [done|lia].
  - eapply (measure_client _ _ _ _ _ _ _ _ t); [done| | |done..].
    + by rewrite flat_map_app, tcp_of_Tcp, tcp_of_Own, app_nil_r.
    + rewrite Hv. apply Hcost, return_weight.
  - eapply (measure_client _ _ _ _ _ _ _ _ t); [done| | |done..].
    + by rewrite tcp_of_Own.
    + rewrite value_Own. apply Hcost, raise_weight.
  - apply measure_owner; [done|]. simpl.
    match goal with H : own _ _ _ _ _ |- _ => apply own_weight in H; simpl in H end. lia.
  - apply measure_owner; [done|]. simpl.
    match goal with H : own _ _ _ _ _ |- _ => apply own_weight in H; simpl in H end. lia.
Qed.

Lemma over_perm n us us' : us ≡ₚ us' -> over (n, us) -> over (n, us').
Proof. intros Hp (Hc & Hk & Ha). split_and!; [done..|]. simpl. by rewrite <- Hp. Qed.

Lemma owner_sn c : over (client_of c) -> readers_one (client_of c) -> sn (run statement) c.
Proof.
  remember (measure c) as k eqn:E. revert c E.
  induction k as [k IH] using lt_wf_ind. intros c -> Ho Hr. constructor. intros c' Hc.
  refine (IH (measure c') _ _ eq_refl _ _).
  - by apply run_measure.
  - apply (tcp_kept over c c'); [|apply over_perm|by apply step_run|done].
    intros d d' Hs Hd. by apply (step_over takes _ _ Hs).
  - by apply (step_readers c c'); [apply step_run|].
Qed.

End ending.

End system.

(** ** Runs *)

(** Statement by statement, to a state that is computed. *)
Lemma goes_on {C} (R : C -> C -> Prop) c1 c2 c2' c3 : R c1 c2 -> c2 = c2' -> rtc R c2' c3 -> rtc R c1 c3.
Proof. intros Hs -> Hr. by eapply rtc_l. Qed.

Lemma goes_in {O S} {owner : Owner O S} takes t q new t' n n' s :
  TcpStatements.statement takes t n new n' -> new = [t'] -> reads t' = false ->
  statement takes (In t q) (n, s) [In t' q] (n', s).
Proof. intros Hs -> Hr. by apply st_in. Qed.

(** [sys i rule] is the next statement of thread [i]. *)
Ltac sys i rule :=
  eapply goes_on;
  [match goal with
   | |- @step ?O ?S ?owner ?tk (?a, ?xs) _ =>
     let xs1 := eval cbv [firstn] in (firstn i xs) in
     let xs2 := eval cbv [skipn] in (skipn i xs) in
     lazymatch xs2 with
     | ?x :: ?xs2 =>
       apply (@step_run O S owner tk);
       eapply (run_thread _ xs1 x xs2 a); rule
     end
   end
  |vm_compute; reflexivity|].

(** What the statement is: of the client ([tcp]), of the client called from the owner
    ([in_]), of the owner ([own_]), of the callback ([back]), a call of the client
    ([enter]) or its return ([ret]), by the rule [c] of the model of that part. *)
Ltac rule_of c :=
  eapply c; first [vm_compute; reflexivity | vm_compute; discriminate | apply not_elem_of_nil | done].
Ltac tcp c := eapply st_tcp; cycle 1; [rule_of c|reflexivity].
Ltac in_ c := eapply goes_in; [rule_of c|vm_compute; reflexivity|reflexivity].
Ltac own_ c := eapply st_own; [reflexivity|]; eexists _, _; split_and!; [reflexivity|reflexivity|rule_of c].
Ltac back c := eapply st_back; [reflexivity|]; eexists _, [_]; split_and!; [reflexivity|reflexivity|rule_of c].
Ltac enter := eapply st_enter; reflexivity.
Ltac ret c := eapply (st_return _ _ _ []); [reflexivity|done|apply c].
