(* ===== verification/OwnersWire.v ===== *)
(** * What an owner's client puts on the wire

    When [sendall] hands all its bytes over at once, the wire of the client of
    Owners.v always holds whole frames, under every interleaving. Here: whose
    frames. [written] shows once and for all owners that they are heartbeats and
    bodies that a thread of the owner, its constructor or the application had to
    send. An owner says with [P] which bodies these are, in its state, and with
    [good] why its threads only send such ones. *)

From S2P Require Export Owners.

Section wire.
Context {O S : Type} {owner : Owner O S}.
Implicit Types (n : TcpStatements.shared) (s : S) (q : O) (x : thread O) (t : TcpStatements.thread).

Variable P : S -> bytes -> Prop.
Variable good : S -> O -> Prop.
Variable grows : S -> S -> Prop.
Variable J : S -> Prop.

(** What the calls of a client that are still to be made send. *)
Definition sendable s (c : op) : Prop := match c with Send b => P s b | _ => True end.

Hypothesis P_heartbeat : forall s, P s HEARTBEAT.
Hypothesis P_grows : forall s s' b, grows s s' -> P s b -> P s' b.
Hypothesis good_grows : forall s s' q, grows s s' -> good s q -> good s' q.
Hypothesis grows_refl : forall s, grows s s.
Hypothesis own_good : forall b q s new s',
  own b q s new s' -> J s -> good s q -> grows s s' /\ Forall (good s') new.
Hypothesis return_good : forall q s,
  good s q -> grows s (on_return q s).2 /\ Forall (good (on_return q s).2) (on_return q s).1.
Hypothesis raise_good : forall q s,
  good s q -> grows s (on_raise q s).2 /\ Forall (good (on_raise q s).2) (on_raise q s).1.
Hypothesis arrives_good : forall m s, grows s (arrives m s) /\ good (arrives m s) (entry m).
Hypothesis start_good : forall qs q s, may_start qs q -> good s q.
Hypothesis call_good : forall q s c, good s q -> client_call q = Some c -> sendable s c.
Hypothesis may_call_good : forall todo s, may_call todo -> Forall (sendable s) todo.

(** The calls a thread of the client still has to make. *)
Definition todo_of t : list op :=
  match t with
  | C_connect todo | C_flag todo | C_thread todo | O_install todo
  | W_test (From_call todo) _ | W_send (From_call todo) _ | W_error (From_call todo)
  | Hb_rearm (From_call todo) | Hb_create (From_call todo) | Hb_daemon (From_call todo)
  | Hb_start (From_call todo)
  | D_flag todo | D_test todo | D_cancel todo | D_clear todo | D_close todo => todo
  | _ => []
  end.

(** What a thread of the client has to send. *)
Definition sends s t : Prop :=
  Forall (sendable s) (todo_of t) /\
  match t with
  | W_test _ b => P s b
  | W_send _ rest => rest = [] \/ exists b, len b <= MAX_MSG_SIZE /\ P s b /\ frame b = Some rest
  | _ => True
  end.

Definition good_thread s x : Prop :=
  match x with
  | Tcp t => sends s t
  | In t q => sends s t /\ good s q
  | Own q | Back q => good s q
  end.

(** The wire holds frames of such bodies. *)
Definition frames_of s (w : bytes) : Prop :=
  exists ms, frames ms = Some w /\ Forall (fun m => len m <= MAX_MSG_SIZE) ms /\ Forall (P s) ms.

Lemma sendable_grows s s' c : grows s s' -> sendable s c -> sendable s' c.
Proof. destruct c; simpl; eauto. Qed.

Lemma sends_grows s s' t : grows s s' -> sends s t -> sends s' t.
Proof.
  intros Hg [Ht Hs]. split.
  - eapply Forall_impl; [exact Ht|]. intros c. by apply sendable_grows.
  - destruct t; try done; [by eapply P_grows|].
    destruct Hs as [?|(b & ? & ? & ?)]; [by left|]. right. exists b. eauto.
Qed.

Lemma good_thread_grows s s' x : grows s s' -> good_thread s x -> good_thread s' x.
Proof.
  intros Hg. destruct x; simpl; [by apply sends_grows|by apply good_grows| |by apply good_grows].
  intros [Ht Hq]. split; [by apply (sends_grows s)|by apply (good_grows s)].
Qed.

Lemma frames_of_grows s s' w : grows s s' -> frames_of s w -> frames_of s' w.
Proof.
  intros Hg (ms & Hf & Hl & Hms). exists ms. split_and!; [done..|].
  eapply Forall_impl; [exact Hms|]. intros m. by apply P_grows.
Qed.

Lemma frames_of_snoc s w b y :
  frames_of s w -> len b <= MAX_MSG_SIZE -> P s b -> frame b = Some y -> frames_of s (w ++ y).
Proof.
  intros (ms & Hf & Hl & Hms) Hb HP Hy. exists (ms ++ [b]). rewrite frames_app, Hf. simpl. rewrite Hy.
  split_and!; [by rewrite app_nil_r|by apply Forall_app_2; repeat constructor..].
Qed.

Lemma sends_begin s todo : Forall (sendable s) todo -> Forall (sends s) (begin todo).
Proof. destruct 1 as [|[] todo Hc Htodo]; repeat constructor; done. Qed.

(** One statement of the client. *)
Lemma statement_sends s t n new n' :
  TcpStatements.statement all_bytes t n new n' -> sends s t -> frames_of s (wire n) ->
  Forall (sends s) new /\ frames_of s (wire n').
Proof.
  intros Hs [Ht Hb] Hw.
  assert (forall k : caller, Forall (sendable s) (match k with From_call todo => todo | _ => [] end) ->
    Forall (sends s) (after_write k) /\ Forall (sends s) (after_beat k)) as Hk.
  { intros [|todo] Hk; (split; [|repeat constructor; done]); [by repeat constructor|by apply sends_begin]. }
  destruct Hs; simpl in *; try (by split; [apply sends_begin|]);
    try (split; [|done]);
    try match goal with
    | |- Forall _ (after_write ?k) => apply (Hk k); by destruct k
    | |- Forall _ (after_beat ?k) => apply (Hk k); by destruct k
    end;
    repeat case_match; try (by repeat constructor);
    try match goal with
    | |- Forall _ (after_write ?k) => apply (Hk k); by destruct k
    | |- Forall _ (after_beat ?k) => apply (Hk k); by destruct k
    end.
  - constructor; [by repeat constructor|by apply sends_begin].
  - constructor; [split; [done|]|done]. right. by exists data.
  - constructor; [split; [done|]|done]. right. by exists data.
  - destruct Hb as [?|(b & ? & ? & ?)]; [done|]. unfold all_bytes in *. subst.
    rewrite firstn_all, drop_all. split; [|by eapply frames_of_snoc].
    constructor; [split; [done|by left]|done].
  - destruct Hb as [?|(b & ? & ? & ?)]; [done|]. unfold all_bytes in *. subst.
    rewrite firstn_all, drop_all. split; [|by eapply frames_of_snoc].
    constructor; [split; [done|by left]|done].
  - destruct H as [->|[->| ->]]; by repeat constructor.
Qed.

(** One statement of the pool. *)
Lemma statement_good x n s new n' s' :
  statement all_bytes x (n, s) new (n', s') -> J s -> good_thread s x -> frames_of s (wire n) ->
  grows s s' /\ Forall (good_thread s') new /\ frames_of s' (wire n').
Proof.
  assert (forall s ts, Forall (sends s) ts -> Forall (good_thread s) (Tcp <$> ts)) as Htcp
    by (intros; by apply Forall_fmap).
  assert (forall s qs, Forall (good s) qs -> Forall (good_thread s) (Own <$> qs)) as Hown
    by (intros; by apply Forall_fmap).
  intros Hs HJ Hx Hw. inversion Hs; subst; clear Hs; simpl in Hx.
  - edestruct statement_sends as [? ?]; [eassumption..|]. split_and!; auto.
  - destruct (arrives_good m s) as [Hg He]. split_and!; [done|by repeat constructor|].
    by apply (frames_of_grows s).
  - edestruct own_good as [Hg Hnew]; [eassumption..|].
    split_and!; [done|by apply Hown|by apply (frames_of_grows s)].
  - split_and!; [done| |done]. constructor; [|constructor]. split; [|done].
    pose proof (call_good _ _ _ Hx ltac:(eassumption)) as Hc.
    pose proof (sends_begin s' [c] ltac:(by repeat constructor)) as Hb.
    match goal with H : begin [c] = _ |- _ => rewrite H in Hb end. by inversion Hb.
  - destruct Hx as [Ht Hq]. edestruct statement_sends as [Hnew ?]; [eassumption..|].
    split_and!; [done| |done]. inversion Hnew. constructor; [by split|done].
  - destruct Hx as [Ht Hq]. edestruct statement_sends as [Hnew ?]; [eassumption..|].
    split_and!; [done| |done]. inversion Hnew as [|? ? ? Hrest]; inversion Hrest.
    constructor; [done|]. constructor; [by split|done].
  - destruct Hx as [Ht Hq]. edestruct statement_sends as [Hnew ?]; [eassumption..|].
    destruct (return_good q s Hq) as [Hg Hr]. split_and!; [done| |by apply (frames_of_grows s)].
    apply Forall_app_2; [|by apply Hown]. apply Htcp. eapply Forall_impl; [exact Hnew|].
    intros u. by apply sends_grows.
  - destruct Hx as [Ht Hq]. edestruct statement_sends as [Hnew ?]; [eassumption..|].
    destruct (raise_good q s Hq) as [Hg Hr].
    split_and!; [done|by apply Hown|by apply (frames_of_grows s)].
  - edestruct own_good as [Hg Hnew]; [eassumption..|].
    split_and!; [done| |by apply (frames_of_grows s)]. inversion Hnew. by constructor.
  - edestruct own_good as [Hg Hnew]; [eassumption..|].
    split_and!; [done| |by apply (frames_of_grows s)]. repeat constructor.
Qed.

Definition wire_inv (c : (TcpStatements.shared * S) * list (thread O)) : Prop :=
  Forall (good_thread c.1.2) c.2 /\ frames_of c.1.2 (wire c.1.1).

Lemma step_wire c c' : step all_bytes c c' -> J c.1.2 -> wire_inv c -> wire_inv c'.
Proof.
  intros [c1 c2 [xs1 x xs2 [n s] new [n' s'] Hs]|i n s xs Hi|q n s xs Hq|todo n s xs Hd] HJ [Hg Hw];
    unfold wire_inv in *; simpl in *.
  - apply Forall_app in Hg as [Hg1 Hg2]. apply Forall_cons in Hg2 as [Hx Hg2].
    destruct (statement_good _ _ _ _ _ _ Hs HJ Hx Hw) as (Hgrow & Hnew & Hw'). split; [|done].
    assert (forall us, Forall (good_thread s) us -> Forall (good_thread s') us) as Hk.
    { intros us Hus. eapply Forall_impl; [exact Hus|]. intros u. by apply good_thread_grows. }
    apply Forall_app_2; [|apply Forall_app_2]; auto.
  - split; [|done]. by repeat constructor.
  - split; [|done]. constructor; [by eapply start_good|done].
  - split; [|done]. apply Forall_app_2; [|done].
    apply Forall_fmap. eapply Forall_impl; [by apply sends_begin, may_call_good|done].
Qed.

Lemma written todo q s c :
  good s q -> Forall (sendable s) todo ->
  (forall c, rtc (step all_bytes) (constructing todo q s) c -> J c.1.2) ->
  rtc (step all_bytes) (constructing todo q s) c -> frames_of c.1.2 (wire c.1.1).
Proof.
  intros Hq Htodo HJ Hr.
  assert (rtc (step all_bytes) (constructing todo q s) c /\ wire_inv c) as [_ [_ ?]]; [|done].
  refine (steps_inv (step all_bytes)
    (fun c => rtc (step all_bytes) (constructing todo q s) c /\ wire_inv c) _ _ _ Hr _).
  - intros c1 c2 Hs [Hr1 Hw]. split; [by eapply rtc_r|]. apply (step_wire _ _ Hs); [by apply HJ|done].
  - split; [done|]. split; [|by exists []]. by repeat constructor.
Qed.

End wire.
