(* ===== verification/QuerierSystem.v ===== *)
(** * An [OpenSocketQuerier] with its client, statement by statement

    QueryThreads.v has the statements of
    knotlink-sdk-python/knotlink/knotlink/OpenSocketQuerier.py over a client that
    sends in one piece and from which messages come, TcpStatements.v those of
    tcpclient.py under an application that calls its methods. Here both are one
    program: [init] connects the client and installs [_internal_data_recv], a
    [query] goes through the statements of [send_data], [disconnect] through those
    of the client's [disconnect], and what the receive thread takes from the socket
    runs through [_internal_data_recv].

    The part of the program that is in the client is a run of the statements of the
    client, [tcp_reach], and the part that is in the querier a run of those of the
    querier, [query_reach]; the theorems are about the whole. *)

From S2P Require Export QueryThreads OwnersWire.

(** A thread of the querier. [Q_init] is the constructor, which runs [init]. *)
Inductive qthread {U : Type} :=
| Q_init                                            (* 23-25: init *)
| Q_run (q : QueryThreads.thread U).
Arguments qthread U : clear implicits.

(** What the application does: whether its calls of [query] do not overlap, the
    texts it asks, the identifiers it gives to [set_config], and the calls it makes
    of the methods of the client itself. *)
Record usage := Usage {
  alone : bool;
  texts : pystr -> Prop;
  configs : pystr -> pystr -> Prop;
  direct : list op -> Prop }.

Section querier.
Context {U W : Type}.
Variable app : U -> pystr -> W -> W.
Variable use : usage.
Implicit Types (s : QueryThreads.shared U W) (q : qthread U).

(** The statements that call the client: 59, [send_data], and 83, [disconnect]. *)
Definition query_call q : option op :=
  match q with
  | Q_run (Q_write body _ | A_write body) => Some (Send body)
  | Q_run X_client => Some Disconnect
  | _ => None
  end.

(** Where the thread goes on when the client has returned, and when it raised: an
    exception ends the method. *)
Definition query_return q s : list (qthread U) * QueryThreads.shared U W :=
  (match q with
   | Q_run (Q_write _ m) => [Q_run (Q_wait m)]
   | Q_run X_client => [Q_run X_lock]
   | _ => []
   end, s).

Definition query_raise q s : list (qthread U) * QueryThreads.shared U W :=
  (match q with
   | Q_run (Q_write _ _) => [Q_run (Q_returned (Raise ValueError))]
   | _ => []
   end, s).

(** The statements of QueryThreads.v that do not call the client. *)
Definition query_own (connected : bool) q s (new : list (qthread U)) s' : Prop :=
  exists t ts, q = Q_run t /\ new = Q_run <$> ts /\ QueryThreads.statement app t s ts s'.

(** The calls of [query] and the other threads of the querier. *)
Definition ask q : list (QueryThreads.thread U) :=
  match q with Q_init => [] | Q_run t => [t] end.

Definition constructed q : bool := match q with Q_init => false | Q_run _ => true end.

(** When the constructor has returned the methods may be called, as the application
    uses them. *)
Definition query_start (qs : list (qthread U)) q : Prop :=
  forallb constructed qs = true /\
  match q with
  | Q_run (Q_lock d _) =>
    texts use d /\ (alone use = true -> sum_list_with active (flat_map ask qs) = 0%nat)
  | Q_run (A_send d) => texts use d
  | Q_run (O_config a i) => configs use a i
  | Q_run (X_client | O_callback _) => True
  | _ => False
  end.

Definition querier_owner : Owner (qthread U) (QueryThreads.shared U W) := {|
  entry d := Q_run (I_decode d);
  arrives := arrive;
  own := query_own;
  client_call := query_call;
  on_return := query_return;
  on_raise := query_raise;
  may_start := query_start;
  may_call := direct use |}.

End querier.

(** [OpenSocketQuerier(...)]: 23-25, [connect_to_server] and the callback. *)
Definition new_querier {U W : Type} (o : querier U W) :
    (TcpStatements.shared * QueryThreads.shared U W) * list (thread (qthread U)) :=
  constructing [Install] Q_init (QueryThreads.Shared _ _ false o []).

(** ** Lemmas *)

Section lemmas.
Context {U W : Type} (app : U -> pystr -> W -> W) (use : usage) (takes : bytes -> nat -> Prop).
Implicit Types (s : QueryThreads.shared U W) (q : qthread U) (n : TcpStatements.shared)
  (xs : list (thread (qthread U))) (k : tcp unit).

#[local] Instance owner : Owner (qthread U) (QueryThreads.shared U W) := querier_owner app use.

(** The model of QueryThreads.v has a client of its own, in the attribute
    [KLquerier]. *)
Definition with_client k s : QueryThreads.shared U W := on (set_KLquerier k) s.

(** What does not call the client does not look at it. *)
Lemma query_any_client k t s new s' :
  query_call (Q_run t) = None -> QueryThreads.statement app t s new s' ->
  QueryThreads.statement app t (with_client k s) new (with_client k s').
Proof.
  unfold with_client. intros Hq Hs.
  destruct Hs; try done; try (by constructor); try (by econstructor).
  - exact (st_q_send app d m (on (set_KLquerier k) s)).
  - exact (st_q_return app (on (set_KLquerier k) s)).
  - exact (st_a_send app d (on (set_KLquerier k) s)).
  - exact (st_i_callback app x (on (set_KLquerier k) s)).
  - assert (on (set_KLquerier k) (on (QueryThreads.called app x) s) =
      on (QueryThreads.called app x) (on (set_KLquerier k) s)) as -> by
      (unfold on, QueryThreads.called; simpl; by destruct (OpenSocketQuerier.callback (object s))).
    constructor.
Qed.

(** The client of the model of QueryThreads.v follows the socket. *)
Definition follows k n : Prop := sk_phase (tcp_socket k) = Closed <-> sock n = Closed.

Lemma follow k n n' b :
  follows k n -> (sock n = Closed -> sock n' = Closed) ->
  exists k', follows k' n' /\ (sk_phase (tcp_socket k) = Closed -> sk_phase (tcp_socket k') = Closed) /\
    _connected_event k' = b.
Proof.
  unfold follows. intros Hf Hn.
  set (x := Socket (if decide (sock n' = Closed) then Closed else sk_phase (tcp_socket k)) false None []).
  exists (TcpClient.set_connected b (set_socket x k)). simpl.
  case_decide; split_and!; tauto.
Qed.

(** ** The querier's part is a run of the querier *)

Definition queries xs : list (QueryThreads.thread U) := threads_of ask xs.

(** [cut] are the calls of [disconnect] that an exception of the client has ended. *)
Definition query_part (c : (TcpStatements.shared * QueryThreads.shared U W) * list (thread (qthread U)))
    (d : QueryThreads.shared U W * list (QueryThreads.thread U)) : Prop :=
  exists k cut, d.1 = with_client k c.1.2 /\ follows k c.1.1 /\
    d.2 ≡ₚ queries c.2 ++ cut /\ Forall (fun t => t = X_client) cut.

Lemma queries_run (ts : list (QueryThreads.thread U)) : flat_map ask (Q_run <$> ts) = ts.
Proof. induction ts as [|t ts IH]; [done|]. simpl. f_equal. exact IH. Qed.

(** A statement of a thread of the querier, in a pool in some order. *)
Lemma query_run t s new s' us rest :
  us ≡ₚ t :: rest -> QueryThreads.statement app t s new s' ->
  exists us', rtc (QueryThreads.step app (alone use)) (s, us) (s', us') /\ us' ≡ₚ new ++ rest.
Proof.
  intros Hus Hs. destruct (run_perm _ t s new s' us rest Hus Hs) as (us' & Hr & Hp).
  exists us'. split; [by apply rtc_once, QueryThreads.step_run|done].
Qed.

(** The client below changes. *)
Lemma query_follow k k' s us :
  (sk_phase (tcp_socket k) = Closed -> sk_phase (tcp_socket k') = Closed) ->
  rtc (QueryThreads.step app (alone use)) (with_client k s, us) (with_client k' s, us).
Proof.
  intros Hk. apply rtc_once. exact (step_client app (alone use) k' (with_client k s) us Hk).
Qed.

Lemma query_stays n n' k s us b :
  follows k n -> (sock n = Closed -> sock n' = Closed) ->
  exists k', rtc (QueryThreads.step app (alone use)) (with_client k s, us) (with_client k' s, us) /\
    follows k' n' /\ _connected_event k' = b.
Proof.
  intros Hf Hn. destruct (follow k n n' b Hf Hn) as (k' & Hf' & Hk & Hb).
  exists k'. split_and!; [by apply query_follow|done..].
Qed.

Lemma sock_closed t n ts n' :
  TcpStatements.statement takes t n ts n' -> sock n = Closed -> sock n' = Closed.
Proof. intros Hs Hc. by apply (statement_closed takes _ _ _ _ Hs). Qed.

(** A method of the client that a thread of the querier is in. *)
Lemma query_placed t q :
  placed Q_init (In t q) -> q = Q_init \/ exists c, query_call q = Some c /\ within c t.
Proof. simpl. intros [_ Hp]. destruct (query_call q); eauto. Qed.

(** [send_data], of a client that is not connected, and of one that is. *)
Lemma query_off k body s :
  _connected_event k = false ->
  on_querier (send_data body) (object (with_client k s)) = (Ret tt, object (with_client k s)).
Proof. intros Hk. unfold on_querier, zoom. simpl. by rewrite send_data_disconnected. Qed.

Lemma query_long k body s :
  _connected_event k = true -> MAX_MSG_SIZE < len body ->
  on_querier (send_data body) (object (with_client k s)) = (Raise ValueError, object (with_client k s)).
Proof. intros Hk Hl. unfold on_querier, zoom. simpl. by rewrite send_data_too_long. Qed.

Lemma async_off k body s :
  _connected_event k = false ->
  QueryThreads.statement app (A_write body) (with_client k s) [] (with_client k s).
Proof.
  intros Hk. pose proof (st_a_write app body (with_client k s)) as Ha. unfold on in Ha.
  rewrite (query_off k body s Hk) in Ha. exact Ha.
Qed.

(** How the thread of the querier goes on when the client is done. *)
Lemma query_returns t q n n' s ts k us rest :
  TcpStatements.statement takes t n ts n' -> raising t n = false ->
  Forall (fun u => reads u = true) ts -> placed Q_init (In t q) -> follows k n ->
  us ≡ₚ ask q ++ rest ->
  exists k' us', rtc (QueryThreads.step app (alone use)) (with_client k s, us) (with_client k' s, us') /\
    follows k' n' /\ us' ≡ₚ flat_map ask (query_return q s).1 ++ rest.
Proof.
  intros Hs Hra Hts Hp Hf Hus.
  destruct (query_stays n n' k s us false Hf (sock_closed _ _ _ _ Hs)) as (k' & Hr & Hf' & Hb).
  destruct (query_placed _ _ Hp) as [->|(c & Hc & Hw)]; [by exists k', us|].
  destruct q as [|t0]; [done|]. destruct t0; simplify_eq/=.
  - destruct (query_run _ _ _ (with_client k' s) us rest Hus
      (st_q_write app body timeout _ _ (query_off k' body s Hb))) as (us' & Hr' & Hp').
    exists k', us'. split_and!; [by etrans|done|done].
  - destruct (query_run _ _ _ _ us rest Hus (async_off k' body s Hb)) as (us' & Hr' & Hp').
    exists k', us'. split_and!; [by etrans|done|done].
  - destruct t; try done; destruct todo; try done; inversion Hs; subst; simpl in *;
      repeat case_match; inversion Hts; simplify_eq/=; try done.
    destruct (query_run _ _ _ (with_client (snd (TcpClient.disconnect k)) s) us rest Hus
      (st_x_client app (with_client k s))) as (us' & Hr' & Hp').
    exists (snd (TcpClient.disconnect k)), us'. split_and!; [done| |done].
    unfold follows. by rewrite disconnect_eq.
Qed.

Lemma query_raises t q n n' s k us rest :
  TcpStatements.statement takes t n [] n' -> raising t n = true ->
  placed Q_init (In t q) -> follows k n -> us ≡ₚ ask q ++ rest ->
  exists k' us' cut, rtc (QueryThreads.step app (alone use)) (with_client k s, us) (with_client k' s, us') /\
    follows k' n' /\ us' ≡ₚ flat_map ask (query_raise q s).1 ++ cut ++ rest /\
    Forall (fun t => t = X_client) cut.
Proof.
  intros Hs Hra Hp Hf Hus.
  destruct (query_stays n n' k s us true Hf (sock_closed _ _ _ _ Hs)) as (k' & Hr & Hf' & Hb).
  destruct (query_placed _ _ Hp) as [->|(c & Hc & Hw)]; [by exists k', us, []|].
  destruct q as [|t0]; [done|]. destruct t0; simplify_eq/=.
  - assert (MAX_MSG_SIZE < len body) as Hl.
    { destruct t; try done; destruct k0 as [|[]]; try done. simpl in Hw. subst data. simpl in Hra.
      apply andb_true_iff in Hra as [_ Hl]. by apply Z.ltb_lt. }
    destruct (query_run _ _ _ (with_client k' s) us rest Hus
      (st_q_write_raises app body timeout _ _ _ (query_long k' body s Hb Hl))) as (us' & Hr' & Hp').
    exists k', us', []. split_and!; [by etrans|done|done|done].
  - destruct (query_stays n n' k s us false Hf (sock_closed _ _ _ _ Hs)) as (k2 & Hr2 & Hf2 & Hb2).
    destruct (query_run _ _ _ _ us rest Hus (async_off k2 body s Hb2)) as (us' & Hr' & Hp').
    exists k2, us', []. split_and!; [by etrans|done|done|done].
  - exists k', us, [X_client]. split_and!; [done|done|done|by constructor].
Qed.

Lemma query_owns b q s new s' k us rest :
  query_call q = None -> query_own app b q s new s' -> us ≡ₚ ask q ++ rest ->
  exists us', rtc (QueryThreads.step app (alone use)) (with_client k s, us) (with_client k s', us') /\
    us' ≡ₚ flat_map ask new ++ rest.
Proof.
  intros Hq (t & ts & -> & -> & Hs) Hus. rewrite queries_run.
  by apply (query_run t _ _ _ us rest Hus), query_any_client.
Qed.

(** A statement of the owner, of a thread of its own or in the callback. *)
Ltac by_owns k :=
  match goal with
  | Hc : client_call _ = None, H : own ?b _ _ _ _, Hus : _ ≡ₚ _ |- _ =>
    destruct (query_owns b _ _ _ _ k _ _ Hc H Hus) as (us' & Hr & Hp');
    cbn [flat_map List.app] in Hp'; rewrite ?app_nil_r in Hp'; exists k, us', []; by split_and!
  end.

(** One statement of the pool: the querier's part goes on, or stays, or a
    [disconnect] is cut. *)
Lemma query_statement x n s new n' s' k us rest :
  statement takes x (n, s) new (n', s') -> placed Q_init x -> follows k n ->
  us ≡ₚ queries [x] ++ rest ->
  exists k' us' cut, rtc (QueryThreads.step app (alone use)) (with_client k s, us) (with_client k' s', us') /\
    follows k' n' /\ us' ≡ₚ queries new ++ cut ++ rest /\ Forall (fun t => t = X_client) cut.
Proof.
  intros Hs Hp Hf Hus.
  assert (forall t ts, TcpStatements.statement takes t n ts n' ->
    exists k', rtc (QueryThreads.step app (alone use)) (with_client k s, us) (with_client k' s, us) /\
      follows k' n') as Hstay.
  { intros t ts Hst.
    destruct (query_stays n n' k s us false Hf (sock_closed _ _ _ _ Hst)) as (k' & ? & ? & _).
    by exists k'. }
  inversion Hs; subst; clear Hs; unfold queries in *; rewrite ?threads_of_app, ?threads_of_Tcp, ?threads_of_Own in *;
    unfold threads_of in *; cbn [flat_map own_of List.app] in *; rewrite ?app_nil_r in *.
  - destruct (Hstay _ _ ltac:(eassumption)) as (k' & Hr & Hf'). by exists k', us, [].
  - exists k, (I_decode m :: us), []. split_and!; [|done| |done].
    + apply rtc_once. apply (step_message app (alone use) m (with_client k s)).
    + by rewrite Hus.
  - by_owns k.
  - by exists k, us, [].
  - destruct (Hstay _ _ ltac:(eassumption)) as (k' & Hr & Hf'). by exists k', us, [].
  - destruct (Hstay _ _ ltac:(eassumption)) as (k' & Hr & Hf'). by exists k', us, [].
  - match goal with H : TcpStatements.statement _ _ _ _ _, Hr : raising _ _ = _, Hu : Forall _ _ |- _ =>
      destruct (query_returns _ _ _ _ s' _ k us rest H Hr Hu Hp Hf Hus) as (k' & us' & ? & ? & ?) end.
    by exists k', us', [].
  - match goal with H : TcpStatements.statement _ _ _ [] _, Hr : raising _ _ = _ |- _ =>
      destruct (query_raises _ _ _ _ s' k us rest H Hr Hp Hf Hus) as (k' & us' & cut & ? & ? & ? & ?) end.
    by exists k', us', cut.
  - by_owns k.
  - by_owns k.
Qed.

(** A method that is called. *)
Lemma query_called qs q s us cut :
  query_start use qs q -> us ≡ₚ flat_map ask qs ++ cut -> Forall (fun t => t = X_client) cut ->
  exists t, q = Q_run t /\ QueryThreads.step app (alone use) (s, us) (s, t :: us).
Proof.
  intros [_ Hq] Hus Hcut. destruct q as [|t]; [done|].
  exists t. split; [done|]. destruct t; try done;
    [|apply step_async|apply step_disconnect|apply step_config|apply step_callback].
  apply step_query. destruct Hq as [_ Hq]. intros Ha. rewrite Hus, sum_list_with_app, Hq by done.
  clear -Hcut. induction Hcut as [|t cut -> _ IH]; [done|exact IH].
Qed.

Lemma query_simulation c c' d :
  step takes c c' -> Forall (placed Q_init) c.2 /\ query_part c d ->
  exists d', rtc (QueryThreads.step app (alone use)) d d' /\ Forall (placed Q_init) c'.2 /\ query_part c' d'.
Proof.
  intros Hst [Hp (k & cut & E & Hf & Hus & Hcut)]. destruct d as [a us]. simpl in E. subst a.
  pose proof (step_placed takes Q_init _ _ Hst Hp) as Hp'. unfold query_part.
  destruct Hst as [c c' [xs1 x xs2 [n s] new [n' s'] Hs]|i n s xs Hi|q n s xs Hq|todo n s xs Hd]; simpl in *.
  - apply Forall_app in Hp as [_ Hp]. apply Forall_cons in Hp as [Hp _].
    assert (us ≡ₚ queries [x] ++ queries xs1 ++ queries xs2 ++ cut) as Hus'.
    { unfold queries in *. by rewrite Hus, threads_of_middle, <- !app_assoc. }
    destruct (query_statement _ _ _ _ _ _ _ _ _ Hs Hp Hf Hus')
      as (k' & us' & cut' & Hr & Hf' & Hus1 & Hcut').
    exists (with_client k' s', us'). split_and!; [done|done|].
    exists k', (cut' ++ cut). split_and!; [done|done| |by apply Forall_app_2]. simpl.
    unfold queries in *. rewrite Hus1, !threads_of_app. solve_Permutation.
  - exists (with_client k s, us). split_and!; [done|done|]. by exists k, cut.
  - destruct (query_called _ _ (with_client k s) us cut Hq Hus Hcut) as (t & -> & Hs).
    exists (with_client k s, t :: us). split_and!; [by apply rtc_once|done|].
    exists k, cut. split_and!; [done|done| |done]. simpl. by rewrite Hus.
  - exists (with_client k s, us). split_and!; [done|done|].
    exists k, cut. split_and!; [done|done| |done]. simpl.
    unfold queries in *. by rewrite threads_of_app, threads_of_Tcp.
Qed.

Lemma query_reach o c :
  sk_phase (tcp_socket (KLquerier o)) = Fresh ->
  rtc (step takes) (new_querier o) c ->
  exists d, rtc (QueryThreads.step app (alone use)) (idle o) d /\ query_part c d.
Proof.
  intros Hk Hr. destruct (simulation (step takes) (QueryThreads.step app (alone use))
    (fun c d => Forall (placed Q_init) c.2 /\ query_part c d) _ _ (idle o) query_simulation Hr)
    as (d & Hr' & _ & Hd); [|by exists d].
  split; [by repeat constructor|].
  exists (KLquerier o), []. split_and!; [|by unfold follows; rewrite Hk|done|done].
  unfold idle, new_querier, constructing, with_client, on. simpl. by rewrite set_KLquerier_id.
Qed.

(** The messages [_internal_data_recv] is called with are those the client hands on. *)
Lemma query_arrived o c :
  rtc (step takes) (new_querier o) c -> arrived c.1.2 = called (reading c.1.1).
Proof.
  intros Hr. refine (reach_log takes arrived _ _ _ _ _ _ _ _ _ _ Hr); try done.
  intros b q s new s' (t & ts & _ & _ & Hs). by apply (statement_arrived app t s ts).
Qed.

(** ** Who can run *)

(** The statements of [_internal_data_recv]. *)
Definition receives (t : QueryThreads.thread U) : bool :=
  match t with
  | I_decode _ | I_lock _ | I_test _ | I_store _ | I_set | I_callback _ | I_call _ => true
  | _ => false
  end.

(** The constructor only runs in the client, and the callback of the client only
    is [_internal_data_recv]. *)
Definition outside q : Prop := constructed q = true.
Definition inside q : Prop := match q with Q_run t => receives t = true | Q_init => False end.

Lemma query_statement_shape t s new s' :
  QueryThreads.statement app t s new s' ->
  (new = [] \/ exists t', new = [t']) /\
  (receives t = true -> Forall (fun t => receives t = true) new).
Proof. intros Hs. destruct Hs; simpl; repeat case_match; eauto. Qed.

Lemma query_settled o c :
  rtc (step takes) (new_querier o) c -> Forall (settled outside (fun _ => True) inside) c.2.
Proof.
  intros Hr. refine (reach_settled takes outside (fun _ => True) inside _ _ _ _ _ _ _ _ _ _ _ _ Hr); try done.
  - intros b q s new s' (t & ts & -> & -> & _) _. by apply Forall_fmap, Forall_true.
  - intros b q s new s' (t & ts & -> & -> & Hs) Hq. apply Forall_fmap.
    by apply (query_statement_shape _ _ _ _ Hs).
  - intros [|[]] s _; by repeat constructor.
  - intros [|[]] s _; by repeat constructor.
  - intros qs q [_ Hq]. by destruct q.
Qed.

Lemma query_locked o n s xs :
  sk_phase (tcp_socket (KLquerier o)) = Fresh ->
  rtc (step takes) (new_querier o) ((n, s), xs) ->
  sum_list_with QueryThreads.critical (queries xs) = QueryThreads.locked s.
Proof.
  intros Hk (d & Hr & k & cut & E & _ & Hus & Hcut)%query_reach; [|done]. simpl in *.
  assert (sum_list_with QueryThreads.critical d.2 = QueryThreads.locked d.1) as Hl.
  { by refine (steps_inv _ (fun c => sum_list_with QueryThreads.critical c.2 = QueryThreads.locked c.1)
      _ _ (query_step_lock app (alone use)) Hr _). }
  rewrite Hus, E, sum_list_with_app in Hl. change (QueryThreads.locked (with_client k s)) with
    (QueryThreads.locked s) in Hl. rewrite <- Hl.
  assert (sum_list_with QueryThreads.critical cut = 0%nat) as ->; [|lia].
  clear -Hcut. induction Hcut as [|t cut -> _ IH]; [done|exact IH].
Qed.

(** A thread of the querier that is not in the client runs, or waits. *)
Lemma query_owner_runs x t n s :
  settled outside (fun _ => True) inside x -> (x = Own (Q_run t) /\ query_call (Q_run t) = None) \/ x = Back (Q_run t) ->
  _state_lock s = false \/ QueryThreads.critical t = 1%nat ->
  (exists new c', statement takes x (n, s) new c') \/ (x = Own (Q_run t) /\ waiting s t).
Proof.
  intros Hx Ht Hl. destruct (query_can_run app t s Hl) as [(new & s' & Hs)|Hw].
  - left. destruct Ht as [[-> Hc]| ->].
    + exists (Own <$> (Q_run <$> new)), (n, s'). apply st_own; [done|]. by exists t, new.
    + assert (query_call (Q_run t) = None) as Hc by by destruct t.
      destruct (query_statement_shape _ _ _ _ Hs) as [[->|[t' ->]] _].
      * exists [Tcp P_lock], (n, s'). apply (st_back_ends takes _ n s s'); [done|]. by exists t, [].
      * exists [Back (Q_run t')], (n, s'). apply st_back; [done|]. by exists t, [t'].
  - destruct Ht as [[-> _]| ->]; [by right|].
    destruct Hw as [[r ->]|[-> _]]; simpl in Hx; done.
Qed.

(** In a program that cannot run, nobody holds the lock, and who is left is a call
    of [query] that waits for its event, or is over. *)
Lemma system_stuck o n s xs :
  sk_phase (tcp_socket (KLquerier o)) = Fresh ->
  rtc (step takes) (new_querier o) ((n, s), xs) ->
  (forall c', ~ run (statement takes) ((n, s), xs) c') ->
  forall x, x ∈ xs -> exists t, x = Own (Q_run t) /\ waiting s t.
Proof.
  intros Hk Hr Hno.
  pose proof (stuck_client takes [Install] Q_init _ _ eq_refl Hr Hno) as Hcl.
  pose proof (query_settled _ _ Hr) as Hset.
  pose proof (query_locked _ _ _ _ Hk Hr) as Hlock. simpl in Hcl, Hset.
  rewrite Forall_forall in Hcl, Hset.
  assert (forall x, x ∈ xs -> exists t,
    ((x = Own (Q_run t) /\ query_call (Q_run t) = None) \/ x = Back (Q_run t))) as Hshape.
  { intros x Hx. pose proof (Hset x Hx) as Hs. destruct (Hcl x Hx) as ([|t] & [[-> Hq]| ->]); eauto; done. }
  assert (forall x, x ∈ xs -> ~ exists new c', statement takes x (n, s) new c') as Hno'.
  { intros x Hx (new & c' & Hs). destruct (run_in _ _ _ _ _ _ Hx Hs) as [c'' Hc]. by eapply Hno. }
  assert (_state_lock s = false) as Hfree.
  { destruct (_state_lock s) eqn:El; [|done]. exfalso. unfold QueryThreads.locked in Hlock.
    rewrite El in Hlock. destruct (count_some QueryThreads.critical (queries xs)) as (t & Ht & Hc); [lia|].
    unfold queries, threads_of in Ht. apply list_elem_of_In, in_flat_map in Ht as (q & Hq & Ht).
    apply in_flat_map in Hq as (x & Hx & Hq). apply list_elem_of_In in Hx.
    destruct (Hshape x Hx) as (t' & Hcases).
    assert (t' = t) as ->.
    { destruct Hcases as [[-> _]| ->]; simpl in Hq; destruct Hq as [<-|[]];
        simpl in Ht; by destruct Ht as [<-|[]]. }
    destruct (query_owner_runs x t n s (Hset x Hx) Hcases) as [H|[_ [[r ->]|[-> _]]]];
      [right; by destruct t|by apply (Hno' x Hx)|done..]. }
  intros x Hx. destruct (Hshape x Hx) as (t & Hcases).
  destruct (query_owner_runs x t n s (Hset x Hx) Hcases) as [H|H]; [by left|by destruct (Hno' x Hx)|by exists t].
Qed.

(** ** The end *)

Definition query_weight q : nat := match q with Q_init => 1 | Q_run t => QueryThreads.weight t end.

Lemma query_own_weight b q s new s' :
  query_own app b q s new s' -> (sum_list_with query_weight new < query_weight q)%nat.
Proof.
  intros (t & ts & -> & -> & Hs). pose proof (query_statement_weight _ _ _ _ _ Hs) as Hw.
  assert (forall ts : list (QueryThreads.thread U), sum_list_with query_weight (Q_run <$> ts) = sum_list_with QueryThreads.weight ts) as ->;
    [|done].
  clear. intros ts. induction ts as [|t ts IH]; [done|]. simpl. f_equal. exact IH.
Qed.

Lemma system_sn o n s xs :
  rtc (step takes) (new_querier o) ((n, s), xs) ->
  connected n = false -> sock n = Closed -> Forall (fun t => arming t = false) (flat_map tcp_of xs) ->
  sn (run (statement takes)) ((n, s), xs).
Proof.
  intros Hr Hc Hk Ha. apply (owner_sn takes query_weight 6); simpl.
  - intros q s0 new s1. apply query_own_weight.
  - done.
  - intros [|[]] ??; simplify_eq/=; lia.
  - intros [|[]] ?; simpl; lia.
  - intros [|[]] ?; simpl; lia.
  - done.
  - by eapply reach_readers.
Qed.

(** A text that [query] returned, in both models. *)
Lemma returned_in xs us r :
  Own (Q_run (Q_returned r)) ∈ xs -> queries xs ⊆ us -> Q_returned r ∈ us.
Proof.
  intros Hin Hus. apply Hus. apply list_elem_of_In, in_flat_map.
  exists (Q_run (Q_returned r)). split; [|by left]. apply in_flat_map.
  exists (Own (Q_run (Q_returned r))). split; [by apply list_elem_of_In|by left].
Qed.

(** What [query] returns was received. *)
Lemma query_received o n s xs x :
  sk_phase (tcp_socket (KLquerier o)) = Fresh -> query_result o = None ->
  rtc (step takes) (new_querier o) ((n, s), xs) ->
  Own (Q_run (Q_returned (Ret (Some x)))) ∈ xs ->
  exists d, d ∈ payloads (p_msgs (parse (received (reading n)))) /\ x = utf8_decode_replace d.
Proof.
  intros Hk Hq Hr Hin.
  destruct (query_reach o _ Hk Hr) as ([a us] & Hr' & k & cut & E & Hf & Hus & _). simpl in *. subst a.
  assert (Q_returned (Ret (Some x)) ∈ us) as Hin'.
  { apply (returned_in xs); [done|]. intros t Ht. rewrite Hus. apply elem_of_app. by left. }
  destruct (returned_text app (alone use) o _ _ x Hq Hr' Hin') as (d & Hd & ->).
  exists d. split; [|done]. pose proof (query_arrived o _ Hr) as Ha. simpl in *. rewrite Ha in Hd.
  destruct (tcp_reach takes _ _ _ _ Hr) as (ts & Ht & _).
  by apply (called_received takes _ _ _ Ht).
Qed.

End lemmas.

(** ** What goes out *)

Section wire.
Context {U W : Type} (app : U -> pystr -> W -> W) (use : usage).
Implicit Types (s : QueryThreads.shared U W) (q : qthread U).

Variable o : querier U W.

(** The identifiers the querier can have: the constructor's, or configured ones. *)
Definition known_app (a : option pystr) : Prop :=
  a = appID o \/ exists a' i, a = Some a' /\ configs use a' i.
Definition known_socket (i : option pystr) : Prop :=
  i = openSocketID o \/ exists a i', i = Some i' /\ configs use a i'.

(** A heartbeat, or a text the application asks, under such identifiers, or what the
    application sends through the client itself. *)
Definition request_body (b : bytes) : Prop :=
  b = HEARTBEAT \/
  (exists a i d, known_app a /\ known_socket i /\ texts use d /\ request_bytes a i d = Some b) \/
  exists todo, direct use todo /\ Send b ∈ todo.

Definition asks_text q : Prop :=
  match q with
  | Q_run (Q_lock d _ | Q_result d _ | Q_clear d _ | Q_mark d _ | Q_reset d _ | Q_send d _
          | A_send d) => texts use d
  | Q_run (Q_key a d _ | A_key a d) => known_app a /\ texts use d
  | Q_run (Q_write b _ | A_write b) => request_body b
  | Q_run (O_config a i) => configs use a i
  | Q_run (O_socket i) => exists a, configs use a i
  | _ => True
  end.

Definition known s : Prop := known_app (appID (object s)) /\ known_socket (openSocketID (object s)).

Lemma own_asks b q s new s' :
  query_own app b q s new s' -> known s -> asks_text q -> known s' /\ Forall asks_text new.
Proof.
  intros (t & ts & -> & -> & Hs) [Ha Hi] Hq. unfold known.
  assert (forall a d b, known_app a /\ texts use d -> request_bytes a (openSocketID (object s)) d = Some b ->
    request_body b) as Hb by (intros a d b' [? ?] ?; right; left; eauto 10).
  destruct Hs; simpl in *;
    try match goal with H : on_querier _ _ = _ |- _ => apply send_fields in H as (? & -> & _) end;
    try (split; [done|]; repeat case_match; first [by apply Forall_nil|by apply Forall_singleton]).
  - split; [done|]. constructor; [|done]. by eapply Hb.
  - split; [done|]. constructor; [|done]. by eapply Hb.
  - split; [|done]. destruct (on_querier (send_data body) (object s)) as [r o'] eqn:E.
    by apply send_fields in E as (? & -> & _).
  - split; [|done]. unfold QueryThreads.called. by destruct (OpenSocketQuerier.callback (object s)).
  - split; [|constructor; [by exists a|done]]. split; [|done]. right. eauto.
  - split; [|done]. split; [done|]. destruct Hq. right. eauto.
Qed.

Lemma requests_written c :
  rtc (@step _ _ (querier_owner app use) all_bytes) (new_querier o) c ->
  frames_of (fun _ => request_body) c.1.2 (wire c.1.1).
Proof.
  intros Hr. refine (@written _ _ (querier_owner app use) (fun _ => request_body) (fun _ => asks_text)
    (fun _ _ => True) known _ _ _ _ _ _ _ _ _ _ _ _ _ _ _ _ _ _ Hr); try done.
  - by left.
  - intros b q s new s' Hs HJ Hq. split; [done|by apply (own_asks b q s new s')].
  - intros [|[]] s _; (split; [done|by repeat constructor]).
  - intros [|[]] s _; (split; [done|by repeat constructor]).
  - intros qs [|[]] s [_ Hq]; try done; apply Hq.
  - intros [|[]] s c' Hq; simpl; intros; by simplify_eq.
  - intros todo s Htodo. apply Forall_forall. intros [] Hc; try done. right. right. by exists todo.
  - by repeat constructor.
  - intros c' Hr'. refine (proj1 (reach_held (owner:=querier_owner app use) all_bytes known asks_text
      _ _ _ _ _ _ _ _ _ _ _ Hr')); try done.
    + apply own_asks.
    + intros [|[]] s HJ _; (split; [done|by repeat constructor]).
    + intros [|[]] s HJ _; (split; [done|by repeat constructor]).
    + intros qs [|[]] [_ Hq]; try done; apply Hq.
    + split; by left.
Qed.

End wire.

(** ** The properties *)

Section properties.
Context {U W : Type} (app : U -> pystr -> W -> W) (use : usage) (takes : bytes -> nat -> Prop).

(** A step of the program, and a statement of one of its threads. *)
Definition system_step := @step (qthread U) (QueryThreads.shared U W) (querier_owner app use) takes.
Definition system_run :=
  run (@statement (qthread U) (QueryThreads.shared U W) (querier_owner app use) takes).

End properties.

(** C3: What [query] returns was received. In every interleaving of the whole
    program, a text that [query] returns is the decoding of one of the messages
    that parsing finds in the bytes the socket has given. When calls of [query] do
    not overlap it returns a text and no [None], unless the socket was closed. At
    most one thread is inside a block of [_state_lock], and then it is held. *)
Theorem query_returns_received {U W : Type} (app : U -> pystr -> W -> W) (use : usage)
    (takes : bytes -> nat -> Prop) (o : querier U W) (n : TcpStatements.shared)
    (s : QueryThreads.shared U W) (xs : list (thread (qthread U))) :
  sk_phase (tcp_socket (KLquerier o)) = Fresh -> query_result o = None ->
  rtc (system_step app use takes) (new_querier o) ((n, s), xs) ->
  (forall r, Own (Q_run (Q_returned (Ret r))) ∈ xs ->
     (forall x, r = Some x -> exists d, d ∈ payloads (p_msgs (parse (received (reading n)))) /\
        x = utf8_decode_replace d) /\
     (alone use = true -> is_Some r \/ sock n = Closed)) /\
  sum_list_with QueryThreads.critical (queries xs) = if _state_lock s then 1%nat else 0%nat.
Proof.
  intros Hk Hq Hr. split; [|by eapply query_locked].
  intros r Hin. split.
  - intros x ->. by apply (query_received app use takes o n s xs).
  - intros Ha. destruct (query_reach app use takes o _ Hk Hr) as ([a us] & Hr' & k & cut & E & Hf & Hus & _).
    simpl in *. subst a. rewrite Ha in Hr'.
    destruct (returned_alone app o _ _ r Hr') as [?|Hc]; [|by left|right; by apply Hf].
    apply (returned_in xs); [done|]. intros t Ht. rewrite Hus. apply elem_of_app. by left.
Qed.

(** C11: The program has no deadlock, and ends when it is disconnected. Although
    there are two locks and an event: when no thread can run any more, every thread
    that is left is a call of [query] that is over, or one without a time limit that
    waits for an event that is not set. When the client is disconnected, its socket
    closed and nobody is just connecting it, there is no infinite run of the
    threads, in whatever order they take turns, unless new calls are made. *)
Theorem querier_system_ends {U W : Type} (app : U -> pystr -> W -> W) (use : usage)
    (takes : bytes -> nat -> Prop) (o : querier U W) (n : TcpStatements.shared)
    (s : QueryThreads.shared U W) (xs : list (thread (qthread U))) :
  sk_phase (tcp_socket (KLquerier o)) = Fresh ->
  rtc (system_step app use takes) (new_querier o) ((n, s), xs) ->
  ((forall c', ~ system_run app use takes ((n, s), xs) c') ->
   forall x, x ∈ xs ->
     (exists r, x = Own (Q_run (Q_returned r))) \/
     (x = Own (Q_run (Q_wait None)) /\ query_event (object s) = false)) /\
  (connected n = false -> sock n = Closed -> Forall (fun t => arming t = false) (flat_map tcp_of xs) ->
   sn (system_run app use takes) ((n, s), xs)).
Proof.
  intros Hk Hr. split; [|by apply (system_sn app use takes o)].
  intros Hno x Hx.
  destruct (system_stuck app use takes o n s xs Hk Hr Hno x Hx) as (t & -> & [[r ->]|[-> He]]).
  - left. by exists r.
  - by right.
Qed.

(** C9: What a querier puts on the wire, under every interleaving. When [sendall]
    hands all its bytes over at once, the wire holds whole frames, and each is a
    heartbeat, what the application sent through the client itself, or a text it
    gave to [query] or [query_async], behind an application identifier and a socket
    identifier that the constructor or a call of [set_config] had given the querier
    (not necessarily the same call, when such calls overlap with the question). *)
Theorem requests_on_the_wire {U W : Type} (app : U -> pystr -> W -> W) (use : usage)
    (o : querier U W) (n : TcpStatements.shared) (s : QueryThreads.shared U W)
    (xs : list (thread (qthread U))) :
  rtc (system_step app use all_bytes) (new_querier o) ((n, s), xs) ->
  exists ms, frames ms = Some (wire n) /\
    forall m, m ∈ ms -> m = HEARTBEAT \/
      (exists a i d, known_app use o a /\ known_socket use o i /\ texts use d /\
         request_bytes a i d = Some m) \/
      (exists todo, direct use todo /\ Send m ∈ todo).
Proof.
  intros Hr. destruct (requests_written app use o _ Hr) as (ms & Hf & _ & Hms).
  exists ms. split; [exact Hf|]. intros m Hm. by apply (proj1 (Forall_forall _ _) Hms m Hm).
Qed.

(** ** Witnesses *)


Definition ex_app (_ : unit) (_ : pystr) (w : unit) : unit := w.

Definition ex_use : usage := Usage true (fun d => d = str_of "Hi") (fun _ _ => False) (Forall no_send).

Definition ex_new : querier unit unit :=
  Querier _ _ (Some (str_of "a")) (Some (str_of "b")) None None false false false
    (TcpClient.__init__ true None) tt.

Definition ex_answer : bytes := MAGIC ++ [x00; x00; x00; x08] ++ bytes_of "Echo: Hi".

Ltac call_ t := eapply goes_on; [eapply (step_start _ (Q_run t)); by repeat split|reflexivity|].

(** A call of [query] returns the text of the message that came. *)
Lemma ex_asked : exists n s,
  rtc (system_step ex_app ex_use all_bytes) (new_querier ex_new)
    ((n, s), [Own (Q_run (Q_returned (Ret (Some (str_of "Echo: Hi"))))); Tcp P_lock]) /\
  arrived s = [bytes_of "Echo: Hi"] /\ received (reading n) = ex_answer /\
  wire n = MAGIC ++ [x00; x00; x00; x08] ++ bytes_of "a-b&*&Hi".
Proof.
  eexists _, _. split.
  { unfold system_step, new_querier, constructing, fresh, ex_new.
  sys 0%nat ltac:(in_ st_c_connect).
  sys 0%nat ltac:(in_ st_c_flag).
  sys 0%nat ltac:(in_ st_hb_rearm).
  sys 0%nat ltac:(in_ st_hb_create).
  sys 0%nat ltac:(in_ st_hb_daemon).
  sys 0%nat ltac:(in_ st_hb_start).
  sys 0%nat ltac:(eapply (st_in_starts _ _ _ R_test (O_install [])); [reflexivity..|]; exact (st_c_thread all_bytes [Install] _)).
  sys 1%nat ltac:(ret (st_o_install all_bytes [])).
  call_ (Q_lock (U:=unit) (str_of "Hi") None).
  sys 0%nat ltac:(own_ (st_q_lock ex_app)).
  sys 0%nat ltac:(own_ (st_q_result ex_app)).
  sys 0%nat ltac:(own_ (st_q_clear ex_app)).
  sys 0%nat ltac:(own_ (st_q_mark ex_app)).
  sys 0%nat ltac:(own_ (st_q_reset ex_app)).
  sys 0%nat ltac:(own_ (st_q_send ex_app)).
  sys 0%nat ltac:(own_ (st_q_key ex_app)).
  sys 0%nat enter.
  sys 0%nat ltac:(in_ st_w_test).
  sys 0%nat ltac:(in_ st_w_send).
  sys 0%nat ltac:(ret (st_w_done all_bytes (From_call []))).
  sys 1%nat ltac:(tcp st_r_test).
  sys 1%nat ltac:(tcp st_r_recv).
  sys 1%nat ltac:(tcp (st_r_blocked all_bytes ex_answer)).
  sys 1%nat ltac:(tcp st_r_chunk).
  sys 1%nat ltac:(tcp st_r_lock).
  sys 1%nat ltac:(tcp st_r_append).
  sys 1%nat ltac:(tcp st_p_lock).
  sys 1%nat ltac:(tcp st_p_got).
  sys 1%nat ltac:(tcp st_p_msg).
  sys 1%nat ltac:(tcp st_p_handle).
  sys 1%nat ltac:(apply st_callback).
  sys 1%nat ltac:(back (st_i_decode ex_app)).
  sys 1%nat ltac:(back (st_i_lock ex_app)).
  sys 1%nat ltac:(back (st_i_test_yes ex_app)).
  sys 1%nat ltac:(back (st_i_store ex_app)).
  sys 1%nat ltac:(eapply st_back_ends; [reflexivity|]; eexists _, []; split_and!; [reflexivity|reflexivity|rule_of (st_i_set ex_app)]).
  sys 0%nat ltac:(own_ (st_q_wait ex_app)).
  sys 0%nat ltac:(own_ (st_q_relock ex_app)).
  sys 0%nat ltac:(own_ (st_q_end ex_app)).
  sys 0%nat ltac:(own_ (st_q_test ex_app)).
  sys 0%nat ltac:(own_ (st_q_return ex_app)).
  apply rtc_refl. }
  by split_and!.
Qed.

(** [query] is called when the querier was disconnected: it waits for ever. *)
Lemma ex_disconnected : exists n s,
  rtc (system_step ex_app ex_use all_bytes) (new_querier ex_new)
    ((n, s), [Own (Q_run (Q_wait None))]) /\
  connected n = false /\ sock n = Closed /\ query_event (object s) = false.
Proof.
  eexists _, _. split.
  { unfold system_step, new_querier, constructing, fresh, ex_new.
    sys 0%nat ltac:(in_ st_c_connect_fails).
    sys 0%nat ltac:(ret (st_o_install all_bytes [])).
    call_ (X_client (U:=unit)).
    sys 0%nat enter.
    sys 0%nat ltac:(in_ st_d_flag).
    sys 0%nat ltac:(in_ st_d_test).
    sys 0%nat ltac:(ret (st_d_close all_bytes [])).
    sys 0%nat ltac:(own_ (st_x_lock ex_app)).
    sys 0%nat ltac:(own_ (st_x_flag ex_app)).
    sys 0%nat ltac:(own_ (st_x_set ex_app)).
    call_ (Q_lock (U:=unit) (str_of "Hi") None).
    sys 0%nat ltac:(own_ (st_q_lock ex_app)).
    sys 0%nat ltac:(own_ (st_q_result ex_app)).
    sys 0%nat ltac:(own_ (st_q_clear ex_app)).
    sys 0%nat ltac:(own_ (st_q_mark ex_app)).
    sys 0%nat ltac:(own_ (st_q_reset ex_app)).
    sys 0%nat ltac:(own_ (st_q_send ex_app)).
  sys 0%nat ltac:(own_ (st_q_key ex_app)).
    sys 0%nat enter.
    sys 0%nat ltac:(ret (st_w_test_off all_bytes (From_call [])); reflexivity).
    apply rtc_refl. }
  by split_and!.
Qed.

Lemma requests_on_the_wire_witness : exists n s ms,
  rtc (system_step ex_app ex_use all_bytes) (new_querier ex_new)
    ((n, s), [Own (Q_run (Q_returned (Ret (Some (str_of "Echo: Hi"))))); Tcp P_lock]) /\
  frames ms = Some (wire n) /\ frames [bytes_of "a-b&*&Hi"] = Some (wire n).
Proof.
  destruct ex_asked as (n & s & Hr & _ & _ & Hw).
  destruct (requests_on_the_wire ex_app ex_use ex_new n s _ Hr) as (ms & Hf & _).
  exists n, s, ms. split; [exact Hr|]. split; [exact Hf|]. by rewrite Hw.
Defined.

Lemma query_returns_received_witness : exists n s d,
  rtc (system_step ex_app ex_use all_bytes) (new_querier ex_new)
    ((n, s), [Own (Q_run (Q_returned (Ret (Some (str_of "Echo: Hi"))))); Tcp P_lock]) /\
  d ∈ payloads (p_msgs (parse (received (reading n)))) /\ str_of "Echo: Hi" = utf8_decode_replace d.
Proof.
  destruct ex_asked as (n & s & Hr & Ha & _).
  destruct (query_returns_received ex_app ex_use all_bytes ex_new n s _ eq_refl eq_refl Hr) as [H _].
  destruct (proj1 (H _ (list_elem_of_here _ _)) _ eq_refl) as (d & Hd & E).
  by exists n, s, d.
Defined.

(** The call that waits has no statement. *)
Lemma ex_waiting n s c' :
  query_event (object s) = false ->
  ~ system_run ex_app ex_use all_bytes ((n, s), [Own (Q_run (Q_wait None))]) c'.
Proof.
  intros He (new & a & Hs)%run_alone. inversion Hs; subst; try done.
  match goal with H : own _ _ _ _ _ |- _ => destruct H as (t & ts & [= <-] & -> & Hq) end.
  inversion Hq; subst; congruence.
Qed.

Lemma querier_system_ends_witness : exists n s,
  let xs := [Own (Q_run (Q_wait (U:=unit) None))] in
  (forall x, x ∈ xs -> (exists r, x = Own (Q_run (Q_returned r))) \/
     (x = Own (Q_run (Q_wait None)) /\ query_event (object s) = false)) /\
  sn (system_run ex_app ex_use all_bytes) ((n, s), xs).
Proof.
  destruct ex_disconnected as (n & s & Hr & Hc & Hk & He). exists n, s.
  destruct (querier_system_ends ex_app ex_use all_bytes ex_new n s _ eq_refl Hr) as [H1 H2].
  split; [|apply H2; [exact Hc|exact Hk|constructor]].
  apply H1. intros c'. by apply ex_waiting.
Defined.
