(* ===== verification/ResponserSystem.v ===== *)
(** * An [OpenSocketResponser] with its client, statement by statement

    As QuerierSystem.v does for a querier: the statements of
    knotlink-sdk-python/knotlink/knotlink/OpenSocketResponser.py in ResponserThreads.v
    and those of tcpclient.py in TcpStatements.v are one program. [init] connects
    the client, installs [_internal_data_recv], registers, and starts the worker;
    the worker reads [connected] of the client; its answers, and the calls of
    [sendBack] the application makes itself, go through the statements of
    [send_data]; what the receive thread takes from the socket runs through
    [_internal_data_recv]. *)

From S2P Require Export ResponserThreads OwnersWire.

(** A thread of the responser. [R_init] is the constructor, with the bytes of its
    registration, or none when they cannot be encoded. *)
Inductive rthread {U : Type} :=
| R_init (s_key_bytes : option bytes)               (* 23-32: init *)
| R_run (t : ResponserThreads.thread U).
Arguments rthread U : clear implicits.

(** What the application does, besides giving the callback: the texts it gives to
    [sendBack] itself, with their keys, at any time, and the calls it makes of the
    methods of the client itself. *)
Record usage := Usage {
  backs : pystr -> pystr -> Prop;
  direct : list op -> Prop }.

Section responser.
Context {U W : Type}.
Variable app : U -> pystr -> W -> outcome (option pystr) * W.
Variable use : usage.
Implicit Types (s : ResponserThreads.shared U W) (q : rthread U).

(** The bytes [sendBack] sends. *)
Definition reply_bytes (r key : pystr) : option bytes :=
  match utf8_encode (key ++ DELIM), utf8_encode r with
  | Some k, Some b => Some (k ++ b)
  | _, _ => None
  end.

(** The statements that call the client: 39, in [sendBack], and 82, [disconnect]. *)
Definition reply_call q : option op :=
  match q with
  | R_run (P_back r key | A_back r key) => Send <$> reply_bytes r key
  | R_run X_client => Some Disconnect
  | _ => None
  end.

(** Where the thread goes on when the client has returned: the constructor starts
    the worker, unless an exception ended it. *)
Definition reply_return q s : list (rthread U) * ResponserThreads.shared U W :=
  match q with
  | R_init (Some _) => ([R_run P_test], s)
  | R_run (P_back r key) => ([R_run (P_done false)], hand_back (r, key) s)
  | _ => ([], s)
  end.

Definition reply_raise q s : list (rthread U) * ResponserThreads.shared U W :=
  (match q with R_run (P_back _ _) => [R_run (P_done true)] | _ => [] end, s).

(** The statements of ResponserThreads.v that do not call the client; 56 reads
    [connected] of the client. *)
Definition reply_own (connected : bool) q s (new : list (rthread U)) s' : Prop :=
  exists t ts, q = R_run t /\ new = R_run <$> ts /\
    match t with
    | P_test => ts = (if connected then [P_get] else []) /\ s' = s
    | _ => ResponserThreads.statement app t s ts s'
    end.

(** The threads of the model of the responser; its worker is there from the start. *)
Definition serve q : list (ResponserThreads.thread U) :=
  match q with R_init (Some _) => [P_test] | R_init None => [] | R_run t => [t] end.

Definition constructed q : bool := match q with R_init _ => false | R_run _ => true end.

(** When the constructor has returned the methods may be called, as the application
    uses them. *)
Definition reply_start (qs : list (rthread U)) q : Prop :=
  forallb constructed qs = true /\
  match q with
  | R_run (A_back r key) => backs use r key
  | R_run (X_client | O_func _) => True
  | _ => False
  end.

Definition responser_owner : Owner (rthread U) (ResponserThreads.shared U W) := {|
  entry d := R_run (I_parse d);
  arrives := arrive;
  own := reply_own;
  client_call := reply_call;
  on_return := reply_return;
  on_raise := reply_raise;
  may_start := reply_start;
  may_call := direct use |}.

End responser.

(** [OpenSocketResponser(...)]: 23-29. *)
Definition registration {U W : Type} (o : responser U W) : option bytes :=
  utf8_encode (appID o ++ DASH ++ openSocketID o).

Definition new_responser {U W : Type} (o : responser U W) :
    (TcpStatements.shared * ResponserThreads.shared U W) * list (thread (rthread U)) :=
  constructing (Install :: match registration o with Some b => [Send b] | None => [] end)
    (R_init (registration o)) (ResponserThreads.Shared _ _ o [] [] [] []).

(** ** Lemmas *)

Section lemmas.
Context {U W : Type} (app : U -> pystr -> W -> outcome (option pystr) * W) (use : usage)
  (takes : bytes -> nat -> Prop).
Implicit Types (s : ResponserThreads.shared U W) (q : rthread U) (n : TcpStatements.shared)
  (xs : list (thread (rthread U))) (k : tcp unit).

#[local] Instance owner : Owner (rthread U) (ResponserThreads.shared U W) := responser_owner app use.

(** The model of ResponserThreads.v has a client of its own, in the attribute
    [KLresponser]. *)
Definition with_client k s : ResponserThreads.shared U W := on (set_KLresponser k) s.

Lemma parse_request_same d (o o' : responser U W) :
  fst (parse_request d o) = fst (parse_request d o').
Proof.
  unfold parse_request, of_option, decode. step. destruct (index DELIM_BYTES d); [|done].
  by destruct (utf8_decode _).
Qed.

(** What does not call the client does not look at it, but for the test of
    [connected]. *)
Lemma reply_any_client k t s new s' :
  reply_call (R_run t) = None -> t <> P_test -> ResponserThreads.statement app t s new s' ->
  ResponserThreads.statement app t (with_client k s) new (with_client k s').
Proof.
  unfold with_client. intros Hq Ht Hs.
  destruct Hs; try done.
  - rewrite (parse_request_same d _ (object (on (set_KLresponser k) s))).
    exact (st_i_parse app d (on (set_KLresponser k) s)).
  - pose proof (st_i_put app payload key (on (set_KLresponser k) s)) as Hi. by case_bool_decide.
  - apply queue_get_Ret in H as (rest & E & ->).
    exact (st_p_get app payload key (set_queue rest (unfinished_tasks (object s)) (set_KLresponser k (object s)))
      (on (set_KLresponser k) s) ltac:(unfold queue_get; simpl; by rewrite E)).
  - eapply (st_p_empty app (set_KLresponser k (object s))). unfold queue_get in *. simpl.
    by destruct (data_queue (object s)).
  - exact (st_p_func app payload key (on (set_KLresponser k) s)).
  - exact (ResponserThreads.st_p_call app payload key c response w (on (set_KLresponser k) s) H H0).
  - exact (ResponserThreads.st_p_call_raises app payload key c e w (on (set_KLresponser k) s) H H0).
  - simpl in Hq. unfold reply_bytes in Hq. rewrite sendBack_eq in H.
    destruct (utf8_encode (key ++ DELIM)), (utf8_encode r); done.
  - simpl in Hq. unfold reply_bytes in Hq.
    assert (sendBack r key (set_KLresponser k (object s)) = (Raise e, set_KLresponser k (object s)) /\
      o = object s) as [Hb ->].
    { rewrite sendBack_eq in *. destruct (utf8_encode (key ++ DELIM)), (utf8_encode r); try done;
        by simplify_eq. }
    exact (st_p_back_raises app r key e _ (on (set_KLresponser k) s) Hb).
  - apply task_done_Ret in H as (m & E & ->).
    refine (st_p_done app raised (set_queue (data_queue (object s)) m (set_KLresponser k (object s)))
      (on (set_KLresponser k) s) _). unfold task_done. simpl. by rewrite E.
  - unfold task_done in H. destruct (unfinished_tasks (object s)) as [|m] eqn:E; [|done].
    simplify_eq. refine (st_p_done_raises app raised _ _ (on (set_KLresponser k) s) _).
    unfold task_done. simpl. by rewrite E.
  - simpl in Hq. unfold reply_bytes in Hq.
    pose proof (st_a_back app r key (on (set_KLresponser k) s)) as Hb. unfold on in *. simpl in *.
    rewrite sendBack_eq in *. by destruct (utf8_encode (key ++ DELIM)), (utf8_encode r).
  - exact (st_o_func app f (on (set_KLresponser k) s)).
Qed.

(** ** The responser's part is a run of the responser *)

Definition services xs : list (ResponserThreads.thread U) := threads_of serve xs.

(** What an exception of the client leaves behind in the model of the responser: a
    [disconnect] that was cut short, or a worker that the constructor has not
    started. *)
Definition left_behind (t : ResponserThreads.thread U) : Prop := t = X_client \/ t = P_test.

Definition reply_part (c : (TcpStatements.shared * ResponserThreads.shared U W) * list (thread (rthread U)))
    (d : ResponserThreads.shared U W * list (ResponserThreads.thread U)) : Prop :=
  exists k cut, d.1 = with_client k c.1.2 /\ d.2 ≡ₚ services c.2 ++ cut /\ Forall left_behind cut.

Lemma services_run (ts : list (ResponserThreads.thread U)) : flat_map serve (R_run <$> ts) = ts.
Proof. induction ts as [|t ts IH]; [done|]. simpl. f_equal. exact IH. Qed.

Lemma serve_run t s new s' us rest :
  us ≡ₚ t :: rest -> ResponserThreads.statement app t s new s' ->
  exists us', rtc (ResponserThreads.step app false) (s, us) (s', us') /\ us' ≡ₚ new ++ rest.
Proof.
  intros Hus Hs. destruct (run_perm _ t s new s' us rest Hus Hs) as (us' & Hr & Hp).
  exists us'. split; [by apply rtc_once, ResponserThreads.step_run|done].
Qed.

(** The client of the model is given the state that is needed. *)
Lemma serve_client k k' s us :
  rtc (ResponserThreads.step app false) (with_client k s, us) (with_client k' s, us).
Proof. apply rtc_once. exact (step_client app false k' (with_client k s) us ltac:(done)). Qed.

Definition online (b : bool) : tcp unit :=
  TcpClient.set_connected b (TcpClient.__init__ false None).

(** Whether the client is connected, for [sendBack]. *)
Lemma sendBack_off r key body s :
  reply_bytes r key = Some body ->
  sendBack r key (object (with_client (online false) s)) = (Ret tt, object (with_client (online false) s)).
Proof.
  unfold reply_bytes. intros Hb. rewrite sendBack_eq.
  by destruct (utf8_encode (key ++ DELIM)), (utf8_encode r).
Qed.

Lemma sendBack_long r key body s :
  reply_bytes r key = Some body -> MAX_MSG_SIZE < len body ->
  sendBack r key (object (with_client (online true) s)) =
    (Raise ValueError, object (with_client (online true) s)).
Proof.
  unfold reply_bytes. intros Hb Hl. rewrite sendBack_eq.
  destruct (utf8_encode (key ++ DELIM)), (utf8_encode r); try done. simplify_eq.
  unfold on_responser, zoom. by rewrite send_data_too_long.
Qed.

Lemma disconnect_client k s :
  exists k', on (fun o => snd (OpenSocketResponser.disconnect o)) (with_client k s) = with_client k' s.
Proof.
  destruct (disconnect_same (object (with_client k s))) as (k' & E & _). exists k'.
  unfold on at 1. by rewrite E.
Qed.

(** A method of the client that a thread of the responser is in. *)
Lemma reply_placed key t q :
  placed (R_init key) (In t q) -> q = R_init key \/ exists c, reply_call q = Some c /\ within c t.
Proof. simpl. intros [_ Hp]. destruct (reply_call q); eauto. Qed.

(** How the thread of the responser goes on when the client is done. *)
Lemma reply_returns key t q s k us rest :
  placed (R_init key) (In t q) -> us ≡ₚ serve q ++ rest ->
  exists k' us', rtc (ResponserThreads.step app false) (with_client k s, us)
      (with_client k' (reply_return q s).2, us') /\
    us' ≡ₚ flat_map serve (reply_return q s).1 ++ rest.
Proof.
  intros Hp Hus. destruct (reply_placed _ _ _ Hp) as [->|(c & Hc & Hw)].
  { exists k, us. by destruct key. }
  destruct q as [|t0]; [done|]. destruct t0; simplify_eq/=.
  - destruct (reply_bytes response key0) as [body|] eqn:Eb; [|done].
    destruct (serve_run _ _ _ _ us rest Hus
      (st_p_back app response key0 _ (with_client (online false) s) (sendBack_off _ _ _ s Eb)))
      as (us' & Hr & Hp').
    exists (online false), us'. split; [|done]. etrans; [apply (serve_client k (online false))|exact Hr].
  - destruct (reply_bytes response key0) as [body|] eqn:Eb; [|done].
    pose proof (st_a_back app response key0 (with_client (online false) s)) as Hb.
    unfold on in Hb at 1. rewrite (sendBack_off _ _ _ s Eb) in Hb.
    destruct (serve_run _ _ _ _ us rest Hus Hb) as (us' & Hr & Hp').
    exists (online false), us'. split; [|done]. etrans; [apply (serve_client k (online false))|exact Hr].
  - destruct (disconnect_client k s) as [k' E].
    destruct (serve_run _ _ _ _ us rest Hus (st_x_client app (with_client k s))) as (us' & Hr & Hp').
    rewrite E in Hr. by exists k', us'.
Qed.

Lemma reply_raises key t q n n' s k us rest :
  TcpStatements.statement takes t n [] n' -> raising t n = true ->
  placed (R_init key) (In t q) -> us ≡ₚ serve q ++ rest ->
  exists k' us' cut, rtc (ResponserThreads.step app false) (with_client k s, us) (with_client k' s, us') /\
    us' ≡ₚ flat_map serve (reply_raise q s).1 ++ cut ++ rest /\ Forall left_behind cut.
Proof.
  intros Hs Hra Hp Hus. destruct (reply_placed _ _ _ Hp) as [->|(c & Hc & Hw)].
  { exists k, us, (serve (R_init (U:=U) key)). split_and!; [done..|].
    destruct key; repeat constructor; by right. }
  assert (forall body, c = Send body -> MAX_MSG_SIZE < len body) as Hlong.
  { intros body ->. destruct t; try done; destruct k0 as [|[]]; try done. simpl in Hw. subst data.
    simpl in Hra. apply andb_true_iff in Hra as [_ Hl]. by apply Z.ltb_lt. }
  destruct q as [|t0]; [done|]. destruct t0; simplify_eq/=.
  - destruct (reply_bytes response key0) as [body|] eqn:Eb; simplify_eq/=.
    pose proof (Hlong _ eq_refl) as Hl. destruct (serve_run _ _ _ _ us rest Hus (st_p_back_raises app response key0 _ _
      (with_client (online true) s) (sendBack_long _ _ _ s Eb Hl))) as (us' & Hr & Hp').
    exists (online true), us', []. split_and!; [|done|done].
    etrans; [apply (serve_client k (online true))|exact Hr].
  - destruct (reply_bytes response key0) as [body|] eqn:Eb; simplify_eq/=.
    pose proof (Hlong _ eq_refl) as Hl.
    pose proof (st_a_back app response key0 (with_client (online true) s)) as Hb.
    unfold on in Hb at 1. rewrite (sendBack_long _ _ _ s Eb Hl) in Hb.
    destruct (serve_run _ _ _ _ us rest Hus Hb) as (us' & Hr & Hp').
    exists (online true), us', []. split_and!; [|done|done].
    etrans; [apply (serve_client k (online true))|exact Hr].
  - exists k, us, [X_client]. split_and!; [done|done|]. constructor; [by left|done].
Qed.

Lemma reply_owns b q s new s' k us rest :
  reply_call q = None -> reply_own app b q s new s' -> us ≡ₚ serve q ++ rest ->
  exists k' us', rtc (ResponserThreads.step app false) (with_client k s, us) (with_client k' s', us') /\
    us' ≡ₚ flat_map serve new ++ rest.
Proof.
  intros Hq (t & ts & -> & -> & Hs) Hus. rewrite services_run.
  assert (t = P_test \/ t <> P_test) as [->|Ht] by (destruct t; (by left) || (by right)).
  - destruct Hs as [-> ->].
    destruct (serve_run _ _ _ _ us rest Hus (st_p_test app (with_client (online b) s))) as (us' & Hr & Hp').
    exists (online b), us'. split; [|done]. etrans; [apply (serve_client k (online b))|exact Hr].
  - assert (ResponserThreads.statement app t s ts s') as Hst by (by destruct t).
    destruct (serve_run _ _ _ _ us rest Hus (reply_any_client k _ _ _ _ Hq Ht Hst)) as (us' & Hr & Hp').
    by exists k, us'.
Qed.

(** ** Where the threads of the responser are *)

(** The constructor only runs in the client; [_internal_data_recv] is what the
    callback of the client runs, and only that. *)
Definition outside q : Prop := exists t, q = R_run t /\ receiving t = 0%nat.
Definition inside q : Prop := exists t, q = R_run t /\ receiving t = 1%nat.
Definition called_from q : Prop := sum_list_with receiving (serve q) = 0%nat.

#[local] Abbreviation settled := (settled outside called_from inside).

Lemma reply_statement_shape t s new s' :
  ResponserThreads.statement app t s new s' ->
  (new = [] \/ exists t', new = [t']) /\ Forall (fun t' => receiving t' = receiving t) new.
Proof. intros Hs. destruct Hs; simpl; repeat case_match; eauto. Qed.

Lemma reply_own_shape b q s new s' m :
  reply_own app b q s new s' -> (exists t, q = R_run t /\ receiving t = m) ->
  Forall (fun q' => exists t', q' = R_run t' /\ receiving t' = m) new.
Proof.
  intros (t & ts & -> & -> & Hs) (t0 & [= <-] & <-). apply Forall_fmap.
  assert (Forall (fun t' => receiving t' = receiving t) ts) as Hts.
  { destruct t; try (by eapply reply_statement_shape). destruct Hs as [-> _]. by destruct b; repeat constructor. }
  eapply Forall_impl; [exact Hts|]. intros t' Ht'. by exists t'.
Qed.

Lemma reply_step_settled c c' : step takes c c' -> Forall settled c.2 -> Forall settled c'.2.
Proof.
  apply Owners.step_settled.
  - intros b q s new s' Hs Hq. by apply (reply_own_shape _ _ _ _ _ _ Hs).
  - intros b q s new s' Hs Hq. by apply (reply_own_shape _ _ _ _ _ _ Hs).
  - intros m. by exists (I_parse m).
  - intros q c0 _ (t & -> & Ht). unfold called_from. simpl. by rewrite Ht.
  - intros [[]|[]] s _; simpl; repeat constructor; by eexists.
  - intros [[]|[]] s _; simpl; repeat constructor; by eexists.
  - intros qs [|[]] [_ Hq]; try done; by eexists.
Qed.

(** There is at most one receive thread, so at most one is in the callback. *)
Lemma receiving_readers xs :
  Forall settled xs ->
  (sum_list_with receiving (services xs) <= sum_list_with reader_token (flat_map tcp_of xs))%nat.
Proof.
  intros Hset. pose proof (inside_readers outside called_from inside
    (fun q => sum_list_with receiving (serve q)) xs) as Hle.
  unfold services, threads_of.
  assert (forall qs, sum_list_with receiving (flat_map serve qs) =
    sum_list_with (fun q => sum_list_with receiving (serve q)) qs) as ->.
  { intros qs. induction qs as [|q qs IH]; [done|]. simpl. by rewrite sum_list_with_app, IH. }
  apply Hle; [| |  |done].
  - intros q (t & -> & Ht). simpl. lia.
  - done.
  - intros q (t & -> & Ht). simpl. lia.
Qed.

(** ** The simulation *)

Definition system_inv (key : option bytes)
    (c : (TcpStatements.shared * ResponserThreads.shared U W) * list (thread (rthread U))) : Prop :=
  Forall (placed (R_init key)) c.2 /\ Forall settled c.2 /\ readers_one (client_of c).

Lemma step_inv key c c' : step takes c c' -> system_inv key c -> system_inv key c'.
Proof.
  intros Hs (Hp & Hset & Hr). split_and!.
  - by apply (step_placed takes _ _ _ Hs).
  - by apply (reply_step_settled _ _ Hs).
  - by apply (step_readers takes c).
Qed.

(** A statement of the owner, of a thread of its own or in the callback. *)
Ltac by_reply_owns k :=
  match goal with
  | Hc : client_call _ = None, H : own ?b _ _ _ _, Hus : _ ≡ₚ _ |- _ =>
    destruct (reply_owns b _ _ _ _ k _ _ Hc H Hus) as (k' & us' & Hr & Hp');
    cbn [flat_map List.app] in Hp'; rewrite ?app_nil_r in Hp'; exists k', us', []; by split_and!
  end.

(** One statement of the pool: the responser's part goes on, or stays, or something
    is left behind. *)
Lemma reply_statement key x n s new n' s' k us rest :
  statement takes x (n, s) new (n', s') -> placed (R_init key) x ->
  (calls_back (match x with Tcp t => t | _ => P_lock end) = true -> sum_list_with receiving us = 0%nat) ->
  us ≡ₚ services [x] ++ rest ->
  exists k' us' cut, rtc (ResponserThreads.step app false) (with_client k s, us) (with_client k' s', us') /\
    us' ≡ₚ services new ++ cut ++ rest /\ Forall left_behind cut.
Proof.
  intros Hs Hp Hback Hus.
  inversion Hs; subst; clear Hs; unfold services in *;
    rewrite ?threads_of_app, ?threads_of_Tcp, ?threads_of_Own in *;
    unfold threads_of in *; cbn [flat_map own_of List.app] in *; rewrite ?app_nil_r in *.
  - by exists k, us, [].
  - exists k, (I_parse m :: us), []. split_and!; [| |done].
    + apply rtc_once. apply (step_message app false m (with_client k s)). by apply Hback.
    + by rewrite Hus.
  - by_reply_owns k.
  - by exists k, us, [].
  - by exists k, us, [].
  - by exists k, us, [].
  - destruct (reply_returns key _ _ s k us rest Hp Hus) as (k' & us' & ? & ?).
    by exists k', us', [].
  - match goal with H : TcpStatements.statement _ _ _ [] _, Hr : raising _ _ = _ |- _ =>
      destruct (reply_raises key _ _ _ _ s' k us rest H Hr Hp Hus) as (k' & us' & cut & ? & ? & ?) end.
    by exists k', us', cut.
  - by_reply_owns k.
  - by_reply_owns k.
Qed.

Lemma left_behind_receiving cut : Forall left_behind cut -> sum_list_with receiving cut = 0%nat.
Proof. induction 1 as [|t cut [->| ->] _ IH]; [done|exact IH..]. Qed.

Lemma reply_simulation key c c' d :
  step takes c c' -> system_inv key c /\ reply_part c d ->
  exists d', rtc (ResponserThreads.step app false) d d' /\ system_inv key c' /\ reply_part c' d'.
Proof.
  intros Hst [Hinv (k & cut & E & Hus & Hcut)]. destruct d as [a us]. simpl in E. subst a.
  pose proof (step_inv key _ _ Hst Hinv) as Hinv'. unfold reply_part.
  destruct Hinv as (Hp & Hset & Hone).
  destruct Hst as [c c' [xs1 x xs2 [n s] new [n' s'] Hs]|i n s xs Hi|q n s xs Hq|todo n s xs Hd]; simpl in *.
  - assert (calls_back (match x with Tcp t => t | _ => P_lock end) = true ->
      sum_list_with receiving us = 0%nat) as Hback.
    { intros Hx. destruct x as [t| | |]; try done. destruct t; try done.
      apply Forall_app in Hset as [Hset1 Hset2]. apply Forall_cons in Hset2 as [_ Hset2].
      pose proof (receiving_readers xs1 Hset1) as H1. pose proof (receiving_readers xs2 Hset2) as H2.
      unfold readers_one, client_of, services in *. simpl in *.
      rewrite flat_map_app, sum_list_with_app in Hone. simpl in Hone.
      rewrite Hus, threads_of_middle, !sum_list_with_app, (left_behind_receiving cut) by done. simpl. lia. }
    apply Forall_app in Hp as [_ Hp]. apply Forall_cons in Hp as [Hp _].
    assert (us ≡ₚ services [x] ++ services xs1 ++ services xs2 ++ cut) as Hus'.
    { unfold services in *. by rewrite Hus, threads_of_middle, <- !app_assoc. }
    destruct (reply_statement _ _ _ _ _ _ _ k _ _ Hs Hp Hback Hus')
      as (k' & us' & cut' & Hr & Hus1 & Hcut').
    exists (with_client k' s', us'). split_and!; [done|done|].
    exists k', (cut' ++ cut). split_and!; [done| |by apply Forall_app_2]. simpl.
    unfold services in *. rewrite Hus1, !threads_of_app. solve_Permutation.
  - exists (with_client k s, us). split_and!; [done|done|]. by exists k, cut.
  - assert (exists t, q = R_run t /\
      ResponserThreads.step app false (with_client k s, us) (with_client k s, t :: us)) as (t & -> & Hs).
    { destruct Hq as [_ Hq]. destruct q as [|t]; [done|]. exists t. split; [done|].
      destruct t; try done; [apply step_back|apply step_disconnect|apply step_func]. }
    exists (with_client k s, t :: us). split_and!; [by apply rtc_once|done|].
    exists k, cut. split_and!; [done| |done]. simpl. by rewrite Hus.
  - exists (with_client k s, us). split_and!; [done|done|].
    exists k, cut. split_and!; [done| |done]. simpl.
    unfold services in *. by rewrite threads_of_app, threads_of_Tcp.
Qed.

Lemma reply_reach o c :
  rtc (step takes) (new_responser o) c ->
  system_inv (registration o) c /\
  exists d, rtc (ResponserThreads.step app false) (started o) d /\ reply_part c d.
Proof.
  intros Hr.
  destruct (simulation (step takes) (ResponserThreads.step app false)
    (fun c d => system_inv (registration o) c /\ reply_part c d) _ _ (started o)
    (reply_simulation (registration o)) Hr) as (d & Hr' & Hinv & Hd); [|by eauto].
  unfold system_inv, reply_part, new_responser, constructing. simpl. split.
  - split_and!.
    + by repeat constructor.
    + repeat constructor. simpl. by destruct (registration o).
    + unfold readers_one. simpl. lia.
  - exists (KLresponser o), (match registration o with Some _ => [] | None => [P_test] end). split_and!.
    + unfold with_client, on. simpl. by destruct o.
    + unfold services, threads_of. simpl. by destruct (registration o).
    + destruct (registration o); [done|]. constructor; [by right|done].
Qed.

(** The messages [_internal_data_recv] is called with are those the client hands on. *)
Lemma reply_arrived o c :
  rtc (step takes) (new_responser o) c -> arrived c.1.2 = called (reading c.1.1).
Proof.
  intros Hr. refine (reach_log takes arrived _ _ _ _ _ _ _ _ _ _ Hr); try done.
  - intros b q s new s' (t & ts & _ & _ & Hs).
    destruct t; try (by destruct Hs as [_ ->]); destruct Hs; simpl; try done; by case_bool_decide.
  - by intros [[]|[]].
Qed.

(** ** Who can run *)

Lemma callable_reach o n s xs x t :
  rtc (step takes) (new_responser o) ((n, s), xs) -> x ∈ xs -> R_run t ∈ own_of x -> callable s t.
Proof.
  intros Hr Hx Ht. destruct (reply_reach _ _ Hr) as [_ ([a us] & Hr' & k & cut & E & Hus & _)].
  simpl in *. subst a.
  assert (Forall (callable (with_client k s)) us) as Hc.
  { refine (steps_inv _ (fun c => Forall (callable c.1) c.2) _ _ (step_callable app false) Hr' _).
    by repeat constructor. }
  rewrite Forall_forall in Hc. specialize (Hc t).
  assert (t ∈ us) as Hin; [|specialize (Hc Hin); by destruct t].
  rewrite Hus. apply elem_of_app. left. unfold services, threads_of.
  apply list_elem_of_In, in_flat_map. exists (R_run t). split; [|by left].
  apply in_flat_map. exists x. by split; apply list_elem_of_In.
Qed.

(** A thread of the responser that is not in the client runs, but for a callback
    that does not return. *)
Lemma reply_owner_runs x t n s :
  settled x -> callable s t -> (x = Own (R_run t) /\ reply_call (R_run t) = None) \/ x = Back (R_run t) ->
  (exists new c', statement takes x (n, s) new c') \/ (x = Own (R_run t) /\ hangs app s t).
Proof.
  intros Hx Hc Ht.
  assert ((exists new s', reply_own app (connected n) (R_run t) s new s') \/ hangs app s t) as [H|H].
  { assert (t = P_test \/ t <> P_test) as [->|Hne] by (destruct t; (by left) || (by right)).
    - left. exists (R_run <$> (if connected n then [P_get] else [])), s. by eexists _, _.
    - destruct (responser_can_run app t s Hc) as [(new & s' & Hs)|H]; [left|by right].
      exists (R_run <$> new), s'. exists t, new. split_and!; [done..|]. by destruct t. }
  - left. destruct H as (new & s' & Hs). destruct Ht as [[-> Hq]| ->].
    + eexists _, _. by eapply st_own.
    + destruct Hx as (t0 & [= <-] & Ht0).
      assert (reply_call (R_run t) = None) as Hq by by destruct t.
      assert (new = [] \/ exists q', new = [q']) as [->|[q' ->]].
      { destruct Hs as (t1 & ts & [= <-] & -> & Hs). destruct t; try done;
          destruct (reply_statement_shape _ _ _ _ Hs) as [[->|[t' ->]] _]; simpl; eauto. }
      * eexists _, _. by eapply (st_back_ends takes (R_run t)).
      * eexists _, _. by eapply (st_back takes (R_run t) q').
  - destruct Ht as [[-> _]| ->]; [by right|].
    destruct H as (p & k & c & -> & _). by destruct Hx as (t0 & [= <-] & Ht0).
Qed.

Lemma reply_stuck o n s xs :
  rtc (step takes) (new_responser o) ((n, s), xs) ->
  (forall c', ~ run (statement takes) ((n, s), xs) c') ->
  forall x, x ∈ xs -> exists t, x = Own (R_run t) /\ hangs app s t.
Proof.
  intros Hr Hno x Hx.
  pose proof (stuck_client takes _ (R_init (registration o)) _ _ eq_refl Hr Hno) as Hcl.
  destruct (reply_reach _ _ Hr) as [(_ & Hset & _) _].
  simpl in *. rewrite Forall_forall in Hcl, Hset.
  assert (exists t, (x = Own (R_run t) /\ reply_call (R_run t) = None) \/ x = Back (R_run t)) as [t Ht].
  { pose proof (Hset x Hx) as Hs.
    destruct (Hcl x Hx) as (q & [[-> Hq]| ->]); destruct Hs as (t & -> & _); eauto. }
  assert (callable s t) as Hc.
  { apply (callable_reach o n s xs x t Hr Hx). destruct Ht as [[-> _]| ->]; apply list_elem_of_here. }
  destruct (reply_owner_runs x t n s (Hset x Hx) Hc Ht) as [(new & c' & Hs)|H]; [|by exists t].
  destruct (run_in _ _ _ _ _ _ Hx Hs) as [c'' Hc']. by destruct (Hno c'').
Qed.

(** ** The end *)

Definition reply_weight q : nat :=
  match q with R_init _ => 2 | R_run t => ResponserThreads.weight t end.

Lemma reply_own_weight q s new s' :
  reply_own app false q s new s' -> (sum_list_with reply_weight new < reply_weight q)%nat.
Proof.
  intros (t & ts & -> & -> & Hs).
  assert (forall ts : list (ResponserThreads.thread U),
    sum_list_with reply_weight (R_run <$> ts) = sum_list_with ResponserThreads.weight ts) as ->.
  { clear. intros ts. induction ts as [|t ts IH]; [done|]. simpl. f_equal. exact IH. }
  destruct t; try (by destruct Hs as [-> _]; simpl; lia);
    inversion Hs; subst; simpl; repeat case_match; simpl; lia.
Qed.

Lemma reply_sn o n s xs :
  rtc (step takes) (new_responser o) ((n, s), xs) ->
  connected n = false -> sock n = Closed -> Forall (fun t => arming t = false) (flat_map tcp_of xs) ->
  sn (run (statement takes)) ((n, s), xs).
Proof.
  intros Hr Hc Hk Ha. apply (owner_sn takes reply_weight 2); simpl.
  - apply reply_own_weight.
  - done.
  - intros [|[]] ??; simplify_eq/=; lia.
  - intros [[]|[]] ?; simpl; lia.
  - intros [[]|[]] ?; simpl; lia.
  - done.
  - by eapply reach_readers.
Qed.

End lemmas.

(** ** What goes out *)

Section wire.
Context {U W : Type} (app : U -> pystr -> W -> outcome (option pystr) * W) (use : usage)
  (o : responser U W).
Implicit Types (s : ResponserThreads.shared U W) (q : rthread U).

(** An answer of the application, under the key of its request. *)
Definition answered s (r key : pystr) : Prop := (r, key) ∈ (replay app (asked s) (world o)).1.

Definition reply_body s (b : bytes) : Prop :=
  b = HEARTBEAT \/ registration o = Some b \/
  (exists r key, (answered s r key \/ backs use r key) /\ reply_bytes r key = Some b) \/
  exists todo, direct use todo /\ Send b ∈ todo.

Definition knows s q : Prop :=
  match q with
  | R_run (P_back r key) => answered s r key
  | R_run (A_back r key) => backs use r key
  | _ => True
  end.

Definition grows s s' : Prop := forall r key, answered s r key -> answered s' r key.

Definition replayed s : Prop := world (object s) = (replay app (asked s) (world o)).2.

Lemma statement_answers t s new s' :
  ResponserThreads.statement app t s new s' -> replayed s ->
  grows s s' /\ Forall (knows s') (R_run <$> new).
Proof.
  unfold grows, answered, replayed.
  assert (forall c payload key res w, app c payload (world (object s)) = (res, w) -> replayed s ->
    (replay app (asked s ++ [(c, (payload, key))]) (world o)).1 =
      (replay app (asked s) (world o)).1 ++ match res with Ret (Some r) => [(r, key)] | _ => [] end)
    as Hask.
  { unfold replayed. intros c payload key res w E Hs. rewrite replay_snoc.
    destruct (replay app (asked s) (world o)) as [rs w1]. simpl in *. subst w1. by rewrite E. }
  intros Hs HJ. destruct Hs; simpl; try (by split; [|repeat case_match; repeat constructor]);
    try (rewrite (Hask _ _ _ _ _ ltac:(eassumption) HJ)).
  - split; [by case_bool_decide|done].
  - split; [intros r k Hin; apply elem_of_app; by left|]. destruct response as [r|]; [|by repeat constructor].
    constructor; [|done]. unfold knows, answered. simpl.
    rewrite (Hask _ _ _ _ _ ltac:(eassumption) HJ). apply elem_of_app. right. apply list_elem_of_here.
  - split; [intros r k Hin; apply elem_of_app; by left|by repeat constructor].
Qed.

Lemma responser_written c :
  data_queue o = [] -> unfinished_tasks o = 0%nat ->
  rtc (@step _ _ (responser_owner app use) all_bytes) (new_responser o) c ->
  frames_of reply_body c.1.2 (wire c.1.1).
Proof.
  intros Hq Hn Hr. refine (@written _ _ (responser_owner app use) reply_body knows grows replayed
    _ _ _ _ _ _ _ _ _ _ _ _ _ _ _ _ _ _ Hr); try done.
  - by left.
  - intros s s' b Hg [->|[?|[(r & key & Ha & ?)|?]]]; [by left|by right; left| |by right; right; right].
    right. right. left. exists r, key. destruct Ha; auto.
  - intros s s' [|[]] Hg; simpl; auto.
  - by intros s r key.
  - intros b q s new s' (t & ts & -> & -> & Hs) HJ _.
    destruct t; try exact (statement_answers _ _ _ _ Hs HJ). destruct Hs as [-> ->]. split; [by intros r key|].
    by destruct b; repeat constructor.
  - intros [[]|[]] s _; (split; [by intros r k|by repeat constructor]).
  - intros [[]|[]] s _; (split; [by intros r k|by repeat constructor]).
  - intros m s. split; [by intros r key|done].
  - intros qs [|[]] s [_ Hs]; done.
  - intros [|[]] s c' Hk; simpl; intros E; simplify_eq; try done.
    + destruct (reply_bytes response key) as [b|] eqn:Eb; simplify_eq/=. right. right. left.
      exists response, key. auto.
    + destruct (reply_bytes response key) as [b|] eqn:Eb; simplify_eq/=. right. right. left.
      exists response, key. auto.
  - intros todo s Htodo. apply Forall_forall. intros [] Hin; try done. right. right. right.
    by exists todo.
  - constructor; [done|]. destruct (registration o) as [b|] eqn:E; [|done].
    constructor; [|done]. right. by left.
  - intros c' Hr'. destruct (reply_reach app use all_bytes o _ Hr') as (_ & [a us] & Hrun & k & cut & E & _).
    simpl in E. subst a.
    by destruct (responser_reach app false o _ _ Hq Hn Hrun) as (_ & _ & _ & _ & (_ & Hw & _) & _).
Qed.

End wire.

(** ** The properties *)

Section properties.
Context {U W : Type} (app : U -> pystr -> W -> outcome (option pystr) * W) (use : usage)
  (takes : bytes -> nat -> Prop).

(** A step of the program, and a statement of one of its threads. *)
Definition system_step := @step (rthread U) (ResponserThreads.shared U W) (responser_owner app use) takes.
Definition system_run :=
  run (@statement (rthread U) (ResponserThreads.shared U W) (responser_owner app use) takes).

End properties.

(** C4: The requests are served from the socket in order. In every interleaving of
    the whole program: the messages that parsing finds in the bytes the socket has
    given are those that came before the callback was installed, those that were
    handed to the responser, and those still to be handed on, in this order; of the
    ones handed on, the well-formed requests are those the worker took, those in
    the queue, and at most one in hand, in this order; the application was called
    with a subsequence of the requests taken, and it and the answers handed to
    [sendBack] are those of a server that handles them one after the other, but for
    at most one answer, for which [sendBack] has not returned yet or has raised.
    The application may call [sendBack], the other methods, and the client itself
    at any time; an answer counts as handed to [sendBack] when that has returned to
    the worker, whether or not the connection took it. *)
Theorem requests_from_socket {U W : Type} (app : U -> pystr -> W -> outcome (option pystr) * W)
    (use : usage) (takes : bytes -> nat -> Prop) (o : responser U W) (n : TcpStatements.shared)
    (s : ResponserThreads.shared U W) (xs : list (thread (rthread U))) :
  data_queue o = [] -> unfinished_tasks o = 0%nat ->
  rtc (system_step app use takes) (new_responser o) ((n, s), xs) ->
  (exists later, payloads (p_msgs (parse (received (reading n)))) =
     missed (reading n) ++ called (reading n) ++ later) /\
  (exists hand, omap accept (called (reading n)) = taken s ++ data_queue (object s) ++ hand /\
     (length hand <= 1)%nat) /\
  map snd (asked s) `sublist_of` taken s /\
  world (object s) = (replay app (asked s) (world o)).2 /\
  exists rest, (replay app (asked s) (world o)).1 = handed_back s ++ rest /\ (length rest <= 1)%nat.
Proof.
  intros Hq Hn Hr.
  destruct (reply_reach app use takes o _ Hr) as (_ & [a us] & Hr' & k & cut & E & Hus & _).
  simpl in *. subst a.
  destruct (responser_reach app false o _ _ Hq Hn Hr') as (H1 & HQ & _ & _ & (Hsub & Hw & rest & Hrest & Hlen) & _).
  pose proof (reply_arrived app use takes o _ Hr) as Ha. unfold queued in HQ. simpl in *.
  split_and!; [|exists (flat_map in_hand us)|done|done|by exists rest].
  - destruct (tcp_reach (owner:=responser_owner app use) takes _ _ _ _ Hr) as (ts & Ht & _).
    by eapply called_in_order.
  - rewrite <- Ha, HQ. split; [done|]. etrans; [apply in_hand_le|done].
Qed.

(** C12: The program has no deadlock, and ends when it is disconnected. When no
    thread can run any more, every thread that is left is the worker in a callback
    of the application that does not return. When the client is disconnected, its
    socket closed and nobody is just connecting it, there is no infinite run of the
    threads, in whatever order they take turns, unless new calls are made. *)
Theorem responser_system_ends {U W : Type} (app : U -> pystr -> W -> outcome (option pystr) * W)
    (use : usage) (takes : bytes -> nat -> Prop) (o : responser U W) (n : TcpStatements.shared)
    (s : ResponserThreads.shared U W) (xs : list (thread (rthread U))) :
  rtc (system_step app use takes) (new_responser o) ((n, s), xs) ->
  ((forall c', ~ system_run app use takes ((n, s), xs) c') ->
   forall x, x ∈ xs -> exists payload key c,
     x = Own (R_run (ResponserThreads.P_call payload key)) /\ recv_func (object s) = Some c /\
     (app c payload (world (object s))).1 = Stuck) /\
  (connected n = false -> sock n = Closed -> Forall (fun t => arming t = false) (flat_map tcp_of xs) ->
   sn (system_run app use takes) ((n, s), xs)).
Proof.
  intros Hr. split; [|by apply (reply_sn app use takes o)].
  intros Hno x Hx.
  destruct (reply_stuck app use takes o n s xs Hr Hno x Hx) as (t & -> & p & k & c & -> & Hc & Hs).
  by exists p, k, c.
Qed.

(** C10: What a responser puts on the wire, under every interleaving. When [sendall]
    hands all its bytes over at once, the wire holds whole frames, and each is a
    heartbeat, the registration, an answer the application's callback gave to a
    request, as a server that handles the requests one after the other gives it,
    under the key of this request, a text the application gave to [sendBack] itself,
    under the key it gave with it, or what the application sent through the client
    itself. *)
Theorem replies_on_the_wire {U W : Type} (app : U -> pystr -> W -> outcome (option pystr) * W)
    (use : usage) (o : responser U W) (n : TcpStatements.shared) (s : ResponserThreads.shared U W)
    (xs : list (thread (rthread U))) :
  data_queue o = [] -> unfinished_tasks o = 0%nat ->
  rtc (system_step app use all_bytes) (new_responser o) ((n, s), xs) ->
  exists ms, frames ms = Some (wire n) /\
    forall m, m ∈ ms -> m = HEARTBEAT \/ registration o = Some m \/
      (exists r key, ((r, key) ∈ (replay app (asked s) (world o)).1 \/ backs use r key) /\
         reply_bytes r key = Some m) \/
      (exists todo, direct use todo /\ Send m ∈ todo).
Proof.
  intros Hq Hn Hr. destruct (responser_written app use o _ Hq Hn Hr) as (ms & Hf & _ & Hms).
  exists ms. split; [exact Hf|]. intros m Hm. by apply (proj1 (Forall_forall _ _) Hms m Hm).
Qed.

(** ** Witnesses *)

Definition ex_new : responser unit nat :=
  Responser _ _ (str_of "a") (str_of "b") None [] 0 0 (TcpClient.__init__ true None) 0%nat.

Definition ex_frame : bytes := MAGIC ++ [x00; x00; x00; x07] ++ ex_request.

(** The application answers once more, of its own accord. *)
Definition ex_use : usage :=
  Usage (fun r key => r = str_of "More" /\ key = str_of "42") (Forall no_send).

Ltac call_ t := eapply goes_on; [eapply (step_start _ (R_run t)); by repeat split|reflexivity|].

Lemma goes_own app t s new new' s' n :
  reply_call (R_run t) = None -> t <> P_test ->
  ResponserThreads.statement (U:=unit) (W:=nat) app t s new s' -> new = new' ->
  @statement _ _ (responser_owner app ex_use) all_bytes (Own (R_run t)) (n, s) (Own <$> (R_run <$> new')) (n, s').
Proof. intros Hq Ht Hs ->. apply st_own; [done|]. exists t, new'. split_and!; [done..|]. by destruct t. Qed.

Lemma goes_back app t s new t' s' n :
  reply_call (R_run t) = None -> t <> P_test ->
  ResponserThreads.statement (U:=unit) (W:=nat) app t s new s' -> new = [t'] ->
  @statement _ _ (responser_owner app ex_use) all_bytes (Back (R_run t)) (n, s) [Back (R_run t')] (n, s').
Proof. intros Hq Ht Hs ->. apply st_back; [done|]. exists t, [t']. split_and!; [done..|]. by destruct t. Qed.

Ltac serves c := eapply goes_own; [reflexivity|discriminate|rule_of c|vm_compute; reflexivity].

(** The worker is about to call the callback with the request that came. *)
Definition ex_client : TcpStatements.shared :=
  TcpStatements.Shared true Open (MAGIC ++ [x00; x00; x00; x03] ++ bytes_of "a-b")
    (Heart (Some 0%nat) [0%nat] [] [0%nat] 1) (Inbox false [] true ex_frame [ex_request] [] [ex_request]).

Definition ex_taken : ResponserThreads.shared unit nat :=
  ResponserThreads.Shared _ _ (Responser _ _ (str_of "a") (str_of "b") (Some tt) [] 1 0
    (TcpClient.__init__ true None) 0%nat) [ex_request] [ex_hi] [] [].

Definition ex_calling : rthread unit := R_run (ResponserThreads.P_call (str_of "Hi") (str_of "42")).

Lemma ex_called app :
  rtc (system_step app ex_use all_bytes) (new_responser ex_new) ((ex_client, ex_taken), [Tcp P_lock; Own ex_calling]).
Proof.
  unfold system_step, new_responser, constructing, fresh, ex_new.
  sys 0%nat ltac:(in_ st_c_connect).
  sys 0%nat ltac:(in_ st_c_flag).
  sys 0%nat ltac:(in_ st_hb_rearm).
  sys 0%nat ltac:(in_ st_hb_create).
  sys 0%nat ltac:(in_ st_hb_daemon).
  sys 0%nat ltac:(in_ st_hb_start).
  sys 0%nat ltac:(eapply (st_in_starts _ _ _ R_test (O_install [Send (bytes_of "a-b")])); [reflexivity..|];
      exact (st_c_thread all_bytes [Install; Send (bytes_of "a-b")] _)).
  sys 1%nat ltac:(in_ st_o_install).
  sys 1%nat ltac:(in_ st_w_test).
  sys 1%nat ltac:(in_ st_w_send).
  sys 1%nat ltac:(ret (st_w_done all_bytes (From_call []))).
  call_ (O_func (U:=unit) tt).
  sys 0%nat ltac:(own_ (st_o_func app)).
  sys 0%nat ltac:(tcp st_r_test).
  sys 0%nat ltac:(tcp st_r_recv).
  sys 0%nat ltac:(tcp (st_r_blocked all_bytes ex_frame)).
  sys 0%nat ltac:(tcp st_r_chunk).
  sys 0%nat ltac:(tcp st_r_lock).
  sys 0%nat ltac:(tcp st_r_append).
  sys 0%nat ltac:(tcp st_p_lock).
  sys 0%nat ltac:(tcp st_p_got).
  sys 0%nat ltac:(tcp st_p_msg).
  sys 0%nat ltac:(tcp st_p_handle).
  sys 0%nat ltac:(apply st_callback).
  sys 0%nat ltac:(eapply goes_back; [reflexivity|discriminate|rule_of (st_i_parse app)|vm_compute; reflexivity]).
  sys 0%nat ltac:(eapply st_back_ends; [reflexivity|]; eexists _, []; split_and!; [reflexivity|reflexivity|rule_of (st_i_put app)]).
  sys 1%nat ltac:(eapply st_own; [reflexivity|]; eexists _, [P_get]; by split_and!).
  sys 1%nat ltac:(serves (st_p_get app)).
  sys 1%nat ltac:(serves (st_p_func app)).
  apply rtc_refl.
Qed.

(** The request is answered, and the application sends one text more with its key. *)
Lemma ex_served : exists n s,
  rtc (system_step ex_out ex_use all_bytes) (new_responser ex_new) ((n, s), [Tcp P_lock; Own (R_run P_test)]) /\
  called (reading n) = [ex_request] /\ asked s = [(tt, ex_hi)] /\ handed_back s = [ex_echo] /\
  received (reading n) = ex_frame /\
  frames [bytes_of "a-b"; bytes_of "42&*&Echo: Hi"; bytes_of "42&*&More"] = Some (wire n).
Proof.
  eexists _, _. split.
  { etrans; [apply (ex_called ex_out)|]. unfold system_step, ex_client, ex_taken, ex_calling.
    sys 1%nat ltac:(serves (ResponserThreads.st_p_call ex_out)).
    sys 1%nat enter.
    sys 1%nat ltac:(in_ st_w_test).
    sys 1%nat ltac:(in_ st_w_send).
    sys 1%nat ltac:(ret (st_w_done all_bytes (From_call []))).
    sys 1%nat ltac:(serves (st_p_done ex_out)).
    call_ (A_back (U:=unit) (str_of "More") (str_of "42")).
    sys 0%nat enter.
    sys 0%nat ltac:(in_ st_w_test).
    sys 0%nat ltac:(in_ st_w_send).
    sys 0%nat ltac:(ret (st_w_done all_bytes (From_call []))).
    apply rtc_refl. }
  by split_and!.
Qed.

(** The callback does not return, and the responser is disconnected. *)
Definition ex_hangs (_ : unit) (_ : pystr) (w : nat) : outcome (option pystr) * nat := (Stuck, w).

Lemma ex_hanging : exists n,
  rtc (system_step ex_hangs ex_use all_bytes) (new_responser ex_new) ((n, ex_taken), [Own ex_calling]) /\
  connected n = false /\ sock n = Closed.
Proof.
  eexists _. split.
  { etrans; [apply (ex_called ex_hangs)|]. unfold system_step, ex_client, ex_taken, ex_calling.
    sys 0%nat ltac:(tcp st_p_lock).
    sys 0%nat ltac:(tcp st_p_break).
    call_ (X_client (U:=unit)).
    sys 0%nat enter.
    sys 0%nat ltac:(in_ st_d_flag).
    sys 0%nat ltac:(in_ st_d_test).
    sys 0%nat ltac:(in_ st_d_cancel).
    sys 0%nat ltac:(in_ st_d_clear).
    sys 0%nat ltac:(ret (st_d_close all_bytes [])).
    sys 0%nat ltac:(tcp st_r_test).
    apply rtc_refl. }
  by split_and!.
Qed.

Lemma requests_from_socket_witness : exists n s,
  rtc (system_step ex_out ex_use all_bytes) (new_responser ex_new) ((n, s), [Tcp P_lock; Own (R_run P_test)]) /\
  world (object s) = 1%nat /\ exists hand, [ex_hi] = taken s ++ data_queue (object s) ++ hand.
Proof.
  destruct ex_served as (n & s & Hr & Hc & Ha & _). exists n, s. split; [exact Hr|].
  destruct (requests_from_socket ex_out ex_use all_bytes ex_new n s _ eq_refl eq_refl Hr)
    as (_ & (hand & Hh & _) & _ & Hw & _).
  split; [by rewrite Hw, Ha|]. exists hand. rewrite <- Hh, Hc. reflexivity.
Defined.

Lemma responser_system_ends_witness : exists n,
  (forall x, x ∈ [Own ex_calling] -> exists payload key c,
     x = Own (R_run (ResponserThreads.P_call payload key)) /\ recv_func (object ex_taken) = Some c /\
     (ex_hangs c payload (world (object ex_taken))).1 = Stuck) /\
  sn (system_run ex_hangs ex_use all_bytes) ((n, ex_taken), [Own ex_calling]).
Proof.
  destruct ex_hanging as (n & Hr & Hc & Hk). exists n.
  destruct (responser_system_ends ex_hangs ex_use all_bytes ex_new n ex_taken _ Hr) as [H1 H2].
  split; [|apply H2; [exact Hc|exact Hk|constructor]].
  apply H1. intros c' (new & a & Hs)%run_alone. inversion Hs; subst; try done.
  match goal with H : own _ _ _ _ _ |- _ => destruct H as (t & ts & [= <-] & -> & Hq) end.
  inversion Hq; subst; by simplify_eq/=.
Defined.

Lemma replies_on_the_wire_witness : exists n s ms,
  rtc (system_step ex_out ex_use all_bytes) (new_responser ex_new)
    ((n, s), [Tcp P_lock; Own (R_run P_test)]) /\
  frames ms = Some (wire n) /\
  frames [bytes_of "a-b"; bytes_of "42&*&Echo: Hi"; bytes_of "42&*&More"] = Some (wire n).
Proof.
  destruct ex_served as (n & s & Hr & _ & _ & _ & _ & Hw).
  destruct (replies_on_the_wire ex_out ex_use ex_new n s _ eq_refl eq_refl Hr) as (ms & Hms & _).
  exists n, s, ms. split; [exact Hr|]. split; [exact Hms|exact Hw].
Defined.
