(* ===== verification/SenderSystem.v ===== *)
(** * A [SignalSender] with its client, statement by statement

    SignalSender.v runs every method of
    knotlink-sdk-python/knotlink/knotlink/SignalSender.py in one piece. Here the
    methods are cut into the statements between which another thread can run, and
    run together with those of the client, TcpStatements.v, in the pool of Owners.v.
    Nothing guards the two identifiers: [set_config] writes them one after the
    other, and [emitt] reads them one after the other. *)

From S2P Require Export SignalSender OwnersWire.

(** What the threads share: the object, and, as history, the identifiers that were
    replaced and the data that was emitted. *)
Record shared := Shared {
  object : sender;
  old_apps : list (option pystr);
  old_signals : list (option pystr);
  emitted : list pydata }.

(** Where a thread is: the statement it runs next. *)
Inductive thread :=
| S_init                                       (* 15: connect_to_server *)
| S_app (APPID SignalID : pystr)               (* 18: self.appID = APPID *)
| S_signal (SignalID : pystr)                  (* 19: self.signalID = SignalID *)
| E_app (data : pydata)                        (* 23: self.appID is read *)
| E_signal (APPID : option pystr) (data : pydata)
                                               (* 23, 25-33: self.signalID is read *)
| E_send (s_data : bytes)                      (* 34: self.KLsender.send_data *)
| X_client                                     (* 39: self.KLsender.disconnect() *)
| N_none.                                      (* a callback: none is installed *)

(** [self.appID = a], [self.signalID = i], and the call of [emitt] *)
Definition put_app (a : pystr) (s : shared) : shared :=
  Shared (Sender (Some a) (signalID (object s)) (KLsender (object s)))
    (appID (object s) :: old_apps s) (old_signals s) (emitted s).
Definition put_signal (i : pystr) (s : shared) : shared :=
  Shared (Sender (appID (object s)) (Some i) (KLsender (object s)))
    (old_apps s) (signalID (object s) :: old_signals s) (emitted s).
Definition emit (d : pydata) (s : shared) : shared :=
  Shared (object s) (old_apps s) (old_signals s) (emitted s ++ [d]).

(** [_emitt] and [__emitt], up to the call of [send_data]: no bytes when they
    raise. *)
Definition emit_bytes (a i : option pystr) (d : pydata) : option bytes :=
  match d with
  | PyStr x => match utf8_encode x with Some bs => keyed_body a i bs | None => None end
  | PyBytes bs => keyed_body a i bs
  | PyOther => None
  end.

(** The statements that do not call the client. *)
Inductive statement : thread -> shared -> list thread -> shared -> Prop :=
| st_s_app a i s : statement (S_app a i) s [S_signal i] (put_app a s)
| st_s_signal i s : statement (S_signal i) s [] (put_signal i s)
| st_e_app d s : statement (E_app d) s [E_signal (appID (object s)) d] (emit d s)
| st_e_signal a d body s :
    emit_bytes a (signalID (object s)) d = Some body ->
    statement (E_signal a d) s [E_send body] s
| st_e_signal_raises a d s :
    emit_bytes a (signalID (object s)) d = None -> statement (E_signal a d) s [] s.

Definition emit_call (q : thread) : option op :=
  match q with E_send body => Some (Send body) | X_client => Some Disconnect | _ => None end.

(** When the constructor has returned the methods may be called. *)
Definition emit_start (qs : list thread) (q : thread) : Prop :=
  (S_init ∉ qs) /\ match q with S_app _ _ | E_app _ | X_client => True | _ => False end.

(** No callback is installed. *)
#[export] Instance sender_owner : Owner thread shared := {|
  entry _ := N_none;
  arrives _ s := s;
  own _ := statement;
  client_call := emit_call;
  on_return _ s := ([], s);
  on_raise _ s := ([], s);
  may_start := emit_start;
  may_call := Forall no_send |}.

(** [SignalSender(...)]: 12-15. *)
Definition new_sender (s : sender) :
    (TcpStatements.shared * shared) * list (Owners.thread thread) :=
  constructing [] S_init (Shared s [] [] []).

(** ** Lemmas *)

(** [emitt], when nothing comes between, sends these bytes, or raises. *)
Lemma emitt_eq d s :
  match emit_bytes (appID s) (signalID s) d with
  | Some body => emitt d s = on_sender (send_data body) s
  | None => exists e, emitt d s = (Raise e, s)
  end.
Proof.
  destruct d as [x|bs|]; simpl.
  - rewrite emitt_str. destruct (utf8_encode x) as [bs|]; [|by eexists]. rewrite emitt_bytes.
    destruct (keyed_body _ _ bs); [done|by eexists].
  - rewrite emitt_bytes. destruct (keyed_body _ _ bs); [done|by eexists].
  - unfold emitt, _emitt, __emitt, encode. step. destruct (utf8_encode _); by eexists.
Qed.

(** The identifiers the sender has or had. *)
Definition had_app (s : shared) (a : option pystr) : Prop := a ∈ appID (object s) :: old_apps s.
Definition had_signal (s : shared) (i : option pystr) : Prop := i ∈ signalID (object s) :: old_signals s.

(** What may go out: a heartbeat, or data that was emitted, under such identifiers. *)
Definition signal (s : shared) (b : bytes) : Prop :=
  b = HEARTBEAT \/
  exists a i d, had_app s a /\ had_signal s i /\ d ∈ emitted s /\ emit_bytes a i d = Some b.

Definition knows (s : shared) (q : thread) : Prop :=
  match q with
  | E_signal a d => had_app s a /\ d ∈ emitted s
  | E_send b => signal s b
  | _ => True
  end.

(** Nothing is forgotten. *)
Definition grows (s s' : shared) : Prop :=
  (forall a, had_app s a -> had_app s' a) /\ (forall i, had_signal s i -> had_signal s' i) /\
  (forall d, d ∈ emitted s -> d ∈ emitted s').

Lemma grows_refl s : grows s s.
Proof. done. Qed.

Lemma signal_grows s s' b : grows s s' -> signal s b -> signal s' b.
Proof.
  intros (Ha & Hi & Hd) [->|(a & i & d & ? & ? & ? & ?)]; [by left|]. right. exists a, i, d. auto.
Qed.

Lemma sender_knows_grows s s' q : grows s s' -> knows s q -> knows s' q.
Proof.
  intros Hg. pose proof Hg as (Ha & Hi & Hd). destruct q; simpl; try done.
  - intros [? ?]. auto.
  - by apply signal_grows.
Qed.

Lemma sender_statement_knows q s new s' :
  statement q s new s' -> knows s q -> grows s s' /\ Forall (knows s') new.
Proof.
  unfold grows, had_app, had_signal.
  intros Hs Hq. destruct Hs; simpl in *.
  - split; [|by repeat constructor]. split_and!; try done. intros b Hb. by apply list_elem_of_further.
  - split; [|done]. split_and!; try done. intros b Hb. by apply list_elem_of_further.
  - split; [split_and!; try done; intros x Hx; apply elem_of_app; by left|].
    constructor; [|done]. split; [apply list_elem_of_here|]. apply elem_of_app. right. apply list_elem_of_here.
  - split; [done|]. constructor; [|done]. right. exists a, (signalID (object s)), d.
    destruct Hq. split_and!; [done|apply list_elem_of_here|done|done].
  - done.
Qed.

(** What the sender has written. *)
Lemma sender_written (o : sender) c :
  rtc (step all_bytes) (new_sender o) c -> frames_of signal c.1.2 (wire c.1.1).
Proof.
  intros Hr. refine (written signal knows grows (fun _ => True) _ _ _ _ _ _ _ _ _ _ _ _ _ _ _ _ _ _ Hr); try done.
  - by left.
  - apply signal_grows.
  - apply sender_knows_grows.
  - intros b q s new s' Hs _. by apply sender_statement_knows.
  - intros qs q s [_ Hq]. by destruct q.
  - intros q s c' Hq. destruct q; intros [= <-]; done.
  - intros todo s Htodo. eapply Forall_impl; [exact Htodo|]. by intros [].
Qed.

(** How many statements a thread still runs, at most. *)
Definition weight (q : thread) : nat :=
  match q with
  | E_app _ => 3 | S_app _ _ | E_signal _ _ => 2 | S_init | S_signal _ | E_send _ | X_client => 1
  | N_none => 0
  end.

Lemma sender_sn takes (o : sender) c :
  rtc (step takes) (new_sender o) c -> over (client_of c) -> sn (run (Owners.statement takes)) c.
Proof.
  intros Hr Ho. apply (owner_sn takes weight 0); try done.
  - intros q s new s' Hs. destruct Hs; simpl; lia.
  - intros q c'. destruct q; simpl; intros; simplify_eq; lia.
  - intros q s. simpl. lia.
  - intros q s. simpl. lia.
  - by eapply reach_readers.
Qed.

(** ** The properties *)

(** C14: What a sender puts on the wire, under every interleaving. Any number of
    threads call [emitt], [set_config] and [disconnect], and the application may
    call [connect_to_server] and [disconnect] of the client itself. When [sendall]
    hands all its bytes over at once, the wire holds whole frames, and each is a
    heartbeat, or data that was emitted, under an application identifier that the
    sender has or had and a signal identifier that it has or had. And when no
    other thread comes between its statements, [emitt] sends what SignalSender.v
    says. *)
Theorem signals_on_the_wire (o : sender) (n : TcpStatements.shared) (s : shared)
    (xs : list (Owners.thread thread)) :
  rtc (step all_bytes) (new_sender o) ((n, s), xs) ->
  (exists ms, frames ms = Some (wire n) /\
     forall m, m ∈ ms -> m = HEARTBEAT \/
       exists a i d, had_app s a /\ had_signal s i /\ d ∈ emitted s /\ emit_bytes a i d = Some m) /\
  forall d, match emit_bytes (appID o) (signalID o) d with
    | Some body => emitt d o = on_sender (send_data body) o
    | None => exists e, emitt d o = (Raise e, o)
    end.
Proof.
  intros Hr. split; [|intros d; apply emitt_eq].
  destruct (sender_written o _ Hr) as (ms & Hf & _ & Hms). exists ms. split; [exact Hf|].
  intros m Hm. by apply (proj1 (Forall_forall _ _) Hms m Hm).
Qed.

(** The threads of a disconnected sender end. When the client is disconnected,
    its socket closed and nobody is just connecting it, there is no infinite run of
    the threads of the sender and its client, in whatever order they take turns,
    unless new calls are made. *)
Theorem sender_system_ends (takes : bytes -> nat -> Prop) (o : sender) (n : TcpStatements.shared)
    (s : shared) (xs : list (Owners.thread thread)) :
  rtc (step takes) (new_sender o) ((n, s), xs) ->
  connected n = false -> sock n = Closed -> Forall (fun t => arming t = false) (flat_map tcp_of xs) ->
  sn (run (Owners.statement takes)) ((n, s), xs).
Proof. intros Hr Hc Hk Ha. by apply (sender_sn takes o). Qed.

(** ** A configuration that is torn *)

Definition ex_sender : sender :=
  Sender (Some (str_of "A")) (Some (str_of "1")) (TcpClient.__init__ true None).

Ltac call_ t := eapply goes_on; [eapply (step_start all_bytes t); split; [first [apply not_elem_of_nil|by intros ?%list_elem_of_singleton]|done]|reflexivity|].
Ltac plain c := eapply st_own; [reflexivity|rule_of c].

Lemma ex_torn :
  exists n s,
    rtc (step all_bytes) (new_sender ex_sender) ((n, s), [Own (S_signal (str_of "2")); Tcp R_test]) /\
    emitted s = [PyStr (str_of "Hi")] /\
    wire n = MAGIC ++ [x00; x00; x00; x08] ++ bytes_of "B-1&*&Hi".
Proof.
  eexists _, _. split.
  { unfold new_sender, constructing, fresh, ex_sender.
    sys 0%nat ltac:(in_ st_c_connect).
    sys 0%nat ltac:(in_ st_c_flag).
    sys 0%nat ltac:(in_ st_hb_rearm).
    sys 0%nat ltac:(in_ st_hb_create).
    sys 0%nat ltac:(in_ st_hb_daemon).
    sys 0%nat ltac:(in_ st_hb_start).
    sys 0%nat ltac:(eapply (st_return _ _ _ [R_test]); [reflexivity|by repeat constructor|]; exact (st_c_thread all_bytes [] _)).
    call_ (S_app (str_of "B") (str_of "2")).
    sys 0%nat ltac:(plain st_s_app).
    call_ (E_app (PyStr (str_of "Hi"))).
    sys 0%nat ltac:(plain st_e_app).
    sys 0%nat ltac:(plain st_e_signal).
    sys 0%nat enter.
    sys 0%nat ltac:(in_ st_w_test).
    sys 0%nat ltac:(in_ st_w_send).
    sys 0%nat ltac:(ret (st_w_done all_bytes (From_call []))).
    apply rtc_refl. }
  by split.
Qed.

(** C39: A signal under identifiers that were never set. The sender has application
    A and signal 1; one thread calls [set_config] with B and 2, another one
    [emitt] in between: the data goes out as signal 1 of application B, which is
    neither what the sender was made with nor what it was set to. *)
Theorem config_torn :
  exists n s,
    rtc (step all_bytes) (new_sender ex_sender) ((n, s), [Own (S_signal (str_of "2")); Tcp R_test]) /\
    emitted s = [PyStr (str_of "Hi")] /\
    exists y, frame (bytes_of "B-1&*&Hi") = Some y /\ wire n = y.
Proof.
  destruct ex_torn as (n & s & Hr & He & Hw). exists n, s. split_and!; [exact Hr|exact He|].
  eexists. split; [|exact Hw]. reflexivity.
Qed.

(** ** Witnesses *)

Lemma signals_on_the_wire_witness : exists n s,
  rtc (step all_bytes) (new_sender ex_sender) ((n, s), [Own (S_signal (str_of "2")); Tcp R_test]) /\
  exists ms, frames ms = Some (MAGIC ++ [x00; x00; x00; x08] ++ bytes_of "B-1&*&Hi") /\
    forall m, m ∈ ms -> m = HEARTBEAT \/ exists a i d, d = PyStr (str_of "Hi") /\ emit_bytes a i d = Some m.
Proof.
  destruct ex_torn as (n & s & Hr & He & Hw). exists n, s. split; [exact Hr|].
  destruct (signals_on_the_wire ex_sender n s _ Hr) as [(ms & Hf & Hms) _].
  rewrite <- Hw. exists ms. split; [exact Hf|]. intros m Hm.
  destruct (Hms m Hm) as [->|(a & i & d & _ & _ & Hd & Hb)]; [by left|]. right. exists a, i, d.
  rewrite He in Hd. split; [by apply list_elem_of_singleton in Hd|exact Hb].
Defined.

Lemma sender_system_ends_witness : exists n s,
  connected n = false /\ sn (run (Owners.statement all_bytes)) ((n, s), [Own (E_app PyOther)]).
Proof.
  assert (exists n s, rtc (step all_bytes) (new_sender ex_sender) ((n, s), [Own (E_app PyOther)]) /\
    connected n = false /\ sock n = Closed) as (n & s & Hr & Hc & Hk).
  { eexists _, _. split.
    { unfold new_sender, constructing, fresh, ex_sender.
      sys 0%nat ltac:(ret (st_c_connect_fails all_bytes [])).
      call_ X_client.
      sys 0%nat enter.
      sys 0%nat ltac:(in_ st_d_flag).
      sys 0%nat ltac:(in_ st_d_test).
      sys 0%nat ltac:(ret (st_d_close all_bytes [])).
      call_ (E_app PyOther).
      apply rtc_refl. }
    by split. }
  exists n, s. split; [exact Hc|].
  apply (sender_system_ends all_bytes ex_sender n s _ Hr Hc Hk). constructor.
Defined.
