(* ===== verification/SubscriberSystem.v ===== *)
(** * A [SignalSubscriber] with its client, statement by statement

    SignalSubscriber.v runs every method of
    knotlink-sdk-python/knotlink/knotlink/SignalSubscriber.py in one piece. Here the
    methods are cut into the statements between which another thread can run, and
    run together with those of the client, TcpStatements.v, in the pool of Owners.v:
    [init] connects, installs [data_recv] and registers; what the receive thread
    takes from the socket runs through [data_recv]. The callback of the application
    runs in one piece. *)

From S2P Require Export SignalSubscriber OwnersWire.

(** What the threads share: the object, and, as history, the identifiers that were
    replaced, the messages that arrived, the texts for which line 43 found no
    callback, and the callbacks that were called with their texts. *)
Record shared {U W : Type} := Shared {
  object : subscriber U W;
  old_apps : list pystr;
  old_signals : list pystr;
  arrived : list bytes;
  skipped : list pystr;
  told : list (U * pystr) }.
Arguments shared U W : clear implicits.

(** Where a thread is: the statement it runs next. [B_init] is the constructor,
    with the bytes of its registration, or none when they cannot be encoded. *)
Inductive thread {U : Type} :=
| B_init (s_key_bytes : option bytes)          (* 20-25: init *)
| B_app (APPID SignalID : pystr)               (* 28: self.appID = APPID *)
| B_signal (SignalID : pystr)                  (* 29: self.signalID = SignalID *)
| B_key_app                                    (* 30: self.appID is read *)
| B_key_signal (APPID : pystr)                 (* 30, 31: self.signalID is read *)
| B_send (s_key_bytes : bytes)                 (* 32: self.KLsubscriber.send_data *)
| I_decode (data : bytes)                      (* 37: data.decode *)
| I_callback (text : pystr)                    (* 43: if self.callback *)
| I_call (text : pystr)                        (* 44: self.callback(received_text) *)
| O_func (c : U)                               (* 51: self.callback = callback *)
| X_client.                                    (* 56: self.KLsubscriber.disconnect() *)
Arguments thread U : clear implicits.

Section steps.
Context {U W : Type}.
Implicit Types (s : shared U W) (q : thread U).

(** What the callback of the application does, to the application's state. *)
Variable app : U -> pystr -> W -> W.

Definition put_app (a : pystr) s : shared U W :=
  let o := object s in
  Shared _ _ (Subscriber _ _ a (signalID o) (SignalSubscriber.callback o) (KLsubscriber o) (world o))
    (appID o :: old_apps s) (old_signals s) (arrived s) (skipped s) (told s).
Definition put_signal (i : pystr) s : shared U W :=
  let o := object s in
  Shared _ _ (Subscriber _ _ (appID o) i (SignalSubscriber.callback o) (KLsubscriber o) (world o))
    (old_apps s) (signalID o :: old_signals s) (arrived s) (skipped s) (told s).
Definition on (f : subscriber U W -> subscriber U W) s : shared U W :=
  Shared _ _ (f (object s)) (old_apps s) (old_signals s) (arrived s) (skipped s) (told s).
Definition arrive (d : bytes) s : shared U W :=
  Shared _ _ (object s) (old_apps s) (old_signals s) (arrived s ++ [d]) (skipped s) (told s).
Definition skip (x : pystr) s : shared U W :=
  Shared _ _ (object s) (old_apps s) (old_signals s) (arrived s) (skipped s ++ [x]) (told s).
Definition tell (c : U) (x : pystr) s : shared U W :=
  Shared _ _ (set_world (app c x (world (object s))) (object s)) (old_apps s) (old_signals s)
    (arrived s) (skipped s) (told s ++ [(c, x)]).

(** The bytes that register a subscriber. *)
Definition key_bytes (a i : pystr) : option bytes := utf8_encode (a ++ DASH ++ i).

(** The statements that do not call the client. [I_call] reads the callback again;
    nothing sets it back to [None]. *)
Inductive statement : thread U -> shared U W -> list (thread U) -> shared U W -> Prop :=
| st_b_app a i s : statement (B_app a i) s [B_signal i] (put_app a s)
| st_b_signal i s : statement (B_signal i) s [B_key_app] (put_signal i s)
| st_b_key_app s : statement B_key_app s [B_key_signal (appID (object s))] s
| st_b_key_signal a s :
    statement (B_key_signal a) s
      (match key_bytes a (signalID (object s)) with Some b => [B_send b] | None => [] end) s
| st_i_decode d s : statement (I_decode d) s [I_callback (utf8_decode_replace d)] s
| st_i_callback x c s :
    SignalSubscriber.callback (object s) = Some c -> statement (I_callback x) s [I_call x] s
| st_i_callback_none x s :
    SignalSubscriber.callback (object s) = None -> statement (I_callback x) s [] (skip x s)
| st_i_call x c s :
    SignalSubscriber.callback (object s) = Some c -> statement (I_call x) s [] (tell c x s)
| st_o_func c s : statement (O_func c) s [] (on (set_callback (Some c)) s).

Definition tell_call q : option op :=
  match q with B_send b => Some (Send b) | X_client => Some Disconnect | _ => None end.

(** When the constructor has returned the methods may be called. *)
Definition constructed q : bool := match q with B_init _ => false | _ => true end.

Definition tell_start (qs : list (thread U)) q : Prop :=
  forallb constructed qs = true /\ match q with B_app _ _ | O_func _ | X_client => True | _ => False end.

(** The calls the application makes of the methods of the client itself. *)
Variable direct : list op -> Prop.

Definition subscriber_owner : Owner (thread U) (shared U W) := {|
  entry := I_decode;
  arrives := arrive;
  own _ := statement;
  client_call := tell_call;
  on_return _ s := ([], s);
  on_raise _ s := ([], s);
  may_start := tell_start;
  may_call := direct |}.

End steps.

(** [SignalSubscriber(...)]: 14-24. *)
Definition new_subscriber {U W : Type} (o : subscriber U W) :
    (TcpStatements.shared * shared U W) * list (Owners.thread (thread U)) :=
  let key := key_bytes (appID o) (signalID o) in
  constructing (Install :: match key with Some b => [Send b] | None => [] end)
    (B_init key) (Shared _ _ o [] [] [] [] []).

(** ** Lemmas *)

Section lemmas.
Context {U W : Type} (app : U -> pystr -> W -> W) (direct : list op -> Prop)
  (takes : bytes -> nat -> Prop).
Implicit Types (s : shared U W) (q : thread U).

#[local] Instance owner : Owner (thread U) (shared U W) := subscriber_owner app direct.

(** The messages [data_recv] is called with are those the client hands on. *)
Lemma tell_arrived o c :
  rtc (step takes) (new_subscriber o) c -> arrived c.1.2 = called (reading c.1.1).
Proof.
  intros Hr. refine (reach_log takes arrived _ _ _ _ _ _ _ _ _ _ Hr); try done.
  intros b q s new s' Hs. by destruct Hs.
Qed.

(** [data_recv] only runs in the callback of the client, and nothing else does. *)
Definition hand q : list pystr :=
  match q with I_decode d => [utf8_decode_replace d] | I_callback x | I_call x => [x] | _ => [] end.

Definition outside q : Prop := constructed q = true /\ hand q = [].
Definition called_from q : Prop := hand q = [].
Definition inside q : Prop := constructed q = true /\ length (hand q) = 1%nat.

#[local] Abbreviation settled := (settled outside called_from inside).

Lemma tell_step_settled c c' : step takes c c' -> Forall settled c.2 -> Forall settled c'.2.
Proof.
  apply Owners.step_settled; unfold outside, called_from, inside.
  - intros b q s new s' Hs [_ Hq]. destruct Hs; simpl in *; repeat case_match; by repeat constructor.
  - intros b q s new s' Hs [_ Hq]. destruct Hs; simpl in *; repeat case_match; by repeat constructor.
  - done.
  - by intros [].
  - done.
  - done.
  - by intros qs [] [_ Hq].
Qed.

(** ** The texts *)

(** The application listens once it has set a callback: nothing takes it away. *)
Definition listening s : Prop := is_Some (SignalSubscriber.callback (object s)).

(** Those that arrived, but for the one in hand, first found no callback and then,
    once there was one, were told. *)
Definition told_inv (w0 : W) (c : (TcpStatements.shared * shared U W) * list (Owners.thread (thread U))) :
    Prop :=
  map utf8_decode_replace (arrived c.1.2) =
    skipped c.1.2 ++ map snd (told c.1.2) ++ threads_of hand c.2 /\
  (told c.1.2 <> [] -> listening c.1.2) /\
  world (object c.1.2) = fold_left (fun w '(k, x) => app k x w) (told c.1.2) w0.

Lemma hand_readers xs :
  Forall settled xs ->
  (length (threads_of hand xs) <= sum_list_with reader_token (flat_map tcp_of xs))%nat.
Proof.
  intros Hset. unfold threads_of.
  assert (length (flat_map hand (flat_map own_of xs)) =
    sum_list_with (fun q => length (hand q)) (flat_map own_of xs)) as ->.
  { generalize (flat_map own_of xs). intros qs. induction qs as [|q qs IH]; [done|].
    simpl. by rewrite length_app, IH. }
  apply (inside_readers outside called_from inside); [| |  |done].
  - by intros q [_ ->].
  - by intros q ->.
  - intros q [_ ->]. lia.
Qed.

Lemma hand_none xs :
  Forall settled xs -> (sum_list_with reader_token (flat_map tcp_of xs) = 0)%nat ->
  threads_of hand xs = [].
Proof. intros Hset%hand_readers Hz. apply nil_length_inv. lia. Qed.

Lemma tell_statement w0 q s new s' :
  statement app q s new s' ->
  (told s <> [] -> listening s) ->
  world (object s) = fold_left (fun w '(k, x) => app k x w) (told s) w0 ->
  arrived s' = arrived s /\
  skipped s' ++ map snd (told s') ++ flat_map hand new = skipped s ++ map snd (told s) ++ hand q /\
  (told s' <> [] -> listening s') /\
  world (object s') = fold_left (fun w '(k, x) => app k x w) (told s') w0.
Proof.
  intros Hs Hl Hw. unfold listening in *.
  destruct Hs; simpl; repeat case_match; simpl; (split; [done|]); rewrite ?app_nil_r;
    try (split; [done|]; split; [by eauto|congruence]).
  - assert (told s = []) as Et.
    { destruct (told s); [done|]. destruct Hl as [c Hc]; [done|]. congruence. }
    rewrite Et in *. by rewrite app_nil_r.
  - split; [by rewrite map_app|]. split; [by eauto|]. rewrite fold_left_app. simpl. by rewrite Hw.
Qed.

(** The other threads have no text in hand, when one is the receive thread. *)
Lemma hand_others xs1 x xs2 n s t :
  Forall settled (xs1 ++ x :: xs2) -> readers_one (client_of ((n, s), xs1 ++ x :: xs2)) ->
  tcp_of x = [t] -> reader_token t = 1%nat ->
  threads_of hand xs1 = [] /\ threads_of hand xs2 = [].
Proof.
  unfold readers_one, client_of. simpl. rewrite flat_map_app, sum_list_with_app. simpl.
  intros [H1 H2]%Forall_app Hone Hx Ht. apply Forall_cons in H2 as [_ H2].
  rewrite Hx in Hone. simpl in Hone. split; apply hand_none; try done; lia.
Qed.

Definition whole_inv (w0 : W)
    (c : (TcpStatements.shared * shared U W) * list (Owners.thread (thread U))) : Prop :=
  Forall settled c.2 /\ readers_one (client_of c) /\ told_inv w0 c.

(** One statement of a thread, between others. *)
Lemma told_between w0 xs1 x xs2 n s new n' s' :
  Owners.statement takes x (n, s) new (n', s') ->
  whole_inv w0 ((n, s), xs1 ++ x :: xs2) -> told_inv w0 ((n', s'), xs1 ++ new ++ xs2).
Proof.
  intros Hs (Hset & Hone & Ha & Hl & Hw). unfold told_inv in *. simpl in *.
  pose proof (fun t => hand_others xs1 x xs2 n s t Hset Hone) as Hothers.
  apply Forall_app in Hset as [_ Hset]. apply Forall_cons in Hset as [Hx _].
  change (x :: xs2) with ([x] ++ xs2) in Ha. rewrite !threads_of_app in *.
  assert (threads_of hand new = threads_of hand [x] -> arrived s' = arrived s ->
    skipped s' = skipped s -> told s' = told s -> (listening s -> listening s') ->
    world (object s') = world (object s) ->
    map utf8_decode_replace (arrived s') =
      skipped s' ++ map snd (told s') ++ threads_of hand xs1 ++ threads_of hand new ++ threads_of hand xs2 /\
    (told s' <> [] -> listening s') /\
    world (object s') = fold_left (fun w '(k, x) => app k x w) (told s') w0) as Hsame.
  { intros -> -> -> -> Hk ->. split; [done|]. auto. }
  assert (forall q new, x = Back q -> statement app q s new s' ->
    map utf8_decode_replace (arrived s') =
      skipped s' ++ map snd (told s') ++ threads_of hand xs1 ++ flat_map hand new ++ threads_of hand xs2 /\
    (told s' <> [] -> listening s') /\
    world (object s') = fold_left (fun w '(k, x) => app k x w) (told s') w0) as Hback.
  { intros q new0 -> Hq. destruct (Hothers P_lock) as [E1 E2]; [done..|].
    rewrite E1, E2 in *. unfold threads_of in Ha. simpl in Ha. rewrite !app_nil_r in *.
    destruct (tell_statement w0 _ _ _ _ Hq Hl Hw) as (-> & E & ? & ?). split; [|done].
    simpl. by rewrite Ha, E. }
  inversion Hs; subst; clear Hs; try (by apply Hsame; try done; rewrite threads_of_Tcp).
  - destruct (Hothers (P_call m)) as [E1 E2]; [done..|]. rewrite E1, E2 in *. split; [|done].
    unfold threads_of in *. simpl in *. rewrite !app_nil_r in *. by rewrite map_app, Ha, app_assoc.
  - destruct Hx as [Hc Hh].
    assert (flat_map hand new0 = [] /\ arrived s' = arrived s /\ skipped s' = skipped s /\
      told s' = told s /\ (listening s -> listening s') /\ world (object s') = world (object s))
      as (E & ? & ? & ? & ? & ?).
    { unfold listening.
      match goal with H : own _ _ _ _ _ |- _ => destruct H end; try done; simpl; try case_match;
        split_and!; eauto. }
    apply Hsame; [|done..]. rewrite threads_of_Own, E. unfold threads_of. simpl. by rewrite Hh.
  - apply Hsame; [|done..]. rewrite threads_of_app, threads_of_Tcp, threads_of_Own. unfold threads_of.
    simpl in *. by rewrite Hx.
  - apply Hsame; [|done..]. rewrite threads_of_Own. unfold threads_of. simpl in *. by rewrite Hx.
  - destruct (Hback q [q'] eq_refl ltac:(assumption)) as (E & ? & ?). split; [|done].
    rewrite E. unfold threads_of. simpl. by rewrite !app_nil_r.
  - by destruct (Hback q [] eq_refl ltac:(assumption)) as (E & ? & ?).
Qed.

Lemma tell_step_whole w0 c c' : step takes c c' -> whole_inv w0 c -> whole_inv w0 c'.
Proof.
  intros Hst Hinv. pose proof Hinv as (Hset & Hone & Htold). split_and!.
  - by apply (tell_step_settled c).
  - by apply (step_readers takes c).
  - destruct Hst as [c c' [xs1 x xs2 [n s] new [n' s'] Hs]|i n s xs Hi|q n s xs Hq|todo n s xs Hd].
    + by eapply told_between.
    + exact Htold.
    + destruct Htold as (Ha & Hl & Hw). split; [|done].
      assert (hand q = []) as Hh by (destruct Hq as [_ Hq]; by destruct q).
      unfold threads_of in *. simpl in *. by rewrite Hh.
    + destruct Htold as (Ha & Hl & Hw). split; [|done].
      simpl. by rewrite threads_of_app, threads_of_Tcp.
Qed.

Lemma reach_whole o c :
  rtc (step takes) (new_subscriber o) c -> whole_inv (world o) c.
Proof.
  intros Hr. apply (steps_inv (step takes) (whole_inv (world o)) _ _ (tell_step_whole (world o)) Hr).
  split_and!.
  - by repeat constructor.
  - unfold readers_one. simpl. lia.
  - by split_and!.
Qed.

(** From the moment the application listens, no text finds no callback. *)
Lemma statement_listening q s new s' :
  statement app q s new s' -> listening s -> listening s' /\ skipped s' = skipped s.
Proof. unfold listening. intros Hs [k Hk]. destruct Hs; simpl in *; try congruence; by eauto. Qed.

Lemma step_listening c c' :
  step takes c c' -> listening c.1.2 -> listening c'.1.2 /\ skipped c'.1.2 = skipped c.1.2.
Proof.
  intros [c1 c2 [xs1 x xs2 [n s] new [n' s'] Hs]|? ? ? ? ?|? ? ? ? ?|? ? ? ? ?] Hl; simpl in *; try done.
  inversion Hs; subst; simpl in *; try done; by eapply statement_listening.
Qed.

Lemma reach_listening c c' :
  rtc (step takes) c c' -> listening c.1.2 -> skipped c'.1.2 = skipped c.1.2.
Proof.
  induction 1 as [|c1 c2 c3 Hs _ IH]; [done|]. intros Hl.
  destruct (step_listening _ _ Hs Hl) as [Hl' <-]. by apply IH.
Qed.

(** ** Who can run *)

(** [data_recv] only calls a callback that there is. *)
Definition callable s q : Prop :=
  match q with I_call _ => is_Some (SignalSubscriber.callback (object s)) | _ => True end.

Definition callables (c : (TcpStatements.shared * shared U W) * list (Owners.thread (thread U))) : Prop :=
  Forall (callable c.1.2) (flat_map own_of c.2).

Lemma tell_callable q s new s' :
  statement app q s new s' ->
  Forall (callable s') new /\ forall q', callable s q' -> callable s' q'.
Proof.
  intros Hs. destruct Hs; simpl; repeat case_match; rewrite ?Forall_singleton, ?Forall_nil;
    (split; [simpl; by eauto|]); intros [] Hq; simpl in *; eauto.
Qed.

Lemma step_callables c c' : step takes c c' -> callables c -> callables c'.
Proof.
  unfold callables.
  intros [c1 c2 [xs1 x xs2 [n s] new [n' s'] Hs]|i n s xs Hi|q n s xs [_ Hq]|todo n s xs Hd] Hc; simpl in *.
  - rewrite !flat_map_app in *. simpl in *. apply Forall_app in Hc as [H1 [Hx H2]%Forall_app].
    assert (Forall (callable s') (flat_map own_of new) /\ forall q', callable s q' -> callable s' q')
      as [Hnew Hkeep].
    { inversion Hs; subst; simpl; rewrite ?flat_map_app, ?own_of_Own, ?own_of_Tcp; simpl in *;
        try match goal with H : statement app _ _ _ _ |- _ => apply tell_callable in H as [??] end;
        rewrite ?app_nil_r; (split; [|first [assumption|by intros []]]); try done. by constructor. }
    apply Forall_app_2; [|apply Forall_app_2; [done|]]; eapply Forall_impl; eauto.
  - done.
  - constructor; [by destruct q|done].
  - by rewrite flat_map_app, own_of_Tcp.
Qed.

Lemma tell_stuck o n s xs :
  rtc (step takes) (new_subscriber o) ((n, s), xs) ->
  (forall c', ~ run (Owners.statement takes) ((n, s), xs) c') -> xs = [].
Proof.
  intros Hr Hno. destruct xs as [|x xs]; [done|]. exfalso.
  pose proof (stuck_client takes _ (B_init (key_bytes (appID o) (signalID o))) _ _ eq_refl Hr Hno) as Hcl.
  destruct (reach_whole _ _ Hr) as (Hset & _ & _).
  assert (callables ((n, s), x :: xs)) as Hcall.
  { refine (steps_inv (step takes) callables _ _ step_callables Hr _). by repeat constructor. }
  unfold callables in Hcall. simpl in *. apply Forall_cons in Hcl as [Hx _].
  apply Forall_cons in Hset as [Hset _]. apply Forall_app in Hcall as [Hcall _].
  assert (forall new a, Owners.statement takes x (n, s) new a -> False) as Hno'.
  { intros new a Hs. by apply (Hno (a, [] ++ new ++ xs)), (run_thread _ [] x xs). }
  assert (forall q, constructed q = true -> callable s q -> tell_call q = None ->
    exists new s', statement app q s new s') as Hrun.
  { intros [] Hq1 Hq2 Hq3; try done; try (eexists _, _; by constructor).
    - destruct (SignalSubscriber.callback (object s)) eqn:Ek; eexists _, _; by econstructor.
    - destruct Hq2 as [c Hc]. eexists _, _. by econstructor. }
  destruct Hx as (q & [[-> Hq]| ->]); simpl in Hset, Hcall; apply Forall_cons in Hcall as [Hc _].
  - destruct Hset as [Hset _]. destruct (Hrun q Hset Hc Hq) as (new & s' & Hs).
    apply (Hno' (Own <$> new) (n, s')). by apply (st_own takes q n s new s').
  - destruct Hset as [Hset Hh].
    assert (tell_call q = None) as Hq by by destruct q.
    destruct (Hrun q Hset Hc Hq) as (new & s' & Hs).
    assert (new = [] \/ exists q', new = [q']) as [->|[q' ->]].
    { destruct Hs; try case_match; eauto. }
    + apply (Hno' [Tcp P_lock] (n, s')). by apply (st_back_ends takes q n s s').
    + apply (Hno' [Back q'] (n, s')). by apply (st_back takes q q' n s s').
Qed.

(** ** The end *)

Definition weight q : nat :=
  match q with
  | B_app _ _ => 5 | B_signal _ => 4 | B_key_app => 3 | B_key_signal _ => 2 | B_send _ => 1
  | I_decode _ => 3 | I_callback _ => 2 | I_call _ => 1
  | B_init _ | O_func _ | X_client => 1
  end.

Lemma tell_sn o c :
  rtc (step takes) (new_subscriber o) c -> over (client_of c) -> sn (run (Owners.statement takes)) c.
Proof.
  intros Hr Ho. apply (owner_sn takes weight 3); try done.
  - intros q s new s' Hs. destruct Hs; simpl; repeat case_match; simpl; lia.
  - intros q c'. destruct q; simpl; intros; simplify_eq; lia.
  - intros q s. simpl. lia.
  - intros q s. simpl. lia.
  - by eapply reach_readers.
Qed.

End lemmas.

(** ** What goes out *)

Section wire.
Context {U W : Type} (app : U -> pystr -> W -> W) (direct : list op -> Prop).
Implicit Types (s : shared U W) (q : thread U).

(** The identifiers the subscriber has or had. *)
Definition had_app s (a : pystr) : Prop := a ∈ appID (object s) :: old_apps s.
Definition had_signal s (i : pystr) : Prop := i ∈ signalID (object s) :: old_signals s.

(** A heartbeat, the registration of such identifiers, or a direct send. *)
Definition registration s (b : bytes) : Prop :=
  b = HEARTBEAT \/ (exists a i, had_app s a /\ had_signal s i /\ key_bytes a i = Some b) \/
  exists todo, direct todo /\ Send b ∈ todo.

Definition knows s q : Prop :=
  match q with
  | B_key_signal a => had_app s a
  | B_send b => registration s b
  | _ => True
  end.

Definition grows s s' : Prop :=
  (forall a, had_app s a -> had_app s' a) /\ (forall i, had_signal s i -> had_signal s' i).

Lemma registration_grows s s' b : grows s s' -> registration s b -> registration s' b.
Proof.
  intros [Ha Hi] [->|[(a & i & ? & ? & ?)|?]]; [by left| |by right; right].
  right. left. exists a, i. auto.
Qed.

Lemma tell_knows_grows s s' q : grows s s' -> knows s q -> knows s' q.
Proof. intros Hg. destruct q; simpl; try done; [apply Hg|by apply registration_grows]. Qed.

Lemma tell_knows q s new s' :
  statement app q s new s' -> knows s q -> grows s s' /\ Forall (knows s') new.
Proof.
  unfold grows, had_app, had_signal.
  intros Hs Hq. destruct Hs; simpl in *; try (by split; [|repeat case_match; repeat constructor]).
  - split; [|by repeat constructor]. split; [|done]. intros b Hb. by apply list_elem_of_further.
  - split; [|by repeat constructor]. split; [done|]. intros b Hb. by apply list_elem_of_further.
  - split; [done|]. destruct (key_bytes a (signalID (object s))) as [b|] eqn:E; [|done].
    constructor; [|done]. right. left. exists a, (signalID (object s)).
    split_and!; [done|apply list_elem_of_here|done].
Qed.

Lemma subscriber_written (o : subscriber U W) c :
  rtc (@step _ _ (subscriber_owner app direct) all_bytes) (new_subscriber o) c ->
  frames_of registration c.1.2 (wire c.1.1).
Proof.
  intros Hr. refine (@written _ _ (subscriber_owner app direct) registration knows grows (fun _ => True)
    _ _ _ _ _ _ _ _ _ _ _ _ _ _ _ _ _ _ Hr); try done.
  - by left.
  - apply registration_grows.
  - apply tell_knows_grows.
  - intros b q s new s' Hs _. by apply tell_knows.
  - intros qs q s [_ Hq]. by destruct q.
  - intros q s c' Hq. destruct q; intros [= <-]; done.
  - intros todo s Htodo. apply Forall_forall. intros [] Hin; try done. right. right. by exists todo.
  - constructor; [done|]. destruct (key_bytes (appID o) (signalID o)) as [b|] eqn:E; [|done].
    constructor; [|done]. right. left. exists (appID o), (signalID o).
    split_and!; [apply list_elem_of_here..|done].
Qed.

End wire.

(** ** The properties *)

Section properties.
Context {U W : Type} (app : U -> pystr -> W -> W) (direct : list op -> Prop)
  (takes : bytes -> nat -> Prop).

(** A step of the program, and a statement of one of its threads. *)
Definition system_step := @step (thread U) (shared U W) (subscriber_owner app direct) takes.
Definition system_run := run (@Owners.statement (thread U) (shared U W) (subscriber_owner app direct) takes).

End properties.

(** C5: The application is told the signals in order. In every interleaving of the
    whole program: the messages that parsing finds in the bytes the socket has
    given are those that came before [data_recv] was installed, those that were
    handed to it, and those still to be handed on, in this order. The texts of
    those handed to it are those that found no callback, then those the callbacks
    were called with, then the one a thread has in hand, if any: each is told
    exactly once and in order, but for those skipped before the application
    listened; once a callback is set, as in the earlier configuration [s1], no
    further text is skipped. The state of the application is what these calls, one
    after the other, make of it. *)
Theorem signals_told {U W : Type} (app : U -> pystr -> W -> W) (direct : list op -> Prop)
    (takes : bytes -> nat -> Prop)
    (o : subscriber U W) (n1 n : TcpStatements.shared) (s1 s : shared U W)
    (xs1 xs : list (Owners.thread (thread U))) :
  rtc (system_step app direct takes) (new_subscriber o) ((n1, s1), xs1) ->
  rtc (system_step app direct takes) ((n1, s1), xs1) ((n, s), xs) ->
  (exists later, payloads (p_msgs (parse (received (reading n)))) =
     missed (reading n) ++ called (reading n) ++ later) /\
  map utf8_decode_replace (called (reading n)) =
    skipped s ++ map snd (told s) ++ threads_of hand xs /\
  (length (threads_of hand xs) <= 1)%nat /\
  (is_Some (SignalSubscriber.callback (object s1)) -> skipped s = skipped s1) /\
  world (object s) = fold_left (fun w '(c, x) => app c x w) (told s) (world o).
Proof.
  intros Hr1 Hr2. assert (rtc (system_step app direct takes) (new_subscriber o) ((n, s), xs)) as Hr
    by by etrans.
  destruct (reach_whole app direct takes o _ Hr) as (Hset & Hone & Ha & Hl & Hw).
  pose proof (tell_arrived app direct takes o _ Hr) as Harr. simpl in *. split_and!; [| | | |done].
  - destruct (tcp_reach (owner:=subscriber_owner app direct) takes _ _ _ _ Hr) as (ts & Ht & _).
    by eapply called_in_order.
  - by rewrite <- Harr.
  - etrans; [by apply hand_readers|]. unfold readers_one in Hone. simpl in Hone. lia.
  - intros Hc. by apply (reach_listening app direct takes _ _ Hr2).
Qed.

(** C15: What a subscriber puts on the wire, under every interleaving. When [sendall]
    hands all its bytes over at once, the wire holds whole frames, and each is a
    heartbeat, a registration, of an application identifier that the subscriber has
    or had and a signal identifier that it has or had, or what the application sent
    through the client itself. *)
Theorem registrations_on_the_wire {U W : Type} (app : U -> pystr -> W -> W) (direct : list op -> Prop)
    (o : subscriber U W) (n : TcpStatements.shared) (s : shared U W)
    (xs : list (Owners.thread (thread U))) :
  rtc (system_step app direct all_bytes) (new_subscriber o) ((n, s), xs) ->
  exists ms, frames ms = Some (wire n) /\
    forall m, m ∈ ms -> m = HEARTBEAT \/
      (exists a i, had_app s a /\ had_signal s i /\ key_bytes a i = Some m) \/
      (exists todo, direct todo /\ Send m ∈ todo).
Proof.
  intros Hr. destruct (subscriber_written app direct o _ Hr) as (ms & Hf & _ & Hms).
  exists ms. split; [exact Hf|]. intros m Hm. by apply (proj1 (Forall_forall _ _) Hms m Hm).
Qed.

(** The program has no deadlock, and ends when it is disconnected: when no
    thread can run any more, none is left; and when the client is disconnected, its
    socket closed and nobody is just connecting it, there is no infinite run of the
    threads, in whatever order they take turns, unless new calls are made. *)
Theorem subscriber_system_ends {U W : Type} (app : U -> pystr -> W -> W) (direct : list op -> Prop)
    (takes : bytes -> nat -> Prop) (o : subscriber U W) (n : TcpStatements.shared)
    (s : shared U W) (xs : list (Owners.thread (thread U))) :
  rtc (system_step app direct takes) (new_subscriber o) ((n, s), xs) ->
  ((forall c', ~ system_run app direct takes ((n, s), xs) c') -> xs = []) /\
  (connected n = false -> sock n = Closed -> Forall (fun t => arming t = false) (flat_map tcp_of xs) ->
   sn (system_run app direct takes) ((n, s), xs)).
Proof.
  intros Hr. split; [by apply (tell_stuck app direct takes o)|].
  intros Hc Hk Ha. by apply (tell_sn app direct takes o).
Qed.

(** ** Witnesses *)

Definition ex_app (_ : unit) (x : pystr) (w : list pystr) : list pystr := w ++ [x].

Definition ex_new : subscriber unit (list pystr) :=
  Subscriber _ _ (str_of "a") (str_of "b") None (TcpClient.__init__ true None) [].

Definition ex_chunk : bytes :=
  MAGIC ++ [x00; x00; x00; x02] ++ bytes_of "Hi" ++ MAGIC ++ [x00; x00; x00; x02] ++ bytes_of "Yo".

Ltac call_ t := eapply goes_on; [eapply (step_start _ t); by repeat split|reflexivity|].
Ltac plain c := eapply st_own; [reflexivity|rule_of c].
Ltac in_callback c := eapply st_back; [reflexivity|rule_of c].

(** Two signals arrive; the application sets its callback after the first. *)
Lemma ex_told : exists n1 s1 xs1 n s,
  rtc (system_step ex_app (Forall no_send) all_bytes) (new_subscriber ex_new) ((n1, s1), xs1) /\
  rtc (system_step ex_app (Forall no_send) all_bytes) ((n1, s1), xs1) ((n, s), [Tcp P_lock]) /\
  SignalSubscriber.callback (object s1) = Some tt /\ skipped s1 = [str_of "Hi"] /\
  told s = [(tt, str_of "Yo")] /\ wire n = MAGIC ++ [x00; x00; x00; x03] ++ bytes_of "a-b" /\
  received (reading n) = ex_chunk.
Proof.
  eexists _, _, _, _, _. split.
  { unfold system_step, new_subscriber, constructing, fresh, ex_new.
    sys 0%nat ltac:(in_ st_c_connect).
    sys 0%nat ltac:(in_ st_c_flag).
    sys 0%nat ltac:(in_ st_hb_rearm).
    sys 0%nat ltac:(in_ st_hb_create).
    sys 0%nat ltac:(in_ st_hb_daemon).
    sys 0%nat ltac:(in_ st_hb_start).
    sys 0%nat ltac:(eapply (st_in_starts _ _ _ R_test (O_install [Send (bytes_of "a-b")])); [reflexivity..|];
      exact (st_c_thread all_bytes [Install; Send (bytes_of "a-b")] _)).
    sys 1%nat ltac:(in_ st_o_install).
    sys 1%nat ltac:(in_ st_w_test).
    sys 1%nat ltac:(in_ st_w_send).
    sys 1%nat ltac:(ret (st_w_done all_bytes (From_call []))).
    sys 0%nat ltac:(tcp st_r_test).
    sys 0%nat ltac:(tcp st_r_recv).
    sys 0%nat ltac:(tcp (st_r_blocked all_bytes ex_chunk)).
    sys 0%nat ltac:(tcp st_r_chunk).
    sys 0%nat ltac:(tcp st_r_lock).
    sys 0%nat ltac:(tcp st_r_append).
    sys 0%nat ltac:(tcp st_p_lock).
    sys 0%nat ltac:(tcp st_p_got).
    sys 0%nat ltac:(tcp st_p_msg).
    sys 0%nat ltac:(tcp st_p_handle).
    sys 0%nat ltac:(apply st_callback).
    sys 0%nat ltac:(in_callback (st_i_decode ex_app)).
    sys 0%nat ltac:(eapply st_back_ends; [reflexivity|rule_of (st_i_callback_none ex_app)]).
    call_ (O_func tt).
    sys 0%nat ltac:(plain (st_o_func ex_app)).
    apply rtc_refl. }
  split.
  { unfold system_step.
    sys 0%nat ltac:(tcp st_p_lock).
    sys 0%nat ltac:(tcp st_p_got).
    sys 0%nat ltac:(tcp st_p_msg).
    sys 0%nat ltac:(tcp st_p_handle).
    sys 0%nat ltac:(apply st_callback).
    sys 0%nat ltac:(in_callback (st_i_decode ex_app)).
    sys 0%nat ltac:(in_callback (st_i_callback ex_app)).
    sys 0%nat ltac:(eapply st_back_ends; [reflexivity|rule_of (st_i_call ex_app)]).
    apply rtc_refl. }
  by split_and!.
Qed.

Lemma signals_told_witness : exists n s,
  rtc (system_step ex_app (Forall no_send) all_bytes) (new_subscriber ex_new) ((n, s), [Tcp P_lock]) /\
  map utf8_decode_replace (called (reading n)) = [str_of "Hi"; str_of "Yo"] /\
  skipped s = [str_of "Hi"] /\ world (object s) = [str_of "Yo"].
Proof.
  destruct ex_told as (n1 & s1 & xs1 & n & s & Hr1 & Hr2 & Hc & Hk & Ht & _). exists n, s.
  split; [by etrans|].
  destruct (signals_told ex_app (Forall no_send) all_bytes ex_new n1 n s1 s xs1 _ Hr1 Hr2)
    as (_ & Hcalled & _ & Hskip & ->).
  rewrite Hcalled, Hskip, Hk, Ht by by eexists. by split_and!.
Defined.

Lemma registrations_on_the_wire_witness : exists n s ms,
  rtc (system_step ex_app (Forall no_send) all_bytes) (new_subscriber ex_new) ((n, s), [Tcp P_lock]) /\
  frames ms = Some (MAGIC ++ [x00; x00; x00; x03] ++ bytes_of "a-b").
Proof.
  destruct ex_told as (n1 & s1 & xs1 & n & s & Hr1 & Hr2 & _ & _ & _ & Hw & _).
  assert (rtc (system_step ex_app (Forall no_send) all_bytes) (new_subscriber ex_new) ((n, s), [Tcp P_lock])) as Hr
    by by etrans.
  destruct (registrations_on_the_wire ex_app (Forall no_send) ex_new n s _ Hr) as (ms & Hf & _).
  exists n, s, ms. split; [exact Hr|]. by rewrite <- Hw.
Defined.

Lemma subscriber_system_ends_witness : exists n s,
  rtc (system_step ex_app (Forall no_send) all_bytes) (new_subscriber ex_new) ((n, s), [Own (B_app [] [])]) /\
  sn (system_run ex_app (Forall no_send) all_bytes) ((n, s), [Own (B_app [] [])]).
Proof.
  assert (exists n s, rtc (system_step ex_app (Forall no_send) all_bytes) (new_subscriber ex_new) ((n, s), [Own (B_app [] [])]) /\
    connected n = false /\ sock n = Closed) as (n & s & Hr & Hc & Hk).
  { eexists _, _. split.
    { unfold system_step, new_subscriber, constructing, fresh, ex_new.
      sys 0%nat ltac:(in_ st_c_connect_fails).
      sys 0%nat ltac:(in_ st_o_install).
      sys 0%nat ltac:(ret (st_w_test_off all_bytes (From_call [])); reflexivity).
      call_ (X_client (U:=unit)).
      sys 0%nat enter.
      sys 0%nat ltac:(in_ st_d_flag).
      sys 0%nat ltac:(in_ st_d_test).
      sys 0%nat ltac:(ret (st_d_close all_bytes [])).
      call_ (B_app (U:=unit) [] []).
      apply rtc_refl. }
    by split. }
  exists n, s. split; [exact Hr|].
  destruct (subscriber_system_ends ex_app (Forall no_send) all_bytes ex_new n s _ Hr) as [_ H].
  apply H; [exact Hc|exact Hk|constructor].
Defined.
