(* ===== verification/EndToEnd.v ===== *)
(** * The two ends of a query, and of a signal

    Messages through the whole of both Python clients of one kind: framing, the
    receive loops on streams cut anywhere, the queue and the worker. What carries
    the messages from one client to the other is not in the repository and nothing
    is assumed of it: the theorems say what is sent at one end, and what happens
    at the other end for each stream that arrives there. *)

From S2P Require Import SignalSender SignalSubscriber OpenSocketQuerier OpenSocketResponser.

(** ** Lemmas *)

(** A body with the delimiter. *)
Definition joined (key data : bytes) : bytes := key ++ DELIM_BYTES ++ data.

Lemma joined_valid key data :
  len key + 3 + len data <= MAX_MSG_SIZE ->
  valid_body (joined key data) = true /\ joined key data <> HEARTBEAT_RESPONSE.
Proof.
  intros Hlen. split.
  - apply valid_body_intro; [by destruct key|]. unfold joined. rewrite !len_app.
    change (len DELIM_BYTES) with 3. lia.
  - intros E. assert (amp_byte ∈ HEARTBEAT_RESPONSE) as Hin.
    { rewrite <- E. unfold joined. rewrite !elem_of_app. right. left. apply list_elem_of_here. }
    revert Hin. by apply (bool_decide_unpack _).
Qed.

Lemma cut_joined key data : amp_byte ∉ key -> cut (joined key data) = Some (key, data).
Proof. apply cut_app. Qed.

(** Texts that fit with a key are bodies of their own. *)
Lemma bodies_valid (key : bytes) (bs : list bytes) :
  Forall (fun b => len key + 3 + len b <= MAX_MSG_SIZE) bs -> [] ∉ bs ->
  Forall (fun m => valid_body m = true) bs.
Proof.
  intros Hbs Hne. apply Forall_forall. intros b Hin. rewrite Forall_forall in Hbs.
  specialize (Hbs b Hin). apply valid_body_intro; [|pose proof (len_nonneg key); lia].
  intros ->. by apply Hne.
Qed.

(** A key without the delimiter. *)
Lemma key_fresh a i key :
  utf8_encode (a ++ DASH ++ i) = Some key -> amp ∉ a -> amp ∉ i -> amp_byte ∉ key.
Proof.
  intros Hkey Ha Hi. apply (amp_fresh _ _ Hkey). rewrite !not_elem_of_app. split_and!; [done| |done].
  by apply (bool_decide_unpack _).
Qed.

Section responser_end.
Context {U W : Type} (app : U -> pystr -> W -> option pystr * W).
Implicit Types s : responser U W.

(** One request, from its arrival at the responser to the answer on the wire. *)
Lemma request_round s c mark mt db d rb reply w chunks :
  live (KLresponser s) -> received_data_callback (KLresponser s) = Some tt ->
  buffer (KLresponser s) = [] -> recv_func s = Some c ->
  data_queue s = [] -> unfinished_tasks s = 0%nat ->
  amp_byte ∉ mark -> utf8_decode mark = Some mt ->
  utf8_encode d = Some db -> d <> [] -> len mark + 3 + len db <= MAX_MSG_SIZE ->
  app c d (OpenSocketResponser.world s) = (Some reply, w) ->
  utf8_encode reply = Some rb -> len mark + 3 + len rb <= MAX_MSG_SIZE ->
  Forall (fun c => c <> []) chunks -> frame (joined mark db) = Some (concat chunks) ->
  exists s1 x, frame (joined mark rb) = Some x /\
    @receive_data _ _ responser_host (chunk_events chunks) s = (Stuck, s1) /\
    _process_queue (app_user app) [ret tt] s1 =
      (Stuck, OpenSocketResponser.set_world w
                (set_KLresponser (more_sent x (KLresponser s)) s)).
Proof.
  intros Hl Hcb Hb Hf Hq Hu Hmark Hmt Hd Hdne Hlen Happ Hreply Hlen' Hne Hx.
  destruct (joined_valid mark db Hlen) as [Hv Hhb].
  destruct (joined_valid mark rb Hlen') as [Hv' _].
  destruct (frame_is_Some (joined mark rb)) as [x Hfx].
  { unfold valid_body in Hv'. bool_to_prop. done. }
  assert (accept (joined mark db) = Some (d, mt)) as Hacc.
  { unfold accept, joined. rewrite cut_app by done. rewrite Hmt, bool_decide_false.
    - by rewrite (utf8_decode_replace_encode _ _ Hd).
    - intros ->. by apply utf8_decode_encode in Hd as [= <-]. }
  assert (reply_body reply mt = Some (joined mark rb)) as Hbody.
  { unfold reply_body. rewrite utf8_encode_app, utf8_encode_DELIM, (utf8_encode_decode _ _ Hmt).
    rewrite Hreply, <- app_assoc. unfold valid_body in Hv'. bool_to_prop.
    by rewrite (proj2 (Z.leb_le _ _)). }
  pose proof (@receive_data_frames _ _ responser_host responser_quiet [joined mark db] chunks s
    Hne (proj1 Hl) (proj1 (proj2 Hl)) Hb) as Hr.
  change (@client _ _ responser_host s) with (KLresponser s) in Hr.
  rewrite Hcb, payloads_all, deliver_all_requests, Hq, Hu in Hr
    by (by apply not_elem_of_cons; split; [done|apply not_elem_of_nil]).
  eexists _, x. split; [done|]. split.
  - apply Hr; [by repeat constructor|]. simpl. by rewrite Hx, app_nil_r.
  - cbn [omap list_omap]. rewrite Hacc.
    rewrite (process_queue_serves app [(d, mt)] c _ [joined mark rb] w x 0); try done.
    + f_equal. destruct s. simpl in *. by subst.
    + simpl. rewrite Happ, Hbody. done.
    + simpl. by rewrite Hfx, app_nil_r.
Qed.

End responser_end.

Section querier_end.
Context {U W : Type} (app : U -> pystr -> W -> W).
Implicit Types q : querier U W.

(** One query, from the request on the wire to the result, when the receive
    thread brings the answer. *)
Lemma query_round q d timeout others chunks body x m :
  live (KLquerier q) -> received_data_callback (KLquerier q) = Some tt ->
  buffer (KLquerier q) = [] ->
  request q d = Some body -> len body <= MAX_MSG_SIZE -> frame body = Some x ->
  Forall (fun c => c <> []) chunks -> frame m = Some (concat chunks) ->
  valid_body m = true -> m <> HEARTBEAT_RESPONSE ->
  exists q',
    query d timeout
      (@receive_data _ _ (quiet_querier_host app) (chunk_events chunks) :: others) [] q =
      (Ret (Some (utf8_decode_replace m)), q') /\
    wire (KLquerier q') = wire (KLquerier q) ++ x.
Proof.
  intros Hl Hcb Hb Hreq Hlen Hx Hne Hm Hv Hhb.
  unfold query, query_begin. unfold bind at 1, modify.
  set (q1 := set_query None false true false q).
  rewrite (bind_Ret _ _ _ _ _ (query_async_live d q1 body x Hl Hreq Hlen Hx)).
  set (q2 := set_KLquerier (more_sent x (KLquerier q1)) q1).
  pose proof (receive_reply app m chunks q2 Hne Hm Hv Hhb (proj1 Hl) eq_refl Hcb Hb
    eq_refl eq_refl) as Hr.
  eexists. split.
  - cbn [event_wait]. unfold bind at 1. unfold bind at 1, gets at 1. cbn [query_event q2].
    change (query_event q2) with false. cbv iota. unfold bind at 1, in_thread. rewrite Hr.
    destruct others; cbn [event_wait snd]; reflexivity.
  - done.
Qed.

End querier_end.

(** ** The properties *)

(** C6: The two ends of a query. A querier and a responser have the same
    identifiers, connections that do not break, and the responser's callback
    answers the text [d] with [reply].
    - [query d] puts one frame on the wire, whose body is the key the responser
      registered with, the delimiter and [d].
    - When [d] arrives at the responser behind any key, in UTF-8 and without
      ['&'], in chunks cut anywhere, it goes through the receive thread, the queue
      and the worker, and the responser puts one frame on the wire, whose body is
      that key, the delimiter and [reply]; nothing else of it changes but the
      callback's state.
    - When [reply] arrives at the querier, in chunks cut anywhere, while [query]
      waits, with or without a time limit, [query] returns [reply].
    A body with a delimiter is split by [cut] into what is before and after it. *)
Theorem query_answered {U W U' W' : Type} (app : U -> pystr -> W -> W)
    (app' : U' -> pystr -> W' -> option pystr * W')
    (q : querier U W) (s : responser U' W') c d reply key db rb w timeout others :
  live (KLquerier q) -> received_data_callback (KLquerier q) = Some tt ->
  buffer (KLquerier q) = [] ->
  live (KLresponser s) -> received_data_callback (KLresponser s) = Some tt ->
  buffer (KLresponser s) = [] -> recv_func s = Some c ->
  data_queue s = [] -> unfinished_tasks s = 0%nat ->
  OpenSocketQuerier.appID q = Some (appID s) ->
  OpenSocketQuerier.openSocketID q = Some (openSocketID s) ->
  amp ∉ appID s -> amp ∉ openSocketID s ->
  utf8_encode (appID s ++ DASH ++ openSocketID s) = Some key ->
  utf8_encode d = Some db -> d <> [] -> len key + 3 + len db <= MAX_MSG_SIZE ->
  app' c d (OpenSocketResponser.world s) = (Some reply, w) ->
  utf8_encode reply = Some rb ->
  exists x,
    frame (joined key db) = Some x /\ cut (joined key db) = Some (key, db) /\
    (forall mark chunks,
       amp_byte ∉ mark -> is_Some (utf8_decode mark) ->
       len mark + 3 + len db <= MAX_MSG_SIZE -> len mark + 3 + len rb <= MAX_MSG_SIZE ->
       Forall (fun c => c <> []) chunks -> frame (joined mark db) = Some (concat chunks) ->
       exists s1 ax,
         frame (joined mark rb) = Some ax /\ cut (joined mark rb) = Some (mark, rb) /\
         @receive_data _ _ responser_host (chunk_events chunks) s = (Stuck, s1) /\
         _process_queue (app_user app') [ret tt] s1 =
           (Stuck, OpenSocketResponser.set_world w
                     (set_KLresponser (more_sent ax (KLresponser s)) s))) /\
    (forall chunks,
       rb <> [] -> rb <> HEARTBEAT_RESPONSE -> len rb <= MAX_MSG_SIZE ->
       Forall (fun c => c <> []) chunks -> frame rb = Some (concat chunks) ->
       exists q',
         query d timeout
           (@receive_data _ _ (quiet_querier_host app) (chunk_events chunks) :: others) [] q =
           (Ret (Some reply), q') /\
         wire (KLquerier q') = wire (KLquerier q) ++ x).
Proof.
  intros Hlq Hcbq Hbq Hls Hcbs Hbs Hf Hq Hu Ha Hi Haa Hai Hkey Hd Hdne Hlen Happ Hreply.
  pose proof (key_fresh _ _ _ Hkey Haa Hai) as Hfresh.
  destruct (joined_valid key db Hlen) as [Hv _]. unfold valid_body in Hv. bool_to_prop.
  destruct (frame_is_Some (joined key db)) as [x Hx]; [done|].
  exists x. split; [done|]. split; [by apply cut_joined|]. split.
  - intros mark chunks Hmark [mt Hmt] Hml Hml' Hne Hch.
    destruct (request_round app' s c mark mt db d rb reply w chunks) as (s1 & ax & Hax & Hr & Hw);
      try done.
    exists s1, ax. split_and!; try done. by apply cut_joined.
  - intros chunks Hrne Hhb Hrl Hne Hch.
    assert (request q d = Some (joined key db)) as Hreq.
    { unfold request. rewrite Hd, Ha, Hi. by apply keyed_body_key. }
    destruct (query_round app q d timeout others chunks (joined key db) x rb) as (q' & Hqr & Hw);
      try done.
    { by apply valid_body_intro. }
    exists q'. rewrite (utf8_decode_replace_encode _ _ Hreply) in Hqr. done.
Qed.

(** Signals that are sent one after the other. *)
Lemma emit_all (s : sender) a i key ds bs :
  live (KLsender s) -> SignalSender.appID s = Some a -> SignalSender.signalID s = Some i ->
  utf8_encode (a ++ DASH ++ i) = Some key -> encode_all ds = Some bs ->
  Forall (fun b => len key + 3 + len b <= MAX_MSG_SIZE) bs ->
  exists x, frames (map (joined key) bs) = Some x /\
    seq_all (map (fun d => emitt (PyStr d)) ds) s =
      (Ret tt, set_KLsender (more_sent x (KLsender s)) s).
Proof.
  intros Hl Ha Hi Hkey. revert bs s Hl Ha Hi.
  induction ds as [|d ds IH]; intros bs s Hl Ha Hi; simpl.
  - intros E _. apply (inj Some) in E as <-. exists []. split; [done|].
    destruct Hl as (_ & Ho & Hr), s as [? ? [[] ? ? ? ? ? ? ? ?]]. simpl in *. subst.
    unfold more_sent, TcpClient.set_socket. simpl. by rewrite app_nil_r.
  - destruct (utf8_encode d) as [b|] eqn:Ed; [|done].
    destruct (encode_all ds) as [bs'|]; [|done]. intros E. apply (inj Some) in E as <-.
    intros [Hlen Hbs]%Forall_cons. simpl.
    assert (len (joined key b) <= MAX_MSG_SIZE) as Hmax
      by (unfold joined; rewrite !len_app; change (len DELIM_BYTES) with 3; lia).
    destruct (frame_is_Some (joined key b) Hmax) as [y Hy].
    assert (emitt (PyStr d) s = (Ret tt, set_KLsender (more_sent y (KLsender s)) s)) as He.
    { rewrite emitt_str, Ed, emitt_bytes, Ha, Hi, (keyed_body_key a i key b Hkey).
      unfold on_sender, zoom. by rewrite (send_data_frame _ (joined key b) y). }
    destruct (IH bs' (set_KLsender (more_sent y (KLsender s)) s)
      (live_more_sent y _ Hl) Ha Hi eq_refl Hbs) as (z & Hz & Hrun).
    exists (y ++ z). rewrite Hy, Hz. split; [done|]. rewrite (bind_Ret _ _ _ _ _ He), Hrun.
    simpl. by rewrite <- more_sent_twice.
Qed.

(** C7: The two ends of signals. Texts that are emitted one after the other by a
    sender go out as one frame each, in this order, and the body of each is the
    key a subscriber with the same identifiers registers with, the delimiter and
    the text. When these texts, none of them empty or ["heartbeat_response"],
    arrive at the subscriber in this order, in chunks cut anywhere, its callback
    is called with exactly these texts, each once and in this order, and nothing
    else of the subscriber changes. *)
Theorem signals_delivered {U W : Type} (app : U -> pystr -> W -> W)
    (s : sender) (u : subscriber U W) c (ds : list pystr) (bs : list bytes) key :
  live (KLsender s) -> SignalSender.appID s = Some (SignalSubscriber.appID u) ->
  SignalSender.signalID s = Some (SignalSubscriber.signalID u) ->
  amp ∉ SignalSubscriber.appID u -> amp ∉ SignalSubscriber.signalID u ->
  utf8_encode (SignalSubscriber.appID u ++ DASH ++ SignalSubscriber.signalID u) = Some key ->
  live (KLsubscriber u) ->
  received_data_callback (KLsubscriber u) = Some tt -> buffer (KLsubscriber u) = [] ->
  SignalSubscriber.callback u = Some c ->
  encode_all ds = Some bs ->
  Forall (fun b => len key + 3 + len b <= MAX_MSG_SIZE) bs ->
  exists bodies x s',
    frames bodies = Some x /\ map cut bodies = map (fun b => Some (key, b)) bs /\
    seq_all (map (fun d => emitt (PyStr d)) ds) s = (Ret tt, s') /\
    wire (KLsender s') = wire (KLsender s) ++ x /\
    forall chunks,
      [] ∉ bs -> str_of "heartbeat_response" ∉ ds ->
      Forall (fun c => c <> []) chunks -> frames bs = Some (concat chunks) ->
      @receive_data _ _ (SignalSubscriber.quiet_host app) (chunk_events chunks) u =
        (Stuck, SignalSubscriber.set_world
                  (fold_left (fun w d => app c d w) ds (SignalSubscriber.world u)) u).
Proof.
  intros Hls Ha Hi Haa Hai Hkey Hlu Hcb Hb Hc Hds Hbs.
  pose proof (key_fresh _ _ _ Hkey Haa Hai) as Hfresh.
  destruct (emit_all s _ _ key ds bs Hls Ha Hi Hkey Hds Hbs) as (x & Hx & Hrun).
  exists (map (joined key) bs), x, (set_KLsender (more_sent x (KLsender s)) s).
  split; [done|]. split; [|split; [done|]; split; [done|]].
  - rewrite map_map. apply map_ext. intros b. by apply cut_joined.
  - intros chunks Hbne Hhb Hne Hch.
    apply (texts_delivered app u c ds bs chunks); try done; try apply Hlu.
    by apply (bodies_valid key).
Qed.

(** ** Witnesses *)

Definition ex_responser_end : responser unit nat :=
  snd (set_RecvFunc tt
    (snd (OpenSocketResponser.__init__ (str_of "app") (str_of "sock") true None 0%nat))).

Definition ex_receiver (text : pystr) : M (querier unit (list pystr)) unit :=
  @receive_data _ _ (quiet_querier_host OpenSocketQuerier.ex_app)
    (chunk_events (match utf8_encode text with
                   | Some b => match frame b with Some x => [x] | None => [] end
                   | None => []
                   end)).

Definition ex_marked : bytes := bytes_of "17&*&ping".

Lemma query_answered_witness :
  (exists q', query (str_of "ping") None [ex_receiver (str_of "Echo: ping")] []
      OpenSocketQuerier.ex_querier = (Ret (Some (str_of "Echo: ping")), q')) /\
  (exists s1 s2 ax,
    @receive_data _ _ responser_host
      (chunk_events [MAGIC ++ [x00; x00; x00]; [x09] ++ ex_marked]) ex_responser_end = (Stuck, s1) /\
    _process_queue (app_user OpenSocketResponser.ex_app) [ret tt] s1 = (Stuck, s2) /\
    frame (bytes_of "17&*&Echo: ping") = Some ax /\
    wire (KLresponser s2) = wire (KLresponser ex_responser_end) ++ ax).
Proof.
  destruct (query_answered OpenSocketQuerier.ex_app OpenSocketResponser.ex_app
    OpenSocketQuerier.ex_querier ex_responser_end tt (str_of "ping") (str_of "Echo: ping")
    (bytes_of "app-sock") (bytes_of "ping") (bytes_of "Echo: ping") 1%nat None [])
    as (x & _ & _ & Hs & Hq);
    [first [vm_compute; reflexivity | discriminate | by split_and!
           | apply (bool_decide_unpack _); vm_compute; exact I] ..|].
  split.
  - destruct (Hq [MAGIC ++ [x00; x00; x00; x0a] ++ bytes_of "Echo: ping"])
      as (q' & Hr & _); try discriminate; [by repeat constructor|vm_compute; reflexivity|].
    exists q'. vm_compute in Hr. vm_compute. exact Hr.
  - destruct (Hs (bytes_of "17") [MAGIC ++ [x00; x00; x00]; [x09] ++ ex_marked])
      as (s1 & ax & Hax & _ & Hr & Hw); try discriminate;
      [apply (bool_decide_unpack _); vm_compute; exact I|eexists; vm_compute; reflexivity
      |by repeat constructor|vm_compute; reflexivity|].
    exists s1. eexists. exists ax. split; [exact Hr|]. split; [exact Hw|]. split; [exact Hax|].
    reflexivity.
Defined.

Definition ex_subscriber_end : subscriber unit (list pystr) := SignalSubscriber.ex_subscriber.

Lemma signals_delivered_witness :
  @receive_data _ _ (SignalSubscriber.quiet_host SignalSubscriber.ex_app)
    (chunk_events [MAGIC ++ [x00; x00; x00; x01; x41] ++ MAGIC; [x00; x00; x00; x02; xc3; xa9]])
    ex_subscriber_end =
  (Stuck, SignalSubscriber.set_world [str_of "A"; [233]] ex_subscriber_end).
Proof.
  destruct (signals_delivered SignalSubscriber.ex_app SignalSender.ex_sender ex_subscriber_end tt
    [str_of "A"; [233]] [[x41]; [xc3; xa9]] (bytes_of "app.knotlinksdk.test-test_signal"))
    as (bodies & x & s' & _ & _ & _ & _ & Hr);
    [by split_and!|reflexivity|reflexivity| | |vm_compute; reflexivity|by split_and!
    |reflexivity|reflexivity|reflexivity|vm_compute; reflexivity| |].
  - apply (bool_decide_unpack _). vm_compute. exact I.
  - apply (bool_decide_unpack _). vm_compute. exact I.
  - repeat constructor; discriminate.
  - apply Hr; [apply (bool_decide_unpack _); vm_compute; exact I
              |apply (bool_decide_unpack _); vm_compute; exact I
              |by repeat constructor|vm_compute; reflexivity].
Defined.
