(* ===== verification/QtEndToEnd.v ===== *)
(** * The two ends of a query, and of a signal, of the PyQt package

    As EndToEnd.v, for the clients of the PyQt package: the texts one client
    emits, and what the slots of another are called with when such texts arrive;
    the request of [query_l], the slots of the responser when a request arrives,
    the frame of [sendBack], and the result of [query_l] when an answer arrives.
    Nothing is assumed of what carries the messages between them. *)

From S2P Require Import EndToEnd.
From S2P Require Import QtSignalSender QtSignalSubscriber QtOpenSocketResponser QtOpenSocketQuerier.

(** ** Lemmas: signals *)

Section sender_end.
Context {Q T : Type} `{QtLaws Q T}.
Implicit Types s : QtSignalSender.sender Q T.

(** A connected socket that takes what it is handed gets one frame more. *)
Lemma sendData_frame {St H'} `{QuietQt Q T St H'} (s : St) data x :
  takes_all (Q:=Q) (T:=T) -> state (tcpSocket (client s)) = ConnectedState ->
  len data <= MAX_MSG_SIZE -> frame data = Some x ->
  exists s' : St, sendData data s = (Ret tt, s') /\
    s' = set_client (set_tcpSocket (write x (tcpSocket (client s))).2 (client s)) s /\
    written (tcpSocket (client s')) = written (tcpSocket (client s)) ++ x /\
    state (tcpSocket (client s')) = ConnectedState.
Proof.
  intros Hall Hst Hlen Hx. rewrite sendData_eq, write_eq, bool_decide_true by done.
  rewrite Hx, (proj2 (Z.leb_le (len data) MAX_MSG_SIZE)) by done.
  eexists. split; [done|]. split; [done|]. simpl. rewrite client_set_client. simpl.
  rewrite take_all_written by auto. by rewrite state_write.
Qed.

(** Signals that are sent one after the other. *)
Lemma qt_emit_all s a i key ds bs :
  takes_all (Q:=Q) (T:=T) -> state (tcpSocket (KLsender s)) = ConnectedState ->
  QtSignalSender.appID s = Some a -> QtSignalSender.signalID s = Some i ->
  utf8_encode (a ++ DASH ++ i) = Some key -> encode_all ds = Some bs ->
  Forall (fun b => len key + 3 + len b <= MAX_MSG_SIZE) bs ->
  exists x s', frames (map (joined key) bs) = Some x /\
    seq_all (map (fun d => emitt (PyStr d)) ds) s = (Ret tt, s') /\
    written (tcpSocket (KLsender s')) = written (tcpSocket (KLsender s)) ++ x.
Proof.
  intros Hall Hst Ha Hi Hkey. revert bs s Hst Ha Hi.
  induction ds as [|d ds IH]; intros bs s Hst Ha Hi; simpl.
  - intros E _. apply (inj Some) in E as <-. exists [], s. by rewrite app_nil_r.
  - destruct (utf8_encode d) as [b|] eqn:Ed; [|done].
    destruct (encode_all ds) as [bs'|]; [|done]. intros E. apply (inj Some) in E as <-.
    intros [Hlen Hbs]%Forall_cons. simpl.
    assert (len (joined key b) <= MAX_MSG_SIZE) as Hmax
      by (unfold joined; rewrite !len_app; change (len DELIM_BYTES) with 3; lia).
    destruct (frame_is_Some (joined key b) Hmax) as [y Hy].
    destruct (@sendData_frame _ _ sender_host sender_quiet s (joined key b) y Hall Hst Hmax Hy) as (s1 & Hs1 & Es1 & Hw1 & Hst1).
    assert (emitt (PyStr d) s = (Ret tt, s1)) as He
      by by rewrite qt_emitt_str, Ed, Ha, Hi, (keyed_body_key a i key b Hkey).
    destruct (IH bs' s1 Hst1) as (z & s2 & Hz & Hrun & Hw2);
      [by rewrite Es1|by rewrite Es1|done|done|].
    exists (y ++ z), s2. rewrite Hy, Hz. split; [done|].
    rewrite (bind_Ret _ _ _ _ _ He), Hrun. split; [done|]. rewrite Hw2.
    change (written (tcpSocket (KLsender s1))) with (written (tcpSocket (client s1))).
    by rewrite Hw1, <- app_assoc.
Qed.

End sender_end.

(** ** Lemmas: queries *)

(** A text behind a mark is a request with that mark. *)
Lemma request_of_marked mark mt d db :
  amp_byte ∉ mark -> utf8_decode mark = Some mt -> utf8_encode d = Some db ->
  find_sub DELIM d = None ->
  utf8_decode (joined mark db) = Some (mt ++ DELIM ++ d) /\
  request_of (mt ++ DELIM ++ d) = Some (d, mt).
Proof.
  intros Hmark Hmt Hd Hfresh.
  assert (utf8_encode (mt ++ DELIM ++ d) = Some (joined mark db)) as He
    by by rewrite !utf8_encode_app, (utf8_encode_decode _ _ Hmt), utf8_encode_DELIM, Hd.
  split; [by apply utf8_decode_encode|].
  pose proof (cut_text _ _ He) as Hc. unfold joined in Hc. rewrite cut_app in Hc by done.
  destruct (find_sub DELIM (mt ++ DELIM ++ d)) as [i|] eqn:Ei; [|done].
  destruct Hc as (kb & tb & E & Hk & Ht). injection E as <- <-.
  apply utf8_decode_encode in Hk, Ht. apply utf8_decode_encode in Hd.
  unfold request_of.
  rewrite (proj2 (split_two DELIM (mt ++ DELIM ++ d) mt d ltac:(done))); [done|].
  exists i. change (length DELIM) with 3%nat. split; [done|]. split; [congruence|]. split; [congruence|done].
Qed.

Section responser_end.
Context {Q T U W : Type} `{QtLaws Q T}.
Context (app : U -> pystr -> pystr -> W -> W) (app_a : U -> bytes -> pystr -> W -> W).
Implicit Types s : responser Q T U W.

#[local] Hint Extern 0 (QtHost _ _ _ _) =>
  exact (QtOpenSocketResponser.quiet_host app app_a) : typeclass_instances.
#[local] Hint Extern 0 (QuietQt _ _ _ _) =>
  exact (QtOpenSocketResponser.responser_quiet app app_a) : typeclass_instances.

(** One request, from its arrival to the slots of the application. *)
Lemma qt_request_arrives s mark mt d db fs chunks :
  receivedData (KLresponser s) = [tt] -> buffer (KLresponser s) = [] ->
  amp_byte ∉ mark -> utf8_decode mark = Some mt -> utf8_encode d = Some db ->
  find_sub DELIM d = None -> len mark + 3 + len db <= MAX_MSG_SIZE ->
  frame (joined mark db) = Some (concat chunks) -> Forall2 brings fs chunks ->
  exists s', seq_all (map readyRead fs) s = (Ret tt, s') /\
    QtOpenSocketResponser.world s' =
      QtOpenSocketResponser.world_after app app_a (sig_receivedData s) (sig_receivedData_a s)
        db d mt (QtOpenSocketResponser.world s) /\
    buffer (KLresponser s') = [] /\
    written (tcpSocket (KLresponser s')) = written (tcpSocket (KLresponser s)) /\
    state (tcpSocket (KLresponser s')) = state (tcpSocket (KLresponser s)).
Proof.
  intros Hsl Hb Hmark Hmt Hd Hfresh Hlen Hx Hfs.
  destruct (request_of_marked mark mt d db Hmark Hmt Hd Hfresh) as [Hdec Hreq].
  destruct (joined_valid mark db Hlen) as [Hv Hhb].
  assert (payloads [joined mark db] = [joined mark db]) as Hpay.
  { apply payloads_all. apply not_elem_of_cons. split; [done|apply not_elem_of_nil]. }
  destruct (readyReads_frames fs [joined mark db] chunks s) as (s' & Hs' & Hb' & _ & Hw & Hst & Hsee);
    [done|done|by repeat constructor|simpl; by rewrite Hx, app_nil_r| |].
  { rewrite Hpay. constructor; [|done]. simpl. unfold fine_request.
    rewrite Hdec, Hreq. by exists db. }
  exists s'. split; [done|]. rewrite Hpay in Hsee.
  specialize (Hsee _ (fun s => (sig_receivedData s, sig_receivedData_a s, QtOpenSocketResponser.world s)) (fun a _ m =>
    match utf8_decode m with
    | Some text =>
      match request_of text with
      | Some (t, key) =>
        match utf8_encode t with
        | Some bs => (a.1, QtOpenSocketResponser.world_after app app_a a.1.1 a.1.2 bs t key a.2)
        | None => a
        end
      | None => a
      end
    | None => a
    end)).
  change (client s) with (KLresponser s) in Hsee. rewrite Hsl in Hsee.
  assert ((sig_receivedData s', sig_receivedData_a s', QtOpenSocketResponser.world s') =
    (sig_receivedData s, sig_receivedData_a s,
     QtOpenSocketResponser.world_after app app_a (sig_receivedData s) (sig_receivedData_a s)
        db d mt (QtOpenSocketResponser.world s))) as E.
  { rewrite Hsee; [|done|done|].
    - unfold see_all. simpl. by rewrite Hdec, Hreq, Hd.
    - intros h m s0. simpl. unfold deliver_request. destruct (utf8_decode m) as [z|]; [|done].
      destruct (request_of z) as [[t key]|]; [|done]. by destruct (utf8_encode t). }
  by injection E.
Qed.

(** The answer, when the application sends it. *)
Lemma qt_sendBack_frame s mark mt reply rb :
  takes_all (Q:=Q) (T:=T) -> state (tcpSocket (KLresponser s)) = ConnectedState ->
  utf8_decode mark = Some mt -> utf8_encode reply = Some rb ->
  len mark + 3 + len rb <= MAX_MSG_SIZE ->
  exists x s', frame (joined mark rb) = Some x /\
    sendBack (QtOpenSocketResponser.quiet_user app) (QtOpenSocketResponser.quiet_user_a app_a)
      reply mt s = (Ret tt, s') /\
    written (tcpSocket (KLresponser s')) = written (tcpSocket (KLresponser s)) ++ x.
Proof.
  intros Hall Hst Hmt Hreply Hlen.
  destruct (frame_is_Some (joined mark rb)) as [x Hx].
  { unfold joined. rewrite !len_app. change (len DELIM_BYTES) with 3. lia. }
  destruct (@sendData_frame _ _ _ _ _ _ (QtOpenSocketResponser.quiet_host app app_a)
    (responser_quiet app app_a) s (joined mark rb) x Hall Hst) as (s' & Hs' & _ & Hw & _); [|done|].
  { unfold joined. rewrite !len_app. change (len DELIM_BYTES) with 3. lia. }
  exists x, s'. split; [done|]. split; [|done]. rewrite qt_sendBack_eq.
  rewrite utf8_encode_app, (utf8_encode_decode _ _ Hmt), utf8_encode_DELIM, Hreply.
  by rewrite <- app_assoc.
Qed.

End responser_end.

Section querier_end.
Context {Q T U W : Type} `{QtLaws Q T}.
Context (app : U -> pystr -> W -> W) (app_a : U -> bytes -> W -> W).
Implicit Types q : querier Q T U W.

(** One [query_l], from the request to the result. *)
Lemma qt_query_round q d body x m text fs chunks evs :
  takes_all (Q:=Q) (T:=T) ->
  receivedData (KLquerier q) = [DataRecv] -> buffer (KLquerier q) = [] ->
  state (tcpSocket (KLquerier q)) = ConnectedState ->
  request q d = Some body -> len body <= MAX_MSG_SIZE -> frame body = Some x ->
  valid_body m = true -> m <> HEARTBEAT_RESPONSE -> utf8_decode m = Some text ->
  frame m = Some (concat chunks) -> Forall2 brings fs chunks ->
  exists q',
    query_l (quiet_user app) (quiet_user_a app_a) d
      (map (@readyRead _ _ _ _ _ (quiet_host app app_a)) fs ++ evs) q = (Ret text, q') /\
    world q' = world q /\ lock q' = false /\ receivedData (KLquerier q') = [DataRecv] /\
    written (tcpSocket (KLquerier q')) = written (tcpSocket (KLquerier q)) ++ x.
Proof.
  intros Hall Hsl Hb Hst Hbody Hlen Hx Hv Hhb Htext Hm Hfs.
  assert (exists fs0 f cs c, fs = fs0 ++ [f] /\ chunks = cs ++ [c] /\
    Forall2 brings fs0 cs /\ brings f c) as (fs0 & f & cs & c & -> & -> & Hfs0 & Hf).
  { destruct (exists_last (l := chunks)) as (cs & c & ->).
    { intros ->. apply len_frame in Hm. pose proof (len_nonneg m).
      change (len (concat [])) with 0 in Hm. unfold HEADER_LEN, MAGIC_LEN in Hm.
      rewrite len_MAGIC in Hm. lia. }
    apply Forall2_app_inv_r in Hfs as (fs0 & fs1 & H0' & H1 & ->).
    inversion H1 as [|f ? ? ? Hf Hnil]. subst. inversion Hnil. subst.
    by exists fs0, f, cs, c. }
  rewrite concat_app in Hm. cbn [concat] in Hm. rewrite app_nil_r in Hm.
  pose proof (next_frame_prefix m (concat cs) c Hv Hm (proj1 Hf)) as Hmore.
  destruct (qt_query_l_batch app app_a q d body x fs0 cs f c evs m [] text [])
    as (q' & Hq & Hw & Hl & Hsl' & _ & Hwr); try done.
  - by rewrite parse_unfold, Hmore.
  - simpl. by rewrite Hm, app_nil_r.
  - by repeat constructor.
  - apply not_elem_of_cons. split; [done|apply not_elem_of_nil].
  - by repeat constructor.
  - exists q'. rewrite map_app, <- app_assoc. split; [exact Hq|]. split_and!; [done..|].
    rewrite Hwr, Hall by done. by rewrite to_nat_len, firstn_all.
Qed.

End querier_end.

(** ** The properties *)

(** C19: The two ends of a query of the PyQt package. A PyQt querier and a PyQt
    responser have the same identifiers, on sockets that take everything.
    - [query_l d] hands one frame to its socket, whose body is the key the
      responser registers with, the delimiter and [d].
    - When [d], which must not hold the delimiter, arrives at the responser behind
      any key, in UTF-8 and without ['&'], in packets cut anywhere, the slots of
      the application are called with the text and that key, and [sendBack] of
      any answer with that key hands one frame to the socket, whose body is the
      key, the delimiter and the answer.
    - When [reply] arrives at the querier, in packets cut anywhere, while
      [query_l] waits, [query_l] returns it, whatever comes later, with the
      querier unlocked again and its slots not called.
    A body with a delimiter is split by [cut] into what is before and after it. *)
Theorem qt_query_answered {Q T U W U' W' : Type} `{QtLaws Q T}
    (app : U -> pystr -> W -> W) (app_a : U -> bytes -> W -> W)
    (app' : U' -> pystr -> pystr -> W' -> W') (app_a' : U' -> bytes -> pystr -> W' -> W')
    (q : querier Q T U W) (s : responser Q T U' W') d reply key db rb :
  takes_all (Q:=Q) (T:=T) ->
  receivedData (KLquerier q) = [DataRecv] -> buffer (KLquerier q) = [] ->
  state (tcpSocket (KLquerier q)) = ConnectedState ->
  receivedData (KLresponser s) = [tt] -> buffer (KLresponser s) = [] ->
  state (tcpSocket (KLresponser s)) = ConnectedState ->
  appID q = QtOpenSocketResponser.appID s ->
  openSocketID q = QtOpenSocketResponser.openSocketID s ->
  amp ∉ QtOpenSocketResponser.appID s -> amp ∉ QtOpenSocketResponser.openSocketID s ->
  utf8_encode (QtOpenSocketResponser.appID s ++ DASH ++ QtOpenSocketResponser.openSocketID s) =
    Some key ->
  utf8_encode d = Some db -> find_sub DELIM d = None -> len key + 3 + len db <= MAX_MSG_SIZE ->
  utf8_encode reply = Some rb ->
  exists x,
    frame (joined key db) = Some x /\ cut (joined key db) = Some (key, db) /\
    (forall mark questionID fs chunks,
       amp_byte ∉ mark -> utf8_decode mark = Some questionID ->
       len mark + 3 + len db <= MAX_MSG_SIZE -> len mark + 3 + len rb <= MAX_MSG_SIZE ->
       frame (joined mark db) = Some (concat chunks) -> Forall2 brings fs chunks ->
       exists s' s'' ax,
         frame (joined mark rb) = Some ax /\ cut (joined mark rb) = Some (mark, rb) /\
         seq_all (map (@readyRead _ _ _ _ _ (QtOpenSocketResponser.quiet_host app' app_a')) fs)
           s = (Ret tt, s') /\
         QtOpenSocketResponser.world s' =
           QtOpenSocketResponser.world_after app' app_a' (sig_receivedData s)
             (sig_receivedData_a s) db d questionID (QtOpenSocketResponser.world s) /\
         sendBack (QtOpenSocketResponser.quiet_user app')
           (QtOpenSocketResponser.quiet_user_a app_a') reply questionID s' = (Ret tt, s'') /\
         written (tcpSocket (KLresponser s'')) = written (tcpSocket (KLresponser s)) ++ ax) /\
    (forall fs chunks evs,
       rb <> [] -> rb <> HEARTBEAT_RESPONSE -> len rb <= MAX_MSG_SIZE ->
       frame rb = Some (concat chunks) -> Forall2 brings fs chunks ->
       exists q',
         query_l (quiet_user app) (quiet_user_a app_a) d
           (map (@readyRead _ _ _ _ _ (quiet_host app app_a)) fs ++ evs) q = (Ret reply, q') /\
         world q' = world q /\ lock q' = false /\ receivedData (KLquerier q') = [DataRecv] /\
         written (tcpSocket (KLquerier q')) = written (tcpSocket (KLquerier q)) ++ x).
Proof.
  intros Hall Hslq Hbq Hstq Hsls Hbs Hsts Ha Hi Haa Hai Hkey Hd Hfresh Hlen Hreply.
  pose proof (key_fresh _ _ _ Hkey Haa Hai) as Hamp.
  destruct (joined_valid key db Hlen) as [Hv _]. unfold valid_body in Hv. bool_to_prop.
  destruct (frame_is_Some (joined key db)) as [x Hx]; [done|].
  exists x. split; [done|]. split; [by apply cut_joined|]. split.
  - intros mark mt fs chunks Hmark Hmt Hml Hml' Hch Hfs.
    destruct (qt_request_arrives app' app_a' s mark mt d db fs chunks)
      as (s' & Hs' & Hw & _ & Hwr & Hst); try done.
    destruct (qt_sendBack_frame app' app_a' s' mark mt reply rb Hall) as (ax & s'' & Hax & Hb & Hw');
      try done; [by rewrite Hst|].
    exists s', s'', ax. rewrite Hw', Hwr. split_and!; try done. by apply cut_joined.
  - intros fs chunks evs Hrne Hhb Hrl Hch Hfs.
    apply (qt_query_round app app_a q d (joined key db) x rb reply fs chunks evs); try done.
    + unfold request. rewrite Hd, Ha, Hi. by apply keyed_body_key.
    + by apply valid_body_intro.
    + by apply utf8_decode_encode.
Qed.

(** C20: The two ends of signals of the PyQt package. Texts that a PyQt sender
    emits one after the other, on a socket that takes everything, go out as one
    frame each, in this order, and the body of each is the key a PyQt subscriber
    with the same identifiers registers with, the delimiter and the text. When
    these texts, none of them empty or ["heartbeat_response"], arrive at the
    subscriber in this order, in packets cut anywhere, its slots are called with
    exactly these texts, each once and in this order: first those of
    [received_data_a] with the bytes, then those of [received_data] with the text. *)
Theorem qt_signals_delivered {Q T U W : Type} `{QtLaws Q T}
    (app : U -> pystr -> W -> W) (app_a : U -> bytes -> W -> W)
    (s : sender Q T) (u : subscriber Q T U W) (ds : list pystr) (bs : list bytes) key :
  takes_all (Q:=Q) (T:=T) -> state (tcpSocket (KLsender s)) = ConnectedState ->
  QtSignalSender.appID s = Some (QtSignalSubscriber.appID u) ->
  QtSignalSender.signalID s = Some (QtSignalSubscriber.signalID u) ->
  amp ∉ QtSignalSubscriber.appID u -> amp ∉ QtSignalSubscriber.signalID u ->
  utf8_encode (QtSignalSubscriber.appID u ++ DASH ++ QtSignalSubscriber.signalID u) = Some key ->
  receivedData (KLsubscriber u) = [tt] -> buffer (KLsubscriber u) = [] ->
  encode_all ds = Some bs ->
  Forall (fun b => len key + 3 + len b <= MAX_MSG_SIZE) bs ->
  exists bodies x s',
    frames bodies = Some x /\ map cut bodies = map (fun b => Some (key, b)) bs /\
    seq_all (map (fun d => emitt (PyStr d)) ds) s = (Ret tt, s') /\
    written (tcpSocket (KLsender s')) = written (tcpSocket (KLsender s)) ++ x /\
    forall fs chunks,
      [] ∉ bs -> str_of "heartbeat_response" ∉ ds ->
      frames bs = Some (concat chunks) -> Forall2 brings fs chunks ->
      exists u',
        seq_all (map (@readyRead _ _ _ _ _ (QtSignalSubscriber.quiet_host app app_a)) fs) u =
          (Ret tt, u') /\
        QtSignalSubscriber.world u' =
          fold_left (fun w p =>
            QtSignalSubscriber.world_after app app_a (received_data u) (received_data_a u)
              p.1 p.2 w) (zip bs ds) (QtSignalSubscriber.world u).
Proof.
  intros Hall Hst Ha Hi Haa Hai Hkey Hsl Hb Hds Hbs.
  pose proof (key_fresh _ _ _ Hkey Haa Hai) as Hamp.
  destruct (qt_emit_all s _ _ key ds bs Hall Hst Ha Hi Hkey Hds Hbs) as (x & s' & Hx & Hrun & Hw).
  exists (map (joined key) bs), x, s'. split; [done|]. split; [|do 2 (split; [done|])].
  - rewrite map_map. apply map_ext. intros b. by apply cut_joined.
  - intros fs chunks Hbne Hhb Hch Hfs.
    destruct (qt_texts_delivered app app_a u ds bs chunks fs) as (u' & Hu & Hwu & _); try done.
    + by apply (bodies_valid key).
    + by exists u'.
Qed.

(** ** Witnesses *)

Lemma Paper_takes_all : takes_all (Q:=paper_socket) (T:=bool).
Proof. by intros d q _. Defined.

Definition ex_asked (c : nat) (t key : pystr) (w : list (nat * pystr)) : list (nat * pystr) :=
  w ++ [(c, key ++ t)].
Definition ex_asked_a (c : nat) (d : bytes) (key : pystr) (w : list (nat * pystr)) :
    list (nat * pystr) := w.

Definition ex_qt_responser : responser paper_socket bool nat (list (nat * pystr)) :=
  let s := (QtOpenSocketResponser.__init__
              (QtOpenSocketResponser.quiet_user ex_asked)
              (QtOpenSocketResponser.quiet_user_a ex_asked_a)
              (str_of "app") (str_of "sock") []).2 in
  Responser (QtOpenSocketResponser.appID s) (QtOpenSocketResponser.openSocketID s) [7%nat] []
    (KLresponser s) [].

(** The answer to a query, brought in two packets. *)
Definition ex_answer : list bytes := [MAGIC ++ [x00; x00; x00]; [x02; x68; x69]].

Definition ex_marked_packets : list bytes := [MAGIC ++ [x00; x00; x00]; [x09] ++ ex_marked].

Lemma qt_query_answered_witness :
  (exists q', query_l (quiet_user ex_slot) (quiet_user_a ex_slot_a) (str_of "ping")
      (map (@readyRead _ _ _ _ _ (quiet_host ex_slot ex_slot_a)) (map paper_bring ex_answer) ++ [])
      ex_querier = (Ret (str_of "hi"), q')) /\
  (exists s' s'' ax,
    seq_all (map (@readyRead _ _ _ _ _ (QtOpenSocketResponser.quiet_host ex_asked ex_asked_a))
      (map paper_bring ex_marked_packets)) ex_qt_responser = (Ret tt, s') /\
    QtOpenSocketResponser.world s' = [(7%nat, str_of "17ping")] /\
    sendBack (QtOpenSocketResponser.quiet_user ex_asked)
      (QtOpenSocketResponser.quiet_user_a ex_asked_a) (str_of "hi") (str_of "17") s' =
      (Ret tt, s'') /\
    frame (bytes_of "17&*&hi") = Some ax /\
    written (tcpSocket (KLresponser s'')) = written (tcpSocket (KLresponser ex_qt_responser)) ++ ax).
Proof.
  destruct (qt_query_answered ex_slot ex_slot_a ex_asked
    ex_asked_a ex_querier ex_qt_responser (str_of "ping") (str_of "hi")
    (bytes_of "app-sock") (bytes_of "ping") (bytes_of "hi"))
    as (x & _ & _ & Hs & Hq);
    [first [exact Paper_takes_all | vm_compute; reflexivity | discriminate
           | apply (bool_decide_unpack _); vm_compute; exact I] ..|].
  split.
  - destruct (Hq (map paper_bring ex_answer) ex_answer []) as (q' & Hr & _);
      [discriminate|discriminate|discriminate|vm_compute; reflexivity| |by exists q'].
    repeat constructor; discriminate.
  - destruct (Hs (bytes_of "17") (str_of "17") (map paper_bring ex_marked_packets)
      ex_marked_packets) as (s' & s'' & ax & Hax & _ & Hr & Hw & Hb & Hwr);
      [apply (bool_decide_unpack _); vm_compute; exact I|vm_compute; reflexivity|discriminate
      |discriminate|vm_compute; reflexivity|repeat constructor; discriminate|].
    exists s', s'', ax. split; [exact Hr|]. split; [rewrite Hw; vm_compute; reflexivity|].
    split; [exact Hb|]. split; [exact Hax|exact Hwr].
Defined.

Lemma qt_signals_delivered_witness :
  exists u', seq_all (map (@readyRead _ _ _ _ _
        (QtSignalSubscriber.quiet_host QtSignalSubscriber.ex_slot QtSignalSubscriber.ex_slot_a))
      (map paper_bring ex_answer)) QtSignalSubscriber.ex_subscriber = (Ret tt, u') /\
    QtSignalSubscriber.world u' = [(2%nat, str_of "hi"); (1%nat, str_of "hi")].
Proof.
  destruct (qt_signals_delivered QtSignalSubscriber.ex_slot QtSignalSubscriber.ex_slot_a
    (QtSignalSender.setConfig (Some (str_of "app")) (Some (str_of "sig"))
       (QtSignalSender.__init__ (Q:=paper_socket) (T:=bool) None None).2).2
    QtSignalSubscriber.ex_subscriber [str_of "hi"] [bytes_of "hi"] (bytes_of "app-sig")
    Paper_takes_all) as (bodies & x & s' & _ & _ & _ & _ & Hu);
    [reflexivity|reflexivity|reflexivity| | |vm_compute; reflexivity|reflexivity|reflexivity
    |vm_compute; reflexivity| |].
  - apply (bool_decide_unpack _). vm_compute. exact I.
  - apply (bool_decide_unpack _). vm_compute. exact I.
  - repeat constructor; discriminate.
  - destruct (Hu (map paper_bring ex_answer) ex_answer) as (u' & Hr & Hw);
    [apply (bool_decide_unpack _); vm_compute; exact I
    |apply (bool_decide_unpack _); vm_compute; exact I
    |vm_compute; reflexivity|repeat constructor; discriminate|].
    exists u'. split; [exact Hr|]. rewrite Hw. vm_compute. reflexivity.
Defined.
