(* ===== verification/QtNestedQueries.v ===== *)
(** * Nested calls of the PyQt [query_l]

    While [query_l] waits, its event loop handles whatever comes, and that may be a
    call of [query_l] again: a button, a timer. [later_query] is such an event. The
    closures of both activations are connected to the same signal, and neither
    can tell whose answer it is called with. *)

From S2P Require Export QtOpenSocketQuerier.

Section nested.
Context {Q T U W : Type} `{QtLaws Q T}.
Context (app : U -> pystr -> W -> W) (app_a : U -> bytes -> W -> W).
Implicit Types s : querier Q T U W.

#[local] Hint Extern 0 (QtHost _ _ _ _) => exact (quiet_host app app_a) : typeclass_instances.
#[local] Hint Extern 0 (QuietQt _ _ _ _) => exact (querier_quiet app app_a) : typeclass_instances.

(** A query that an event makes, and what the program does with its result. *)
Definition later_query (keep : pystr -> W -> W) (d : pystr)
    (events : list (M (querier Q T U W) unit)) : M (querier Q T U W) unit :=
  let! text := query_l (quiet_user app) (quiet_user_a app_a) d events in
  modify (fun s => set_world (keep text (world s)) s).

(** ** Lemmas *)

(** One packet with one message. *)
Lemma one_packet f c m text s :
  brings f c -> buffer (KLquerier s) = [] -> frame m = Some c -> valid_body m = true ->
  m <> HEARTBEAT_RESPONSE -> utf8_decode m = Some text ->
  exists t, readyRead f s =
      (Ret tt, set_KLquerier t (deliver_slots (receivedData (KLquerier s)) (Data m) s)) /\
    buffer t = [] /\ receivedData t = receivedData (KLquerier s).
Proof.
  intros Hf Hb Hx Hv Hhb Hd.
  assert (parse (buffer (KLquerier s) ++ c) = Parsed [m] [] None) as Hp.
  { rewrite Hb, <- (app_nil_r (_ ++ _)), (parse_frames [m]);
      [|by repeat constructor|simpl; by rewrite Hx, app_nil_r].
    unfold prepend. simpl. done. }
  assert (payloads [m] = [m]) as Hpay.
  { apply payloads_all, not_elem_of_cons. split; [done|apply not_elem_of_nil]. }
  destruct (readyRead_progress f c s Hf) as (s' & Hs' & Hpr).
  { change (client s) with (KLquerier s). rewrite Hp. simpl. rewrite Hpay.
    constructor; [by exists text|done]. }
  pose proof (progress_exact c s s' (NoArgs_ignored app app_a) Hpr) as He.
  pose proof (pr_buffer _ _ _ Hpr) as Hbuf. pose proof (pr_slots _ _ _ Hpr) as Hsl.
  change (client s) with (KLquerier s) in He, Hbuf, Hsl.
  rewrite Hp in He, Hbuf. simpl in He, Hbuf. rewrite Hpay in He.
  exists (KLquerier s'). rewrite Hs'. split; [|done]. f_equal. exact He.
Qed.

(** What the slots of two waiting activations do with a message. *)
Lemma deliver_both i j m text s ci cj :
  i <> j -> lock s = true -> utf8_decode m = Some text ->
  calls s !! i = Some ci -> calls s !! j = Some cj ->
  exists cs,
    deliver_slots [DataRecv; OnDataReceived i; OnDataReceived j] (Data m) s =
      set_lock false (set_calls cs s) /\
    cs !! i = Some (text, true) /\ cs !! j = Some (text, true).
Proof.
  intros Hij Hl Hd Hi Hj. unfold deliver_slots. simpl. unfold deliver_back, deliver_result.
  rewrite Hl, Hd.
  exists (alter (fun _ => (text, true)) j (alter (fun _ => (text, true)) i (calls s))).
  split; [reflexivity|]. split.
  - by rewrite list_lookup_alter_ne, list_lookup_alter_eq, Hi by done.
  - by rewrite list_lookup_alter_eq, list_lookup_alter_ne, Hj by done.
Qed.

(** An activation whose loop ends with the first event. *)
Lemma query_l_event d body x e s s3 text :
  state (tcpSocket (KLquerier s)) = ConnectedState ->
  request s d = Some body -> len body <= MAX_MSG_SIZE -> frame body = Some x ->
  e (waiting x s) = (Ret tt, s3) -> calls s3 !! length (calls s) = Some (text, true) ->
  query_l (quiet_user app) (quiet_user_a app_a) d [e] s =
    (Ret text, set_KLquerier (set_receivedData
       (filter (fun h => h <> OnDataReceived (length (calls s)))
          (receivedData (KLquerier s3))) (KLquerier s3)) s3).
Proof.
  intros Hst Hbody Hlen Hx He Hc. rewrite (query_l_start app app_a d body x) by done.
  assert (quit_called (length (calls s)) (waiting x s) = (Ret false, waiting x s)) as Hwait
    by (unfold quit_called, gets; simpl; by rewrite lookup_app_r, Nat.sub_diag by done).
  assert (exec_ (quit_called (length (calls s))) [e] (waiting x s) = (Ret tt, s3)) as Hexec.
  { etrans; [apply (exec_wait _ _ _ _ Hwait)|]. rewrite (bind_Ret _ _ _ _ _ He).
    apply exec_quit. unfold quit_called, gets. by rewrite Hc. }
  rewrite (bind_Ret _ _ _ _ _ Hexec). unfold disconnect_slot.
  rewrite (bind_Ret _ _ _ _ _ (qt_on_tcp_modify _ s3)). unfold gets. simpl. by rewrite Hc.
Qed.

End nested.

(** ** The property *)

(** C38: Two nested queries get the same answer. When a query is made while another
    one waits, the first message that comes is the result of both: the closures
    of both take it, and both loops end, though only one answer has come. Each
    caller gets the text of that message, whichever request it answers; the
    answer that comes second is for nobody and reaches the slots of [dataBack_a]
    and [dataBack], as if the service had sent it unasked. *)
Theorem qt_nested_queries {Q T U W : Type} `{QtLaws Q T}
    (app : U -> pystr -> W -> W) (app_a : U -> bytes -> W -> W) (keep : pystr -> W -> W)
    (s : querier Q T U W) d1 d2 b1 b2 x1 x2 f c m text f' c' m' text' :
  receivedData (KLquerier s) = [DataRecv] -> buffer (KLquerier s) = [] ->
  state (tcpSocket (KLquerier s)) = ConnectedState ->
  request s d1 = Some b1 -> len b1 <= MAX_MSG_SIZE -> frame b1 = Some x1 ->
  request s d2 = Some b2 -> len b2 <= MAX_MSG_SIZE -> frame b2 = Some x2 ->
  brings f c -> frame m = Some c -> valid_body m = true -> m <> HEARTBEAT_RESPONSE ->
  utf8_decode m = Some text ->
  brings f' c' -> frame m' = Some c' -> valid_body m' = true -> m' <> HEARTBEAT_RESPONSE ->
  utf8_decode m' = Some text' ->
  exists s' s'',
    query_l (quiet_user app) (quiet_user_a app_a) d1
      [later_query app app_a keep d2 [@readyRead _ _ _ _ _ (quiet_host app app_a) f]] s =
      (Ret text, s') /\
    world s' = keep text (world s) /\ lock s' = false /\
    @readyRead _ _ _ _ _ (quiet_host app app_a) f' s' = (Ret tt, s'') /\
    world s'' = world_after app app_a (dataBack s) (dataBack_a s) m' text' (world s').
Proof.
  intros Hsl Hb Hst Hr1 Hl1 Hx1 Hr2 Hl2 Hx2 Hf Hc Hv Hhb Hd Hf' Hc' Hv' Hhb' Hd'.
  set (i := length (calls s)). set (s1 := waiting x1 s). set (s2 := waiting x2 s1).
  assert (length (calls s1) = S i) as Hj by (unfold s1; simpl; rewrite length_app; simpl; lia).
  assert (calls s2 = calls s ++ [([], false); ([], false)]) as Hcalls
    by by unfold s2, s1; simpl; rewrite <- app_assoc.
  assert (calls s2 !! i = Some ([], false)) as Hci
    by by rewrite Hcalls, lookup_app_r, Nat.sub_diag.
  assert (calls s2 !! S i = Some ([], false)) as Hcj.
  { rewrite Hcalls, lookup_app_r by (unfold i; lia). unfold i. by rewrite Nat.sub_succ_l, Nat.sub_diag. }
  (* the packet reaches both closures *)
  destruct (one_packet app app_a f c m text s2) as (t & Hrd & Hbt & Hslt); try done.
  assert (receivedData (KLquerier s2) = [DataRecv; OnDataReceived i; OnDataReceived (S i)])
    as Hsl2 by (unfold s2, s1; simpl; by rewrite Hsl, length_app, Nat.add_1_r).
  destruct (deliver_both app app_a i (S i) m text s2 ([], false) ([], false))
    as (cs & Hcs & Hi & Hj'); try done.
  rewrite Hsl2, Hcs in Hrd.
  set (s3 := set_KLquerier t (set_lock false (set_calls cs s2))) in Hrd.
  (* the inner query, and what is done with its result *)
  pose proof (query_l_event app app_a d2 b2 x2
    (@readyRead _ _ _ _ _ (quiet_host app app_a) f) s1 s3 text) as Hq2.
  rewrite Hj in Hq2. specialize (Hq2 ltac:(unfold s1; simpl; by rewrite state_write)
    Hr2 Hl2 Hx2 Hrd Hj').
  set (s4 := set_KLquerier _ s3) in Hq2. set (s5 := set_world (keep text (world s4)) s4).
  assert (later_query app app_a keep d2 [@readyRead _ _ _ _ _ (quiet_host app app_a) f] s1 =
    (Ret tt, s5)) as Hlater by by unfold later_query; rewrite (bind_Ret _ _ _ _ _ Hq2).
  (* the outer query *)
  rewrite (query_l_event app app_a d1 b1 x1 _ s s5 text) by done.
  set (s6 := set_KLquerier _ s5).
  assert (receivedData (KLquerier s6) = [DataRecv]) as Hsl6.
  { unfold s6, s5, s4. simpl. rewrite Hslt, Hsl2, !list_filter_filter.
    rewrite filter_cons_True by done.
    rewrite filter_cons_False by (intros []; done).
    by rewrite filter_cons_False by (intros []; done). }
  destruct (one_packet app app_a f' c' m' text' s6) as (t' & Hrd' & _); try done.
  eexists s6, _. do 3 (split; [done|]). split; [exact Hrd'|].
  rewrite Hsl6. unfold deliver_slots. simpl. unfold deliver_back. simpl. by rewrite Hd'.
Qed.

(** ** Witnesses *)

Definition ex_keep (text : pystr) (w : list (nat * pystr)) : list (nat * pystr) :=
  w ++ [(99%nat, text)].

(** The answers are those to [A] and to [B]; both callers get [1]. *)
Lemma qt_nested_queries_witness :
  exists s' s'',
    query_l (quiet_user ex_slot) (quiet_user_a ex_slot_a) (str_of "A")
      [later_query ex_slot ex_slot_a ex_keep (str_of "B")
         [@readyRead _ _ _ _ _ (quiet_host ex_slot ex_slot_a)
            (paper_bring (MAGIC ++ [x00; x00; x00; x01; x31]))]] ex_querier =
      (Ret (str_of "1"), s') /\
    world s' = [(99%nat, str_of "1")] /\ lock s' = false /\
    @readyRead _ _ _ _ _ (quiet_host ex_slot ex_slot_a)
      (paper_bring (MAGIC ++ [x00; x00; x00; x01; x32])) s' = (Ret tt, s'') /\
    world s'' = [(99%nat, str_of "1"); (2%nat, str_of "2"); (1%nat, str_of "2")].
Proof.
  destruct (qt_nested_queries ex_slot ex_slot_a ex_keep ex_querier (str_of "A") (str_of "B")
    (bytes_of "app-sock&*&A") (bytes_of "app-sock&*&B")
    (MAGIC ++ [x00; x00; x00; x0c] ++ bytes_of "app-sock&*&A")
    (MAGIC ++ [x00; x00; x00; x0c] ++ bytes_of "app-sock&*&B")
    (paper_bring (MAGIC ++ [x00; x00; x00; x01; x31])) (MAGIC ++ [x00; x00; x00; x01; x31])
    [x31] (str_of "1")
    (paper_bring (MAGIC ++ [x00; x00; x00; x01; x32])) (MAGIC ++ [x00; x00; x00; x01; x32])
    [x32] (str_of "2")) as (s' & s'' & Hq & Hw & Hl & Hr & Hw');
    [reflexivity|reflexivity|reflexivity
    |reflexivity|vm_compute; discriminate|reflexivity
    |reflexivity|vm_compute; discriminate|reflexivity
    |by apply paper_brings|reflexivity|reflexivity|discriminate|reflexivity
    |by apply paper_brings|reflexivity|reflexivity|discriminate|reflexivity|].
  exists s', s''. split; [exact Hq|]. split; [by rewrite Hw|]. split; [exact Hl|].
  split; [exact Hr|]. rewrite Hw', Hw. reflexivity.
Defined.
